(** * Rockchip RK3399 VPU H.264 decoder: auxiliary-table assembly

    A shallow embedding of the per-frame code of the RK3399 H.264 decoder
    back end (bit-field writer, RPS and PPS assemblers, scaling-list
    reorderer, register builder), with the properties claimed about it,
    followed by its entry points ([rk3399_vdec_h264_init],
    [rk3399_vdec_h264_run]), the job handling of the driver core
    ([device_run], [rockchip_vpu_job_finish], the interrupt and watchdog
    paths) and the V4L2 side of the driver (format table look-up and
    enumeration, format negotiation, queue set-up and buffer checks,
    sequence numbering).  Calls into the kernel frameworks are recorded as
    traces; what they return is an input of the embedded function.

    Conventions.  C integers are modelled as [Z] with the wrap-around of
    their width written out.  The kernel is built with wrapping signed
    arithmetic, so an [int] expression whose result is stored in a [u32] is
    computed modulo [2^32]; a shift whose count is not smaller than the
    width of its left operand has no defined result and is modelled as
    [None].  An array of [u32] is a [list Z]; a pointer into an array is the
    suffix of the array starting at the pointee. *)

From Stdlib Require Import ZArith Lia List Bool.
From stdpp Require Import base option list.

Local Open Scope Z_scope.

(** ** Machine integers *)

Module CInt.

Definition u8 (z : Z) : Z := z mod 2 ^ 8.
Definition u16 (z : Z) : Z := z mod 2 ^ 16.
Definition u32 (z : Z) : Z := z mod 2 ^ 32.

Definition is_u8 (z : Z) : Prop := 0 <= z < 2 ^ 8.
Definition is_u16 (z : Z) : Prop := 0 <= z < 2 ^ 16.
Definition is_u32 (z : Z) : Prop := 0 <= z < 2 ^ 32.

Definition add32 (a b : Z) : Z := u32 (a + b).
Definition sub32 (a b : Z) : Z := u32 (a - b).
Definition mul32 (a b : Z) : Z := u32 (a * b).
Definition not32 (a : Z) : Z := u32 (Z.lnot a).

(** [a << n] and [a >> n] on 32-bit operands: undefined when the count
    reaches the width. *)
Definition shl32 (a n : Z) : option Z :=
  if decide (0 <= n < 32) then Some (u32 (Z.shiftl a n)) else None.

Definition shr32 (a n : Z) : option Z :=
  if decide (0 <= n < 32) then Some (Z.shiftr a n) else None.

End CInt.

Import CInt.

(** ** The bit-field writer *)

Module BitField.

(** [buffer[word]] as an rvalue and as an lvalue; an access outside the
    array has no defined result. *)
Definition load (buffer : list Z) (word : Z) : option Z :=
  buffer !! Z.to_nat word.

Definition store (buffer : list Z) (word : Z) (v : Z) : option (list Z) :=
  if decide (Z.to_nat word < length buffer)%nat
  then Some (<[Z.to_nat word := v]> buffer)
  else None.

(** [buffer[word] &= m] and [buffer[word] |= v]. *)
Definition and_assign (buffer : list Z) (word m : Z) : option (list Z) :=
  w ← load buffer word; store buffer word (Z.land w m).

Definition or_assign (buffer : list Z) (word v : Z) : option (list Z) :=
  w ← load buffer word; store buffer word (Z.lor w v).

Definition write_header (value : Z) (buffer : list Z) (offset len : Z)
  : option (list Z) :=
  let word := offset / 32 in
  let bit := offset mod 32 in
  if decide (add32 len bit > 32) then
    let len1 := sub32 32 bit in
    let len2 := sub32 (add32 len bit) 32 in
    one1 ← shl32 1 len1;
    mask1 ← shl32 (sub32 one1 1) bit;
    buffer ← and_assign buffer word (not32 mask1);
    v1 ← shl32 value bit;
    buffer ← or_assign buffer word v1;
    value ← shr32 value (sub32 32 bit);
    one2 ← shl32 1 len2;
    buffer ← and_assign buffer (add32 word 1) (not32 (sub32 one2 1));
    or_assign buffer (add32 word 1) value
  else
    one ← shl32 1 len;
    mask ← shl32 (sub32 one 1) bit;
    buffer ← and_assign buffer word (not32 mask);
    v ← shl32 value bit;
    or_assign buffer word v.

(** The buffer seen as a little-endian bit stream of 32-bit words: bit [k]
    of the stream is bit [k mod 32] of word [k / 32]. *)
Definition buf_bit (buffer : list Z) (k : Z) : bool :=
  match buffer !! Z.to_nat (k / 32) with
  | Some w => Z.testbit w (k mod 32)
  | None => false
  end.

(** Reading the [len]-bit field that starts at bit [offset]. *)
Fixpoint read_bits (buffer : list Z) (offset : Z) (len : nat) : Z :=
  match len with
  | O => 0
  | S n => 2 * read_bits buffer (offset + 1) n + Z.b2z (buf_bit buffer offset)
  end.

Definition read_field (buffer : list Z) (offset len : Z) : Z :=
  read_bits buffer offset (Z.to_nat len).

(** The word a one-word write leaves, and the second word a straddling
    write leaves: the field is cleared, then the shifted value is or-ed
    in. *)
Definition field_word (w value bit len : Z) : Z :=
  Z.lor (Z.land w (not32 (u32 (Z.shiftl (Z.ones len) bit))))
        (u32 (Z.shiftl value bit)).

Definition tail_word (w value len1 len2 : Z) : Z :=
  Z.lor (Z.land w (not32 (Z.ones len2))) (Z.shiftr value len1).

(** The calls whose shifts are all defined: a field of 1 to 32 bits, except
    the word-aligned 32-bit one, which evaluates [1 << 32]. *)
Definition field_defined (offset len : Z) : Prop :=
  0 <= offset < 2 ^ 32 /\ 1 <= len <= 32 /\ ~ (len = 32 /\ offset mod 32 = 0).

(** The words the field lies in belong to the buffer. *)
Definition field_inside (buffer : list Z) (offset len : Z) : Prop :=
  (offset + len - 1) / 32 < Z.of_nat (length buffer).

(** The call stores the low [len] bits of [value] in the field and changes
    no other bit of the buffer. *)
Definition field_written (value : Z) (buffer : list Z) (offset len : Z) : Prop :=
  exists buffer',
    write_header value buffer offset len = Some buffer' /\
    (forall k, offset <= k < offset + len ->
               buf_bit buffer' k = Z.testbit value (k - offset)) /\
    (forall k, 0 <= k -> ~ (offset <= k < offset + len) ->
               buf_bit buffer' k = buf_bit buffer k).

End BitField.

Import BitField.

(** ** Control structures and memory primitives *)

(** [for (i = first; i < first + n; i++) body], where an iteration may have
    no defined result. *)
Fixpoint for_loop {St : Type} (n : nat) (i : Z) (body : Z -> St -> option St)
  (s : St) : option St :=
  match n with
  | O => Some s
  | S n' => s' ← body i s; for_loop n' (i + 1) body s'
  end.

(** [memset(buffer, 0, 4 * n)] on an array of words. *)
Definition memset_words (buffer : list Z) (n : nat) : option (list Z) :=
  if decide (n <= length buffer)%nat
  then Some (replicate n 0 ++ drop n buffer)
  else None.

(** [p[i] = v] and [p[i]] for a [u16 *p] that aliases the word array.  The
    SoC is little-endian: half-word [i] is the low half of word [i / 2] when
    [i] is even and its high half when [i] is odd. *)
Definition store_u16 (buffer : list Z) (i v : Z) : option (list Z) :=
  w ← load buffer (i / 2);
  store buffer (i / 2)
    (if Z.even i
     then Z.lor (Z.land w 0xFFFF0000) (u16 v)
     else Z.lor (Z.land w 0x0000FFFF) (Z.shiftl (u16 v) 16)).

Definition load_u16 (buffer : list Z) (i : Z) : option Z :=
  w ← load buffer (i / 2);
  Some (if Z.even i then Z.land w 0xFFFF else Z.land (Z.shiftr w 16) 0xFFFF).

(** Byte [m] of the word array, in the same byte order. *)
Definition load_u8 (buffer : list Z) (m : Z) : option Z :=
  w ← load buffer (m / 4);
  Some (Z.land (Z.shiftr w (8 * (m mod 4))) 0xFF).

(** ** Declarations the code relies on *)

(** The V4L2 H.264 controls (uAPI structures), with the members the decoder
    reads.  Array members are lists; their C types fix their lengths and the
    range of their elements, recorded by the [wf_] predicates below. *)
Record v4l2_h264_dpb_entry := {
  reference_ts : Z;
  frame_num : Z;
  pic_num : Z;
  top_field_order_cnt : Z;
  bottom_field_order_cnt : Z;
  dpb_flags : Z
}.

Record v4l2_ctrl_h264_decode_params := {
  dec_top_field_order_cnt : Z;
  dec_bottom_field_order_cnt : Z;
  ref_pic_list_p0 : list Z;
  ref_pic_list_b0 : list Z;
  ref_pic_list_b1 : list Z;
  dpb : list v4l2_h264_dpb_entry
}.

Record v4l2_ctrl_h264_sps := {
  chroma_format_idc : Z;
  bit_depth_luma_minus8 : Z;
  bit_depth_chroma_minus8 : Z;
  log2_max_frame_num_minus4 : Z;
  max_num_ref_frames : Z;
  pic_order_cnt_type : Z;
  log2_max_pic_order_cnt_lsb_minus4 : Z;
  pic_width_in_mbs_minus1 : Z;
  pic_height_in_map_units_minus1 : Z;
  sps_flags : Z
}.

Record v4l2_ctrl_h264_pps := {
  pic_parameter_set_id : Z;
  num_ref_idx_l0_default_active_minus1 : Z;
  num_ref_idx_l1_default_active_minus1 : Z;
  weighted_bipred_idc : Z;
  pic_init_qp_minus26 : Z;
  pic_init_qs_minus26 : Z;
  chroma_qp_index_offset : Z;
  second_chroma_qp_index_offset : Z;
  pps_flags : Z
}.

Record v4l2_ctrl_h264_scaling_matrix := {
  scaling_list_4x4 : list (list Z);
  scaling_list_8x8 : list (list Z)
}.

#[global] Instance v4l2_h264_dpb_entry_inhabited : Inhabited v4l2_h264_dpb_entry :=
  populate {| reference_ts := 0; frame_num := 0; pic_num := 0;
              top_field_order_cnt := 0; bottom_field_order_cnt := 0;
              dpb_flags := 0 |}.

(** The flag masks of the uAPI header, which is not among the sources: the
    code is read for any value of them. *)
Class v4l2_h264_flags := {
  V4L2_H264_DPB_ENTRY_FLAG_ACTIVE : Z;
  V4L2_H264_DPB_ENTRY_FLAG_LONG_TERM : Z;
  V4L2_H264_SPS_FLAG_DELTA_PIC_ORDER_ALWAYS_ZERO : Z;
  V4L2_H264_SPS_FLAG_FRAME_MBS_ONLY : Z;
  V4L2_H264_SPS_FLAG_MB_ADAPTIVE_FRAME_FIELD : Z;
  V4L2_H264_SPS_FLAG_DIRECT_8X8_INFERENCE : Z;
  V4L2_H264_PPS_FLAG_ENTROPY_CODING_MODE : Z;
  V4L2_H264_PPS_FLAG_BOTTOM_FIELD_PIC_ORDER_IN_FRAME_PRESENT : Z;
  V4L2_H264_PPS_FLAG_WEIGHTED_PRED : Z;
  V4L2_H264_PPS_FLAG_DEBLOCKING_FILTER_CONTROL_PRESENT : Z;
  V4L2_H264_PPS_FLAG_CONSTRAINED_INTRA_PRED : Z;
  V4L2_H264_PPS_FLAG_REDUNDANT_PIC_CNT_PRESENT : Z;
  V4L2_H264_PPS_FLAG_TRANSFORM_8X8_MODE : Z
}.

(** The fields of the hardware SPS/PPS packet written through [WRITE_PPS]. *)
Inductive ps_field :=
  | CHROMA_FORMAT_IDC
  | BIT_DEPTH_LUMA
  | BIT_DEPTH_CHROMA
  | QPPRIME_Y_ZERO_TRANSFORM_BYPASS_FLAG
  | LOG2_MAX_FRAME_NUM_MINUS4
  | MAX_NUM_REF_FRAMES
  | PIC_ORDER_CNT_TYPE
  | LOG2_MAX_PIC_ORDER_CNT_LSB_MINUS4
  | DELTA_PIC_ORDER_ALWAYS_ZERO_FLAG
  | PIC_WIDTH_IN_MBS
  | PIC_HEIGHT_IN_MBS
  | FRAME_MBS_ONLY_FLAG
  | MB_ADAPTIVE_FRAME_FIELD_FLAG
  | DIRECT_8X8_INFERENCE_FLAG
  | ENTROPY_CODING_MODE_FLAG
  | BOTTOM_FIELD_PIC_ORDER_IN_FRAME_PRESENT_FLAG
  | NUM_REF_IDX_L0_DEFAULT_ACTIVE_MINUS1
  | NUM_REF_IDX_L1_DEFAULT_ACTIVE_MINUS1
  | WEIGHTED_PRED_FLAG
  | WEIGHTED_BIPRED_IDC
  | PIC_INIT_QP_MINUS26
  | PIC_INIT_QS_MINUS26
  | CHROMA_QP_INDEX_OFFSET
  | DEBLOCKING_FILTER_CONTROL_PRESENT_FLAG
  | CONSTRAINED_INTRA_PRED_FLAG
  | REDUNDANT_PIC_CNT_PRESENT
  | TRANSFORM_8X8_MODE_FLAG
  | SECOND_CHROMA_QP_INDEX_OFFSET
  | SCALING_LIST_ENABLE_FLAG
  | SCALING_LIST_ADDRESS.

(** The table layout and register-field macros of [rk3399_vdec_regs.h],
    which is not among the sources: [FIELD_OFF f] and [FIELD_LEN f] stand
    for [f ## _OFF] and [f ## _LEN].  The code is read for any value of
    them; what a property needs of the layout is stated where it is used. *)
Class rk3399_vdec_regs := {
  FIELD_OFF : ps_field -> Z;
  FIELD_LEN : ps_field -> Z;
  IS_LONG_TERM_OFF : Z -> Z;
  IS_LONG_TERM_LEN : Z;
  DPB_INFO_OFF : Z -> Z -> Z;
  DPB_INFO_LEN : Z;
  RKVDEC_MODE : Z -> Z;
  RKVDEC_MODE_H264 : Z;
  RKVDEC_Y_HOR_VIRSTRIDE : Z -> Z;
  RKVDEC_UV_HOR_VIRSTRIDE : Z -> Z;
  RKVDEC_SLICE_NUM_HIGHBIT : Z;
  RKVDEC_SLICE_NUM_LOWBITS : Z -> Z;
  RKVDEC_STRM_LEN : Z -> Z;
  RKVDEC_Y_VIRSTRIDE : Z -> Z;
  RKVDEC_YUV_VIRSTRIDE : Z -> Z;
  RKVDEC_COLMV_USED_FLAG_REF : Z;
  RKVDEC_TOPFIELD_USED_REF : Z;
  RKVDEC_BOTFIELD_USED_REF : Z;
  RKVDEC_CUR_POC : Z -> Z;
  RKVDEC_AXI_DDR_RDATA : Z -> Z;
  RKVDEC_AXI_DDR_WDATA : Z -> Z;
  RKVDEC_REG_SYSCTRL : Z;
  RKVDEC_REG_PICPAR : Z;
  RKVDEC_REG_STRM_RLC_BASE : Z;
  RKVDEC_REG_STRM_LEN : Z;
  RKVDEC_REG_CABACTBL_PROB_BASE : Z;
  RKVDEC_REG_DECOUT_BASE : Z;
  RKVDEC_REG_Y_VIRSTRIDE : Z;
  RKVDEC_REG_YUV_VIRSTRIDE : Z;
  RKVDEC_REG_H264_BASE_REFER : Z -> Z;
  RKVDEC_REG_H264_BASE_REFER15 : Z;
  RKVDEC_REG_H264_POC_REFER0 : Z -> Z;
  RKVDEC_REG_H264_POC_REFER1 : Z -> Z;
  RKVDEC_REG_H264_POC_REFER2 : Z -> Z;
  RKVDEC_REG_CUR_POC0 : Z;
  RKVDEC_REG_CUR_POC1 : Z;
  RKVDEC_REG_PPS_BASE : Z;
  RKVDEC_REG_RPS_BASE : Z;
  RKVDEC_REG_AXI_DDR_RDATA : Z;
  RKVDEC_REG_AXI_DDR_WDATA : Z;
  RKVDEC_REG_H264_ERRINFO_BASE : Z
}.

(** ** The auxiliary buffer *)

(** Sizes of the regions of [struct rk3399_vdec_h264_priv_tbl], in bytes. *)
Definition RKV_CABAC_INIT_BUFFER_SIZE : Z := 3680 + 128.
Definition RKV_RPS_SIZE : Z := 128 + 128.
Definition RKV_SCALING_LIST_SIZE : Z := 6 * 16 + 6 * 64 + 128.
Definition RKV_ERROR_INFO_SIZE : Z := 256 * 144 * 4.

(** [offsetof(struct rk3399_vdec_h264_priv_tbl, member)]: the members are
    byte arrays, laid out one after the other. *)
Definition offsetof_cabac_table : Z := 0.
Definition offsetof_scaling_list : Z := RKV_CABAC_INIT_BUFFER_SIZE.
Definition offsetof_rps : Z := offsetof_scaling_list + RKV_SCALING_LIST_SIZE.
Definition offsetof_param_set : Z := offsetof_rps + RKV_RPS_SIZE.
Definition offsetof_err_info : Z := offsetof_param_set + 256 * 32.

(** [ARRAY_SIZE(dec_param->dpb)]: the DPB has sixteen entries, the ones the
    loops over [dpb[i]] visit. *)
Definition dpb_array_size : Z := 16.

(** ** The RPS assembler *)

Section Rps.
Context `{v4l2_h264_flags} `{rk3399_vdec_regs}.

(** [dpb[i].flags & V4L2_H264_DPB_ENTRY_FLAG_ACTIVE], as a truth value. *)
Definition dpb_active (dpb : list v4l2_h264_dpb_entry) (i : Z) : bool :=
  negb (Z.land (dpb_flags (dpb !!! Z.to_nat i)) V4L2_H264_DPB_ENTRY_FLAG_ACTIVE =? 0).

(** [(dpb[i].flags & V4L2_H264_DPB_ENTRY_FLAG_ACTIVE) ? dpb[i].pic_num : 0xff] *)
Definition rps_pic_num (dpb : list v4l2_h264_dpb_entry) (i : Z) : Z :=
  if dpb_active dpb i then pic_num (dpb !!! Z.to_nat i) else 0xff.

(** First loop: the pic_num table. *)
Definition rps_pic_nums (dpb : list v4l2_h264_dpb_entry) (p : list Z)
  : option (list Z) :=
  for_loop 16 0 (fun i p => store_u16 p i (rps_pic_num dpb i)) p.

(** The [switch (j)] that selects the reference list, and the [u8]
    variable [idx] it assigns. *)
Definition ref_pic_list_entry (dec_param : v4l2_ctrl_h264_decode_params)
  (j i : Z) : Z :=
  if j =? 0 then ref_pic_list_p0 dec_param !!! Z.to_nat i
  else if j =? 1 then ref_pic_list_b0 dec_param !!! Z.to_nat i
  else if j =? 2 then ref_pic_list_b1 dec_param !!! Z.to_nat i
  else 0.

Definition ref_pic_list_idx (dec_param : v4l2_ctrl_h264_decode_params)
  (j i : Z) : Z :=
  u8 (ref_pic_list_entry dec_param j i).

(** [idx | dpb_valid << 4]. *)
Definition dpb_info_value (dec_param : v4l2_ctrl_h264_decode_params)
  (idx : Z) : Z :=
  let dpb_valid := if dpb_active (dpb dec_param) idx then 1 else 0 in
  Z.lor idx (Z.shiftl dpb_valid 4).

(** Second loop nest: the DPB-info fields of the three reference lists. *)
Definition rps_dpb_info (dec_param : v4l2_ctrl_h264_decode_params)
  (hw_rps : list Z) : option (list Z) :=
  for_loop 3 0
    (fun j =>
       for_loop 32 0
         (fun i hw_rps =>
            let idx := ref_pic_list_idx dec_param j i in
            if decide (idx >= dpb_array_size) then Some hw_rps
            else write_header (dpb_info_value dec_param idx) hw_rps
                              (DPB_INFO_OFF i j) DPB_INFO_LEN))
    hw_rps.

Definition assemble_hw_rps (dec_param : v4l2_ctrl_h264_decode_params)
  (hw_rps : list Z) : option (list Z) :=
  hw_rps ← memset_words hw_rps (Z.to_nat (RKV_RPS_SIZE / 4));
  hw_rps ← rps_pic_nums (dpb dec_param) hw_rps;
  rps_dpb_info dec_param hw_rps.

(** The calls of [write_header] made by the second loop nest, in order:
    reference list, position, value, bit offset, length. *)
Record dpb_info_write := {
  w_list : Z;
  w_pos : Z;
  w_value : Z;
  w_off : Z;
  w_len : Z
}.

Definition dpb_info_call (dec_param : v4l2_ctrl_h264_decode_params)
  (j i : Z) : option dpb_info_write :=
  let idx := ref_pic_list_idx dec_param j i in
  if decide (idx >= dpb_array_size) then None
  else Some {| w_list := j; w_pos := i;
               w_value := dpb_info_value dec_param idx;
               w_off := DPB_INFO_OFF i j; w_len := DPB_INFO_LEN |}.

(** The positions visited, list-major and position-minor. *)
Definition rps_positions : list (Z * Z) :=
  j ← seqZ 0 3; i ← seqZ 0 32; [(j, i)].

Definition rps_dpb_info_writes (dec_param : v4l2_ctrl_h264_decode_params)
  : list dpb_info_write :=
  omap (fun p => dpb_info_call dec_param p.1 p.2) rps_positions.

Fixpoint write_all (calls : list dpb_info_write) (buffer : list Z)
  : option (list Z) :=
  match calls with
  | [] => Some buffer
  | c :: calls =>
      buffer ← write_header (w_value c) buffer (w_off c) (w_len c);
      write_all calls buffer
  end.

(** A call that stores a value fitting its field, with defined shifts, in
    a buffer of [n] words. *)
Definition write_ok (n : nat) (c : dpb_info_write) : Prop :=
  0 <= w_value c < 2 ^ w_len c /\
  field_defined (w_off c) (w_len c) /\
  (w_off c + w_len c - 1) / 32 < Z.of_nat n.

(** Bit [k] lies outside the field of the call. *)
Definition outside_field (k : Z) (c : dpb_info_write) : Prop :=
  ~ (w_off c <= k < w_off c + w_len c).

(** What the properties of the RPS table need of the layout: a field holds
    the five bits of the packed value and is written with defined shifts;
    the fields lie in the region behind the sixteen pic_nums and do not
    overlap. *)
Definition rps_layout_ok : Prop :=
  5 <= DPB_INFO_LEN <= 32 /\
  (forall i j, 0 <= i < 32 -> 0 <= j < 3 ->
     16 * 16 <= DPB_INFO_OFF i j /\
     DPB_INFO_OFF i j + DPB_INFO_LEN <= 8 * RKV_RPS_SIZE /\
     ~ (DPB_INFO_LEN = 32 /\ DPB_INFO_OFF i j mod 32 = 0)) /\
  (forall i j i' j', 0 <= i < 32 -> 0 <= j < 3 -> 0 <= i' < 32 -> 0 <= j' < 3 ->
     (i, j) <> (i', j') ->
     DPB_INFO_OFF i j + DPB_INFO_LEN <= DPB_INFO_OFF i' j' \/
     DPB_INFO_OFF i' j' + DPB_INFO_LEN <= DPB_INFO_OFF i j).

End Rps.

(** The types of the decode parameters: sixteen DPB entries with 16-bit
    pic_nums and 32-bit flags, three lists of thirty-two bytes. *)
Definition wf_dpb_entry (e : v4l2_h264_dpb_entry) : Prop :=
  is_u16 (pic_num e) /\ is_u32 (dpb_flags e).

Definition wf_decode_params (dec_param : v4l2_ctrl_h264_decode_params) : Prop :=
  length (dpb dec_param) = 16%nat /\
  Forall wf_dpb_entry (dpb dec_param) /\
  length (ref_pic_list_p0 dec_param) = 32%nat /\
  length (ref_pic_list_b0 dec_param) = 32%nat /\
  length (ref_pic_list_b1 dec_param) = 32%nat /\
  Forall is_u8 (ref_pic_list_p0 dec_param) /\
  Forall is_u8 (ref_pic_list_b0 dec_param) /\
  Forall is_u8 (ref_pic_list_b1 dec_param).

(** ** The PPS assembler *)

Section Pps.
Context `{v4l2_h264_flags} `{rk3399_vdec_regs}.

(** [WRITE_PPS(value, field)]: the value is converted to the [u32]
    parameter of [write_header]. *)
Definition WRITE_PPS (value : Z) (field : ps_field) (hw_ps : list Z)
  : option (list Z) :=
  write_header (u32 value) hw_ps (FIELD_OFF field) (FIELD_LEN field).

(** The [WRITE_PPS] statements, in order. *)
Definition pps_fields (sps : v4l2_ctrl_h264_sps) (pps : v4l2_ctrl_h264_pps)
  (scaling_list_address : Z) : list (Z * ps_field) :=
  [ (* write sps *)
    (chroma_format_idc sps, CHROMA_FORMAT_IDC);
    (bit_depth_luma_minus8 sps + 8, BIT_DEPTH_LUMA);
    (bit_depth_chroma_minus8 sps + 8, BIT_DEPTH_CHROMA);
    (0, QPPRIME_Y_ZERO_TRANSFORM_BYPASS_FLAG);
    (log2_max_frame_num_minus4 sps, LOG2_MAX_FRAME_NUM_MINUS4);
    (max_num_ref_frames sps, MAX_NUM_REF_FRAMES);
    (pic_order_cnt_type sps, PIC_ORDER_CNT_TYPE);
    (log2_max_pic_order_cnt_lsb_minus4 sps, LOG2_MAX_PIC_ORDER_CNT_LSB_MINUS4);
    (Z.shiftr (Z.land (sps_flags sps)
                 V4L2_H264_SPS_FLAG_DELTA_PIC_ORDER_ALWAYS_ZERO) 2,
     DELTA_PIC_ORDER_ALWAYS_ZERO_FLAG);
    (pic_width_in_mbs_minus1 sps + 1, PIC_WIDTH_IN_MBS);
    (pic_height_in_map_units_minus1 sps + 1, PIC_HEIGHT_IN_MBS);
    (Z.shiftr (Z.land (sps_flags sps) V4L2_H264_SPS_FLAG_FRAME_MBS_ONLY) 4,
     FRAME_MBS_ONLY_FLAG);
    (Z.shiftr (Z.land (sps_flags sps)
                 V4L2_H264_SPS_FLAG_MB_ADAPTIVE_FRAME_FIELD) 5,
     MB_ADAPTIVE_FRAME_FIELD_FLAG);
    (Z.shiftr (Z.land (sps_flags sps)
                 V4L2_H264_SPS_FLAG_DIRECT_8X8_INFERENCE) 6,
     DIRECT_8X8_INFERENCE_FLAG);
    (* write pps *)
    (Z.land (pps_flags pps) V4L2_H264_PPS_FLAG_ENTROPY_CODING_MODE,
     ENTROPY_CODING_MODE_FLAG);
    (Z.shiftr (Z.land (pps_flags pps)
                 V4L2_H264_PPS_FLAG_BOTTOM_FIELD_PIC_ORDER_IN_FRAME_PRESENT) 1,
     BOTTOM_FIELD_PIC_ORDER_IN_FRAME_PRESENT_FLAG);
    (num_ref_idx_l0_default_active_minus1 pps,
     NUM_REF_IDX_L0_DEFAULT_ACTIVE_MINUS1);
    (num_ref_idx_l1_default_active_minus1 pps,
     NUM_REF_IDX_L1_DEFAULT_ACTIVE_MINUS1);
    (Z.shiftr (Z.land (pps_flags pps) V4L2_H264_PPS_FLAG_WEIGHTED_PRED) 2,
     WEIGHTED_PRED_FLAG);
    (weighted_bipred_idc pps, WEIGHTED_BIPRED_IDC);
    (pic_init_qp_minus26 pps, PIC_INIT_QP_MINUS26);
    (pic_init_qs_minus26 pps, PIC_INIT_QS_MINUS26);
    (chroma_qp_index_offset pps, CHROMA_QP_INDEX_OFFSET);
    (Z.shiftr (Z.land (pps_flags pps)
                 V4L2_H264_PPS_FLAG_DEBLOCKING_FILTER_CONTROL_PRESENT) 3,
     DEBLOCKING_FILTER_CONTROL_PRESENT_FLAG);
    (Z.shiftr (Z.land (pps_flags pps)
                 V4L2_H264_PPS_FLAG_CONSTRAINED_INTRA_PRED) 4,
     CONSTRAINED_INTRA_PRED_FLAG);
    (Z.shiftr (Z.land (pps_flags pps)
                 V4L2_H264_PPS_FLAG_REDUNDANT_PIC_CNT_PRESENT) 5,
     REDUNDANT_PIC_CNT_PRESENT);
    (Z.shiftr (Z.land (pps_flags pps) V4L2_H264_PPS_FLAG_TRANSFORM_8X8_MODE) 6,
     TRANSFORM_8X8_MODE_FLAG);
    (second_chroma_qp_index_offset pps, SECOND_CHROMA_QP_INDEX_OFFSET);
    (* always use the matrix sent from userspace *)
    (1, SCALING_LIST_ENABLE_FLAG);
    (scaling_list_address, SCALING_LIST_ADDRESS) ].

Fixpoint write_pps_fields (fields : list (Z * ps_field)) (hw_ps : list Z)
  : option (list Z) :=
  match fields with
  | [] => Some hw_ps
  | (value, field) :: fields =>
      hw_ps ← WRITE_PPS value field hw_ps; write_pps_fields fields hw_ps
  end.

(** Everything the function writes through [hw_ps] after the [memset]. *)
Definition pps_pack (priv_dma : Z) (sps : v4l2_ctrl_h264_sps)
  (pps : v4l2_ctrl_h264_pps) (dpb : list v4l2_h264_dpb_entry)
  (hw_ps : list Z) : option (list Z) :=
  let scaling_distance := offsetof_scaling_list in
  let scaling_list_address := priv_dma + scaling_distance in
  hw_ps ← write_pps_fields (pps_fields sps pps scaling_list_address) hw_ps;
  for_loop 16 0
    (fun i hw_ps =>
       write_header
         (if Z.land (dpb_flags (dpb !!! Z.to_nat i))
                    V4L2_H264_DPB_ENTRY_FLAG_LONG_TERM =? 0 then 0 else 1)
         hw_ps (IS_LONG_TERM_OFF i) IS_LONG_TERM_LEN)
    hw_ps.

(** [param_set] is the table of 256 packets of 32 bytes, as an array of
    words; [hw_ps = &param_set[pps->pic_parameter_set_id]] is its suffix
    from word [8 * id] on. *)
Definition assemble_hw_pps (priv_dma : Z) (sps : v4l2_ctrl_h264_sps)
  (pps : v4l2_ctrl_h264_pps) (dpb : list v4l2_h264_dpb_entry)
  (param_set : list Z) : option (list Z) :=
  let index := (8 * Z.to_nat (pic_parameter_set_id pps))%nat in
  let hw_ps := drop index param_set in
  hw_ps ← memset_words hw_ps 8;
  hw_ps ← pps_pack priv_dma sps pps dpb hw_ps;
  Some (take index param_set ++ hw_ps).

(** Packet [id] of the table. *)
Definition hw_sps_pps_packet (param_set : list Z) (id : Z) : list Z :=
  take 8 (drop (8 * Z.to_nat id) param_set).

(** What the properties of the table need of the layout: every field is
    written with defined shifts and lies in the 256 bits of a packet. *)
Definition packet_field (offset len : Z) : Prop :=
  field_defined offset len /\ offset + len <= 8 * 32.

Definition pps_layout_ok : Prop :=
  (forall f, packet_field (FIELD_OFF f) (FIELD_LEN f)) /\
  (forall i, 0 <= i < 16 -> packet_field (IS_LONG_TERM_OFF i) IS_LONG_TERM_LEN).

End Pps.

(** ** The scaling-list reorderer *)

Definition zig_zag_4x4 : list nat :=
  [0; 1; 4; 8; 5; 2; 3; 6; 9; 12; 13; 10; 7; 11; 14; 15]%nat.

Definition zig_zag_8x8 : list nat :=
  [0;  1;  8; 16;  9;  2;  3; 10; 17; 24; 32; 25; 18; 11;  4;  5;
   12; 19; 26; 33; 40; 48; 41; 34; 27; 20; 13;  6;  7; 14; 21; 28;
   35; 42; 49; 56; 57; 50; 43; 36; 29; 22; 15; 23; 30; 37; 44; 51;
   58; 59; 52; 45; 38; 31; 39; 46; 53; 60; 61; 54; 47; 55; 62; 63]%nat.

(** [for (i = first; i < first + n; ++i) body], for bodies that cannot
    fail. *)
Fixpoint for_range {St : Type} (n : nat) (i : nat) (body : nat -> St -> St)
  (s : St) : St :=
  match n with
  | O => s
  | S n' => for_range n' (S i) body (body i s)
  end.

(** The pointers [src] and [dst] of the function, as positions in the
    flattened source array and in the scaling-list region, and the region
    itself. *)
Record reorder_state := {
  src : nat;
  dst : nat;
  region : list Z
}.

(** One of the two loop nests: [num_list] lists of [list_len] bytes read
    from [from], each scattered through [zig_zag]. *)
Definition reorder_lists (zig_zag : list nat) (num_list list_len : nat)
  (from : list Z) (st : reorder_state) : reorder_state :=
  for_range num_list 0
    (fun _ st =>
       let region :=
         for_range list_len 0
           (fun j region =>
              <[(dst st + zig_zag !!! j)%nat := from !!! (src st + j)%nat]> region)
           (region st) in
       {| src := src st + list_len; dst := dst st + list_len; region := region |})
    st.

(** The array sizes of [struct v4l2_ctrl_h264_scaling_matrix]. *)
Definition num_list_4x4 : nat := 6.
Definition list_len_4x4 : nat := 16.
Definition num_list_8x8 : nat := 6.
Definition list_len_8x8 : nat := 64.

Definition reorder_scaling_list (scaling : v4l2_ctrl_h264_scaling_matrix)
  (scaling_list : list Z) : list Z :=
  let st := {| src := 0; dst := 0; region := scaling_list |} in
  (* src = &scaling->scaling_list_4x4[0][0] *)
  let st := reorder_lists zig_zag_4x4 num_list_4x4 list_len_4x4
              (concat (scaling_list_4x4 scaling)) st in
  (* src = &scaling->scaling_list_8x8[0][0] *)
  let st := {| src := 0; dst := dst st; region := region st |} in
  let st := reorder_lists zig_zag_8x8 num_list_8x8 list_len_8x8
              (concat (scaling_list_8x8 scaling)) st in
  region st.

(** A scan table that visits every position of a list once. *)
Definition scan_table (zig_zag : list nat) (n : nat) : Prop :=
  length zig_zag = n /\ NoDup zig_zag /\ Forall (fun x => (x < n)%nat) zig_zag.

Definition wf_scaling_matrix (scaling : v4l2_ctrl_h264_scaling_matrix) : Prop :=
  length (scaling_list_4x4 scaling) = num_list_4x4 /\
  Forall (fun l => length l = list_len_4x4) (scaling_list_4x4 scaling) /\
  length (scaling_list_8x8 scaling) = num_list_8x8 /\
  Forall (fun l => length l = list_len_8x8) (scaling_list_8x8 scaling).

(** Modelled from the spec: the driver has no function that puts a list in
    zig-zag order; the round-trip property names it as the inverse of the
    reorderer ("reordering a scaling list from raster order into zig-zag
    order").  A raster list is put in zig-zag order by reading it along the
    scan, the [j]-th coefficient of the scan being the one at raster
    position [zig_zag[j]]. *)
Definition raster_to_zig_zag (zig_zag : list nat) (raster : list Z) : list Z :=
  (fun k => raster !!! k) <$> zig_zag.

(** ** The register builder *)

(** Modelled from the spec: [round_up] is a macro of the kernel headers,
    which are not among the sources; the specification has it round its
    first argument up to a multiple of the second ("rounds the frame height
    up to a 16-pixel (macroblock) boundary").  The result is a [u32]. *)
Definition round_up (x y : Z) : Z := u32 ((x + y - 1) / y * y).

(** What [config_regs] reads outside its parameters: the destination
    format of the context, the address of the auxiliary buffer, the
    addresses and size of the source and destination buffers, and the
    picture store [rockchip_vpu_get_ref], which maps a reference timestamp
    to the address of its buffer, 0 when there is none. *)
Record decode_buffers := {
  dst_fmt_width : Z;
  dst_fmt_height : Z;
  priv_dma : Z;
  src_dma_addr : Z;
  src_plane_size : Z;
  dst_dma_addr : Z;
  rockchip_vpu_get_ref : Z -> Z
}.

(** The local variables [hor_virstride], [ver_virstride], [y_virstride] and
    [yuv_virstride]. *)
Record virstrides := {
  hor_virstride : Z;
  ver_virstride : Z;
  y_virstride : Z;
  yuv_virstride : Z
}.

Definition config_regs_virstrides (sps : v4l2_ctrl_h264_sps)
  (width height : Z) : virstrides :=
  let hor_virstride := mul32 (bit_depth_luma_minus8 sps + 8) width / 8 in
  let ver_virstride := round_up height 16 in
  let y_virstride := mul32 hor_virstride ver_virstride in
  let yuv_virstride :=
    if chroma_format_idc sps =? 0 then y_virstride
    else if chroma_format_idc sps =? 1
         then add32 0 (add32 y_virstride (y_virstride / 2))
    else if chroma_format_idc sps =? 2
         then add32 0 (mul32 2 y_virstride)
    else 0 in
  {| hor_virstride := hor_virstride; ver_virstride := ver_virstride;
     y_virstride := y_virstride; yuv_virstride := yuv_virstride |}.

Section Regs.
Context `{v4l2_h264_flags} `{rk3399_vdec_regs}.

(** [vdpu_write_relaxed(vpu, val, reg)]: the value is a [u32]; a write is
    recorded as the pair of the value and the register offset. *)
Definition vdpu_write_relaxed (val reg : Z) : Z * Z := (u32 val, reg).

Definition poc_reg_tbl_top_field : list Z :=
  [ RKVDEC_REG_H264_POC_REFER0 0;
    RKVDEC_REG_H264_POC_REFER0 2;
    RKVDEC_REG_H264_POC_REFER0 4;
    RKVDEC_REG_H264_POC_REFER0 6;
    RKVDEC_REG_H264_POC_REFER0 8;
    RKVDEC_REG_H264_POC_REFER0 10;
    RKVDEC_REG_H264_POC_REFER0 12;
    RKVDEC_REG_H264_POC_REFER0 14;
    RKVDEC_REG_H264_POC_REFER1 1;
    RKVDEC_REG_H264_POC_REFER1 3;
    RKVDEC_REG_H264_POC_REFER1 5;
    RKVDEC_REG_H264_POC_REFER1 7;
    RKVDEC_REG_H264_POC_REFER1 9;
    RKVDEC_REG_H264_POC_REFER1 11;
    RKVDEC_REG_H264_POC_REFER1 13;
    RKVDEC_REG_H264_POC_REFER2 0 ].

Definition poc_reg_tbl_bottom_field : list Z :=
  [ RKVDEC_REG_H264_POC_REFER0 1;
    RKVDEC_REG_H264_POC_REFER0 3;
    RKVDEC_REG_H264_POC_REFER0 5;
    RKVDEC_REG_H264_POC_REFER0 7;
    RKVDEC_REG_H264_POC_REFER0 9;
    RKVDEC_REG_H264_POC_REFER0 11;
    RKVDEC_REG_H264_POC_REFER0 13;
    RKVDEC_REG_H264_POC_REFER1 0;
    RKVDEC_REG_H264_POC_REFER1 2;
    RKVDEC_REG_H264_POC_REFER1 4;
    RKVDEC_REG_H264_POC_REFER1 6;
    RKVDEC_REG_H264_POC_REFER1 8;
    RKVDEC_REG_H264_POC_REFER1 10;
    RKVDEC_REG_H264_POC_REFER1 12;
    RKVDEC_REG_H264_POC_REFER1 14;
    RKVDEC_REG_H264_POC_REFER2 1 ].

(** The body of the loop over the DPB: the three writes of slot [i]. *)
Definition config_ref (bufs : decode_buffers)
  (dpb : list v4l2_h264_dpb_entry) (i : Z) : list (Z * Z) :=
  let entry := dpb !!! Z.to_nat i in
  let ref_addr :=
    if dpb_active dpb i then rockchip_vpu_get_ref bufs (reference_ts entry)
    else 0 in
  let ref_addr := if ref_addr =? 0 then dst_dma_addr bufs else ref_addr in
  let refer_addr :=
    Z.lor (Z.lor (Z.lor ref_addr RKVDEC_COLMV_USED_FLAG_REF)
                 RKVDEC_TOPFIELD_USED_REF)
          RKVDEC_BOTFIELD_USED_REF in
  [ vdpu_write_relaxed (top_field_order_cnt entry)
      (poc_reg_tbl_top_field !!! Z.to_nat i);
    vdpu_write_relaxed (bottom_field_order_cnt entry)
      (poc_reg_tbl_bottom_field !!! Z.to_nat i);
    if i <? 15
    then vdpu_write_relaxed refer_addr (RKVDEC_REG_H264_BASE_REFER i)
    else vdpu_write_relaxed refer_addr RKVDEC_REG_H264_BASE_REFER15 ].

(** The register writes of [config_regs], in program order. *)
Definition config_regs (bufs : decode_buffers)
  (dec_param : v4l2_ctrl_h264_decode_params) (sps : v4l2_ctrl_h264_sps)
  : list (Z * Z) :=
  let priv_start_addr := priv_dma bufs in
  let vs := config_regs_virstrides sps (dst_fmt_width bufs) (dst_fmt_height bufs) in
  [ vdpu_write_relaxed (RKVDEC_MODE RKVDEC_MODE_H264) RKVDEC_REG_SYSCTRL;
    vdpu_write_relaxed
      (Z.lor (Z.lor (Z.lor (RKVDEC_Y_HOR_VIRSTRIDE (hor_virstride vs / 16))
                           (RKVDEC_UV_HOR_VIRSTRIDE (hor_virstride vs / 16)))
                    RKVDEC_SLICE_NUM_HIGHBIT)
             (RKVDEC_SLICE_NUM_LOWBITS 0x7ff))
      RKVDEC_REG_PICPAR;
    (* config rlc base address *)
    vdpu_write_relaxed (src_dma_addr bufs) RKVDEC_REG_STRM_RLC_BASE;
    vdpu_write_relaxed (RKVDEC_STRM_LEN (u32 (src_plane_size bufs)))
      RKVDEC_REG_STRM_LEN;
    (* config cabac table *)
    vdpu_write_relaxed (priv_start_addr + offsetof_cabac_table)
      RKVDEC_REG_CABACTBL_PROB_BASE;
    (* config output base address *)
    vdpu_write_relaxed (dst_dma_addr bufs) RKVDEC_REG_DECOUT_BASE;
    vdpu_write_relaxed (RKVDEC_Y_VIRSTRIDE (y_virstride vs / 16))
      RKVDEC_REG_Y_VIRSTRIDE;
    vdpu_write_relaxed (RKVDEC_YUV_VIRSTRIDE (yuv_virstride vs / 16))
      RKVDEC_REG_YUV_VIRSTRIDE ]
  ++ (* config ref pic address & poc *)
  (seqZ 0 16 ≫= config_ref bufs (dpb dec_param))
  ++
  [ vdpu_write_relaxed (RKVDEC_CUR_POC (dec_top_field_order_cnt dec_param))
      RKVDEC_REG_CUR_POC0;
    vdpu_write_relaxed (RKVDEC_CUR_POC (dec_bottom_field_order_cnt dec_param))
      RKVDEC_REG_CUR_POC1;
    (* config hw pps address *)
    vdpu_write_relaxed (priv_start_addr + offsetof_param_set) RKVDEC_REG_PPS_BASE;
    (* config hw rps address *)
    vdpu_write_relaxed (priv_start_addr + offsetof_rps) RKVDEC_REG_RPS_BASE;
    vdpu_write_relaxed (RKVDEC_AXI_DDR_RDATA 0) RKVDEC_REG_AXI_DDR_RDATA;
    vdpu_write_relaxed (RKVDEC_AXI_DDR_WDATA 0) RKVDEC_REG_AXI_DDR_WDATA;
    vdpu_write_relaxed (priv_start_addr + offsetof_err_info)
      RKVDEC_REG_H264_ERRINFO_BASE ].

End Regs.

(** ** Layouts with ascending fields *)

Section PpsLayout.
Context `{rk3399_vdec_regs}.

(** The fields lie one behind the other from bit [lo] on, in the order
    given. *)
Fixpoint fields_ascending (lo : Z) (fields : list ps_field) : Prop :=
  match fields with
  | [] => True
  | f :: fields =>
      lo <= FIELD_OFF f /\ fields_ascending (FIELD_OFF f + FIELD_LEN f) fields
  end.

End PpsLayout.

(** ** Context initialisation *)

(** Constant CABAC table. *)
Definition h264_cabac_table : list Z :=
  [
    0x3602f114; 0xf1144a03; 0x4a033602; 0x68e97fe4; 0x36ff35fa; 0x21173307;
    0x00150217; 0x31000901; 0x390576db; 0x41f54ef3; 0x310c3e01; 0x321149fc;
    0x2b094012; 0x431a001d; 0x68095a10; 0x68ec7fd2; 0x4ef34301; 0x3e0141f5;
    0x5fef56fa; 0x2d093dfa; 0x51fa45fd; 0x370660f5; 0x56fb4307; 0x3a005802;
    0x5ef64cfd; 0x45043605; 0x580051fd; 0x4afb43f9; 0x50fb4afc; 0x3a0148f9;
    0x3f002900; 0x3f003f00; 0x560453f7; 0x48f96100; 0x3e03290d; 0x4efc2d00;
    0x7ee560fd; 0x65e762e4; 0x52e443e9; 0x53f05eec; 0x5beb6eea; 0x5df366ee;
    0x5cf97fe3; 0x60f959fb; 0x2efd6cf3; 0x39ff41ff; 0x4afd5df7; 0x57f85cf7;
    0x36057ee9; 0x3b063c06; 0x30ff4506; 0x45fc4400; 0x55fe58f8; 0x4bff4efa;
    0x36024df9; 0x44fd3205; 0x2a063201; 0x3f0151fc; 0x430046fc; 0x4cfe3902;
    0x4004230b; 0x230b3d01; 0x180c1912; 0x240d1d0d; 0x49f95df6; 0x2e0d49fe;
    0x64f93109; 0x35023509; 0x3dfe3505; 0x38003800; 0x3cfb3ff3; 0x39043eff;
    0x390445fa; 0x3304270e; 0x4003440d; 0x3f093d01; 0x27103207; 0x34042c05;
    0x3cfb300b; 0x3b003bff; 0x2c052116; 0x4eff2b0e; 0x45093c00; 0x28021c0b;
    0x31002c03; 0x2c022e00; 0x2f003302; 0x3e022704; 0x36002e06; 0x3a023603;
    0x33063f04; 0x35073906; 0x37063406; 0x240e2d0b; 0x52ff3508; 0x4efd3707;
    0x1f162e0f; 0x071954ff; 0x031cf91e; 0x0020041c; 0x061eff22; 0x0920061e;
    0x1b1a131f; 0x14251e1a; 0x4611221c; 0x3b054301; 0x1e104309; 0x23122012;
    0x1f181d16; 0x2b122617; 0x3f0b2914; 0x40093b09; 0x59fe5eff; 0x4cfa6cf7;
    0x2d002cfe; 0x40fd3400; 0x46fc3bfe; 0x52f84bfc; 0x4df766ef; 0x2a001803;
    0x37003000; 0x47f93bfa; 0x57f553f4; 0x3a0177e2; 0x24ff1dfd; 0x2b022601;
    0x3a0037fa; 0x4afd4000; 0x46005af6; 0x1f051dfc; 0x3b012a07; 0x48fd3afe;
    0x61f551fd; 0x05083a00; 0x120e0e0a; 0x28021b0d; 0x46fd3a00; 0x55f84ffa;
    0x6af30000; 0x57f66af0; 0x6eee72eb; 0x6eea62f2; 0x67ee6aeb; 0x6ce96beb;
    0x60f670e6; 0x5bfb5ff4; 0x5eea5df7; 0x430956fb; 0x55f650fc; 0x3c0746ff;
    0x3d053a09; 0x320f320c; 0x36113112; 0x2e07290a; 0x310733ff; 0x29093408;
    0x37022f06; 0x2c0a290d; 0x35053206; 0x3f04310d; 0x45fe4006; 0x46063bfe;
    0x1f092c0a; 0x35032b0c; 0x260a220e; 0x280d34fd; 0x2c072011; 0x320d2607;
    0x2b1a390a; 0x0e0b0b0e; 0x0b120b09; 0xfe170915; 0xf120f120; 0xe927eb22;
    0xe129df2a; 0xf426e42e; 0xe82d1d15; 0xe630d335; 0xed2bd541; 0x091ef627;
    0x1b141a12; 0x52f23900; 0x61ed4bfb; 0x001b7ddd; 0xfc1f001c; 0x0822061b;
    0x16180a1e; 0x20161321; 0x29151f1a; 0x2f172c1a; 0x470e4110; 0x3f063c08;
    0x18154111; 0x171a1417; 0x171c201b; 0x2817181c; 0x1d1c2018; 0x39132a17;
    0x3d163516; 0x280c560b; 0x3b0e330b; 0x47f94ffc; 0x46f745fb; 0x44f642f8;
    0x45f449ed; 0x43f146f0; 0x46ed3eec; 0x41ea42f0; 0xfe093fec; 0xf721f71a;
    0xfe29f927; 0x0931032d; 0x3b241b2d; 0x23f942fa; 0x2df82af9; 0x38f430fb;
    0x3efb3cfa; 0x4cf842f8; 0x51fa55fb; 0x51f94df6; 0x49ee50ef; 0x53f64afc;
    0x43f747f7; 0x42f83dff; 0x3b0042f2; 0xf3153b02; 0xf927f221; 0x0233fe2e;
    0x113d063c; 0x3e2a2237; 0x00000000; 0x00000000; 0x3602f114; 0xf1144a03;
    0x4a033602; 0x68e97fe4; 0x36ff35fa; 0x19163307; 0x00100022; 0x290409fe;
    0x410276e3; 0x4ff347fa; 0x32093405; 0x360a46fd; 0x1613221a; 0x02390028;
    0x451a2429; 0x65f17fd3; 0x47fa4cfc; 0x34054ff3; 0x5af34506; 0x2b083400;
    0x52fb45fe; 0x3b0260f6; 0x57fd4b02; 0x380164fd; 0x55fa4afd; 0x51fd3b00;
    0x5ffb56f9; 0x4dff42ff; 0x56fe4601; 0x3d0048fb; 0x3f002900; 0x3f003f00;
    0x560453f7; 0x48f96100; 0x3e03290d; 0x33070f0d; 0x7fd95002; 0x60ef5bee;
    0x62dd51e6; 0x61e966e8; 0x63e877e5; 0x66ee6eeb; 0x50007fdc; 0x5ef959fb;
    0x27005cfc; 0x54f14100; 0x49fe7fdd; 0x5bf768f4; 0x37037fe1; 0x37073807;
    0x35fd3d08; 0x4af94400; 0x67f358f7; 0x59f75bf3; 0x4cf85cf2; 0x6ee957f4;
    0x4ef669e8; 0x63ef70ec; 0x7fba7fb2; 0x7fd27fce; 0x4efb42fc; 0x48f847fc;
    0x37ff3b02; 0x4bfa46f9; 0x77de59f8; 0x14204bfd; 0x7fd4161e; 0x3dfb3600;
    0x3cff3a00; 0x43f83dfd; 0x4af254e7; 0x340541fb; 0x3d003902; 0x46f545f7;
    0x47fc3712; 0x3d073a00; 0x19122909; 0x2b052009; 0x2c002f09; 0x2e023300;
    0x42fc2613; 0x2a0c260f; 0x59002209; 0x1c0a2d04; 0xf5211f0a; 0x0f12d534;
    0xea23001c; 0x0022e726; 0xf420ee27; 0x0000a266; 0xfc21f138; 0xfb250a1d;
    0xf727e333; 0xc645de34; 0xfb2cc143; 0xe3370720; 0x00000120; 0xe721241b;
    0xe424e222; 0xe526e426; 0xf023ee22; 0xf820f222; 0x0023fa25; 0x121c0a1e;
    0x291d191a; 0x48024b00; 0x230e4d08; 0x23111f12; 0x2d111e15; 0x2d122a14;
    0x36101a1b; 0x38104207; 0x430a490b; 0x70e974f6; 0x3df947f1; 0x42fb3500;
    0x50f74df5; 0x57f654f7; 0x65eb7fde; 0x35fb27fd; 0x4bf53df9; 0x5bef4df1;
    0x6fe76be7; 0x4cf57ae4; 0x34f62cf6; 0x3af739f6; 0x45f948f0; 0x4afb45fc;
    0x420256f7; 0x200122f7; 0x34051f0b; 0x43fe37fe; 0x59f84900; 0x04073403;
    0x0811080a; 0x25031310; 0x49fb3dff; 0x4efc46ff; 0x7eeb0000; 0x6eec7ce9;
    0x7ce77ee6; 0x79e569ef; 0x66ef75e5; 0x74e575e6; 0x5ff67adf; 0x5ff864f2;
    0x72e46fef; 0x50fe59fa; 0x55f752fc; 0x48ff51f8; 0x43014005; 0x45003809;
    0x45074501; 0x43fa45f9; 0x40fe4df0; 0x43fa3d02; 0x390240fd; 0x42fd41fd;
    0x33093e00; 0x47fe42ff; 0x46ff4bfe; 0x3c0e48f7; 0x2f002510; 0x250b2312;
    0x290a290c; 0x290c3002; 0x3b00290d; 0x28133203; 0x32124203; 0xfa12fa13;
    0xf41a000e; 0xe721f01f; 0xe425ea21; 0xe22ae227; 0xdc2dd62f; 0xef29de31;
    0xb9450920; 0xc042c13f; 0xd936b64d; 0xf629dd34; 0xff280024; 0x1a1c0e1e;
    0x370c2517; 0xdf25410b; 0xdb28dc27; 0xdf2ee226; 0xe828e22a; 0xf426e331;
    0xfd26f628; 0x141ffb2e; 0x2c191e1d; 0x310b300c; 0x16162d1a; 0x151b1617;
    0x1c1a1421; 0x221b181e; 0x27192a12; 0x460c3212; 0x470e3615; 0x2019530b;
    0x36153115; 0x51fa55fb; 0x51f94df6; 0x49ee50ef; 0x53f64afc; 0x43f747f7;
    0x42f83dff; 0x3b0042f2; 0xf6113b02; 0xf72af320; 0x0035fb31; 0x0a440340;
    0x392f1b42; 0x180047fb; 0x2afe24ff; 0x39f734fe; 0x41fc3ffa; 0x52f943fc;
    0x4cfd51fd; 0x4efa48f9; 0x44f248f4; 0x4cfa46fd; 0x3efb42fb; 0x3dfc3900;
    0x36013cf7; 0xf6113a02; 0xf72af320; 0x0035fb31; 0x0a440340; 0x392f1b42;
    0x00000000; 0x00000000; 0x3602f114; 0xf1144a03; 0x4a033602; 0x68e97fe4;
    0x36ff35fa; 0x101d3307; 0x000e0019; 0x3efd33f6; 0x101a63e5; 0x66e855fc;
    0x39063905; 0x390e49ef; 0x0a142814; 0x0036001d; 0x610c2a25; 0x75ea7fe0;
    0x55fc4afe; 0x390566e8; 0x58f25dfa; 0x37042cfa; 0x67f159f5; 0x391374eb;
    0x54043a14; 0x3f016006; 0x6af355fb; 0x4b063f05; 0x65ff5afd; 0x4ffc3703;
    0x61f44bfe; 0x3c0132f9; 0x3f002900; 0x3f003f00; 0x560453f7; 0x48f96100;
    0x3e03290d; 0x58f72207; 0x7fdc7fec; 0x5ff25bef; 0x56e754e7; 0x5bef59f4;
    0x4cf27fe1; 0x5af367ee; 0x500b7fdb; 0x54024c05; 0x37fa4e05; 0x53f23d04;
    0x4ffb7fdb; 0x5bf568f5; 0x41007fe2; 0x48004ffe; 0x38fa5cfc; 0x47f84403;
    0x56fc62f3; 0x52fb58f4; 0x43fc48fd; 0x59f048f8; 0x3bff45f7; 0x39044205;
    0x47fe47fc; 0x4aff3a02; 0x45ff2cfc; 0x33f93e00; 0x2afa2ffc; 0x35fa29fd;
    0x4ef74c08; 0x340953f5; 0x5afb4300; 0x48f14301; 0x50f84bfb; 0x40eb53eb;
    0x40e71ff3; 0x4b095ee3; 0x4af83f11; 0x1bfe23fb; 0x41035b0d; 0x4d0845f9;
    0x3e0342f6; 0x51ec44fd; 0x07011e00; 0x4aeb17fd; 0x7ce94210; 0xee2c2511;
    0x7feade32; 0x2a002704; 0x1d0b2207; 0x25061f08; 0x28032a07; 0x2b0d2108;
    0x2f04240d; 0x3a023703; 0x2c083c06; 0x2a0e2c0b; 0x38043007; 0x250d3404;
    0x3a133109; 0x2d0c300a; 0x21144500; 0xee233f08; 0xfd1ce721; 0x001b0a18;
    0xd434f222; 0x1113e827; 0x1d24191f; 0x0f222118; 0x4916141e; 0x1f132214;
    0x10132c1b; 0x240f240f; 0x15191c15; 0x0c1f141e; 0x2a18101b; 0x380e5d00;
    0x261a390f; 0x73e87fe8; 0x3ef752ea; 0x3b003500; 0x59f355f2; 0x5cf55ef3;
    0x64eb7fe3; 0x43f439f2; 0x4df647f5; 0x58f055eb; 0x62f168e9; 0x52f67fdb;
    0x3df830f8; 0x46f942f8; 0x4ff64bf2; 0x5cf453f7; 0x4ffc6cee; 0x4bf045ea;
    0x3a013afe; 0x53f74ef3; 0x63f351fc; 0x26fa51f3; 0x3afa3ef3; 0x49f03bfe;
    0x56f34cf6; 0x57f653f7; 0x7fea0000; 0x78e77fe7; 0x72ed7fe5; 0x76e775e9;
    0x71e875e6; 0x78e176e4; 0x5ef67cdb; 0x63f666f1; 0x7fce6af3; 0x39115cfb;
    0x5ef356fb; 0x4dfe5bf4; 0x49ff4700; 0x51f94004; 0x390f4005; 0x44004301;
    0x440143f6; 0x40024d00; 0x4efb4400; 0x3b053707; 0x360e4102; 0x3c052c0f;
    0x4cfe4602; 0x460c56ee; 0x46f44005; 0x3805370b; 0x41024500; 0x36054afa;
    0x4cfa3607; 0x4dfe52f5; 0x2a194dfe; 0xf710f311; 0xeb1bf411; 0xd829e225;
    0xd130d72a; 0xd82ee027; 0xd72ecd34; 0xed2bd934; 0xc93d0b20; 0xce3ed238;
    0xec2dbd51; 0x0f1cfe23; 0x01270122; 0x2614111e; 0x360f2d12; 0xf0244f00;
    0xef25f225; 0x0f220120; 0x19180f1d; 0x101f1622; 0x1c1f1223; 0x1c242921;
    0x3e152f1b; 0x1a131f12; 0x17181824; 0x1e18101b; 0x29161d1f; 0x3c102a16;
    0x3c0e340f; 0x7bf04e03; 0x38163515; 0x21153d19; 0x3d113213; 0x4af84efd;
    0x48f648f7; 0x47f44bee; 0x46fb3ff5; 0x48f24bef; 0x35f843f0; 0x34f73bf2;
    0xfe0944f5; 0xfc1ff61e; 0x0721ff21; 0x17250c1f; 0x4014261f; 0x25f947f7;
    0x31f52cf8; 0x3bf438f6; 0x43f73ff8; 0x4ff644fa; 0x4af84efd; 0x48f648f7;
    0x47f44bee; 0x46fb3ff5; 0x48f24bef; 0x35f843f0; 0x34f73bf2; 0xfe0944f5;
    0xfc1ff61e; 0x0721ff21; 0x17250c1f; 0x4014261f; 0x00000000; 0x00000000;
    0x3602f114; 0xf1144a03; 0x4a033602; 0x68e97fe4; 0x36ff35fa; 0x00003307;
    0x00000000; 0x00000000; 0x00000000; 0x00000000; 0x00000000; 0x00000000;
    0x00000000; 0x00000000; 0x00000000; 0x00000000; 0x00000000; 0x00000000;
    0x00000000; 0x00000000; 0x00000000; 0x00000000; 0x00000000; 0x00000000;
    0x00000000; 0x00000000; 0x00000000; 0x00000000; 0x00000000; 0x00000000;
    0x3f002900; 0x3f003f00; 0x560453f7; 0x48f96100; 0x3e03290d; 0x37010b00;
    0x7fef4500; 0x520066f3; 0x6beb4af9; 0x7fe17fe5; 0x5fee7fe8; 0x72eb7fe5;
    0x7bef7fe2; 0x7af073f4; 0x3ff473f5; 0x54f144fe; 0x46fd68f3; 0x5af65df8;
    0x4aff7fe2; 0x5bf961fa; 0x38fc7fec; 0x4cf952fb; 0x5df97dea; 0x4dfd57f5;
    0x3ffc47fb; 0x54f444fc; 0x41f93ef9; 0x38053d08; 0x400142fe; 0x4efe3d00;
    0x34073201; 0x2c00230a; 0x2d01260b; 0x2c052e00; 0x3301111f; 0x131c3207;
    0x3e0e2110; 0x64f16cf3; 0x5bf365f3; 0x58f65ef4; 0x56f654f0; 0x57f353f9;
    0x46015eed; 0x4afb4800; 0x66f83b12; 0x5f0064f1; 0x48024bfc; 0x47fd4bf5;
    0x45f32e0f; 0x41003e00; 0x48f12515; 0x36103909; 0x480c3e00; 0x090f0018;
    0x120d1908; 0x130d090f; 0x120c250a; 0x21141d06; 0x2d041e0f; 0x3e003a01;
    0x260c3d07; 0x270f2d0b; 0x2c0d2a0b; 0x290c2d10; 0x221e310a; 0x370a2a12;
    0x2e113311; 0xed1a5900; 0xef1aef16; 0xec1ce71e; 0xe525e921; 0xe428e921;
    0xf521ef26; 0xfa29f128; 0x11290126; 0x031bfa1e; 0xf025161a; 0xf826fc23;
    0x0325fd26; 0x002a0526; 0x16271023; 0x251b300e; 0x440c3c15; 0x47fd6102;
    0x32fb2afa; 0x3efe36fd; 0x3f013a00; 0x4aff48fe; 0x43fb5bf7; 0x27fd1bfb;
    0x2e002cfe; 0x44f840f0; 0x4dfa4ef6; 0x5cf456f6; 0x3cf637f1; 0x41fc3efa;
    0x4cf849f4; 0x58f750f9; 0x61f56eef; 0x4ff554ec; 0x4afc49fa; 0x60f356f3;
    0x75ed61f5; 0x21fb4ef8; 0x35fe30fc; 0x47f33efd; 0x56f44ff6; 0x61f25af3;
    0x5dfa0000; 0x4ff854fa; 0x47ff4200; 0x3cfe3e00; 0x4bfb3bfe; 0x3afc3efd;
    0x4fff42f7; 0x44034700; 0x3ef92c0a; 0x280e240f; 0x1d0c1b10; 0x24142c01;
    0x2a052012; 0x3e0a3001; 0x40092e11; 0x61f568f4; 0x58f960f0; 0x55f955f8;
    0x58f355f7; 0x4dfd4204; 0x4cfa4cfd; 0x4cff3a0a; 0x63f953ff; 0x5f025ff2;
    0x4afb4c00; 0x4bf54600; 0x41004401; 0x3e0349f2; 0x44ff3e04; 0x370b4bf3;
    0x460c4005; 0x1306060f; 0x0e0c1007; 0x0b0d0d12; 0x100f0f0d; 0x170d170c;
    0x1a0e140f; 0x28112c0e; 0x11182f11; 0x16191515; 0x1d161b1f; 0x320e2313;
    0x3f07390a; 0x52fc4dfe; 0x45095efd; 0xdd246df4; 0xe620de24; 0xe02ce225;
    0xf122ee22; 0xf921f128; 0x0021fb23; 0x0d210226; 0x3a0d2317; 0x001afd1d;
    0xf91f1e16; 0xfd22f123; 0xff240322; 0x0b200522; 0x0c220523; 0x1d1e0b27;
    0x271d1a22; 0x151f4213; 0x32191f1f; 0x70ec78ef; 0x55f572ee; 0x59f25cf1;
    0x51f147e6; 0x440050f2; 0x38e846f2; 0x32e844e9; 0xf3174af5; 0xf128f31a;
    0x032cf231; 0x222c062d; 0x52133621; 0x17ff4bfd; 0x2b012201; 0x37fe3600;
    0x40013d00; 0x5cf74400; 0x61f36af2; 0x5af45af1; 0x49f658ee; 0x56f24ff7;
    0x46f649f6; 0x42fb45f6; 0x3afb40f7; 0xf6153b02; 0xf81cf518; 0x031dff1c;
    0x1423091d; 0x430e241d
  ].

(** Error numbers are kept symbolic; a function that returns an [int]
    status returns 0 or a negated error number. *)
Inductive errno := EINVAL | ENOMEM | EBUSY.

Inductive ret_t :=
  | Ret_0
  | Ret_neg (e : errno).

(** [struct rk3399_vdec_h264_priv_tbl], the auxiliary buffer: the regions
    the code accesses through [u32] pointers ([cabac_table], [rps],
    [param_set]) are arrays of words, the others arrays of bytes. *)
Record rk3399_vdec_h264_priv_tbl := {
  cabac_table : list Z;
  scaling_list : list Z;
  rps : list Z;
  param_set : list Z;
  err_info : list Z
}.

(** [sizeof(struct rk3399_vdec_h264_priv_tbl)]. *)
Definition sizeof_priv_tbl : Z := offsetof_err_info + RKV_ERROR_INFO_SIZE.

(** The members of [struct rockchip_vpu_aux_buf]: the kernel address of the
    buffer ([None] for a null pointer), its device address and its size. *)
Record rockchip_vpu_aux_buf := {
  aux_cpu : option rk3399_vdec_h264_priv_tbl;
  aux_dma : Z;
  aux_size : Z
}.

(** [memcpy(dst, src, sizeof(src))] between arrays of words. *)
Definition memcpy_words (dst src : list Z) : option (list Z) :=
  if decide (length src <= length dst)%nat
  then Some (src ++ drop (length src) dst)
  else None.

(** [dma_alloc_coherent] is given as what it returns and what it stores in
    [priv->dma]: the buffer, or [None] for a null pointer, and the device
    address. *)
Definition rk3399_vdec_h264_init
  (dma_alloc_coherent : option rk3399_vdec_h264_priv_tbl * Z)
  (priv : rockchip_vpu_aux_buf) : option (ret_t * rockchip_vpu_aux_buf) :=
  match dma_alloc_coherent.1 with
  | None =>
      Some (Ret_neg ENOMEM,
            {| aux_cpu := None; aux_dma := dma_alloc_coherent.2;
               aux_size := aux_size priv |})
  | Some tbl =>
      cabac ← memcpy_words (cabac_table tbl) h264_cabac_table;
      Some (Ret_0,
            {| aux_cpu := Some {| cabac_table := cabac;
                                  scaling_list := scaling_list tbl;
                                  rps := rps tbl;
                                  param_set := param_set tbl;
                                  err_info := err_info tbl |};
               aux_dma := dma_alloc_coherent.2;
               aux_size := sizeof_priv_tbl |})
  end.

(** ** The per-frame entry point *)

(** [struct v4l2_ctrl_h264_slice_params]: the decoder hands it to the RPS
    assembler, which reads no member of it. *)
Inductive v4l2_ctrl_h264_slice_params := h264_slice_params.

(** The five controls of the request as [rockchip_vpu_get_ctrl] returns
    them, [None] for a null pointer. *)
Record h264_ctrls := {
  ctrl_h264_scaling_matrix : option v4l2_ctrl_h264_scaling_matrix;
  ctrl_h264_decode_params : option v4l2_ctrl_h264_decode_params;
  ctrl_h264_slice_params : option v4l2_ctrl_h264_slice_params;
  ctrl_h264_sps : option v4l2_ctrl_h264_sps;
  ctrl_h264_pps : option v4l2_ctrl_h264_pps
}.

(** The macros of [rk3399_vdec_regs.h] that start the hardware. *)
Class rk3399_vdec_start_regs := {
  RKVDEC_REG_INTERRUPT : Z;
  RKVDEC_INTERRUPT_DEC_E : Z;
  RKVDEC_CONFIG_DEC_CLK_GATE_E : Z
}.

(** What the entry point does outside the auxiliary buffer, as the calls it
    makes, in program order. *)
Inductive hw_call :=
  | Call_v4l2_ctrl_request_setup
  | Call_vdpu_write_relaxed (val reg : Z)
  | Call_schedule_delayed_work (msecs : Z)
  | Call_v4l2_ctrl_request_complete
  | Call_vdpu_write (val reg : Z).

Section Run.
Context `{v4l2_h264_flags} `{rk3399_vdec_regs} `{rk3399_vdec_start_regs}.

(** The source and destination buffers are those of [bufs]; [dump_params]
    only prints.  A missing control makes [WARN_ON] fire and the function
    return. *)
Definition rk3399_vdec_h264_run (ctrls : h264_ctrls) (bufs : decode_buffers)
  (tbl : rk3399_vdec_h264_priv_tbl)
  : option (rk3399_vdec_h264_priv_tbl * list hw_call) :=
  let setup := [Call_v4l2_ctrl_request_setup] in
  match ctrl_h264_scaling_matrix ctrls with
  | None => Some (tbl, setup)
  | Some scaling_matrix =>
  match ctrl_h264_decode_params ctrls with
  | None => Some (tbl, setup)
  | Some decode_param =>
  match ctrl_h264_slice_params ctrls with
  | None => Some (tbl, setup)
  | Some slice_param =>
  match ctrl_h264_sps ctrls with
  | None => Some (tbl, setup)
  | Some sps =>
  match ctrl_h264_pps ctrls with
  | None => Some (tbl, setup)
  | Some pps =>
      let scaling_list' := reorder_scaling_list scaling_matrix (scaling_list tbl) in
      param_set' ← assemble_hw_pps (priv_dma bufs) sps pps (dpb decode_param)
                     (param_set tbl);
      rps' ← assemble_hw_rps decode_param (rps tbl);
      let writes := config_regs bufs decode_param sps in
      Some ({| cabac_table := cabac_table tbl;
               scaling_list := scaling_list';
               rps := rps';
               param_set := param_set';
               err_info := err_info tbl |},
            setup ++
            ((fun w => Call_vdpu_write_relaxed w.1 w.2) <$> writes) ++
            [ Call_schedule_delayed_work 2000;
              Call_v4l2_ctrl_request_complete;
              Call_vdpu_write
                (u32 (Z.lor RKVDEC_INTERRUPT_DEC_E RKVDEC_CONFIG_DEC_CLK_GATE_E))
                RKVDEC_REG_INTERRUPT ])
  end end end end end.

End Run.

(** ** The driver core: formats and buffers *)

(** [struct v4l2_frmsize_stepwise] and the members of
    [struct rockchip_vpu_fmt] the code reads. *)
Record v4l2_frmsize_stepwise := {
  min_width : Z;
  max_width : Z;
  step_width : Z;
  min_height : Z;
  max_height : Z;
  step_height : Z
}.

Record rockchip_vpu_fmt := {
  fourcc : Z;
  codec_mode : Z;
  header_size : Z;
  max_depth : Z;
  frmsize : v4l2_frmsize_stepwise
}.

Definition RK_VPU_MODE_NONE : Z := -1.

(** The members of [struct v4l2_plane_pix_format] and of
    [struct v4l2_pix_format_mplane] the driver reads or writes;
    [pix_field] and [pix_num_planes] are the members [field] and
    [num_planes]. *)
Record v4l2_plane_pix_format := {
  sizeimage : Z
}.

Record v4l2_pix_format_mplane := {
  width : Z;
  height : Z;
  pixelformat : Z;
  pix_field : Z;
  colorspace : Z;
  plane_fmt : list v4l2_plane_pix_format;
  pix_num_planes : Z;
  ycbcr_enc : Z;
  quantization : Z;
  xfer_func : Z
}.

(** A [struct vb2_buffer]: the plane sizes as [vb2_plane_size] reports
    them, the memory of plane 0 as an array of bytes, and
    [planes[0].bytesused]. *)
Record vb2_buffer := {
  vb2_plane_size : Z -> Z;
  vb2_plane_vaddr0 : list Z;
  planes0_bytesused : Z
}.

Record vb2_v4l2_buffer := {
  sequence : Z;
  vb2_buf : vb2_buffer
}.

(** The function [ctx->buf_finish] points to. *)
Inductive buf_finish_fn :=
  | fn_rockchip_vpu_enc_buf_finish
  | fn_rockchip_vpu_dec_buf_finish.

(** The members of [struct rockchip_vpu_ctx] the code below reads or
    writes; a format pointer is [None] when it is null, and so is the
    address of the bounce buffer of the JPEG encoder. *)
Record rockchip_vpu_ctx := {
  sequence_cap : Z;
  sequence_out : Z;
  vpu_src_fmt : option rockchip_vpu_fmt;
  src_fmt : v4l2_pix_format_mplane;
  vpu_dst_fmt : option rockchip_vpu_fmt;
  dst_fmt : v4l2_pix_format_mplane;
  buf_finish : buf_finish_fn;
  jpeg_enc_bounce_buffer_cpu : option (list Z)
}.

(** Constants and functions of the kernel the driver core relies on: the
    width of [unsigned long], the error state of a buffer, and
    [v4l2_m2m_buf_copy_metadata], given as the destination buffer it
    leaves. *)
Class kernel_env := {
  BITS_PER_LONG : Z;
  VB2_BUF_STATE_ERROR : Z;
  v4l2_m2m_buf_copy_metadata :
    vb2_v4l2_buffer -> vb2_v4l2_buffer -> bool -> vb2_v4l2_buffer
}.

(** [memcpy(dst + off, src, n)] between arrays of bytes. *)
Definition memcpy_at (dst : list Z) (off : Z) (src : list Z) (n : Z)
  : option (list Z) :=
  if decide (0 <= off /\ 0 <= n /\ off + n <= Z.of_nat (length dst) /\
             n <= Z.of_nat (length src))
  then Some (take (Z.to_nat off) dst ++ take (Z.to_nat n) src ++
             drop (Z.to_nat (off + n)) dst)
  else None.

Section Core.
Context `{kernel_env}.

(** Conversion to [size_t]. *)
Definition size_t (z : Z) : Z := z mod 2 ^ BITS_PER_LONG.

Definition rockchip_vpu_enc_buf_finish (ctx : rockchip_vpu_ctx)
  (buf : vb2_buffer) (bytesused : Z) : option (ret_t * vb2_buffer) :=
  fmt ← vpu_dst_fmt ctx;
  let avail_size := size_t (vb2_plane_size buf 0 - header_size fmt) in
  if decide (bytesused > avail_size) then Some (Ret_neg EINVAL, buf)
  else
    vaddr ← match jpeg_enc_bounce_buffer_cpu ctx with
            | Some bounce =>
                memcpy_at (vb2_plane_vaddr0 buf) (header_size fmt) bounce bytesused
            | None => Some (vb2_plane_vaddr0 buf)
            end;
    Some (Ret_0,
          {| vb2_plane_size := vb2_plane_size buf;
             vb2_plane_vaddr0 := vaddr;
             planes0_bytesused := u32 (header_size fmt + bytesused) |}).

Definition rockchip_vpu_dec_buf_finish (ctx : rockchip_vpu_ctx)
  (buf : vb2_buffer) (bytesused : Z) : option (ret_t * vb2_buffer) :=
  p ← plane_fmt (dst_fmt ctx) !! 0%nat;
  Some (Ret_0,
        {| vb2_plane_size := vb2_plane_size buf;
           vb2_plane_vaddr0 := vb2_plane_vaddr0 buf;
           planes0_bytesused := sizeimage p |}).

(** The call through the function pointer. *)
Definition call_buf_finish (ctx : rockchip_vpu_ctx)
  : vb2_buffer -> Z -> option (ret_t * vb2_buffer) :=
  match buf_finish ctx with
  | fn_rockchip_vpu_enc_buf_finish => rockchip_vpu_enc_buf_finish ctx
  | fn_rockchip_vpu_dec_buf_finish => rockchip_vpu_dec_buf_finish ctx
  end.

Definition rockchip_vpu_is_encoder_ctx (ctx : rockchip_vpu_ctx) : bool :=
  match buf_finish ctx with
  | fn_rockchip_vpu_enc_buf_finish => true
  | fn_rockchip_vpu_dec_buf_finish => false
  end.

(** The calls the driver core makes to the clock, power-management and
    mem2mem frameworks and to the codec, in program order. *)
Inductive drv_call :=
  | Call_clk_bulk_enable
  | Call_pm_runtime_get_sync
  | Call_codec_ops_run
  | Call_codec_ops_reset
  | Call_pm_runtime_mark_last_busy
  | Call_pm_runtime_put_autosuspend
  | Call_clk_bulk_disable
  | Call_v4l2_m2m_buf_done (buf : vb2_v4l2_buffer) (state : Z)
  | Call_v4l2_m2m_job_finish.

Definition set_sequences (ctx : rockchip_vpu_ctx) (out cap : Z)
  : rockchip_vpu_ctx :=
  {| sequence_cap := cap;
     sequence_out := out;
     vpu_src_fmt := vpu_src_fmt ctx;
     src_fmt := src_fmt ctx;
     vpu_dst_fmt := vpu_dst_fmt ctx;
     dst_fmt := dst_fmt ctx;
     buf_finish := buf_finish ctx;
     jpeg_enc_bounce_buffer_cpu := jpeg_enc_bounce_buffer_cpu ctx |}.

(** [src] and [dst] are what [v4l2_m2m_src_buf_remove] and
    [v4l2_m2m_dst_buf_remove] return, [None] for a null pointer. *)
Definition rockchip_vpu_job_finish (ctx : rockchip_vpu_ctx)
  (src dst : option vb2_v4l2_buffer) (bytesused : Z) (result : Z)
  : option (rockchip_vpu_ctx * list drv_call) :=
  let calls := [ Call_pm_runtime_mark_last_busy;
                 Call_pm_runtime_put_autosuspend;
                 Call_clk_bulk_disable ] in
  match src with
  | None => Some (ctx, calls)
  | Some src =>
  match dst with
  | None => Some (ctx, calls)
  | Some dst =>
      let src := {| sequence := sequence_out ctx; vb2_buf := vb2_buf src |} in
      let dst := {| sequence := sequence_cap ctx; vb2_buf := vb2_buf dst |} in
      let ctx := set_sequences ctx (u32 (sequence_out ctx + 1))
                                   (u32 (sequence_cap ctx + 1)) in
      let dst := v4l2_m2m_buf_copy_metadata src dst true in
      r ← call_buf_finish ctx (vb2_buf dst) bytesused;
      let dst := {| sequence := sequence dst; vb2_buf := r.2 |} in
      let result :=
        match r.1 with Ret_0 => result | Ret_neg _ => VB2_BUF_STATE_ERROR end in
      Some (ctx, calls ++ [ Call_v4l2_m2m_buf_done src result;
                            Call_v4l2_m2m_buf_done dst result;
                            Call_v4l2_m2m_job_finish ])
  end end.

(** [ctx] is what [v4l2_m2m_get_curr_priv] returns; [cancel_delayed_work]
    is given as the value it returns. *)
Definition rockchip_vpu_irq_done (ctx : option rockchip_vpu_ctx)
  (cancel_delayed_work : bool) (src dst : option vb2_v4l2_buffer)
  (bytesused : Z) (result : Z)
  : option (option rockchip_vpu_ctx * list drv_call) :=
  if cancel_delayed_work then
    ctx ← ctx;
    r ← rockchip_vpu_job_finish ctx src dst bytesused result;
    Some (Some r.1, r.2)
  else Some (ctx, []).

Definition rockchip_vpu_watchdog (ctx : option rockchip_vpu_ctx)
  (src dst : option vb2_v4l2_buffer)
  : option (option rockchip_vpu_ctx * list drv_call) :=
  match ctx with
  | Some ctx =>
      r ← rockchip_vpu_job_finish ctx src dst 0 VB2_BUF_STATE_ERROR;
      Some (Some r.1, Call_codec_ops_reset :: r.2)
  | None => Some (None, [])
  end.

(** [clk_bulk_enable] and [pm_runtime_get_sync] are given as the values
    they return. *)
Definition device_run (ctx : rockchip_vpu_ctx)
  (clk_bulk_enable pm_runtime_get_sync : Z)
  (src dst : option vb2_v4l2_buffer)
  : option (rockchip_vpu_ctx * list drv_call) :=
  if decide (clk_bulk_enable <> 0) then
    r ← rockchip_vpu_job_finish ctx src dst 0 VB2_BUF_STATE_ERROR;
    Some (r.1, Call_clk_bulk_enable :: r.2)
  else if decide (pm_runtime_get_sync < 0) then
    r ← rockchip_vpu_job_finish ctx src dst 0 VB2_BUF_STATE_ERROR;
    Some (r.1, Call_clk_bulk_enable :: Call_pm_runtime_get_sync :: r.2)
  else
    Some (ctx, [Call_clk_bulk_enable; Call_pm_runtime_get_sync; Call_codec_ops_run]).

End Core.

(** ** The V4L2 interface: formats and queues *)

Fixpoint rockchip_vpu_find_format (formats : list rockchip_vpu_fmt)
  (fourcc' : Z) : option rockchip_vpu_fmt :=
  match formats with
  | [] => None
  | fmt :: formats =>
      if fourcc fmt =? fourcc' then Some fmt
      else rockchip_vpu_find_format formats fourcc'
  end.

Fixpoint rockchip_vpu_get_default_fmt (formats : list rockchip_vpu_fmt)
  (bitstream : bool) : option rockchip_vpu_fmt :=
  match formats with
  | [] => None
  | fmt :: formats =>
      if eqb bitstream (negb (codec_mode fmt =? RK_VPU_MODE_NONE)) then Some fmt
      else rockchip_vpu_get_default_fmt formats bitstream
  end.

(** The status returned, and what is stored in [fsize->stepwise]. *)
Definition vidioc_enum_framesizes (formats : list rockchip_vpu_fmt)
  (index pixel_format : Z) : ret_t * option v4l2_frmsize_stepwise :=
  if decide (index <> 0) then (Ret_neg EINVAL, None)
  else
    match rockchip_vpu_find_format formats pixel_format with
    | None => (Ret_neg EINVAL, None)
    | Some fmt =>
        (* This only makes sense for coded formats *)
        if codec_mode fmt =? RK_VPU_MODE_NONE then (Ret_neg EINVAL, None)
        else (Ret_0, Some (frmsize fmt))
    end.

(** The loop of [vidioc_enum_fmt] from format [i] on, with the counter [j]
    of the formats kept so far: the status returned, and what is stored in
    [f->pixelformat]. *)
Fixpoint vidioc_enum_fmt_loop (formats : list rockchip_vpu_fmt)
  (skip_mode_none : bool) (index j : Z) : ret_t * option Z :=
  match formats with
  | [] => (Ret_neg EINVAL, None)
  | fmt :: formats =>
      let mode_none := codec_mode fmt =? RK_VPU_MODE_NONE in
      if eqb skip_mode_none mode_none
      then vidioc_enum_fmt_loop formats skip_mode_none index j
      else if j =? index then (Ret_0, Some (fourcc fmt))
      else vidioc_enum_fmt_loop formats skip_mode_none index (u32 (j + 1))
  end.

Definition vidioc_enum_fmt (formats : list rockchip_vpu_fmt)
  (is_encoder_ctx : bool) (index : Z) (capture : bool) : ret_t * option Z :=
  let skip_mode_none := eqb capture is_encoder_ctx in
  vidioc_enum_fmt_loop formats skip_mode_none index 0.

(** The queue types of [queue_init], and any other. *)
Inductive v4l2_buf_type :=
  | V4L2_BUF_TYPE_VIDEO_CAPTURE_MPLANE
  | V4L2_BUF_TYPE_VIDEO_OUTPUT_MPLANE
  | V4L2_BUF_TYPE_other.

(** [for (i = first; i < first + n; ++i) body], where an iteration may
    return from the function: an iteration gives [Some r] to return [r],
    and the loop gives [None] when it runs to its end. *)
Fixpoint for_return {R : Type} (n : nat) (i : Z) (body : Z -> option (option R))
  : option (option R) :=
  match n with
  | O => Some None
  | S n' =>
      r ← body i;
      match r with
      | Some r => Some (Some r)
      | None => for_return n' (i + 1) body
      end
  end.

(** The status returned, [*num_planes] and [sizes[]]. *)
Definition rockchip_vpu_queue_setup (vq_type : v4l2_buf_type)
  (ctx : rockchip_vpu_ctx) (num_planes : Z) (sizes : list Z)
  : option (ret_t * Z * list Z) :=
  let pixfmt :=
    match vq_type with
    | V4L2_BUF_TYPE_VIDEO_CAPTURE_MPLANE => Some (dst_fmt ctx)
    | V4L2_BUF_TYPE_VIDEO_OUTPUT_MPLANE => Some (src_fmt ctx)
    | V4L2_BUF_TYPE_other => None
    end in
  match pixfmt with
  | None => Some (Ret_neg EINVAL, num_planes, sizes)
  | Some pixfmt =>
      if decide (num_planes <> 0) then
        if decide (num_planes <> pix_num_planes pixfmt)
        then Some (Ret_neg EINVAL, num_planes, sizes)
        else
          r ← for_return (Z.to_nat (pix_num_planes pixfmt)) 0
                (fun i =>
                   s ← sizes !! Z.to_nat i;
                   p ← plane_fmt pixfmt !! Z.to_nat i;
                   Some (if decide (s < sizeimage p)
                         then Some (Ret_neg EINVAL) else None));
          Some (default Ret_0 r, num_planes, sizes)
      else
        sizes ← for_loop (Z.to_nat (pix_num_planes pixfmt)) 0
                  (fun i sizes =>
                     p ← plane_fmt pixfmt !! Z.to_nat i;
                     store sizes i (sizeimage p))
                  sizes;
        Some (Ret_0, pix_num_planes pixfmt, sizes)
  end.

Definition rockchip_vpu_buf_plane_check (vb : vb2_buffer)
  (pixfmt : v4l2_pix_format_mplane) : option ret_t :=
  r ← for_return (Z.to_nat (pix_num_planes pixfmt)) 0
        (fun i =>
           p ← plane_fmt pixfmt !! Z.to_nat i;
           let sz := sizeimage p in
           Some (if decide (vb2_plane_size vb i < sz)
                 then Some (Ret_neg EINVAL) else None));
  Some (default Ret_0 r).

(** [type_is_output] is [V4L2_TYPE_IS_OUTPUT(vq->type)]. *)
Definition rockchip_vpu_buf_prepare (type_is_output : bool)
  (ctx : rockchip_vpu_ctx) (vb : vb2_buffer) : option ret_t :=
  if type_is_output
  then rockchip_vpu_buf_plane_check vb (src_fmt ctx)
  else rockchip_vpu_buf_plane_check vb (dst_fmt ctx).

(** ** The V4L2 interface: negotiation of the formats *)

(** Constants of the uAPI header, the macro [clamp] of the kernel and the
    function [v4l2_fill_pixfmt_mp] of the V4L2 core, given as the format it
    leaves: none of them is among the sources. *)
Class v4l2_env := {
  V4L2_FIELD_NONE : Z;
  V4L2_COLORSPACE_JPEG : Z;
  V4L2_YCBCR_ENC_DEFAULT : Z;
  V4L2_QUANTIZATION_DEFAULT : Z;
  V4L2_XFER_FUNC_DEFAULT : Z;
  clamp : Z -> Z -> Z -> Z;
  v4l2_fill_pixfmt_mp :
    v4l2_pix_format_mplane -> Z -> Z -> Z -> v4l2_pix_format_mplane
}.

(** Assignments to members of a format and of the context. *)
Definition pix_with_pixelformat (p : v4l2_pix_format_mplane) (v : Z) :=
  {| width := width p; height := height p; pixelformat := v;
     pix_field := pix_field p; colorspace := colorspace p;
     plane_fmt := plane_fmt p; pix_num_planes := pix_num_planes p;
     ycbcr_enc := ycbcr_enc p; quantization := quantization p;
     xfer_func := xfer_func p |}.

Definition pix_with_num_planes (p : v4l2_pix_format_mplane) (v : Z) :=
  {| width := width p; height := height p; pixelformat := pixelformat p;
     pix_field := pix_field p; colorspace := colorspace p;
     plane_fmt := plane_fmt p; pix_num_planes := v;
     ycbcr_enc := ycbcr_enc p; quantization := quantization p;
     xfer_func := xfer_func p |}.

Definition pix_with_field (p : v4l2_pix_format_mplane) (v : Z) :=
  {| width := width p; height := height p; pixelformat := pixelformat p;
     pix_field := v; colorspace := colorspace p;
     plane_fmt := plane_fmt p; pix_num_planes := pix_num_planes p;
     ycbcr_enc := ycbcr_enc p; quantization := quantization p;
     xfer_func := xfer_func p |}.

Definition pix_with_width (p : v4l2_pix_format_mplane) (v : Z) :=
  {| width := v; height := height p; pixelformat := pixelformat p;
     pix_field := pix_field p; colorspace := colorspace p;
     plane_fmt := plane_fmt p; pix_num_planes := pix_num_planes p;
     ycbcr_enc := ycbcr_enc p; quantization := quantization p;
     xfer_func := xfer_func p |}.

Definition pix_with_height (p : v4l2_pix_format_mplane) (v : Z) :=
  {| width := width p; height := v; pixelformat := pixelformat p;
     pix_field := pix_field p; colorspace := colorspace p;
     plane_fmt := plane_fmt p; pix_num_planes := pix_num_planes p;
     ycbcr_enc := ycbcr_enc p; quantization := quantization p;
     xfer_func := xfer_func p |}.

(** [p->plane_fmt[0].sizeimage = v]. *)
Definition pix_with_sizeimage0 (p : v4l2_pix_format_mplane) (v : Z)
  : option v4l2_pix_format_mplane :=
  match plane_fmt p with
  | [] => None
  | _ :: planes =>
      Some {| width := width p; height := height p;
              pixelformat := pixelformat p;
              pix_field := pix_field p; colorspace := colorspace p;
              plane_fmt := {| sizeimage := v |} :: planes;
              pix_num_planes := pix_num_planes p;
              ycbcr_enc := ycbcr_enc p; quantization := quantization p;
              xfer_func := xfer_func p |}
  end.

(** The propagation of the colorimetry and of the frame size of [from]. *)
Definition pix_propagate (p from : v4l2_pix_format_mplane) :=
  {| width := width from; height := height from;
     pixelformat := pixelformat p;
     pix_field := pix_field p; colorspace := colorspace from;
     plane_fmt := plane_fmt p; pix_num_planes := pix_num_planes p;
     ycbcr_enc := ycbcr_enc from; quantization := quantization from;
     xfer_func := xfer_func from |}.

Definition ctx_with_src (ctx : rockchip_vpu_ctx)
  (vpu_fmt : option rockchip_vpu_fmt) (fmt : v4l2_pix_format_mplane) :=
  {| sequence_cap := sequence_cap ctx;
     sequence_out := sequence_out ctx;
     vpu_src_fmt := vpu_fmt;
     src_fmt := fmt;
     vpu_dst_fmt := vpu_dst_fmt ctx;
     dst_fmt := dst_fmt ctx;
     buf_finish := buf_finish ctx;
     jpeg_enc_bounce_buffer_cpu := jpeg_enc_bounce_buffer_cpu ctx |}.

Definition ctx_with_dst (ctx : rockchip_vpu_ctx)
  (vpu_fmt : option rockchip_vpu_fmt) (fmt : v4l2_pix_format_mplane) :=
  {| sequence_cap := sequence_cap ctx;
     sequence_out := sequence_out ctx;
     vpu_src_fmt := vpu_src_fmt ctx;
     src_fmt := src_fmt ctx;
     vpu_dst_fmt := vpu_fmt;
     dst_fmt := fmt;
     buf_finish := buf_finish ctx;
     jpeg_enc_bounce_buffer_cpu := jpeg_enc_bounce_buffer_cpu ctx |}.

(** The format descriptor of a queue is set and is the one of the pixel
    format of the queue. *)
Definition fmt_matches (vpu_fmt : option rockchip_vpu_fmt)
  (fmt : v4l2_pix_format_mplane) : Prop :=
  exists f, vpu_fmt = Some f /\ fourcc f = pixelformat fmt.

Section Formats.
Context `{v4l2_env}.

(** The status returned and the format left in [f->fmt.pix_mp];
    [f->fmt.pix.pixelformat] is the same member of the union as
    [pix_mp->pixelformat]. *)
Definition vidioc_try_fmt (formats : list rockchip_vpu_fmt)
  (ctx : rockchip_vpu_ctx) (pix_mp : v4l2_pix_format_mplane) (capture : bool)
  : option (ret_t * v4l2_pix_format_mplane) :=
  let coded := eqb capture (rockchip_vpu_is_encoder_ctx ctx) in
  r ← match rockchip_vpu_find_format formats (pixelformat pix_mp) with
      | Some fmt => Some (fmt, pix_mp)
      | None =>
          fmt ← rockchip_vpu_get_default_fmt formats coded;
          Some (fmt, pix_with_pixelformat pix_mp (fourcc fmt))
      end;
  let fmt := r.1 in
  let pix_mp := r.2 in
  r ← (if coded then Some (fmt, pix_with_num_planes pix_mp 1)
       else if rockchip_vpu_is_encoder_ctx ctx
            then vpu_fmt ← vpu_dst_fmt ctx; Some (vpu_fmt, pix_mp)
            else vpu_fmt ← vpu_src_fmt ctx; Some (vpu_fmt, pix_mp));
  let vpu_fmt := r.1 in
  let pix_mp := r.2 in
  let pix_mp := pix_with_field pix_mp V4L2_FIELD_NONE in
  let pix_mp :=
    pix_with_width pix_mp
      (u32 (clamp (width pix_mp) (min_width (frmsize vpu_fmt))
                  (max_width (frmsize vpu_fmt)))) in
  let pix_mp :=
    pix_with_height pix_mp
      (u32 (clamp (height pix_mp) (min_height (frmsize vpu_fmt))
                  (max_height (frmsize vpu_fmt)))) in
  (* Round up to macroblocks. *)
  let pix_mp :=
    pix_with_width pix_mp
      (round_up (width pix_mp) (step_width (frmsize vpu_fmt))) in
  let pix_mp :=
    pix_with_height pix_mp
      (round_up (height pix_mp) (step_height (frmsize vpu_fmt))) in
  if negb coded then
    (* Fill remaining fields *)
    Some (Ret_0,
          v4l2_fill_pixfmt_mp pix_mp (fourcc fmt) (width pix_mp) (height pix_mp))
  else
    p0 ← plane_fmt pix_mp !! 0%nat;
    if sizeimage p0 =? 0 then
      pix_mp ← pix_with_sizeimage0 pix_mp
                 (u32 (header_size fmt +
                       width pix_mp * height pix_mp * max_depth fmt));
      Some (Ret_0, pix_mp)
    else Some (Ret_0, pix_mp).

Definition vidioc_try_fmt_cap_mplane (formats : list rockchip_vpu_fmt)
  (ctx : rockchip_vpu_ctx) (f : v4l2_pix_format_mplane) :=
  vidioc_try_fmt formats ctx f true.

Definition vidioc_try_fmt_out_mplane (formats : list rockchip_vpu_fmt)
  (ctx : rockchip_vpu_ctx) (f : v4l2_pix_format_mplane) :=
  vidioc_try_fmt formats ctx f false.

(** The [memset] of the whole format to 0 and the assignments that follow
    it. *)
Definition rockchip_vpu_reset_fmt (fmt : v4l2_pix_format_mplane)
  (vpu_fmt : rockchip_vpu_fmt) : v4l2_pix_format_mplane :=
  {| width := 0; height := 0;
     pixelformat := fourcc vpu_fmt;
     pix_field := V4L2_FIELD_NONE;
     colorspace := V4L2_COLORSPACE_JPEG;
     plane_fmt := (fun _ => {| sizeimage := 0 |}) <$> plane_fmt fmt;
     pix_num_planes := 0;
     ycbcr_enc := V4L2_YCBCR_ENC_DEFAULT;
     quantization := V4L2_QUANTIZATION_DEFAULT;
     xfer_func := V4L2_XFER_FUNC_DEFAULT |}.

Definition rockchip_vpu_reset_encoded_fmt (formats : list rockchip_vpu_fmt)
  (ctx : rockchip_vpu_ctx) : option rockchip_vpu_ctx :=
  vpu_fmt ← rockchip_vpu_get_default_fmt formats true;
  let fmt := if rockchip_vpu_is_encoder_ctx ctx
             then dst_fmt ctx else src_fmt ctx in
  let fmt := rockchip_vpu_reset_fmt fmt vpu_fmt in
  let fmt := pix_with_num_planes fmt 1 in
  let fmt := pix_with_width fmt (min_width (frmsize vpu_fmt)) in
  let fmt := pix_with_height fmt (min_height (frmsize vpu_fmt)) in
  fmt ← pix_with_sizeimage0 fmt
          (u32 (header_size vpu_fmt +
                width fmt * height fmt * max_depth vpu_fmt));
  Some (if rockchip_vpu_is_encoder_ctx ctx
        then ctx_with_dst ctx (Some vpu_fmt) fmt
        else ctx_with_src ctx (Some vpu_fmt) fmt).

Definition rockchip_vpu_reset_raw_fmt (formats : list rockchip_vpu_fmt)
  (ctx : rockchip_vpu_ctx) : option rockchip_vpu_ctx :=
  raw_vpu_fmt ← rockchip_vpu_get_default_fmt formats false;
  let fmt := if rockchip_vpu_is_encoder_ctx ctx
             then src_fmt ctx else dst_fmt ctx in
  encoded_vpu_fmt ← (if rockchip_vpu_is_encoder_ctx ctx
                     then vpu_dst_fmt ctx else vpu_src_fmt ctx);
  let fmt := rockchip_vpu_reset_fmt fmt raw_vpu_fmt in
  let fmt := v4l2_fill_pixfmt_mp fmt (fourcc raw_vpu_fmt)
               (min_width (frmsize encoded_vpu_fmt))
               (min_height (frmsize encoded_vpu_fmt)) in
  Some (if rockchip_vpu_is_encoder_ctx ctx
        then ctx_with_src ctx (Some raw_vpu_fmt) fmt
        else ctx_with_dst ctx (Some raw_vpu_fmt) fmt).

Definition rockchip_vpu_reset_fmts (formats : list rockchip_vpu_fmt)
  (ctx : rockchip_vpu_ctx) : option rockchip_vpu_ctx :=
  ctx ← rockchip_vpu_reset_encoded_fmt formats ctx;
  rockchip_vpu_reset_raw_fmt formats ctx.

(** [is_streaming] is [vb2_is_streaming(vq)] and [peer_is_busy] is
    [vb2_is_busy(peer_vq)].  The result is the status returned, the context
    and the format left in [f]. *)
Definition vidioc_s_fmt_out_mplane (formats : list rockchip_vpu_fmt)
  (ctx : rockchip_vpu_ctx) (is_streaming peer_is_busy : bool)
  (pix_mp : v4l2_pix_format_mplane)
  : option (ret_t * rockchip_vpu_ctx * v4l2_pix_format_mplane) :=
  (* Change not allowed if queue is streaming. *)
  if is_streaming then Some (Ret_neg EBUSY, ctx, pix_mp)
  else if negb (rockchip_vpu_is_encoder_ctx ctx) && peer_is_busy
  then Some (Ret_neg EBUSY, ctx, pix_mp)
  else
    r ← vidioc_try_fmt_out_mplane formats ctx pix_mp;
    match r.1 with
    | Ret_neg e => Some (Ret_neg e, ctx, r.2)
    | Ret_0 =>
        let pix_mp := r.2 in
        let ctx :=
          ctx_with_src ctx
            (rockchip_vpu_find_format formats (pixelformat pix_mp)) pix_mp in
        if rockchip_vpu_is_encoder_ctx ctx then
          (* Propagate to the CAPTURE format *)
          Some (Ret_0,
                ctx_with_dst ctx (vpu_dst_fmt ctx)
                  (pix_propagate (dst_fmt ctx) pix_mp),
                pix_mp)
        else
          ctx ← rockchip_vpu_reset_raw_fmt formats ctx;
          Some (Ret_0, ctx, pix_mp)
    end.

Definition vidioc_s_fmt_cap_mplane (formats : list rockchip_vpu_fmt)
  (ctx : rockchip_vpu_ctx) (is_streaming peer_is_busy : bool)
  (pix_mp : v4l2_pix_format_mplane)
  : option (ret_t * rockchip_vpu_ctx * v4l2_pix_format_mplane) :=
  (* Change not allowed if queue is streaming. *)
  if is_streaming then Some (Ret_neg EBUSY, ctx, pix_mp)
  else if rockchip_vpu_is_encoder_ctx ctx && peer_is_busy &&
          (negb (pixelformat pix_mp =? pixelformat (dst_fmt ctx)) ||
           negb (height pix_mp =? height (dst_fmt ctx)) ||
           negb (width pix_mp =? width (dst_fmt ctx)))
  then Some (Ret_neg EBUSY, ctx, pix_mp)
  else
    r ← vidioc_try_fmt_cap_mplane formats ctx pix_mp;
    match r.1 with
    | Ret_neg e => Some (Ret_neg e, ctx, r.2)
    | Ret_0 =>
        let pix_mp := r.2 in
        let ctx :=
          ctx_with_dst ctx
            (rockchip_vpu_find_format formats (pixelformat pix_mp)) pix_mp in
        if rockchip_vpu_is_encoder_ctx ctx then
          ctx ← rockchip_vpu_reset_raw_fmt formats ctx;
          Some (Ret_0, ctx, pix_mp)
        else
          (* Propagate to the OUTPUT format *)
          Some (Ret_0,
                ctx_with_src ctx (vpu_src_fmt ctx)
                  (pix_propagate (src_fmt ctx) pix_mp),
                pix_mp)
    end.

End Formats.

(** ** Streaming *)

Section Streaming.
Context `{kernel_env}.

(** [type_is_output] is [V4L2_TYPE_IS_OUTPUT(q->type)]. *)
Definition rockchip_vpu_vq_is_coded (type_is_output : bool)
  (ctx : rockchip_vpu_ctx) : bool :=
  negb (eqb (rockchip_vpu_is_encoder_ctx ctx) type_is_output).

(** [init codec_mode] is what the [init] operation of the codec of that
    mode returns, [None] when the codec has no such operation; the context
    record does not hold the pointer [ctx->codec_ops] the function sets. *)
Definition rockchip_vpu_start_streaming (type_is_output : bool)
  (ctx : rockchip_vpu_ctx) (init : Z -> option ret_t)
  : option (ret_t * rockchip_vpu_ctx) :=
  let ret := Ret_0 in
  let ctx :=
    if type_is_output
    then set_sequences ctx 0 (sequence_cap ctx)
    else set_sequences ctx (sequence_out ctx) 0 in
  if rockchip_vpu_vq_is_coded type_is_output ctx then
    fmt ← (if type_is_output then vpu_src_fmt ctx else vpu_dst_fmt ctx);
    let codec_mode := codec_mode fmt in
    Some (match init codec_mode with Some r => r | None => ret end, ctx)
  else Some (ret, ctx).

(** Jobs finished one after the other, as the mem2mem framework runs them:
    each job is given by its source and destination buffers, the payload
    size and the state asked for.  The result is the context after the
    last job and the calls of all of them. *)
Fixpoint finish_jobs (ctx : rockchip_vpu_ctx)
  (jobs : list (vb2_v4l2_buffer * vb2_v4l2_buffer * Z * Z))
  : option (rockchip_vpu_ctx * list drv_call) :=
  match jobs with
  | [] => Some (ctx, [])
  | (src, dst, bytesused, result) :: jobs =>
      r ← rockchip_vpu_job_finish ctx (Some src) (Some dst) bytesused result;
      r' ← finish_jobs r.1 jobs;
      Some (r'.1, r.2 ++ r'.2)
  end.

(** The sequence numbers of the buffers handed back, in order. *)
Definition done_sequences (calls : list drv_call) : list Z :=
  omap (fun c => match c with
                 | Call_v4l2_m2m_buf_done buf _ => Some (sequence buf)
                 | _ => None
                 end) calls.

End Streaming.

(** ** Sample data

    A layout and flag values to run the code on: fields packed as in the
    RK3399 parameter-set packet and RPS table, the register-field macros as
    plain masks and shifts.  They serve the examples only; no property is
    proved for them alone. *)
Definition sample_flags : v4l2_h264_flags := {|
  V4L2_H264_DPB_ENTRY_FLAG_ACTIVE := 0x02;
  V4L2_H264_DPB_ENTRY_FLAG_LONG_TERM := 0x04;
  V4L2_H264_SPS_FLAG_DELTA_PIC_ORDER_ALWAYS_ZERO := 0x04;
  V4L2_H264_SPS_FLAG_FRAME_MBS_ONLY := 0x10;
  V4L2_H264_SPS_FLAG_MB_ADAPTIVE_FRAME_FIELD := 0x20;
  V4L2_H264_SPS_FLAG_DIRECT_8X8_INFERENCE := 0x40;
  V4L2_H264_PPS_FLAG_ENTROPY_CODING_MODE := 0x01;
  V4L2_H264_PPS_FLAG_BOTTOM_FIELD_PIC_ORDER_IN_FRAME_PRESENT := 0x02;
  V4L2_H264_PPS_FLAG_WEIGHTED_PRED := 0x04;
  V4L2_H264_PPS_FLAG_DEBLOCKING_FILTER_CONTROL_PRESENT := 0x08;
  V4L2_H264_PPS_FLAG_CONSTRAINED_INTRA_PRED := 0x10;
  V4L2_H264_PPS_FLAG_REDUNDANT_PIC_CNT_PRESENT := 0x20;
  V4L2_H264_PPS_FLAG_TRANSFORM_8X8_MODE := 0x40
|}.

Definition sample_field_off (f : ps_field) : Z :=
  match f with
  | CHROMA_FORMAT_IDC => 13
  | BIT_DEPTH_LUMA => 15
  | BIT_DEPTH_CHROMA => 18
  | QPPRIME_Y_ZERO_TRANSFORM_BYPASS_FLAG => 21
  | LOG2_MAX_FRAME_NUM_MINUS4 => 22
  | MAX_NUM_REF_FRAMES => 26
  | PIC_ORDER_CNT_TYPE => 31
  | LOG2_MAX_PIC_ORDER_CNT_LSB_MINUS4 => 33
  | DELTA_PIC_ORDER_ALWAYS_ZERO_FLAG => 37
  | PIC_WIDTH_IN_MBS => 38
  | PIC_HEIGHT_IN_MBS => 47
  | FRAME_MBS_ONLY_FLAG => 56
  | MB_ADAPTIVE_FRAME_FIELD_FLAG => 57
  | DIRECT_8X8_INFERENCE_FLAG => 58
  | ENTROPY_CODING_MODE_FLAG => 141
  | BOTTOM_FIELD_PIC_ORDER_IN_FRAME_PRESENT_FLAG => 142
  | NUM_REF_IDX_L0_DEFAULT_ACTIVE_MINUS1 => 143
  | NUM_REF_IDX_L1_DEFAULT_ACTIVE_MINUS1 => 148
  | WEIGHTED_PRED_FLAG => 153
  | WEIGHTED_BIPRED_IDC => 154
  | PIC_INIT_QP_MINUS26 => 156
  | PIC_INIT_QS_MINUS26 => 163
  | CHROMA_QP_INDEX_OFFSET => 169
  | DEBLOCKING_FILTER_CONTROL_PRESENT_FLAG => 174
  | CONSTRAINED_INTRA_PRED_FLAG => 175
  | REDUNDANT_PIC_CNT_PRESENT => 176
  | TRANSFORM_8X8_MODE_FLAG => 177
  | SECOND_CHROMA_QP_INDEX_OFFSET => 178
  | SCALING_LIST_ENABLE_FLAG => 183
  | SCALING_LIST_ADDRESS => 184
  end.

Definition sample_field_len (f : ps_field) : Z :=
  match f with
  | CHROMA_FORMAT_IDC => 2
  | BIT_DEPTH_LUMA => 3
  | BIT_DEPTH_CHROMA => 3
  | QPPRIME_Y_ZERO_TRANSFORM_BYPASS_FLAG => 1
  | LOG2_MAX_FRAME_NUM_MINUS4 => 4
  | MAX_NUM_REF_FRAMES => 5
  | PIC_ORDER_CNT_TYPE => 2
  | LOG2_MAX_PIC_ORDER_CNT_LSB_MINUS4 => 4
  | DELTA_PIC_ORDER_ALWAYS_ZERO_FLAG => 1
  | PIC_WIDTH_IN_MBS => 9
  | PIC_HEIGHT_IN_MBS => 9
  | FRAME_MBS_ONLY_FLAG => 1
  | MB_ADAPTIVE_FRAME_FIELD_FLAG => 1
  | DIRECT_8X8_INFERENCE_FLAG => 1
  | ENTROPY_CODING_MODE_FLAG => 1
  | BOTTOM_FIELD_PIC_ORDER_IN_FRAME_PRESENT_FLAG => 1
  | NUM_REF_IDX_L0_DEFAULT_ACTIVE_MINUS1 => 5
  | NUM_REF_IDX_L1_DEFAULT_ACTIVE_MINUS1 => 5
  | WEIGHTED_PRED_FLAG => 1
  | WEIGHTED_BIPRED_IDC => 2
  | PIC_INIT_QP_MINUS26 => 7
  | PIC_INIT_QS_MINUS26 => 6
  | CHROMA_QP_INDEX_OFFSET => 5
  | DEBLOCKING_FILTER_CONTROL_PRESENT_FLAG => 1
  | CONSTRAINED_INTRA_PRED_FLAG => 1
  | REDUNDANT_PIC_CNT_PRESENT => 1
  | TRANSFORM_8X8_MODE_FLAG => 1
  | SECOND_CHROMA_QP_INDEX_OFFSET => 5
  | SCALING_LIST_ENABLE_FLAG => 1
  | SCALING_LIST_ADDRESS => 32
  end.

Definition sample_regs : rk3399_vdec_regs := {|
  FIELD_OFF := sample_field_off;
  FIELD_LEN := sample_field_len;
  IS_LONG_TERM_OFF := fun i => 216 + i;
  IS_LONG_TERM_LEN := 1;
  DPB_INFO_OFF := fun i j => 288 + j * 32 * 7 + i * 7;
  DPB_INFO_LEN := 5;
  RKVDEC_MODE := fun x => Z.land x 0x3;
  RKVDEC_MODE_H264 := 1;
  RKVDEC_Y_HOR_VIRSTRIDE := fun x => Z.land x 0x1ff;
  RKVDEC_UV_HOR_VIRSTRIDE := fun x => Z.shiftl (Z.land x 0x1ff) 12;
  RKVDEC_SLICE_NUM_HIGHBIT := Z.shiftl 1 21;
  RKVDEC_SLICE_NUM_LOWBITS := fun x => Z.shiftl (Z.land x 0x7ff) 21;
  RKVDEC_STRM_LEN := fun x => Z.land x 0x7ffffff;
  RKVDEC_Y_VIRSTRIDE := fun x => Z.land x 0xfffff;
  RKVDEC_YUV_VIRSTRIDE := fun x => Z.land x 0x1fffff;
  RKVDEC_COLMV_USED_FLAG_REF := Z.shiftl 1 0;
  RKVDEC_TOPFIELD_USED_REF := Z.shiftl 1 1;
  RKVDEC_BOTFIELD_USED_REF := Z.shiftl 1 2;
  RKVDEC_CUR_POC := fun x => x;
  RKVDEC_AXI_DDR_RDATA := fun x => x;
  RKVDEC_AXI_DDR_WDATA := fun x => x;
  RKVDEC_REG_SYSCTRL := 0x008;
  RKVDEC_REG_PICPAR := 0x00C;
  RKVDEC_REG_STRM_RLC_BASE := 0x010;
  RKVDEC_REG_STRM_LEN := 0x014;
  RKVDEC_REG_CABACTBL_PROB_BASE := 0x018;
  RKVDEC_REG_DECOUT_BASE := 0x01C;
  RKVDEC_REG_Y_VIRSTRIDE := 0x020;
  RKVDEC_REG_YUV_VIRSTRIDE := 0x024;
  RKVDEC_REG_H264_BASE_REFER := fun i => 0x028 + i * 4;
  RKVDEC_REG_H264_BASE_REFER15 := 0x0C0;
  RKVDEC_REG_H264_POC_REFER0 := fun i => 0x064 + i * 4;
  RKVDEC_REG_H264_POC_REFER1 := fun i => 0x0C4 + i * 4;
  RKVDEC_REG_H264_POC_REFER2 := fun i => 0x120 + i * 4;
  RKVDEC_REG_CUR_POC0 := 0x0A0;
  RKVDEC_REG_CUR_POC1 := 0x128;
  RKVDEC_REG_PPS_BASE := 0x0A8;
  RKVDEC_REG_RPS_BASE := 0x0AC;
  RKVDEC_REG_AXI_DDR_RDATA := 0x0B8;
  RKVDEC_REG_AXI_DDR_WDATA := 0x0BC;
  RKVDEC_REG_H264_ERRINFO_BASE := 0x12C
|}.

(** A P frame with one reference: DPB slot 0 is valid and active with
    pic_num 3, and list P0 refers to it once. *)
Definition sample_dpb_entry (pn fl : Z) : v4l2_h264_dpb_entry :=
  {| reference_ts := 0; frame_num := pn; pic_num := pn;
     top_field_order_cnt := 0; bottom_field_order_cnt := 0; dpb_flags := fl |}.

Definition sample_decode_params : v4l2_ctrl_h264_decode_params :=
  {| dec_top_field_order_cnt := 8;
     dec_bottom_field_order_cnt := 8;
     ref_pic_list_p0 := 0 :: replicate 31 0xff;
     ref_pic_list_b0 := replicate 32 0xff;
     ref_pic_list_b1 := replicate 32 0xff;
     dpb := sample_dpb_entry 3 0x03 :: replicate 15 (sample_dpb_entry 0 0) |}.

(** A B frame with three pictures in the DPB, the second of them not
    active: lists P0, B0 and B1 refer to them, and list B0 holds 16, which
    is no DPB index, in its third place. *)
Definition sample_b_frame_decode_params : v4l2_ctrl_h264_decode_params :=
  {| dec_top_field_order_cnt := 8;
     dec_bottom_field_order_cnt := 8;
     ref_pic_list_p0 := [0; 2; 1] ++ replicate 29 0xff;
     ref_pic_list_b0 := [2; 0; 16] ++ replicate 29 0xff;
     ref_pic_list_b1 := 1 :: replicate 31 0xff;
     dpb := [sample_dpb_entry 3 0x03; sample_dpb_entry 5 0x01;
             sample_dpb_entry 7 0x03] ++ replicate 13 (sample_dpb_entry 0 0) |}.

(** The RPS region as a previous frame left it. *)
Definition sample_stale_rps : list Z := replicate 64 0xDEADBEEF.

(** A 1920x1080 4:2:0 stream with 8-bit samples, and a PPS for a given id
    with a negative quantiser offset. *)
Definition sample_sps : v4l2_ctrl_h264_sps :=
  {| chroma_format_idc := 1;
     bit_depth_luma_minus8 := 0;
     bit_depth_chroma_minus8 := 0;
     log2_max_frame_num_minus4 := 0;
     max_num_ref_frames := 1;
     pic_order_cnt_type := 0;
     log2_max_pic_order_cnt_lsb_minus4 := 2;
     pic_width_in_mbs_minus1 := 119;
     pic_height_in_map_units_minus1 := 67;
     sps_flags := 0x50 |}.

Definition sample_pps (id : Z) : v4l2_ctrl_h264_pps :=
  {| pic_parameter_set_id := id;
     num_ref_idx_l0_default_active_minus1 := 0;
     num_ref_idx_l1_default_active_minus1 := 0;
     weighted_bipred_idc := 0;
     pic_init_qp_minus26 := -3;
     pic_init_qs_minus26 := 0;
     chroma_qp_index_offset := -2;
     second_chroma_qp_index_offset := -2;
     pps_flags := 0x41 |}.

(** Buffers of a 1920x1080 stream whose picture store knows no reference,
    and decode parameters whose two field order counts differ. *)
Definition sample_buffers : decode_buffers :=
  {| dst_fmt_width := 1920;
     dst_fmt_height := 1080;
     priv_dma := 0x10000000;
     src_dma_addr := 0x20000000;
     src_plane_size := 0x100000;
     dst_dma_addr := 0x30000000;
     rockchip_vpu_get_ref := fun _ => 0 |}.

(** The same buffers with a picture store that holds the reference of
    time stamp 0. *)
Definition sample_buffers_with_ref : decode_buffers :=
  {| dst_fmt_width := 1920;
     dst_fmt_height := 1080;
     priv_dma := 0x10000000;
     src_dma_addr := 0x20000000;
     src_plane_size := 0x100000;
     dst_dma_addr := 0x30000000;
     rockchip_vpu_get_ref := fun ts => if ts =? 0 then 0x40000000 else 0 |}.

Definition sample_decode_params_poc (top bottom : Z) : v4l2_ctrl_h264_decode_params :=
  {| dec_top_field_order_cnt := top;
     dec_bottom_field_order_cnt := bottom;
     ref_pic_list_p0 := ref_pic_list_p0 sample_decode_params;
     ref_pic_list_b0 := ref_pic_list_b0 sample_decode_params;
     ref_pic_list_b1 := ref_pic_list_b1 sample_decode_params;
     dpb := dpb sample_decode_params |}.

(** Scaling lists that are raster lists put in zig-zag order, and the
    scaling-list region as earlier frames left it. *)
Definition sample_raster_4x4 : list (list Z) :=
  (fun i => (fun k => Z.of_nat (i + k)) <$> seq 0 16) <$> seq 0 6.

Definition sample_raster_8x8 : list (list Z) :=
  (fun i => (fun k => Z.of_nat (100 + i + k)) <$> seq 0 64) <$> seq 0 6.

Definition sample_scaling_matrix : v4l2_ctrl_h264_scaling_matrix :=
  {| scaling_list_4x4 := raster_to_zig_zag zig_zag_4x4 <$> sample_raster_4x4;
     scaling_list_8x8 := raster_to_zig_zag zig_zag_8x8 <$> sample_raster_8x8 |}.

Definition sample_stale_scaling_list : list Z := replicate 608 0xEE.

(** The parameter-set table as earlier frames left it. *)
Definition sample_stale_param_set : list Z := replicate 2048 0xA5A5A5A5.

(** Start registers for the examples, an auxiliary buffer as earlier frames
    left it, and the controls of a request. *)
Definition sample_start_regs : rk3399_vdec_start_regs := {|
  RKVDEC_REG_INTERRUPT := 0x004;
  RKVDEC_INTERRUPT_DEC_E := Z.shiftl 1 0;
  RKVDEC_CONFIG_DEC_CLK_GATE_E := Z.shiftl 1 1
|}.

Definition sample_priv_tbl : rk3399_vdec_h264_priv_tbl :=
  {| cabac_table := replicate 952 0;
     scaling_list := sample_stale_scaling_list;
     rps := sample_stale_rps;
     param_set := sample_stale_param_set;
     err_info := [] |}.

Definition sample_ctrls : h264_ctrls :=
  {| ctrl_h264_scaling_matrix := Some sample_scaling_matrix;
     ctrl_h264_decode_params := Some sample_decode_params;
     ctrl_h264_slice_params := Some h264_slice_params;
     ctrl_h264_sps := Some sample_sps;
     ctrl_h264_pps := Some (sample_pps 5) |}.

(** A kernel environment, a format table with three raw formats and one
    coded format, and encoder and decoder contexts to run the driver core
    on. *)
Definition sample_kernel_env : kernel_env := {|
  BITS_PER_LONG := 64;
  VB2_BUF_STATE_ERROR := 6;
  v4l2_m2m_buf_copy_metadata := fun _ dst _ => dst
|}.

Definition sample_frmsize : v4l2_frmsize_stepwise :=
  {| min_width := 96; max_width := 8192; step_width := 16;
     min_height := 32; max_height := 8192; step_height := 16 |}.

Definition sample_raw_fmt (fcc : Z) : rockchip_vpu_fmt :=
  {| fourcc := fcc; codec_mode := RK_VPU_MODE_NONE; header_size := 0;
     max_depth := 0;
     frmsize := {| min_width := 0; max_width := 0; step_width := 0;
                   min_height := 0; max_height := 0; step_height := 0 |} |}.

Definition sample_coded_fmt : rockchip_vpu_fmt :=
  {| fourcc := 0x4745504A; codec_mode := 0; header_size := 601;
     max_depth := 2; frmsize := sample_frmsize |}.

Definition sample_formats : list rockchip_vpu_fmt :=
  [ sample_raw_fmt 0x32314D59; sample_raw_fmt 0x32314D4E;
    sample_coded_fmt; sample_raw_fmt 0x56595559 ].

Definition sample_pix_fmt (size : Z) : v4l2_pix_format_mplane :=
  {| width := 640; height := 480; pixelformat := 0x4745504A;
     pix_field := 1; colorspace := 7;
     plane_fmt := {| sizeimage := size |} ::
                  replicate 7 {| sizeimage := 0 |};
     pix_num_planes := 1;
     ycbcr_enc := 0; quantization := 0; xfer_func := 0 |}.

Definition sample_ctx (fn : buf_finish_fn) : rockchip_vpu_ctx :=
  {| sequence_cap := 7;
     sequence_out := 7;
     vpu_src_fmt := Some (sample_raw_fmt 0x32314D59);
     src_fmt := sample_pix_fmt 4096;
     vpu_dst_fmt := Some sample_coded_fmt;
     dst_fmt := sample_pix_fmt 1024;
     buf_finish := fn;
     jpeg_enc_bounce_buffer_cpu := Some (replicate 512 0x5A) |}.

Definition sample_vb2_buffer (size : Z) : vb2_buffer :=
  {| vb2_plane_size := fun i => if i =? 0 then size else 0;
     vb2_plane_vaddr0 := replicate (Z.to_nat size) 0;
     planes0_bytesused := 0 |}.

Definition sample_v4l2_buffer (size : Z) : vb2_v4l2_buffer :=
  {| sequence := 0; vb2_buf := sample_vb2_buffer size |}.

(** Values of the uAPI constants, [clamp] as the minimum of the upper
    bound and the maximum of the value and the lower bound, and a
    [v4l2_fill_pixfmt_mp] that stores the FourCC and the frame size. *)
Definition sample_v4l2_env : v4l2_env := {|
  V4L2_FIELD_NONE := 1;
  V4L2_COLORSPACE_JPEG := 7;
  V4L2_YCBCR_ENC_DEFAULT := 0;
  V4L2_QUANTIZATION_DEFAULT := 0;
  V4L2_XFER_FUNC_DEFAULT := 0;
  clamp := fun val lo hi => Z.min (Z.max val lo) hi;
  v4l2_fill_pixfmt_mp := fun p fcc w h =>
    pix_with_height (pix_with_width (pix_with_pixelformat p fcc) w) h
|}.

(* ================================================================== *)
(** * Properties *)

Module BitFieldFacts.

Example write_header_inside :
  write_header 5 [0xFFFFFFFF; 0] 4 3 = Some [0xFFFFFFDF; 0].
Proof. reflexivity. Qed.

Example write_header_straddle :
  write_header 0xAB [0xFFFFFFFF; 0xFFFFFFFF] 28 8 = Some [0xBFFFFFFF; 0xFFFFFFFA].
Proof. reflexivity. Qed.

Example write_header_unmasked :
  write_header 0xFF [0; 0] 0 4 = Some [0xFF; 0].
Proof. reflexivity. Qed.

Example write_header_full_word :
  write_header 7 [0xFFFFFFFF; 0] 0 32 = None.
Proof. reflexivity. Qed.

Example write_header_full_straddle :
  write_header 0x12345678 [0; 0xFFFFFFFF] 24 32 = Some [0x78000000; 0xFF123456].
Proof. reflexivity. Qed.

(** *** Bit-level facts on 32-bit words *)

Lemma testbit_u32 z k : Z.testbit (u32 z) k = (k <? 32) && Z.testbit z k.
Proof.
  unfold u32. destruct (Z.ltb_spec k 32) as [Hk|Hk]; simpl.
  - now apply Z.mod_pow2_bits_low.
  - apply Z.mod_pow2_bits_high. lia.
Qed.

Lemma testbit_ones n k : 0 <= n -> Z.testbit (Z.ones n) k = (0 <=? k) && (k <? n).
Proof.
  intros Hn. destruct (Z.leb_spec 0 k) as [Hk|Hk]; simpl.
  - destruct (Z.ltb_spec k n).
    + apply Z.ones_spec_low. lia.
    + apply Z.ones_spec_high. lia.
  - apply Z.testbit_neg_r. lia.
Qed.

Lemma testbit_not32 z k : 0 <= k -> Z.testbit (not32 z) k = (k <? 32) && negb (Z.testbit z k).
Proof. intros Hk. unfold not32. rewrite testbit_u32, Z.lnot_spec by lia. reflexivity. Qed.

Lemma mask_ones len : 0 <= len < 32 -> sub32 (u32 (Z.shiftl 1 len)) 1 = Z.ones len.
Proof.
  intros Hlen. rewrite Z.shiftl_1_l, Z.ones_equiv. unfold sub32, u32.
  assert (0 < 2 ^ len < 2 ^ 32) by (split; [lia | apply Z.pow_lt_mono_r; lia]).
  rewrite (Z.mod_small (2 ^ len)) by lia. rewrite Z.mod_small by lia. lia.
Qed.

(** The word produced by "clear the field, then or the shifted value in". *)
Lemma field_word_bits w value bit len k :
  0 <= bit -> 0 <= len -> 0 <= k < 32 ->
  Z.testbit (Z.lor (Z.land w (not32 (u32 (Z.shiftl (Z.ones len) bit))))
                   (u32 (Z.shiftl value bit))) k
  = if decide (bit <= k < bit + len) then Z.testbit value (k - bit)
    else Z.testbit w k || Z.testbit value (k - bit).
Proof.
  intros Hbit Hlen Hk.
  rewrite Z.lor_spec, Z.land_spec, testbit_not32, !testbit_u32 by lia.
  rewrite !Z.shiftl_spec, testbit_ones by lia.
  assert ((k <? 32) = true) as -> by (apply Z.ltb_lt; lia). simpl.
  destruct (decide (bit <= k < bit + len)) as [Hin|Hout].
  - assert ((0 <=? k - bit) = true) as -> by (apply Z.leb_le; lia).
    assert ((k - bit <? len) = true) as -> by (apply Z.ltb_lt; lia).
    simpl. now rewrite andb_false_r.
  - assert ((0 <=? k - bit) && (k - bit <? len) = false) as ->.
    { apply andb_false_iff. rewrite Z.leb_gt, Z.ltb_ge. lia. }
    simpl. now rewrite andb_true_r.
Qed.

(** The second word of a straddling write. *)
Lemma tail_word_bits w value len1 len2 k :
  0 <= len1 -> 0 <= len2 < 32 -> 0 <= k < 32 ->
  Z.testbit (Z.lor (Z.land w (not32 (Z.ones len2))) (Z.shiftr value len1)) k
  = if decide (k < len2) then Z.testbit value (k + len1)
    else Z.testbit w k || Z.testbit value (k + len1).
Proof.
  intros H1 H2 Hk.
  rewrite Z.lor_spec, Z.land_spec, testbit_not32, testbit_ones by lia.
  rewrite Z.shiftr_spec by lia.
  assert ((k <? 32) = true) as -> by (apply Z.ltb_lt; lia).
  assert ((0 <=? k) = true) as -> by (apply Z.leb_le; lia). simpl.
  destruct (decide (k < len2)) as [Hin|Hout].
  - assert ((k <? len2) = true) as -> by (apply Z.ltb_lt; lia).
    simpl. now rewrite andb_false_r.
  - assert ((k <? len2) = false) as -> by (apply Z.ltb_ge; lia).
    simpl. now rewrite andb_true_r.
Qed.

(** *** Closed forms of [write_header] *)

Lemma u32_small z : 0 <= z < 2 ^ 32 -> u32 z = z.
Proof. intros H. unfold u32. now apply Z.mod_small. Qed.

Lemma and_assign_eq buffer word m w :
  buffer !! Z.to_nat word = Some w ->
  and_assign buffer word m = Some (<[Z.to_nat word := Z.land w m]> buffer).
Proof.
  intros Hw. unfold and_assign, load, store. rewrite Hw. simpl.
  apply lookup_lt_Some in Hw. now rewrite decide_True by lia.
Qed.

Lemma or_assign_eq buffer word v w :
  buffer !! Z.to_nat word = Some w ->
  or_assign buffer word v = Some (<[Z.to_nat word := Z.lor w v]> buffer).
Proof.
  intros Hw. unfold or_assign, load, store. rewrite Hw. simpl.
  apply lookup_lt_Some in Hw. now rewrite decide_True by lia.
Qed.

Lemma shl32_eq a n : 0 <= n < 32 -> shl32 a n = Some (u32 (Z.shiftl a n)).
Proof. intros H. unfold shl32. now rewrite decide_True. Qed.

Lemma shr32_eq a n : 0 <= n < 32 -> shr32 a n = Some (Z.shiftr a n).
Proof. intros H. unfold shr32. now rewrite decide_True. Qed.

Lemma write_header_inside_eq value buffer offset len w :
  0 <= offset -> 0 <= len < 32 -> offset mod 32 + len <= 32 ->
  buffer !! Z.to_nat (offset / 32) = Some w ->
  write_header value buffer offset len =
  Some (<[Z.to_nat (offset / 32) := field_word w value (offset mod 32) len]> buffer).
Proof.
  intros Hoff Hlen Hin Hw.
  pose proof (Z.mod_pos_bound offset 32 ltac:(lia)) as Hbit.
  unfold write_header, add32.
  rewrite u32_small by lia. rewrite decide_False by lia.
  rewrite (shl32_eq 1 len) by lia. simpl.
  rewrite mask_ones by lia.
  rewrite (shl32_eq (Z.ones len)) by lia. simpl.
  rewrite (and_assign_eq _ _ _ w) by assumption. simpl.
  rewrite ?(shl32_eq value) by lia. simpl.
  pose proof (lookup_lt_Some _ _ _ Hw) as Hlt.
  erewrite or_assign_eq by (now apply list_lookup_insert_eq).
  now rewrite list_insert_insert_eq.
Qed.

Lemma write_header_straddle_eq value buffer offset len w1 w2 :
  0 <= offset < 2 ^ 32 -> 0 <= len <= 32 -> offset mod 32 + len > 32 ->
  buffer !! Z.to_nat (offset / 32) = Some w1 ->
  buffer !! S (Z.to_nat (offset / 32)) = Some w2 ->
  write_header value buffer offset len =
  Some (<[S (Z.to_nat (offset / 32)) :=
            tail_word w2 value (32 - offset mod 32) (len + offset mod 32 - 32)]>
        (<[Z.to_nat (offset / 32) :=
            field_word w1 value (offset mod 32) (32 - offset mod 32)]> buffer)).
Proof.
  intros Hoff Hlen Hin Hw1 Hw2.
  pose proof (Z.mod_pos_bound offset 32 ltac:(lia)) as Hbit.
  assert (0 <= offset / 32 < 2 ^ 27) as Hword.
  { split; [apply Z.div_pos; lia | apply Z.div_lt_upper_bound; lia]. }
  unfold write_header, add32, sub32.
  rewrite (u32_small (len + _)) by lia. rewrite decide_True by lia.
  rewrite (u32_small (32 - _)) by lia.
  rewrite (u32_small (len + _ - 32)) by lia.
  rewrite (u32_small (offset / 32 + 1)) by lia.
  assert (Z.to_nat (offset / 32 + 1) = S (Z.to_nat (offset / 32))) as Hs by lia.
  rewrite (shl32_eq 1 (32 - _)) by lia. simpl.
  fold (sub32 (u32 (Z.shiftl 1 (32 - offset mod 32))) 1).
  rewrite mask_ones by lia.
  rewrite (shl32_eq (Z.ones _)) by lia. simpl.
  rewrite (and_assign_eq _ _ _ w1) by assumption. simpl.
  rewrite ?(shl32_eq value) by lia. simpl.
  pose proof (lookup_lt_Some _ _ _ Hw1) as Hlt1.
  erewrite or_assign_eq by (now apply list_lookup_insert_eq).
  rewrite list_insert_insert_eq. simpl.
  rewrite shr32_eq by lia. simpl.
  rewrite (shl32_eq 1 (len + _ - 32)) by lia. simpl.
  fold (sub32 (u32 (Z.shiftl 1 (len + offset mod 32 - 32))) 1).
  rewrite mask_ones by lia.
  erewrite and_assign_eq
    by (rewrite Hs, list_lookup_insert_ne by lia; eassumption).
  simpl.
  pose proof (lookup_lt_Some _ _ _ Hw2) as Hlt2.
  erewrite or_assign_eq
    by (apply list_lookup_insert_eq; rewrite length_insert; lia).
  now rewrite list_insert_insert_eq, Hs.
Qed.

(** *** The effect of [write_header], bit by bit *)

Lemma buf_bit_insert buffer n w k :
  0 <= k -> (n < length buffer)%nat ->
  buf_bit (<[n := w]> buffer) k =
  if decide (k / 32 = Z.of_nat n) then Z.testbit w (k mod 32) else buf_bit buffer k.
Proof.
  intros Hk Hn. unfold buf_bit.
  assert (0 <= k / 32) by (apply Z.div_pos; lia).
  destruct (decide (k / 32 = Z.of_nat n)) as [Heq|Hne].
  - replace (Z.to_nat (k / 32)) with n by lia.
    now rewrite list_lookup_insert_eq.
  - now rewrite list_lookup_insert_ne by lia.
Qed.

Lemma testbit_neg z k : k < 0 -> Z.testbit z k = false.
Proof. apply Z.testbit_neg_r. Qed.

Lemma write_header_spec value buffer offset len :
  is_u32 value -> field_defined offset len -> field_inside buffer offset len ->
  exists buffer',
    write_header value buffer offset len = Some buffer' /\
    length buffer' = length buffer /\
    (forall n : nat,
        Z.of_nat n < offset / 32 \/ (offset + len - 1) / 32 < Z.of_nat n ->
        buffer' !! n = buffer !! n) /\
    (forall k, 0 <= k ->
        buf_bit buffer' k =
        if decide (offset <= k < offset + len) then Z.testbit value (k - offset)
        else buf_bit buffer k ||
             ((k <? 32 * ((offset + len - 1) / 32 + 1)) && Z.testbit value (k - offset))).
Proof.
  intros Hv (Hoff & Hlen & Hub) Hfit. unfold field_inside in Hfit.
  pose proof (Z.mod_pos_bound offset 32 ltac:(lia)) as Hbit.
  pose proof (Z.div_mod offset 32 ltac:(lia)) as Hdm.
  assert (0 <= offset / 32) as Hq by (apply Z.div_pos; lia).
  destruct (Z_le_gt_dec (offset mod 32 + len) 32) as [Hin|Hst].
  - (* the field lies in one word *)
    assert ((offset + len - 1) / 32 = offset / 32) as Hlast.
    { symmetry. apply (Z.div_unique _ _ _ (offset mod 32 + len - 1)); lia. }
    rewrite Hlast in *.
    destruct (lookup_lt_is_Some_2 buffer (Z.to_nat (offset / 32)) ltac:(lia)) as [w Hw].
    pose proof (lookup_lt_Some _ _ _ Hw) as Hlt.
    eexists. split; [apply (write_header_inside_eq _ _ _ _ w); try assumption; lia|].
    split; [apply length_insert|]. split.
    + intros n Hn. apply list_lookup_insert_ne. lia.
    + intros k Hk. rewrite buf_bit_insert by assumption.
      pose proof (Z.mod_pos_bound k 32 ltac:(lia)) as Hkm.
      pose proof (Z.div_mod k 32 ltac:(lia)) as Hkdm.
      destruct (decide (k / 32 = Z.of_nat (Z.to_nat (offset / 32)))) as [Heq|Hne].
      * unfold field_word. rewrite field_word_bits by lia.
        replace (k mod 32 - offset mod 32) with (k - offset) by lia.
        assert ((k <? 32 * (offset / 32 + 1)) = true) as -> by (apply Z.ltb_lt; lia).
        unfold buf_bit. replace (Z.to_nat (k / 32)) with (Z.to_nat (offset / 32)) by lia.
        rewrite Hw. simpl.
        destruct (decide (offset mod 32 <= k mod 32 < offset mod 32 + len));
          [rewrite decide_True by lia | rewrite decide_False by lia]; reflexivity.
      * rewrite decide_False by lia.
        destruct (Z.ltb_spec k (32 * (offset / 32 + 1))) as [Hlo|Hhi]; simpl.
        -- rewrite (testbit_neg value) by lia. now rewrite orb_false_r.
        -- now rewrite orb_false_r.
  - (* the field straddles two words *)
    assert ((offset + len - 1) / 32 = offset / 32 + 1) as Hlast.
    { symmetry. apply (Z.div_unique _ _ _ (offset mod 32 + len - 1 - 32)); lia. }
    rewrite Hlast in *.
    destruct (lookup_lt_is_Some_2 buffer (Z.to_nat (offset / 32)) ltac:(lia)) as [w1 Hw1].
    destruct (lookup_lt_is_Some_2 buffer (S (Z.to_nat (offset / 32))) ltac:(lia)) as [w2 Hw2].
    pose proof (lookup_lt_Some _ _ _ Hw1) as Hlt1.
    pose proof (lookup_lt_Some _ _ _ Hw2) as Hlt2.
    eexists. split; [apply (write_header_straddle_eq _ _ _ _ w1 w2); try assumption; lia|].
    split; [now rewrite !length_insert|]. split.
    + intros n Hn. rewrite !list_lookup_insert_ne by lia. reflexivity.
    + intros k Hk.
      pose proof (Z.mod_pos_bound k 32 ltac:(lia)) as Hkm.
      pose proof (Z.div_mod k 32 ltac:(lia)) as Hkdm.
      rewrite buf_bit_insert by (rewrite ?length_insert; lia).
      destruct (decide (k / 32 = Z.of_nat (S (Z.to_nat (offset / 32))))) as [Heq2|Hne2].
      * unfold tail_word. rewrite tail_word_bits by lia.
        replace (k mod 32 + (32 - offset mod 32)) with (k - offset) by lia.
        assert ((k <? 32 * (offset / 32 + 1 + 1)) = true) as -> by (apply Z.ltb_lt; lia).
        unfold buf_bit.
        replace (Z.to_nat (k / 32)) with (S (Z.to_nat (offset / 32))) by lia.
        rewrite Hw2. simpl.
        destruct (decide (k mod 32 < len + offset mod 32 - 32));
          [rewrite decide_True by lia | rewrite decide_False by lia]; reflexivity.
      * rewrite buf_bit_insert by lia.
        destruct (decide (k / 32 = Z.of_nat (Z.to_nat (offset / 32)))) as [Heq1|Hne1].
        -- unfold field_word. rewrite field_word_bits by lia.
           replace (k mod 32 - offset mod 32) with (k - offset) by lia.
           unfold buf_bit.
           replace (Z.to_nat (k / 32)) with (Z.to_nat (offset / 32)) by lia.
           rewrite Hw1.
           destruct (decide (offset mod 32 <= k mod 32 < offset mod 32 + (32 - offset mod 32))).
           ++ now rewrite decide_True by lia.
           ++ rewrite decide_False by lia.
              rewrite (testbit_neg value) by lia. now rewrite andb_false_r.
        -- rewrite decide_False by lia.
           destruct (Z.ltb_spec k (32 * (offset / 32 + 1 + 1))) as [Hlo|Hhi]; simpl.
           ++ rewrite (testbit_neg value) by lia. now rewrite orb_false_r.
           ++ now rewrite orb_false_r.
Qed.

Lemma testbit_above value len i :
  0 <= value < 2 ^ len -> len <= i -> Z.testbit value i = false.
Proof.
  intros Hv Hi. destruct (Z_lt_le_dec len 0) as [Hneg|Hpos].
  - rewrite Z.pow_neg_r in Hv by lia. lia.
  - rewrite <- (Z.mod_small value (2 ^ len)) by lia.
    apply Z.mod_pow2_bits_high. lia.
Qed.

Lemma read_bits_spec buffer n : forall offset i,
  Z.testbit (read_bits buffer offset n) i =
  if decide (0 <= i < Z.of_nat n) then buf_bit buffer (offset + i) else false.
Proof.
  induction n as [|n IH]; intros offset i.
  - simpl. rewrite Z.bits_0. now rewrite decide_False by lia.
  - cbn [read_bits]. destruct (Z_lt_le_dec i 0) as [Hneg|Hpos].
    + rewrite testbit_neg by lia. now rewrite decide_False by lia.
    + destruct (Z.eq_dec i 0) as [->|Hnz].
      * rewrite Z.testbit_0_r, Z.add_0_r. now rewrite decide_True by lia.
      * replace i with (Z.succ (i - 1)) at 1 by lia.
        rewrite Z.testbit_succ_r by lia. rewrite IH.
        replace (offset + 1 + (i - 1)) with (offset + i) by lia.
        destruct (decide (0 <= i - 1 < Z.of_nat n));
          [rewrite decide_True by lia | rewrite decide_False by lia]; reflexivity.
Qed.

Lemma read_field_spec buffer offset len i :
  0 <= len ->
  Z.testbit (read_field buffer offset len) i =
  if decide (0 <= i < len) then buf_bit buffer (offset + i) else false.
Proof.
  intros Hlen. unfold read_field. rewrite read_bits_spec.
  destruct (decide (0 <= i < Z.of_nat (Z.to_nat len)));
    [rewrite decide_True by lia | rewrite decide_False by lia]; reflexivity.
Qed.

(** A value that fits in the field is stored without side effect. *)
Lemma write_header_masked value buffer offset len :
  0 <= value < 2 ^ len ->
  field_defined offset len -> field_inside buffer offset len ->
  exists buffer',
    write_header value buffer offset len = Some buffer' /\
    length buffer' = length buffer /\
    read_field buffer' offset len = value /\
    (forall k, 0 <= k -> ~ (offset <= k < offset + len) ->
               buf_bit buffer' k = buf_bit buffer k).
Proof.
  intros Hv Hdef Hfit.
  assert (is_u32 value) as Hu.
  { destruct Hdef as (_ & Hlen & _). split; [lia|].
    apply Z.lt_le_trans with (2 ^ len); [lia | apply Z.pow_le_mono_r; lia]. }
  destruct (write_header_spec value buffer offset len Hu Hdef Hfit)
    as (buffer' & Heq & Hlength & _ & Hbits).
  destruct Hdef as (Hoff & Hlen & _).
  exists buffer'. repeat split; try assumption.
  - apply Z.bits_inj'. intros i Hi. rewrite read_field_spec by lia.
    destruct (decide (0 <= i < len)) as [Hin|Hout].
    + rewrite Hbits by lia. rewrite decide_True by lia. f_equal. lia.
    + symmetry. apply (testbit_above value len); lia.
  - intros k Hk Hout. rewrite Hbits by lia. rewrite decide_False by assumption.
    destruct (Z_lt_le_dec k offset).
    + rewrite (testbit_neg value) by lia. now rewrite andb_false_r, orb_false_r.
    + rewrite (testbit_above value len) by lia. now rewrite andb_false_r, orb_false_r.
Qed.

(** The bits of the value from [len] on that land in the last word the
    call touches decide whether the call disturbs the buffer: it leaves
    every bit outside the field alone exactly when each of them that is set
    falls on a bit of the buffer that is set already. *)
Lemma field_written_iff value buffer offset len :
  is_u32 value -> field_defined offset len -> field_inside buffer offset len ->
  (field_written value buffer offset len <->
   forall k, offset + len <= k < 32 * ((offset + len - 1) / 32 + 1) ->
     Z.testbit value (k - offset) = true -> buf_bit buffer k = true).
Proof.
  intros Hu Hdef Hfit.
  destruct (write_header_spec value buffer offset len Hu Hdef Hfit)
    as (buffer' & Heq & Hlength & _ & Hbits).
  destruct Hdef as (Hoff & Hlen & _).
  split.
  - intros (b & Hb & _ & Hother) k Hk Hset.
    rewrite Heq in Hb. injection Hb as <-.
    specialize (Hother k ltac:(lia) ltac:(lia)).
    rewrite Hbits in Hother by lia. rewrite decide_False in Hother by lia.
    rewrite Hset in Hother.
    assert ((k <? 32 * ((offset + len - 1) / 32 + 1)) = true) as Hlt
      by (apply Z.ltb_lt; lia).
    rewrite Hlt in Hother. simpl in Hother. rewrite orb_true_r in Hother.
    now symmetry.
  - intros Hcond. exists buffer'. split; [assumption|]. split.
    + intros k Hk. rewrite Hbits by lia. now rewrite decide_True by lia.
    + intros k Hk Hout. rewrite Hbits by lia. rewrite decide_False by assumption.
      destruct (Z.ltb_spec k (32 * ((offset + len - 1) / 32 + 1))) as [Hlo|Hhi];
        simpl; [|now rewrite orb_false_r].
      destruct (Z.testbit value (k - offset)) eqn:Hset;
        [|now rewrite orb_false_r].
      destruct (Z_lt_le_dec k offset) as [Hbelow|Habove].
      * rewrite testbit_neg in Hset by lia. discriminate.
      * rewrite (Hcond k) by (lia || assumption). reflexivity.
Qed.

(** The low [m] bits of a number are below [2^len] exactly when its bits
    from [len] to [m - 1] are clear. *)
Lemma low_bits_below value m len :
  0 <= len <= m ->
  (value mod 2 ^ m < 2 ^ len <->
   forall i, len <= i < m -> Z.testbit value i = false).
Proof.
  intros Hm.
  pose proof (Z.mod_pos_bound value (2 ^ m) ltac:(apply Z.pow_pos_nonneg; lia))
    as Hrange.
  split.
  - intros Hsmall i Hi.
    rewrite <- (Z.mod_pow2_bits_low value m i) by lia.
    apply (testbit_above _ len); lia.
  - intros Hclear.
    destruct (Z_lt_le_dec (value mod 2 ^ m) (2 ^ len)) as [|Hbig]; [assumption|].
    exfalso.
    assert (0 < value mod 2 ^ m) as Hpos.
    { pose proof (Z.pow_pos_nonneg 2 len ltac:(lia) ltac:(lia)). lia. }
    pose proof (Z.bit_log2 _ Hpos) as Hbit.
    apply Z.log2_le_pow2 in Hbig; [|assumption].
    assert (Z.log2 (value mod 2 ^ m) < m) as Hlog
      by (apply Z.log2_lt_pow2; [assumption | lia]).
    rewrite Z.mod_pow2_bits_low in Hbit by lia.
    rewrite Hclear in Hbit by lia. discriminate.
Qed.

(** The stream bits from the field to the end of the last word it lies in
    are at least as many as the bits of the field. *)
Lemma last_word_room offset len :
  0 <= len <= 32 * ((offset + len - 1) / 32 + 1) - offset \/ len < 0.
Proof.
  destruct (Z_lt_le_dec len 0) as [|Hlen]; [now right | left].
  pose proof (Z.div_mod (offset + len - 1) 32 ltac:(lia)).
  pose proof (Z.mod_pos_bound (offset + len - 1) 32 ltac:(lia)).
  lia.
Qed.

(** C2, as stated, fails: a value wider than the field is or-ed into the
    word unmasked, so it sets bits above the field.  Writing [0xFF] into the
    4-bit field at bit 0 of a zeroed buffer leaves [0xFF] in the first word:
    bits 4 to 7, outside the field, have changed. *)
Lemma write_header_unmasked_value_spills : ~ field_written 0xFF [0; 0] 0 4.
Proof.
  intros (buffer' & Heq & _ & Hother).
  assert (buffer' = [0xFF; 0]) as -> by (vm_compute in Heq; congruence).
  specialize (Hother 4 ltac:(lia) ltac:(lia)).
  vm_compute in Hother. discriminate.
Qed.

(** C2 (amended): for every 32-bit value, buffer, bit offset and length
    [1 <= len <= 32] whose shifts are defined, [write_header] succeeds,
    the bits in [[offset, offset+len)] hold the low [len] bits of the value
    (also when the field straddles two words) and the bits below the field
    are preserved; the bits above the field are or-ed, up to the end of the
    last touched word, with the bits of the value from [len] on.  So every
    bit outside the field is preserved when the value fits in [len] bits,
    and in general exactly when each bit of the value that lands above the
    field and is set falls on a bit of the buffer that is set already.  It
    is preserved whatever the buffer holds exactly when the value has no
    set bit that lands above the field, that is when the value taken modulo
    [2^m] is below [2^len], [m] being the number of stream bits from
    [offset] to the end of the last touched word: the bits of the value
    from [m] on are shifted out of a one-word write. *)
Theorem write_header_field value buffer offset len :
  is_u32 value -> field_defined offset len -> field_inside buffer offset len ->
  (exists buffer',
      write_header value buffer offset len = Some buffer' /\
      length buffer' = length buffer /\
      (forall k, offset <= k < offset + len ->
                 buf_bit buffer' k = Z.testbit value (k - offset)) /\
      (forall k, 0 <= k < offset -> buf_bit buffer' k = buf_bit buffer k) /\
      (forall k, offset + len <= k ->
                 buf_bit buffer' k =
                 buf_bit buffer k ||
                 ((k <? 32 * ((offset + len - 1) / 32 + 1)) &&
                  Z.testbit value (k - offset)))) /\
  (value < 2 ^ len -> field_written value buffer offset len) /\
  (field_written value buffer offset len <->
   forall k, offset + len <= k < 32 * ((offset + len - 1) / 32 + 1) ->
     Z.testbit value (k - offset) = true -> buf_bit buffer k = true) /\
  ((forall b, length b = length buffer -> field_written value b offset len) <->
   value mod 2 ^ (32 * ((offset + len - 1) / 32 + 1) - offset) < 2 ^ len).
Proof.
  intros Hu Hdef Hfit. split; [|split; [|split]].
  - destruct (write_header_spec value buffer offset len Hu Hdef Hfit)
      as (buffer' & Heq & Hlength & _ & Hbits).
    destruct Hdef as (Hoff & Hlen & _).
    exists buffer'. repeat split; try assumption.
    + intros k Hk. rewrite Hbits by lia. now rewrite decide_True by lia.
    + intros k Hk. rewrite Hbits by lia. rewrite decide_False by lia.
      rewrite (testbit_neg value) by lia. now rewrite andb_false_r, orb_false_r.
    + intros k Hk. rewrite Hbits by lia. now rewrite decide_False by lia.
  - intros Hsmall.
    destruct (write_header_masked value buffer offset len) as
      (buffer' & Heq & _ & Hread & Hframe); try assumption.
    { destruct Hu. lia. }
    exists buffer'. repeat split; try assumption.
    intros k Hk. destruct Hdef as (Hoff & Hlen & _).
    rewrite <- Hread. rewrite read_field_spec by lia.
    rewrite decide_True by lia. f_equal. lia.
  - now apply field_written_iff.
  - assert (0 <= len <= 32 * ((offset + len - 1) / 32 + 1) - offset) as Hroom.
    { destruct (last_word_room offset len) as [|Hneg]; [assumption|].
      destruct Hdef as (_ & Hlen & _). lia. }
    rewrite low_bits_below by assumption. split.
    + intros Hall i Hi.
      assert (field_inside (replicate (length buffer) 0) offset len) as Hzfit
        by (unfold field_inside in *; now rewrite length_replicate).
      pose proof (proj1 (field_written_iff value _ offset len Hu Hdef Hzfit)
                    (Hall _ (length_replicate _ _)) (offset + i) ltac:(lia))
        as Hset.
      replace (offset + i - offset) with i in Hset by lia.
      destruct (Z.testbit value i); [|reflexivity].
      specialize (Hset eq_refl). unfold buf_bit in Hset.
      destruct (replicate (length buffer) 0 !! Z.to_nat ((offset + i) / 32))
        as [w|] eqn:Hw; [|discriminate].
      apply lookup_replicate in Hw as [-> _]. rewrite Z.bits_0 in Hset.
      discriminate.
    + intros Hclear b Hb.
      assert (field_inside b offset len) as Hbfit
        by (unfold field_inside in *; now rewrite Hb).
      apply (field_written_iff value b offset len Hu Hdef Hbfit).
      intros k Hk Hset. rewrite Hclear in Hset by lia. discriminate.
Qed.

(** A masked value in a straddling field of a buffer of ones, and a value
    that is not masked but whose only set bit is shifted out of the word:
    writing [0x80000000] to the 1-bit field at bit 1 harms no buffer. *)
Lemma write_header_field_witness :
  field_written 0xAB [0xFFFFFFFF; 0xFFFFFFFF] 28 8 /\
  (forall b, length b = 2%nat -> field_written 0xAB b 28 8) /\
  (forall b, length b = 1%nat -> field_written 0x80000000 b 1 1).
Proof.
  destruct (write_header_field 0xAB [0xFFFFFFFF; 0xFFFFFFFF] 28 8)
    as (_ & Hfit & _ & Hall).
  - unfold is_u32. lia.
  - unfold field_defined. lia.
  - vm_compute. reflexivity.
  - split; [apply Hfit; lia|]. split; [apply Hall; vm_compute; reflexivity|].
    destruct (write_header_field 0x80000000 [0] 1 1) as (_ & _ & _ & Hone).
    + unfold is_u32. lia.
    + unfold field_defined. lia.
    + vm_compute. reflexivity.
    + apply Hone. vm_compute. reflexivity.
Defined.

(** C3 at its word-aligned 32-bit corner: the call takes the one-word
    branch and evaluates [1 << 32], a shift by the width of [int], so it has
    no defined result. *)
Theorem write_header_full_word_undefined value buffer offset :
  0 <= offset -> offset mod 32 = 0 -> write_header value buffer offset 32 = None.
Proof.
  intros Hoff Hbit. unfold write_header. rewrite Hbit.
  rewrite decide_False by (vm_compute; discriminate). reflexivity.
Qed.

Lemma write_header_full_word_undefined_witness :
  write_header 0x12345678 [0xFFFFFFFF; 0] 0 32 = None.
Proof.
  apply (write_header_full_word_undefined 0x12345678 [0xFFFFFFFF; 0] 0).
  - lia.
  - reflexivity.
Defined.

(** On the arm64 target a shift by a register takes its count modulo 32:
    [1 << 32] is then 1, the mask is empty and the old word is or-ed with
    the value instead of being replaced. *)
Example full_word_mask_with_count_modulo_32 :
  let one := u32 (Z.shiftl 1 (32 mod 32)) in
  let mask := u32 (Z.shiftl (sub32 one 1) 0) in
  Z.lor (Z.land 0xFFFFFFFF (not32 mask)) (u32 (Z.shiftl 0x12345678 0)) = 0xFFFFFFFF.
Proof. reflexivity. Qed.

(** Away from that corner the round trip of C3 holds on a two-word
    buffer. *)
Lemma write_header_roundtrip v w0 w1 o l :
  0 <= o < 32 -> 1 <= l <= 32 -> o + l <= 64 -> ~ (o = 0 /\ l = 32) ->
  0 <= v < 2 ^ l ->
  exists buffer',
    write_header v [w0; w1] o l = Some buffer' /\
    read_field buffer' o l = v /\
    (forall k, 0 <= k -> ~ (o <= k < o + l) ->
               buf_bit buffer' k = buf_bit [w0; w1] k).
Proof.
  intros Ho Hl Hol Hcorner Hv.
  destruct (write_header_masked v [w0; w1] o l) as (buffer' & Heq & _ & Hread & Hframe).
  - assumption.
  - unfold field_defined. repeat split; try lia.
    intros [-> Hbit]. rewrite Z.mod_small in Hbit by lia. lia.
  - unfold field_inside. simpl length.
    apply Z.div_lt_upper_bound; lia.
  - exists buffer'. auto.
Qed.

(** A write whose field lies in a prefix of the buffer acts on that prefix
    alone. *)
Lemma write_header_app value a b offset len :
  field_defined offset len -> field_inside a offset len ->
  exists a',
    write_header value a offset len = Some a' /\
    length a' = length a /\
    write_header value (a ++ b) offset len = Some (a' ++ b).
Proof.
  intros (Hoff & Hlen & Hub) Hfit. unfold field_inside in Hfit.
  pose proof (Z.mod_pos_bound offset 32 ltac:(lia)) as Hbit.
  pose proof (Z.div_mod offset 32 ltac:(lia)) as Hdm.
  assert (0 <= offset / 32) as Hq by (apply Z.div_pos; lia).
  destruct (Z_le_gt_dec (offset mod 32 + len) 32) as [Hin|Hst].
  - assert ((offset + len - 1) / 32 = offset / 32) as Hlast.
    { symmetry. apply (Z.div_unique _ _ _ (offset mod 32 + len - 1)); lia. }
    rewrite Hlast in *.
    destruct (lookup_lt_is_Some_2 a (Z.to_nat (offset / 32)) ltac:(lia)) as [w Hw].
    pose proof (lookup_lt_Some _ _ _ Hw) as Hlt.
    eexists. split; [apply (write_header_inside_eq _ _ _ _ w); try assumption; lia|].
    split; [apply length_insert|].
    rewrite (write_header_inside_eq _ _ _ _ w); try assumption; try lia.
    + now rewrite insert_app_l by assumption.
    + now rewrite lookup_app_l by assumption.
  - assert ((offset + len - 1) / 32 = offset / 32 + 1) as Hlast.
    { symmetry. apply (Z.div_unique _ _ _ (offset mod 32 + len - 1 - 32)); lia. }
    rewrite Hlast in *.
    destruct (lookup_lt_is_Some_2 a (Z.to_nat (offset / 32)) ltac:(lia)) as [w1 Hw1].
    destruct (lookup_lt_is_Some_2 a (S (Z.to_nat (offset / 32))) ltac:(lia)) as [w2 Hw2].
    pose proof (lookup_lt_Some _ _ _ Hw1) as Hlt1.
    pose proof (lookup_lt_Some _ _ _ Hw2) as Hlt2.
    eexists. split; [apply (write_header_straddle_eq _ _ _ _ w1 w2); try assumption; lia|].
    split; [now rewrite !length_insert|].
    rewrite (write_header_straddle_eq _ _ _ _ w1 w2); try assumption; try lia.
    + rewrite (insert_app_l a) by assumption.
      now rewrite insert_app_l by (rewrite length_insert; assumption).
    + now rewrite lookup_app_l by assumption.
    + now rewrite lookup_app_l by assumption.
Qed.

End BitFieldFacts.

(** ** Loops and memory primitives *)

Module LoopFacts.
Import BitFieldFacts.

Lemma for_loop_ext {St} n : forall i0 (body body' : Z -> St -> option St) s,
  (forall i s, body i s = body' i s) ->
  for_loop n i0 body s = for_loop n i0 body' s.
Proof.
  induction n as [|n IH]; intros i0 body body' s Hext; simpl; [reflexivity|].
  rewrite Hext. destruct (body' i0 s); simpl; [now apply IH | reflexivity].
Qed.

(** Invariant rule: an invariant kept by every iteration with a defined
    result makes the loop terminate with a defined result that satisfies
    it. *)
Lemma for_loop_inv {St} (P : Z -> St -> Prop) n : forall i0 body s,
  P i0 s ->
  (forall i s, i0 <= i < i0 + Z.of_nat n -> P i s ->
               exists s', body i s = Some s' /\ P (i + 1) s') ->
  exists s', for_loop n i0 body s = Some s' /\ P (i0 + Z.of_nat n) s'.
Proof.
  induction n as [|n IH]; intros i0 body s Hinit Hstep.
  - exists s. simpl. now rewrite Z.add_0_r.
  - destruct (Hstep i0 s ltac:(lia) Hinit) as (s1 & Hbody & Hinv).
    destruct (IH (i0 + 1) body s1 Hinv) as (s' & Hloop & Hfinal).
    { intros i s2 Hi. apply Hstep. lia. }
    exists s'. simpl. rewrite Hbody. simpl. split; [assumption|].
    now replace (i0 + Z.of_nat (S n)) with (i0 + 1 + Z.of_nat n) by lia.
Qed.

Lemma memset_words_all buffer :
  memset_words buffer (length buffer) = Some (replicate (length buffer) 0).
Proof.
  unfold memset_words. rewrite decide_True by lia.
  now rewrite drop_all, app_nil_r.
Qed.

Lemma buf_bit_replicate n k : buf_bit (replicate n 0) k = false.
Proof.
  unfold buf_bit. destruct (replicate n 0 !! Z.to_nat (k / 32)) as [w|] eqn:Hw.
  - apply lookup_replicate in Hw as [-> _]. apply Z.bits_0.
  - reflexivity.
Qed.

Lemma buf_bit_beyond buffer k :
  Z.of_nat (length buffer) * 32 <= k -> buf_bit buffer k = false.
Proof.
  intros Hk. unfold buf_bit.
  assert (Z.of_nat (length buffer) <= k / 32) by (apply Z.div_le_lower_bound; lia).
  now rewrite lookup_ge_None_2 by lia.
Qed.

(** A half-word store changes the sixteen bits of its half-word only. *)
Lemma store_u16_spec buffer i v :
  0 <= i -> i / 2 < Z.of_nat (length buffer) ->
  exists buffer',
    store_u16 buffer i v = Some buffer' /\
    length buffer' = length buffer /\
    forall k, 0 <= k ->
      buf_bit buffer' k =
      if decide (16 * i <= k < 16 * i + 16) then Z.testbit v (k - 16 * i)
      else buf_bit buffer k.
Proof.
  intros Hi Hlen.
  assert (0 <= i / 2) as Hq by (apply Z.div_pos; lia).
  destruct (lookup_lt_is_Some_2 buffer (Z.to_nat (i / 2)) ltac:(lia)) as [w Hw].
  pose proof (lookup_lt_Some _ _ _ Hw) as Hlt.
  unfold store_u16, load, store. rewrite Hw. simpl. rewrite decide_True by lia.
  eexists. split; [reflexivity|]. split; [apply length_insert|].
  intros k Hk. rewrite buf_bit_insert by assumption.
  pose proof (Z.mod_pos_bound k 32 ltac:(lia)) as Hkm.
  pose proof (Z.div_mod k 32 ltac:(lia)) as Hkdm.
  pose proof (Z.div_mod i 2 ltac:(lia)) as Hidm.
  pose proof (Z.mod_pos_bound i 2 ltac:(lia)) as Him.
  change 0xFFFF0000 with (Z.shiftl (Z.ones 16) 16).
  change 0x0000FFFF with (Z.ones 16).
  destruct (decide (k / 32 = Z.of_nat (Z.to_nat (i / 2)))) as [Heq|Hne].
  - unfold buf_bit. replace (Z.to_nat (k / 32)) with (Z.to_nat (i / 2)) by lia.
    rewrite Hw. rewrite Zeven_mod.
    destruct (Z.eqb_spec (i mod 2) 0) as [Hev|Hodd].
    + rewrite Z.lor_spec, Z.land_spec, Z.shiftl_spec, testbit_ones by lia.
      unfold u16. fold (Z.testbit (v mod 2 ^ 16) (k mod 32)).
      destruct (decide (16 * i <= k < 16 * i + 16)) as [Hin|Hout].
      * rewrite Z.mod_pow2_bits_low by lia.
        assert ((0 <=? k mod 32 - 16) = false) as -> by (apply Z.leb_gt; lia).
        rewrite andb_false_r. simpl. f_equal. lia.
      * rewrite Z.mod_pow2_bits_high by lia.
        assert ((0 <=? k mod 32 - 16) = true) as -> by (apply Z.leb_le; lia).
        assert ((k mod 32 - 16 <? 16) = true) as -> by (apply Z.ltb_lt; lia).
        simpl. now rewrite andb_true_r, orb_false_r.
    + rewrite Z.lor_spec, Z.land_spec, Z.shiftl_spec, testbit_ones by lia.
      unfold u16.
      destruct (decide (16 * i <= k < 16 * i + 16)) as [Hin|Hout].
      * rewrite Z.mod_pow2_bits_low by lia.
        assert ((k mod 32 <? 16) = false) as -> by (apply Z.ltb_ge; lia).
        rewrite !andb_false_r. simpl. f_equal. lia.
      * assert ((0 <=? k mod 32) = true) as -> by (apply Z.leb_le; lia).
        assert ((k mod 32 <? 16) = true) as -> by (apply Z.ltb_lt; lia).
        rewrite (testbit_neg (v mod 2 ^ 16)) by lia.
        simpl. now rewrite andb_true_r, orb_false_r.
  - now rewrite decide_False by lia.
Qed.

End LoopFacts.

(** ** The RPS assembler *)

Module RpsFacts.
Import BitFieldFacts LoopFacts.

(** An aligned part of a word, read as a bit field of the buffer. *)
Lemma subword_read buffer q s n w :
  buffer !! Z.to_nat q = Some w -> 0 <= q -> 0 <= s -> 0 <= n -> s + n <= 32 ->
  Z.land (Z.shiftr w s) (Z.ones n) = read_field buffer (32 * q + s) n.
Proof.
  intros Hw Hq Hs Hn Hsn. apply Z.bits_inj'. intros i Hi.
  rewrite Z.land_spec, Z.shiftr_spec, testbit_ones, read_field_spec by lia.
  assert ((0 <=? i) = true) as -> by (apply Z.leb_le; lia). simpl.
  destruct (Z.ltb_spec i n) as [Hlt|Hge].
  - rewrite decide_True by lia. unfold buf_bit.
    replace ((32 * q + s + i) / 32) with q
      by (apply (Z.div_unique _ _ _ (s + i)); lia).
    replace ((32 * q + s + i) mod 32) with (s + i)
      by (apply (Z.mod_unique _ _ q); lia).
    rewrite Hw, andb_true_r. f_equal. lia.
  - rewrite decide_False by lia. apply andb_false_r.
Qed.

Lemma load_u16_read_field buffer i :
  0 <= i -> i / 2 < Z.of_nat (length buffer) ->
  load_u16 buffer i = Some (read_field buffer (16 * i) 16).
Proof.
  intros Hi Hlen.
  assert (0 <= i / 2) as Hq by (apply Z.div_pos; lia).
  destruct (lookup_lt_is_Some_2 buffer (Z.to_nat (i / 2)) ltac:(lia)) as [w Hw].
  unfold load_u16, load. rewrite Hw. simpl. f_equal.
  pose proof (Z.div_mod i 2 ltac:(lia)) as Hidm.
  change 0xFFFF with (Z.ones 16). rewrite Zeven_mod.
  destruct (Z.eqb_spec (i mod 2) 0) as [Hev|Hodd].
  - rewrite <- (Z.shiftr_0_r w).
    rewrite (subword_read buffer (i / 2) 0 16 w) by (assumption || lia).
    f_equal. lia.
  - pose proof (Z.mod_pos_bound i 2 ltac:(lia)).
    rewrite (subword_read buffer (i / 2) 16 16 w) by (assumption || lia).
    f_equal. lia.
Qed.

Lemma load_u8_read_field buffer m :
  0 <= m -> m / 4 < Z.of_nat (length buffer) ->
  load_u8 buffer m = Some (read_field buffer (8 * m) 8).
Proof.
  intros Hm Hlen.
  assert (0 <= m / 4) as Hq by (apply Z.div_pos; lia).
  destruct (lookup_lt_is_Some_2 buffer (Z.to_nat (m / 4)) ltac:(lia)) as [w Hw].
  unfold load_u8, load. rewrite Hw. simpl. f_equal.
  pose proof (Z.div_mod m 4 ltac:(lia)) as Hdm.
  pose proof (Z.mod_pos_bound m 4 ltac:(lia)).
  change 0xFF with (Z.ones 8).
  rewrite (subword_read buffer (m / 4) (8 * (m mod 4)) 8 w) by (assumption || lia).
  f_equal. lia.
Qed.

(** A field all of whose bits are clear reads as zero. *)
Lemma read_field_zero buffer offset len :
  0 <= len ->
  (forall k, offset <= k < offset + len -> buf_bit buffer k = false) ->
  read_field buffer offset len = 0.
Proof.
  intros Hlen Hz. apply Z.bits_inj'. intros i Hi.
  rewrite read_field_spec, Z.bits_0 by lia.
  destruct (decide (0 <= i < len)); [apply Hz; lia | reflexivity].
Qed.

(** A field read depends on the bits of the field only. *)
Lemma read_field_ext a b offset len :
  0 <= len ->
  (forall k, offset <= k < offset + len -> buf_bit a k = buf_bit b k) ->
  read_field a offset len = read_field b offset len.
Proof.
  intros Hlen Hbits. apply Z.bits_inj'. intros i Hi.
  rewrite !read_field_spec by assumption.
  destruct (decide (0 <= i < len)); [apply Hbits; lia | reflexivity].
Qed.

Section WithHeaders.
Context `{v4l2_h264_flags} `{rk3399_vdec_regs}.

Lemma write_all_app calls1 : forall calls2 buffer,
  write_all (calls1 ++ calls2) buffer =
  write_all calls1 buffer ≫= write_all calls2.
Proof.
  induction calls1 as [|c calls1 IH]; intros calls2 buffer; simpl; [reflexivity|].
  destruct (write_header _ _ _ _); simpl; [apply IH | reflexivity].
Qed.

(** Writes of fitting values change no bit outside their fields. *)
Lemma write_all_spec calls : forall buffer,
  Forall (write_ok (length buffer)) calls ->
  exists buffer',
    write_all calls buffer = Some buffer' /\
    length buffer' = length buffer /\
    forall k, 0 <= k -> Forall (outside_field k) calls ->
              buf_bit buffer' k = buf_bit buffer k.
Proof.
  induction calls as [|c calls IH]; intros buffer Hok.
  - exists buffer. simpl. auto.
  - inversion Hok as [|? ? (Hv & Hdef & Hin) Hrest]; subst.
    destruct (write_header_masked (w_value c) buffer (w_off c) (w_len c))
      as (buffer1 & Heq & Hlen1 & _ & Hframe1); try assumption.
    destruct (IH buffer1) as (buffer' & Heq' & Hlen' & Hframe').
    { now rewrite Hlen1. }
    exists buffer'. simpl. rewrite Heq. simpl.
    split; [assumption|]. split; [congruence|].
    intros k Hk Hout. inversion Hout; subst.
    rewrite Hframe' by assumption. now apply Hframe1.
Qed.

(** *** The second loop nest is the sequence of its calls *)

Lemma inner_loop_calls dec_param j n : forall i0 hw_rps,
  for_loop n i0
    (fun i hw_rps =>
       let idx := ref_pic_list_idx dec_param j i in
       if decide (idx >= dpb_array_size) then Some hw_rps
       else write_header (dpb_info_value dec_param idx) hw_rps
                         (DPB_INFO_OFF i j) DPB_INFO_LEN) hw_rps =
  write_all (omap (dpb_info_call dec_param j) (seqZ i0 (Z.of_nat n))) hw_rps.
Proof.
  induction n as [|n IH]; intros i0 hw_rps; [reflexivity|].
  rewrite seqZ_cons by lia.
  replace (Z.pred (Z.of_nat (S n))) with (Z.of_nat n) by lia.
  cbn [for_loop omap list_omap]. unfold dpb_info_call at 1. cbv zeta.
  destruct (decide (ref_pic_list_idx dec_param j i0 >= dpb_array_size)).
  - simpl. apply IH.
  - cbn [write_all w_value w_off w_len].
    destruct (write_header _ _ _ _); simpl; [apply IH | reflexivity].
Qed.

Lemma outer_loop_calls (g : Z -> list dpb_info_write) n : forall j0 s,
  for_loop n j0 (fun j s => write_all (g j) s) s =
  write_all (seqZ j0 (Z.of_nat n) ≫= g) s.
Proof.
  induction n as [|n IH]; intros j0 s; [reflexivity|].
  rewrite seqZ_cons by lia.
  replace (Z.pred (Z.of_nat (S n))) with (Z.of_nat n) by lia.
  cbn [for_loop]. rewrite bind_cons, write_all_app.
  destruct (write_all (g j0) s); simpl; [apply IH | reflexivity].
Qed.

Lemma omap_bind {A B C} (f : B -> option C) (k : A -> list B) l :
  omap f (l ≫= k) = l ≫= (fun a => omap f (k a)).
Proof.
  induction l as [|a l IH]; [reflexivity|].
  rewrite !bind_cons, omap_app. now rewrite IH.
Qed.

Lemma omap_singletons {A B C} (f : B -> option C) (h : A -> B) l :
  omap f (l ≫= (fun a => [h a])) = omap (fun a => f (h a)) l.
Proof.
  induction l as [|a l IH]; [reflexivity|].
  rewrite bind_cons. cbn [app omap list_omap]. rewrite <- IH.
  reflexivity.
Qed.

Lemma omap_positions {C} (f : Z * Z -> option C) (js ps : list Z) :
  omap f (j ← js; i ← ps; [(j, i)]) =
  js ≫= (fun j => omap (fun i => f (j, i)) ps).
Proof.
  rewrite omap_bind. induction js as [|j js IH]; [reflexivity|].
  rewrite !bind_cons, IH. f_equal.
  apply (omap_singletons f (fun i => (j, i))).
Qed.

Lemma rps_dpb_info_writes_eq dec_param :
  rps_dpb_info_writes dec_param =
  seqZ 0 3 ≫= (fun j => omap (fun i => dpb_info_call dec_param j i) (seqZ 0 32)).
Proof.
  exact (omap_positions (fun p => dpb_info_call dec_param p.1 p.2)
                        (seqZ 0 3) (seqZ 0 32)).
Qed.

Lemma rps_dpb_info_eq dec_param hw_rps :
  rps_dpb_info dec_param hw_rps =
  write_all (rps_dpb_info_writes dec_param) hw_rps.
Proof.
  unfold rps_dpb_info. rewrite rps_dpb_info_writes_eq.
  rewrite <- (outer_loop_calls _ 3 0).
  apply for_loop_ext. intros j s.
  apply (inner_loop_calls dec_param j 32 0 s).
Qed.

Lemma elem_of_rps_positions j i :
  (j, i) ∈ rps_positions <-> 0 <= j < 3 /\ 0 <= i < 32.
Proof.
  unfold rps_positions. rewrite list_elem_of_bind. split.
  - intros (j' & Hin & Hj). apply elem_of_seqZ in Hj.
    apply list_elem_of_bind in Hin as (i' & Hin & Hi).
    apply elem_of_seqZ in Hi. apply list_elem_of_singleton in Hin.
    inversion Hin; subst. lia.
  - intros [Hj Hi]. exists j. split; [|apply elem_of_seqZ; lia].
    apply list_elem_of_bind. exists i. split; [|apply elem_of_seqZ; lia].
    now apply list_elem_of_singleton.
Qed.

Lemma elem_of_rps_writes dec_param c :
  c ∈ rps_dpb_info_writes dec_param <->
  exists j i, 0 <= j < 3 /\ 0 <= i < 32 /\ dpb_info_call dec_param j i = Some c.
Proof.
  unfold rps_dpb_info_writes. rewrite list_elem_of_omap. split.
  - intros ([j i] & Hin & Hcall). apply elem_of_rps_positions in Hin.
    exists j, i. tauto.
  - intros (j & i & Hj & Hi & Hcall). exists (j, i).
    split; [now apply elem_of_rps_positions | assumption].
Qed.

Lemma dpb_info_call_Some dec_param j i c :
  dpb_info_call dec_param j i = Some c ->
  ref_pic_list_idx dec_param j i < dpb_array_size /\
  w_list c = j /\ w_pos c = i /\
  w_value c = dpb_info_value dec_param (ref_pic_list_idx dec_param j i) /\
  w_off c = DPB_INFO_OFF i j /\ w_len c = DPB_INFO_LEN.
Proof.
  unfold dpb_info_call. cbv zeta.
  destruct (decide (ref_pic_list_idx dec_param j i >= dpb_array_size)); [discriminate|].
  intros [= <-]. simpl. repeat split; lia.
Qed.

Lemma ref_pic_list_idx_range dec_param j i :
  0 <= ref_pic_list_idx dec_param j i < 2 ^ 8.
Proof. unfold ref_pic_list_idx, u8. apply Z.mod_pos_bound. lia. Qed.

(** The packed value takes five bits. *)
Lemma dpb_info_value_range dec_param idx :
  0 <= idx < dpb_array_size -> 0 <= dpb_info_value dec_param idx < 2 ^ 5.
Proof.
  intros Hidx. unfold dpb_array_size in Hidx. unfold dpb_info_value.
  assert (idx = 0 \/ idx = 1 \/ idx = 2 \/ idx = 3 \/ idx = 4 \/ idx = 5 \/
          idx = 6 \/ idx = 7 \/ idx = 8 \/ idx = 9 \/ idx = 10 \/ idx = 11 \/
          idx = 12 \/ idx = 13 \/ idx = 14 \/ idx = 15) as Hcases by lia.
  destruct (dpb_active (dpb dec_param) idx);
    repeat (destruct Hcases as [-> | Hcases]; [vm_compute; split; congruence |]);
    subst; vm_compute; split; congruence.
Qed.

Lemma rps_writes_ok dec_param :
  rps_layout_ok ->
  Forall (write_ok (Z.to_nat (RKV_RPS_SIZE / 4))) (rps_dpb_info_writes dec_param).
Proof.
  intros (Hlen & Hpos & _). apply Forall_forall. intros c Hc.
  apply elem_of_rps_writes in Hc as (j & i & Hj & Hi & Hcall).
  apply dpb_info_call_Some in Hcall as (Hidx & _ & _ & Hval & Hoff & Hl).
  destruct (Hpos i j Hi Hj) as (Hlo & Hhi & Hub).
  pose proof (ref_pic_list_idx_range dec_param j i) as Hr.
  change (8 * RKV_RPS_SIZE) with 2048 in Hhi. change (16 * 16) with 256 in Hlo.
  unfold write_ok. rewrite Hval, Hoff, Hl. repeat split.
  - apply dpb_info_value_range. lia.
  - eapply Z.lt_le_trans; [apply dpb_info_value_range; lia|].
    apply Z.pow_le_mono_r; lia.
  - lia.
  - lia.
  - lia.
  - lia.
  - assumption.
  - change (Z.of_nat (Z.to_nat (RKV_RPS_SIZE / 4))) with 64.
    apply Z.div_lt_upper_bound; lia.
Qed.

(** *** The first loop *)

Lemma rps_pic_nums_spec dpb p :
  (8 <= length p)%nat ->
  exists p',
    rps_pic_nums dpb p = Some p' /\
    length p' = length p /\
    forall k, 0 <= k ->
      buf_bit p' k =
      if decide (k < 16 * 16) then Z.testbit (rps_pic_num dpb (k / 16)) (k mod 16)
      else buf_bit p k.
Proof.
  intros Hlen. unfold rps_pic_nums.
  destruct (for_loop_inv
    (fun i s => length s = length p /\
       forall k, 0 <= k ->
         buf_bit s k =
         if decide (k < 16 * i) then Z.testbit (rps_pic_num dpb (k / 16)) (k mod 16)
         else buf_bit p k)
    16 0 (fun i p => store_u16 p i (rps_pic_num dpb i)) p)
    as (p' & Hloop & Hlen' & Hbits).
  - split; [reflexivity|]. intros k Hk. now rewrite decide_False by lia.
  - intros i s Hi (Hls & Hs).
    destruct (store_u16_spec s i (rps_pic_num dpb i)) as (s' & Hst & Hls' & Hs').
    { lia. }
    { rewrite Hls. apply Z.div_lt_upper_bound; lia. }
    exists s'. split; [assumption|]. split; [congruence|].
    intros k Hk. rewrite Hs' by assumption.
    pose proof (Z.div_mod k 16 ltac:(lia)) as Hdm.
    pose proof (Z.mod_pos_bound k 16 ltac:(lia)) as Hm.
    destruct (decide (16 * i <= k < 16 * i + 16)) as [Hin|Hout].
    + rewrite decide_True by lia.
      replace (k / 16) with i by lia. f_equal. lia.
    + rewrite Hs by assumption.
      destruct (decide (k < 16 * i));
        [rewrite decide_True by lia | rewrite decide_False by lia]; reflexivity.
  - exists p'. auto.
Qed.

(** *** The whole assembler *)

(** With a layout as [rps_layout_ok] describes, the assembler has a defined
    result, which does not depend on what the region held before: the
    pic_nums in the first 256 bits, the written fields behind them, and
    zero in every bit outside both. *)
Lemma assemble_hw_rps_spec dec_param hw_rps :
  length hw_rps = 64%nat -> rps_layout_ok ->
  exists table,
    assemble_hw_rps dec_param hw_rps = Some table /\
    length table = 64%nat /\
    (forall k, 0 <= k < 16 * 16 ->
       buf_bit table k = Z.testbit (rps_pic_num (dpb dec_param) (k / 16)) (k mod 16)) /\
    (forall k, 16 * 16 <= k ->
       Forall (outside_field k) (rps_dpb_info_writes dec_param) ->
       buf_bit table k = false).
Proof.
  intros Hlen Hlayout. unfold assemble_hw_rps.
  change (Z.to_nat (RKV_RPS_SIZE / 4)) with 64%nat.
  assert (memset_words hw_rps 64 = Some (replicate 64 0)) as ->
    by (rewrite <- Hlen; apply memset_words_all).
  cbn [mbind option_bind].
  destruct (rps_pic_nums_spec (dpb dec_param) (replicate 64 0))
    as (p1 & Hp1 & Hlen1 & Hbits1).
  { rewrite length_replicate. lia. }
  rewrite length_replicate in Hlen1.
  rewrite Hp1. simpl. rewrite rps_dpb_info_eq.
  destruct (write_all_spec (rps_dpb_info_writes dec_param) p1)
    as (table & Htable & Hlen2 & Hframe).
  { rewrite Hlen1. apply (rps_writes_ok dec_param Hlayout). }
  exists table. split; [assumption|]. split; [congruence|]. split.
  - intros k Hk. rewrite Hframe.
    + rewrite Hbits1 by lia. now rewrite decide_True by lia.
    + lia.
    + apply Forall_forall. intros c Hc.
      apply elem_of_rps_writes in Hc as (j & i & Hj & Hi & Hcall).
      apply dpb_info_call_Some in Hcall as (_ & _ & _ & _ & Hoff & _).
      destruct Hlayout as (_ & Hpos & _).
      destruct (Hpos i j Hi Hj) as (Hlo & _).
      unfold outside_field. lia.
  - intros k Hk Hout. rewrite Hframe by (lia || assumption).
    rewrite Hbits1 by lia. rewrite decide_False by lia.
    apply buf_bit_replicate.
Qed.

Lemma assemble_hw_rps_stale dec_param hw_rps stale :
  length hw_rps = 64%nat -> length stale = 64%nat ->
  assemble_hw_rps dec_param stale = assemble_hw_rps dec_param hw_rps.
Proof.
  intros H1 H2. unfold assemble_hw_rps.
  change (Z.to_nat (RKV_RPS_SIZE / 4)) with 64%nat.
  assert (memset_words hw_rps 64 = Some (replicate 64 0)) as ->
    by (rewrite <- H1; apply memset_words_all).
  assert (memset_words stale 64 = Some (replicate 64 0)) as ->
    by (rewrite <- H2; apply memset_words_all).
  reflexivity.
Qed.

(** *** Well-typed decode parameters *)

Lemma rps_pic_num_u16 dec_param i :
  wf_decode_params dec_param -> 0 <= i < 16 ->
  is_u16 (rps_pic_num (dpb dec_param) i).
Proof.
  intros (Hlen & Hdpb & _) Hi. unfold rps_pic_num.
  destruct (dpb_active (dpb dec_param) i).
  - apply (Forall_lookup_total_1 wf_dpb_entry (dpb dec_param) (Z.to_nat i) Hdpb).
    lia.
  - unfold is_u16. lia.
Qed.

Lemma ref_pic_list_idx_wf dec_param j i :
  wf_decode_params dec_param -> 0 <= j < 3 -> 0 <= i < 32 ->
  ref_pic_list_idx dec_param j i = ref_pic_list_entry dec_param j i.
Proof.
  intros (_ & _ & Hl0 & Hl1 & Hl2 & Hp0 & Hb0 & Hb1) Hj Hi.
  unfold ref_pic_list_idx, u8. apply Z.mod_small.
  unfold ref_pic_list_entry.
  assert (j = 0 \/ j = 1 \/ j = 2) as [-> | [-> | ->]] by lia; simpl.
  - apply (Forall_lookup_total_1 is_u8 _ (Z.to_nat i) Hp0). lia.
  - apply (Forall_lookup_total_1 is_u8 _ (Z.to_nat i) Hb0). lia.
  - apply (Forall_lookup_total_1 is_u8 _ (Z.to_nat i) Hb1). lia.
Qed.

(** A half-word whose bits are those of a 16-bit value reads as it. *)
Lemma load_u16_of_bits table i v :
  0 <= i -> i / 2 < Z.of_nat (length table) -> is_u16 v ->
  (forall n, 0 <= n < 16 -> buf_bit table (16 * i + n) = Z.testbit v n) ->
  load_u16 table i = Some v.
Proof.
  intros Hi Hlen Hv Hbits. rewrite load_u16_read_field by assumption. f_equal.
  apply Z.bits_inj'. intros n Hn. rewrite read_field_spec by lia.
  destruct (decide (0 <= n < 16)) as [Hin|Hout].
  - now apply Hbits.
  - symmetry. apply (testbit_above v 16); [exact Hv | lia].
Qed.

(** *** Counting the calls *)

Lemma omap_fmap_sublist {A B C} (f : A -> option B) (g : B -> C) (h : A -> C) l :
  (forall a b, f a = Some b -> g b = h a) ->
  (g <$> omap f l) `sublist_of` (h <$> l).
Proof.
  intros Hfg. induction l as [|a l IH]; [constructor|].
  cbn [omap list_omap]. destruct (f a) as [b|] eqn:Hfa.
  - rewrite !fmap_cons, (Hfg a b Hfa). now apply sublist_skip.
  - rewrite fmap_cons. now apply sublist_cons.
Qed.

Lemma length_omap_filter {A B} (f : A -> option B) (P : A -> Prop)
  `{!forall a, Decision (P a)} l :
  (forall a, a ∈ l -> P a <-> is_Some (f a)) ->
  length (omap f l) = length (filter P l).
Proof.
  induction l as [|a l IH]; intros HP; [reflexivity|].
  assert (forall a', a' ∈ l -> P a' <-> is_Some (f a')) as HPl
    by (intros a' Ha'; apply HP; now right).
  pose proof (HP a ltac:(left)) as HPa.
  cbn [omap list_omap]. destruct (f a) as [b|] eqn:Hfa.
  - rewrite filter_cons_True by (apply HPa; eauto).
    simpl. now rewrite IH.
  - rewrite filter_cons_False; [now apply IH|].
    intros HPa'. apply HPa in HPa'. now destruct HPa'.
Qed.

Lemma NoDup_rps_positions : NoDup rps_positions.
Proof.
  unfold rps_positions. apply NoDup_bind; [| |apply NoDup_seqZ].
  - intros j1 j2 [j i] _ _ H1 H2.
    apply list_elem_of_bind in H1 as (i1 & H1 & _).
    apply list_elem_of_bind in H2 as (i2 & H2 & _).
    apply list_elem_of_singleton in H1. apply list_elem_of_singleton in H2.
    congruence.
  - intros j _. apply NoDup_bind; [| |apply NoDup_seqZ].
    + intros i1 i2 [j' i] _ _ H1 H2.
      apply list_elem_of_singleton in H1. apply list_elem_of_singleton in H2.
      congruence.
    + intros i _. apply NoDup_singleton.
Qed.

(** C1: for every call of the RPS assembler and every DPB slot [i] below
    16, the 16-bit pic_num written for slot [i] by the first loop is the
    entry's pic_num when its active flag is set and the sentinel [0xFF],
    which is not 0, when it is clear; with a layout that keeps the DPB-info
    fields behind the pic_num table, the assembled table still holds it. *)
Theorem rps_pic_num_sentinel dec_param hw_rps i :
  wf_decode_params dec_param -> length hw_rps = 64%nat -> 0 <= i < 16 ->
  let written :=
    if dpb_active (dpb dec_param) i
    then pic_num (dpb dec_param !!! Z.to_nat i) else 0xFF in
  (exists zeroed table,
      memset_words hw_rps (Z.to_nat (RKV_RPS_SIZE / 4)) = Some zeroed /\
      rps_pic_nums (dpb dec_param) zeroed = Some table /\
      load_u16 table i = Some written) /\
  (dpb_active (dpb dec_param) i = false -> written = 0xFF /\ written <> 0) /\
  (rps_layout_ok ->
   exists table,
     assemble_hw_rps dec_param hw_rps = Some table /\
     load_u16 table i = Some written).
Proof.
  intros Hwf Hlen Hi written.
  assert (written = rps_pic_num (dpb dec_param) i) as Hw by reflexivity.
  pose proof (rps_pic_num_u16 dec_param i Hwf Hi) as Hu16.
  assert (forall n, 0 <= n < 16 ->
            (16 * i + n) / 16 = i /\ (16 * i + n) mod 16 = n) as Hdm.
  { intros n Hn. split.
    - symmetry. apply (Z.div_unique _ _ _ n); lia.
    - symmetry. apply (Z.mod_unique _ _ i); lia. }
  split; [|split].
  - change (Z.to_nat (RKV_RPS_SIZE / 4)) with 64%nat.
    exists (replicate 64 0).
    destruct (rps_pic_nums_spec (dpb dec_param) (replicate 64 0))
      as (table & Htable & Hlen1 & Hbits).
    { rewrite length_replicate. lia. }
    rewrite length_replicate in Hlen1.
    exists table. split; [rewrite <- Hlen; apply memset_words_all|].
    split; [assumption|]. rewrite Hw.
    apply load_u16_of_bits; try assumption; try lia.
    + rewrite Hlen1. apply Z.div_lt_upper_bound; lia.
    + intros n Hn. rewrite Hbits by lia. rewrite decide_True by lia.
      destruct (Hdm n Hn) as [-> ->]. reflexivity.
  - intros Hinactive. subst written. rewrite Hinactive. split; [reflexivity | discriminate].
  - intros Hlayout.
    destruct (assemble_hw_rps_spec dec_param hw_rps Hlen Hlayout)
      as (table & Htable & Hlen1 & Hpic & _).
    exists table. split; [assumption|]. rewrite Hw.
    apply load_u16_of_bits; try assumption; try lia.
    + rewrite Hlen1. apply Z.div_lt_upper_bound; lia.
    + intros n Hn. rewrite Hpic by lia.
      destruct (Hdm n Hn) as [-> ->]. reflexivity.
Qed.

Lemma NoDup_rps_write_positions dec_param :
  NoDup ((fun c => (w_list c, w_pos c)) <$> rps_dpb_info_writes dec_param).
Proof.
  apply (sublist_NoDup _ rps_positions); [apply NoDup_rps_positions|].
  rewrite <- (list_fmap_id rps_positions).
  apply (omap_fmap_sublist (fun p => dpb_info_call dec_param p.1 p.2)).
  intros [j i] c Hcall. apply dpb_info_call_Some in Hcall.
  simpl in *. destruct Hcall as (_ & -> & -> & _). reflexivity.
Qed.

(** With fields that do not overlap, no two calls share an offset. *)
Lemma NoDup_rps_write_offsets dec_param :
  rps_layout_ok -> NoDup (w_off <$> rps_dpb_info_writes dec_param).
Proof.
  intros (Hlen & _ & Hdisj). apply NoDup_fmap_2_strong.
  - intros c c' Hc Hc' Hoff.
    apply elem_of_rps_writes in Hc as (j & i & Hj & Hi & Hcall).
    apply elem_of_rps_writes in Hc' as (j' & i' & Hj' & Hi' & Hcall').
    pose proof (dpb_info_call_Some _ _ _ _ Hcall) as (_ & _ & _ & _ & Ho & _).
    pose proof (dpb_info_call_Some _ _ _ _ Hcall') as (_ & _ & _ & _ & Ho' & _).
    destruct (decide ((i, j) = (i', j'))) as [[= -> ->]|Hne]; [congruence|].
    destruct (Hdisj i j i' j' Hi Hj Hi' Hj' Hne); lia.
  - apply (NoDup_fmap_1 (fun c => (w_list c, w_pos c))).
    apply NoDup_rps_write_positions.
Qed.

(** Calls that store fitting values in pairwise disjoint fields leave each
    value in its field. *)
Lemma write_all_fields calls : forall buffer,
  Forall (write_ok (length buffer)) calls ->
  (forall m n c c', m <> n -> calls !! m = Some c -> calls !! n = Some c' ->
     w_off c + w_len c <= w_off c' \/ w_off c' + w_len c' <= w_off c) ->
  exists buffer',
    write_all calls buffer = Some buffer' /\
    length buffer' = length buffer /\
    (forall c, c ∈ calls -> read_field buffer' (w_off c) (w_len c) = w_value c) /\
    (forall k, 0 <= k -> Forall (outside_field k) calls ->
               buf_bit buffer' k = buf_bit buffer k).
Proof.
  induction calls as [|c calls IH]; intros buffer Hok Hdisj.
  - exists buffer. simpl. repeat split; auto. intros c Hc. inversion Hc.
  - inversion Hok as [|? ? (Hv & Hdef & Hin) Hrest]; subst.
    destruct (write_header_masked (w_value c) buffer (w_off c) (w_len c))
      as (buffer1 & Heq & Hlen1 & Hread1 & Hframe1); try assumption.
    destruct (IH buffer1) as (buffer' & Heq' & Hlen' & Hread' & Hframe').
    { now rewrite Hlen1. }
    { intros m n c1 c2 Hmn H1 H2. apply (Hdisj (S m) (S n)); auto. }
    assert (read_field buffer' (w_off c) (w_len c) = w_value c) as Hhead.
    { rewrite <- Hread1. apply read_field_ext.
      - destruct Hdef as (_ & ? & _). lia.
      - intros k Hk. apply Hframe'.
        + destruct Hdef as (? & _). lia.
        + apply Forall_lookup. intros n c' Hc'.
          specialize (Hdisj 0%nat (S n) c c' ltac:(lia) eq_refl Hc').
          unfold outside_field. lia. }
    exists buffer'. simpl. rewrite Heq. simpl.
    split; [assumption|]. split; [congruence|]. split.
    + intros c0 Hc0. apply elem_of_cons in Hc0 as [->|Hc0]; [assumption|].
      now apply Hread'.
    + intros k Hk Hout. inversion Hout; subst.
      rewrite Hframe' by assumption. now apply Hframe1.
Qed.

Lemma rps_writes_disjoint dec_param m n c c' :
  rps_layout_ok -> m <> n ->
  rps_dpb_info_writes dec_param !! m = Some c ->
  rps_dpb_info_writes dec_param !! n = Some c' ->
  w_off c + w_len c <= w_off c' \/ w_off c' + w_len c' <= w_off c.
Proof.
  intros (_ & _ & Hsep) Hmn Hc Hc'.
  assert ((w_list c, w_pos c) <> (w_list c', w_pos c')) as Hpos.
  { intros Hpos. apply Hmn.
    apply (NoDup_lookup _ m n (w_list c, w_pos c)
             (NoDup_rps_write_positions dec_param));
      rewrite list_lookup_fmap; [now rewrite Hc | now rewrite Hc', Hpos]. }
  apply list_elem_of_lookup_2 in Hc, Hc'.
  apply elem_of_rps_writes in Hc as (j & i & Hj & Hi & Hcall).
  apply elem_of_rps_writes in Hc' as (j' & i' & Hj' & Hi' & Hcall').
  apply dpb_info_call_Some in Hcall as (_ & Hl & Hp & _ & Ho & Hlen).
  apply dpb_info_call_Some in Hcall' as (_ & Hl' & Hp' & _ & Ho' & Hlen').
  rewrite Ho, Ho', Hlen, Hlen'. apply Hsep; try assumption.
  intros [= -> ->]. apply Hpos. congruence.
Qed.

(** The reference-list pass on a table of 64 words: the field of every
    position whose entry is a DPB index holds the packed value afterwards,
    the field of every other position holds what it held before, and so
    does every bit that lies in no field of a position with a DPB index. *)
Lemma rps_dpb_info_pass dec_param hw_rps :
  wf_decode_params dec_param -> rps_layout_ok -> length hw_rps = 64%nat ->
  exists table,
    rps_dpb_info dec_param hw_rps = Some table /\
    length table = 64%nat /\
    (forall j i, 0 <= j < 3 -> 0 <= i < 32 ->
       ref_pic_list_entry dec_param j i < 16 ->
       read_field table (DPB_INFO_OFF i j) DPB_INFO_LEN =
       dpb_info_value dec_param (ref_pic_list_entry dec_param j i)) /\
    (forall j i, 0 <= j < 3 -> 0 <= i < 32 ->
       16 <= ref_pic_list_entry dec_param j i ->
       read_field table (DPB_INFO_OFF i j) DPB_INFO_LEN =
       read_field hw_rps (DPB_INFO_OFF i j) DPB_INFO_LEN) /\
    (forall k, 0 <= k ->
       (forall j i, 0 <= j < 3 -> 0 <= i < 32 ->
          ref_pic_list_entry dec_param j i < 16 ->
          ~ (DPB_INFO_OFF i j <= k < DPB_INFO_OFF i j + DPB_INFO_LEN)) ->
       buf_bit table k = buf_bit hw_rps k).
Proof.
  intros Hwf Hlayout Hlen. rewrite rps_dpb_info_eq.
  destruct (write_all_fields (rps_dpb_info_writes dec_param) hw_rps)
    as (table & Htable & Hlen' & Hread & Hframe).
  { rewrite Hlen. apply (rps_writes_ok dec_param Hlayout). }
  { intros m n c c'. now apply rps_writes_disjoint. }
  assert (forall k,
            (forall j i, 0 <= j < 3 -> 0 <= i < 32 ->
               ref_pic_list_entry dec_param j i < 16 ->
               ~ (DPB_INFO_OFF i j <= k < DPB_INFO_OFF i j + DPB_INFO_LEN)) ->
            Forall (outside_field k) (rps_dpb_info_writes dec_param)) as Hout.
  { intros k Hk. apply Forall_forall. intros c Hc.
    apply elem_of_rps_writes in Hc as (j & i & Hj & Hi & Hcall).
    apply dpb_info_call_Some in Hcall as (Hidx & _ & _ & _ & Hoff & Hl).
    rewrite (ref_pic_list_idx_wf dec_param j i Hwf Hj Hi) in Hidx.
    unfold dpb_array_size in Hidx.
    unfold outside_field. rewrite Hoff, Hl. now apply Hk. }
  exists table. split; [assumption|]. split; [congruence|].
  split; [|split].
  - intros j i Hj Hi Hidx.
    pose proof (ref_pic_list_idx_wf dec_param j i Hwf Hj Hi) as Hentry.
    set (c := {| w_list := j; w_pos := i;
                 w_value := dpb_info_value dec_param (ref_pic_list_entry dec_param j i);
                 w_off := DPB_INFO_OFF i j; w_len := DPB_INFO_LEN |}).
    assert (dpb_info_call dec_param j i = Some c) as Hcall.
    { unfold dpb_info_call. cbv zeta. rewrite Hentry.
      unfold dpb_array_size. now rewrite decide_False by lia. }
    assert (c ∈ rps_dpb_info_writes dec_param) as Hc.
    { apply elem_of_rps_writes. now exists j, i. }
    exact (Hread c Hc).
  - intros j i Hj Hi Hskip.
    destruct Hlayout as (Hl & Hpos & Hdisj).
    destruct (Hpos i j Hi Hj) as (Hlo & _).
    apply read_field_ext; [lia|]. intros k Hk.
    apply Hframe; [lia|]. apply Hout. intros j' i' Hj' Hi' Hidx'.
    assert ((i, j) <> (i', j')) as Hne by (intros [= -> ->]; lia).
    destruct (Hdisj i j i' j' Hi Hj Hi' Hj' Hne); lia.
  - intros k Hk Hfields. apply Hframe; [assumption|]. now apply Hout.
Qed.

(** C4: in the reference-list pass, for each of the three lists and each of
    the thirty-two positions a DPB-info field is written exactly when the
    list entry at that position is below 16 (other entries are skipped);
    every write carries [idx | (valid << 4)], [valid] being the active flag
    of DPB entry [idx], to the offset of its own position; no position is
    written twice (nor any offset, when the fields of the layout do not
    overlap), and the writes are as many as the entries below 16.  In the
    table the pass leaves, with fields laid out as [rps_layout_ok]
    describes, the field of every position with an entry below 16 reads
    [idx | (valid << 4)], the field of every other position reads what it
    held before the pass, and no bit outside the fields of the positions
    with an entry below 16 has changed; in the table the whole assembler
    leaves, the former fields read [idx | (valid << 4)] and the latter
    zero. *)
Theorem rps_dpb_info_fields dec_param :
  wf_decode_params dec_param ->
  let writes := rps_dpb_info_writes dec_param in
  let packed j i :=
    Z.lor (ref_pic_list_entry dec_param j i)
          (Z.shiftl (if dpb_active (dpb dec_param) (ref_pic_list_entry dec_param j i)
                     then 1 else 0) 4) in
  (forall hw_rps, rps_dpb_info dec_param hw_rps = write_all writes hw_rps) /\
  (forall j i, 0 <= j < 3 -> 0 <= i < 32 ->
     (exists c, c ∈ writes /\ w_list c = j /\ w_pos c = i) <->
     ref_pic_list_entry dec_param j i < 16) /\
  (forall c, c ∈ writes ->
     let idx := ref_pic_list_entry dec_param (w_list c) (w_pos c) in
     0 <= w_list c < 3 /\ 0 <= w_pos c < 32 /\ 0 <= idx < 16 /\
     w_value c =
       Z.lor idx (Z.shiftl (if dpb_active (dpb dec_param) idx then 1 else 0) 4) /\
     w_off c = DPB_INFO_OFF (w_pos c) (w_list c) /\
     w_len c = DPB_INFO_LEN) /\
  NoDup ((fun c => (w_list c, w_pos c)) <$> writes) /\
  (rps_layout_ok -> NoDup (w_off <$> writes)) /\
  length writes =
    length (filter (fun p => ref_pic_list_entry dec_param p.1 p.2 < 16) rps_positions) /\
  (rps_layout_ok -> forall hw_rps, length hw_rps = 64%nat ->
   exists table,
     rps_dpb_info dec_param hw_rps = Some table /\
     length table = 64%nat /\
     (forall j i, 0 <= j < 3 -> 0 <= i < 32 ->
        ref_pic_list_entry dec_param j i < 16 ->
        read_field table (DPB_INFO_OFF i j) DPB_INFO_LEN = packed j i) /\
     (forall j i, 0 <= j < 3 -> 0 <= i < 32 ->
        16 <= ref_pic_list_entry dec_param j i ->
        read_field table (DPB_INFO_OFF i j) DPB_INFO_LEN =
        read_field hw_rps (DPB_INFO_OFF i j) DPB_INFO_LEN) /\
     (forall k, 0 <= k ->
        (forall j i, 0 <= j < 3 -> 0 <= i < 32 ->
           ref_pic_list_entry dec_param j i < 16 ->
           ~ (DPB_INFO_OFF i j <= k < DPB_INFO_OFF i j + DPB_INFO_LEN)) ->
        buf_bit table k = buf_bit hw_rps k)) /\
  (rps_layout_ok -> forall hw_rps, length hw_rps = 64%nat ->
   exists table,
     assemble_hw_rps dec_param hw_rps = Some table /\
     (forall j i, 0 <= j < 3 -> 0 <= i < 32 ->
        ref_pic_list_entry dec_param j i < 16 ->
        read_field table (DPB_INFO_OFF i j) DPB_INFO_LEN = packed j i) /\
     (forall j i, 0 <= j < 3 -> 0 <= i < 32 ->
        16 <= ref_pic_list_entry dec_param j i ->
        read_field table (DPB_INFO_OFF i j) DPB_INFO_LEN = 0)).
Proof.
  intros Hwf writes packed.
  split; [|split; [|split; [|split; [|split; [|split; [|split]]]]]].
  - intros hw_rps. apply rps_dpb_info_eq.
  - intros j i Hj Hi. rewrite <- (ref_pic_list_idx_wf dec_param j i Hwf Hj Hi). split.
    + intros (c & Hc & <- & <-).
      apply elem_of_rps_writes in Hc as (j & i & _ & _ & Hcall).
      apply dpb_info_call_Some in Hcall as (Hidx & -> & -> & _).
      exact Hidx.
    + intros Hidx.
      destruct (dpb_info_call dec_param j i) as [c|] eqn:Hcall.
      * exists c. split.
        -- apply elem_of_rps_writes. exists j, i. auto.
        -- apply dpb_info_call_Some in Hcall. tauto.
      * unfold dpb_info_call in Hcall. cbv zeta in Hcall.
        unfold dpb_array_size in Hcall.
        destruct (decide (ref_pic_list_idx dec_param j i >= 16)); [lia | discriminate].
  - intros c Hc idx.
    apply elem_of_rps_writes in Hc as (j & i & Hj & Hi & Hcall).
    apply dpb_info_call_Some in Hcall as (Hidx & Hl & Hp & Hv & Hoff & Hlen).
    subst idx. rewrite Hl, Hp.
    rewrite <- (ref_pic_list_idx_wf dec_param j i Hwf Hj Hi).
    pose proof (ref_pic_list_idx_range dec_param j i).
    unfold dpb_array_size in Hidx. repeat split; try lia; assumption.
  - apply NoDup_rps_write_positions.
  - apply NoDup_rps_write_offsets.
  - apply length_omap_filter. intros [j i] Hin. simpl.
    apply elem_of_rps_positions in Hin as [Hj Hi].
    rewrite <- (ref_pic_list_idx_wf dec_param j i Hwf Hj Hi).
    unfold dpb_info_call. cbv zeta. unfold dpb_array_size.
    destruct (decide (ref_pic_list_idx dec_param j i >= 16)); split.
    + lia.
    + intros [c Hc]. discriminate.
    + eauto.
    + lia.
  - intros Hlayout hw_rps Hlen.
    exact (rps_dpb_info_pass dec_param hw_rps Hwf Hlayout Hlen).
  - intros Hlayout hw_rps Hlen. unfold assemble_hw_rps.
    change (Z.to_nat (RKV_RPS_SIZE / 4)) with 64%nat.
    assert (memset_words hw_rps 64 = Some (replicate 64 0)) as ->
      by (rewrite <- Hlen; apply memset_words_all).
    cbn [mbind option_bind].
    destruct (rps_pic_nums_spec (dpb dec_param) (replicate 64 0))
      as (p1 & Hp1 & Hlen1 & Hbits1).
    { rewrite length_replicate. lia. }
    rewrite length_replicate in Hlen1.
    rewrite Hp1. cbn [mbind option_bind].
    destruct (rps_dpb_info_pass dec_param p1 Hwf Hlayout Hlen1)
      as (table & Htable & _ & Hread & Hskip & _).
    exists table. split; [assumption|]. split; [exact Hread|].
    intros j i Hj Hi Hidx. rewrite (Hskip j i Hj Hi Hidx).
    destruct Hlayout as (Hl & Hpos & _).
    destruct (Hpos i j Hi Hj) as (Hlo & _).
    apply read_field_zero; [lia|]. intros k Hk.
    rewrite Hbits1 by lia. rewrite decide_False by lia.
    apply buf_bit_replicate.
Qed.

(** C10: the RPS assembler clears the whole region before its two passes,
    so its result never depends on what the region held before: nothing of
    a previous frame survives.  With a layout as [rps_layout_ok] describes,
    after every call the field of each position whose list entry was out
    of range reads zero, and every bit and every byte of the region behind
    the pic_num table that no written field covers is zero. *)
Theorem rps_region_cleared dec_param hw_rps :
  length hw_rps = 64%nat ->
  (forall stale, length stale = 64%nat ->
     assemble_hw_rps dec_param stale = assemble_hw_rps dec_param hw_rps) /\
  (wf_decode_params dec_param -> rps_layout_ok ->
   exists table,
     assemble_hw_rps dec_param hw_rps = Some table /\
     length table = 64%nat /\
     (forall j i, 0 <= j < 3 -> 0 <= i < 32 ->
        ref_pic_list_entry dec_param j i >= 16 ->
        read_field table (DPB_INFO_OFF i j) DPB_INFO_LEN = 0) /\
     (forall k, 16 * 16 <= k ->
        Forall (outside_field k) (rps_dpb_info_writes dec_param) ->
        buf_bit table k = false) /\
     (forall m, 16 * 2 <= m < RKV_RPS_SIZE ->
        Forall (fun c => w_off c + w_len c <= 8 * m \/ 8 * m + 8 <= w_off c)
               (rps_dpb_info_writes dec_param) ->
        load_u8 table m = Some 0)).
Proof.
  intros Hlen. split.
  { intros stale Hstale. now apply assemble_hw_rps_stale. }
  intros Hwf Hlayout.
  destruct (assemble_hw_rps_spec dec_param hw_rps Hlen Hlayout)
    as (table & Htable & Hlen1 & _ & Hzero).
  exists table. split; [assumption|]. split; [assumption|].
  split; [|split].
  - intros j i Hj Hi Hskip.
    rewrite <- (ref_pic_list_idx_wf dec_param j i Hwf Hj Hi) in Hskip.
    destruct Hlayout as (Hl & Hpos & Hdisj).
    destruct (Hpos i j Hi Hj) as (Hlo & _).
    apply read_field_zero; [lia|]. intros k Hk.
    apply Hzero; [lia|]. apply Forall_forall. intros c Hc.
    apply elem_of_rps_writes in Hc as (j' & i' & Hj' & Hi' & Hcall).
    apply dpb_info_call_Some in Hcall as (Hidx & _ & _ & _ & Hoff & Hlen').
    unfold outside_field. rewrite Hoff, Hlen'.
    assert ((i, j) <> (i', j')) as Hne.
    { intros [= -> ->]. unfold dpb_array_size in Hidx. lia. }
    destruct (Hdisj i j i' j' Hi Hj Hi' Hj' Hne); lia.
  - exact Hzero.
  - intros m Hm Hout. unfold RKV_RPS_SIZE in Hm.
    rewrite load_u8_read_field.
    + f_equal. apply read_field_zero; [lia|]. intros k Hk.
      apply Hzero; [lia|]. eapply Forall_impl; [exact Hout|].
      intros c Hc. unfold outside_field. simpl in Hc. lia.
    + lia.
    + rewrite Hlen1. apply Z.div_lt_upper_bound; lia.
Qed.

End WithHeaders.

(** *** The sample P frame *)

Lemma sample_decode_params_wf : wf_decode_params sample_decode_params.
Proof.
  unfold wf_decode_params, sample_decode_params. simpl.
  repeat split; try reflexivity;
    repeat (constructor; [unfold wf_dpb_entry, is_u8, is_u16, is_u32; simpl; lia|]);
    constructor.
Defined.

Lemma sample_rps_layout_ok : @rps_layout_ok sample_regs.
Proof.
  unfold rps_layout_ok, RKV_RPS_SIZE. simpl. split; [lia|]. split.
  - intros i j Hi Hj. lia.
  - intros i j i' j' Hi Hj Hi' Hj' Hne.
    assert (i <> i' \/ j <> j') as Hcase.
    { destruct (Z.eq_dec i i') as [->|]; [|now left].
      destruct (Z.eq_dec j j') as [->|]; [|now right]. contradiction. }
    lia.
Defined.

(** The table of the sample frame: pic_num 3 in slot 0 and the sentinel in
    the fifteen others, one DPB-info field (index 0, valid) at bit 288. *)
Example assemble_hw_rps_sample :
  @assemble_hw_rps sample_flags sample_regs sample_decode_params sample_stale_rps =
  Some (0x00FF0003 :: replicate 7 0x00FF00FF ++ [0; 0x10] ++ replicate 54 0).
Proof. vm_compute. reflexivity. Qed.

Lemma rps_pic_num_sentinel_witness :
  exists table,
    @assemble_hw_rps sample_flags sample_regs sample_decode_params sample_stale_rps
      = Some table /\
    load_u16 table 1 = Some 0xFF.
Proof.
  destruct (@rps_pic_num_sentinel sample_flags sample_regs
              sample_decode_params sample_stale_rps 1
              sample_decode_params_wf eq_refl ltac:(lia))
    as (_ & _ & Hfinal).
  destruct (Hfinal sample_rps_layout_ok) as (table & Heq & Hload).
  exists table. split; [exact Heq | exact Hload].
Defined.

Lemma sample_b_frame_decode_params_wf :
  wf_decode_params sample_b_frame_decode_params.
Proof.
  unfold wf_decode_params, sample_b_frame_decode_params. simpl.
  repeat split; try reflexivity;
    repeat (constructor; [unfold wf_dpb_entry, is_u8, is_u16, is_u32; simpl; lia|]);
    constructor.
Defined.

(** The B frame of the samples: six of its ninety-six list entries are DPB
    indices.  Entries 0 and 2 name active DPB slots, entry 1 an inactive
    one, and the third entry of list B0 is 16, which is skipped. *)
Lemma rps_dpb_info_fields_witness :
  exists table,
    @assemble_hw_rps sample_flags sample_regs sample_b_frame_decode_params
      sample_stale_rps = Some table /\
    read_field table 288 5 = 16 /\
    read_field table 295 5 = 18 /\
    read_field table 302 5 = 1 /\
    read_field table 512 5 = 18 /\
    read_field table 526 5 = 0 /\
    read_field table 736 5 = 1.
Proof.
  destruct (@rps_dpb_info_fields sample_flags sample_regs
              sample_b_frame_decode_params sample_b_frame_decode_params_wf)
    as (_ & _ & _ & _ & _ & _ & _ & Hfinal).
  destruct (Hfinal sample_rps_layout_ok sample_stale_rps eq_refl)
    as (table & Htable & Hread & Hskip).
  exists table. split; [exact Htable|].
  split; [exact (Hread 0 0 ltac:(lia) ltac:(lia) ltac:(vm_compute; reflexivity))|].
  split; [exact (Hread 0 1 ltac:(lia) ltac:(lia) ltac:(vm_compute; reflexivity))|].
  split; [exact (Hread 0 2 ltac:(lia) ltac:(lia) ltac:(vm_compute; reflexivity))|].
  split; [exact (Hread 1 0 ltac:(lia) ltac:(lia) ltac:(vm_compute; reflexivity))|].
  split; [exact (Hskip 1 2 ltac:(lia) ltac:(lia) ltac:(vm_compute; congruence))|].
  exact (Hread 2 0 ltac:(lia) ltac:(lia) ltac:(vm_compute; reflexivity)).
Defined.

Lemma rps_region_cleared_witness :
  exists table,
    @assemble_hw_rps sample_flags sample_regs sample_decode_params sample_stale_rps
      = Some table /\
    @assemble_hw_rps sample_flags sample_regs sample_decode_params (replicate 64 0)
      = Some table /\
    read_field table (@DPB_INFO_OFF sample_regs 1 0) (@DPB_INFO_LEN sample_regs) = 0.
Proof.
  destruct (@rps_region_cleared sample_flags sample_regs
              sample_decode_params sample_stale_rps eq_refl)
    as (Hstale & Hcleared).
  destruct (Hcleared sample_decode_params_wf sample_rps_layout_ok)
    as (table & Heq & _ & Hskipped & _).
  exists table. split; [exact Heq|]. split.
  - rewrite (Hstale (replicate 64 0) eq_refl). exact Heq.
  - apply (Hskipped 0 1); [lia | lia | vm_compute; discriminate].
Defined.

End RpsFacts.

(** ** The PPS assembler *)

Module PpsFacts.
Import BitFieldFacts LoopFacts.

Section WithHeaders.
Context `{v4l2_h264_flags} `{rk3399_vdec_regs}.

Lemma packet_field_inside (r : list Z) offset len :
  length r = 8%nat -> packet_field offset len -> field_inside r offset len.
Proof.
  intros Hr ((Hoff & Hlen & _) & Hend). unfold field_inside. rewrite Hr.
  apply Z.div_lt_upper_bound; lia.
Qed.

(** A write into a packet stays in the packet. *)
Lemma write_header_packet value r rest offset len :
  length r = 8%nat -> packet_field offset len ->
  exists r',
    write_header value r offset len = Some r' /\
    length r' = 8%nat /\
    write_header value (r ++ rest) offset len = Some (r' ++ rest).
Proof.
  intros Hr Hf.
  destruct (write_header_app value r rest offset len) as (r' & H1 & H2 & H3).
  - apply Hf.
  - now apply packet_field_inside.
  - exists r'. repeat split; congruence.
Qed.

Lemma write_pps_fields_packet fields : forall r rest,
  pps_layout_ok -> length r = 8%nat ->
  exists r',
    write_pps_fields fields r = Some r' /\
    length r' = 8%nat /\
    write_pps_fields fields (r ++ rest) = Some (r' ++ rest).
Proof.
  induction fields as [|[value field] fields IH]; intros r rest Hlayout Hr.
  - exists r. simpl. auto.
  - destruct (write_header_packet (u32 value) r rest (FIELD_OFF field) (FIELD_LEN field))
      as (r1 & H1 & Hr1 & H1').
    { assumption. }
    { apply Hlayout. }
    destruct (IH r1 rest Hlayout Hr1) as (r' & H2 & Hr' & H2').
    exists r'. cbn [write_pps_fields]. unfold WRITE_PPS.
    rewrite H1, H1'. simpl. auto.
Qed.

Lemma for_loop_packet n (body : Z -> list Z -> option (list Z)) rest : forall i0 r,
  (forall i r, i0 <= i < i0 + Z.of_nat n -> length r = 8%nat ->
     exists r', body i r = Some r' /\ length r' = 8%nat /\
                body i (r ++ rest) = Some (r' ++ rest)) ->
  length r = 8%nat ->
  exists r',
    for_loop n i0 body r = Some r' /\
    length r' = 8%nat /\
    for_loop n i0 body (r ++ rest) = Some (r' ++ rest).
Proof.
  induction n as [|n IH]; intros i0 r Hbody Hr.
  - exists r. simpl. auto.
  - destruct (Hbody i0 r ltac:(lia) Hr) as (r1 & H1 & Hr1 & H1').
    destruct (IH (i0 + 1) r1) as (r' & H2 & Hr' & H2').
    { intros i r2 Hi. apply Hbody. lia. }
    { assumption. }
    exists r'. cbn [for_loop]. rewrite H1, H1'. simpl. auto.
Qed.

Lemma pps_pack_packet priv_dma sps pps dpb r rest :
  pps_layout_ok -> length r = 8%nat ->
  exists r',
    pps_pack priv_dma sps pps dpb r = Some r' /\
    length r' = 8%nat /\
    pps_pack priv_dma sps pps dpb (r ++ rest) = Some (r' ++ rest).
Proof.
  intros Hlayout Hr. unfold pps_pack. cbv zeta.
  destruct (write_pps_fields_packet
              (pps_fields sps pps (priv_dma + offsetof_scaling_list)) r rest Hlayout Hr)
    as (r1 & H1 & Hr1 & H1').
  rewrite H1, H1'. cbn [mbind option_bind].
  apply for_loop_packet; [|assumption].
  intros i r2 Hi Hr2. apply write_header_packet; [assumption|].
  apply Hlayout. lia.
Qed.

(** The assembler replaces packet [id] by the packing of the fields into a
    zeroed packet and leaves the rest of the table as it was. *)
Lemma assemble_hw_pps_spec priv_dma sps pps dpb param_set :
  pps_layout_ok -> length param_set = 2048%nat ->
  is_u8 (pic_parameter_set_id pps) ->
  exists r,
    pps_pack priv_dma sps pps dpb (replicate 8 0) = Some r /\
    length r = 8%nat /\
    assemble_hw_pps priv_dma sps pps dpb param_set =
    Some (take (8 * Z.to_nat (pic_parameter_set_id pps)) param_set ++ r ++
          drop (8 * Z.to_nat (pic_parameter_set_id pps) + 8) param_set).
Proof.
  intros Hlayout Hlen Hid. unfold is_u8 in Hid.
  set (index := (8 * Z.to_nat (pic_parameter_set_id pps))%nat).
  assert (index + 8 <= 2048)%nat as Hindex by (unfold index; lia).
  destruct (pps_pack_packet priv_dma sps pps dpb (replicate 8 0)
              (drop (index + 8) param_set) Hlayout)
    as (r & Hr & Hlr & Hr').
  { apply length_replicate. }
  exists r. split; [assumption|]. split; [assumption|].
  unfold assemble_hw_pps. cbv zeta. fold index.
  unfold memset_words. rewrite decide_True by (rewrite length_drop; lia).
  cbn [mbind option_bind]. rewrite drop_drop.
  rewrite Hr'. reflexivity.
Qed.

End WithHeaders.

(** *** Replacing one packet of the table *)

Lemma splice_length (t r : list Z) i :
  length r = 8%nat -> (i + 8 <= length t)%nat ->
  length (take i t ++ r ++ drop (i + 8) t) = length t.
Proof.
  intros Hr Hi. rewrite !length_app, length_take_le, length_drop by lia. lia.
Qed.

Lemma splice_lookup (t r : list Z) i m :
  length r = 8%nat -> (i + 8 <= length t)%nat ->
  (take i t ++ r ++ drop (i + 8) t) !! m =
  if decide (i <= m < i + 8)%nat then r !! (m - i)%nat else t !! m.
Proof.
  intros Hr Hi.
  assert (length (take i t) = i) as Htake by (apply length_take_le; lia).
  destruct (decide (i <= m < i + 8)%nat) as [Hin|Hout].
  - rewrite lookup_app_r by lia. rewrite Htake.
    now rewrite lookup_app_l by lia.
  - destruct (Nat.lt_ge_cases m i) as [Hlt|Hge].
    + rewrite lookup_app_l by lia. now apply lookup_take_lt.
    + rewrite lookup_app_r by lia. rewrite Htake.
      rewrite lookup_app_r by lia. rewrite lookup_drop, Hr.
      f_equal. lia.
Qed.

Lemma packet_of_splice (t r : list Z) id id' :
  length r = 8%nat -> is_u8 id -> is_u8 id' -> length t = 2048%nat ->
  hw_sps_pps_packet (take (8 * Z.to_nat id) t ++ r ++ drop (8 * Z.to_nat id + 8) t) id' =
  if decide (id' = id) then r else hw_sps_pps_packet t id'.
Proof.
  intros Hr Hid Hid' Ht. unfold is_u8 in *. unfold hw_sps_pps_packet.
  apply list_eq. intros n.
  rewrite lookup_take, lookup_drop, splice_lookup by lia.
  destruct (decide (id' = id)) as [->|Hne].
  - destruct (decide (n < 8)%nat) as [Hn|Hn].
    + rewrite decide_True by lia. f_equal. lia.
    + symmetry. apply lookup_ge_None_2. lia.
  - rewrite lookup_take, lookup_drop.
    destruct (decide (n < 8)%nat) as [Hn|Hn]; [|reflexivity].
    now rewrite decide_False by lia.
Qed.

Section Isolation.
Context `{v4l2_h264_flags} `{rk3399_vdec_regs}.

(** C6: the PPS assembler clears the packet selected by the PPS id before
    it packs any field (the packet it leaves is the packing of the fields
    into a zeroed packet, whatever the packet held) and modifies no other
    packet of the 256-slot table; so a later assembly for a distinct id
    leaves the packet of the first id exactly as its own assembly left
    it. *)
Theorem pps_record_isolation priv_dma sps pps dpb param_set :
  pps_layout_ok -> length param_set = 2048%nat ->
  is_u8 (pic_parameter_set_id pps) ->
  exists table r,
    assemble_hw_pps priv_dma sps pps dpb param_set = Some table /\
    length table = 2048%nat /\
    pps_pack priv_dma sps pps dpb (replicate 8 0) = Some r /\
    hw_sps_pps_packet table (pic_parameter_set_id pps) = r /\
    (forall id, is_u8 id -> id <> pic_parameter_set_id pps ->
       hw_sps_pps_packet table id = hw_sps_pps_packet param_set id) /\
    (forall priv_dma' sps' pps' dpb',
       is_u8 (pic_parameter_set_id pps') ->
       pic_parameter_set_id pps' <> pic_parameter_set_id pps ->
       exists table',
         assemble_hw_pps priv_dma' sps' pps' dpb' table = Some table' /\
         hw_sps_pps_packet table' (pic_parameter_set_id pps) = r).
Proof.
  intros Hlayout Hlen Hid.
  destruct (assemble_hw_pps_spec priv_dma sps pps dpb param_set Hlayout Hlen Hid)
    as (r & Hr & Hlr & Heq).
  assert (8 * Z.to_nat (pic_parameter_set_id pps) + 8 <= 2048)%nat as Hindex
    by (unfold is_u8 in Hid; lia).
  eexists. exists r. split; [exact Heq|].
  assert (length (take (8 * Z.to_nat (pic_parameter_set_id pps)) param_set ++ r ++
                  drop (8 * Z.to_nat (pic_parameter_set_id pps) + 8) param_set)
          = 2048%nat) as Hlen'.
  { rewrite splice_length by lia. assumption. }
  split; [assumption|]. split; [assumption|].
  assert (hw_sps_pps_packet
            (take (8 * Z.to_nat (pic_parameter_set_id pps)) param_set ++ r ++
             drop (8 * Z.to_nat (pic_parameter_set_id pps) + 8) param_set)
            (pic_parameter_set_id pps) = r) as Hpacket.
  { rewrite packet_of_splice by assumption. now rewrite decide_True. }
  split; [assumption|]. split.
  - intros id Hid' Hne. rewrite packet_of_splice by assumption.
    now rewrite decide_False.
  - intros priv_dma' sps' pps' dpb' Hid' Hne.
    destruct (assemble_hw_pps_spec priv_dma' sps' pps' dpb' _ Hlayout Hlen' Hid')
      as (r' & _ & Hlr' & Heq').
    eexists. split; [exact Heq'|].
    rewrite packet_of_splice by assumption.
    rewrite decide_False by congruence. assumption.
Qed.

End Isolation.

Lemma sample_pps_layout_ok : @pps_layout_ok sample_regs.
Proof.
  split.
  - intros f.
    destruct f; unfold packet_field, field_defined; simpl;
      (repeat split; try lia; intros [Hl Hm]; vm_compute in Hl, Hm; discriminate).
  - intros i Hi. unfold packet_field, field_defined. simpl. lia.
Defined.

(** The packet of the sample stream: the negative quantiser offsets leave
    nothing outside their fields once the fields behind them are written. *)
Example assemble_hw_pps_sample :
  (fun table => hw_sps_pps_packet table 5) <$>
    @assemble_hw_pps sample_flags sample_regs 0x10000000 sample_sps (sample_pps 5)
      (dpb sample_decode_params) sample_stale_param_set =
  Some [0x04002000; 0x05221E04; 0; 0; 0xD0002000; 0xE0FA3C07; 0x0010000E; 0].
Proof. vm_compute. reflexivity. Qed.

Lemma pps_record_isolation_witness :
  exists table table',
    @assemble_hw_pps sample_flags sample_regs 0x10000000 sample_sps (sample_pps 5)
      (dpb sample_decode_params) sample_stale_param_set = Some table /\
    @assemble_hw_pps sample_flags sample_regs 0x10000000 sample_sps (sample_pps 7)
      (dpb sample_decode_params) table = Some table' /\
    hw_sps_pps_packet table' 5 = hw_sps_pps_packet table 5.
Proof.
  destruct (@pps_record_isolation sample_flags sample_regs 0x10000000 sample_sps
              (sample_pps 5) (dpb sample_decode_params) sample_stale_param_set
              sample_pps_layout_ok eq_refl)
    as (table & r & Heq & _ & _ & Hpacket & _ & Hlater).
  { unfold is_u8. simpl. lia. }
  destruct (Hlater 0x10000000 sample_sps (sample_pps 7) (dpb sample_decode_params))
    as (table' & Heq' & Hpacket').
  { unfold is_u8. simpl. lia. }
  { simpl. lia. }
  exists table, table'. split; [exact Heq|]. split; [exact Heq'|].
  simpl pic_parameter_set_id in *. congruence.
Defined.

End PpsFacts.

(** ** The scaling-list reorderer *)

Module ScalingFacts.

Lemma for_range_inv {St} (P : nat -> St -> Prop) n : forall i0 body s,
  P i0 s ->
  (forall i s, (i0 <= i < i0 + n)%nat -> P i s -> P (S i) (body i s)) ->
  P (i0 + n)%nat (for_range n i0 body s).
Proof.
  induction n as [|n IH]; intros i0 body s Hinit Hstep; simpl.
  - now rewrite Nat.add_0_r.
  - replace (i0 + S n)%nat with (S i0 + n)%nat by lia.
    apply IH.
    + apply Hstep; [lia | assumption].
    + intros i s' Hi. apply Hstep. lia.
Qed.

Lemma scan_table_lt zig_zag n j :
  scan_table zig_zag n -> (j < n)%nat -> (zig_zag !!! j < n)%nat.
Proof.
  intros (Hlen & _ & Hlt) Hj.
  apply (Forall_lookup_total_1 (fun x => (x < n)%nat) zig_zag j Hlt). lia.
Qed.

Lemma scan_table_inj zig_zag n j j' :
  scan_table zig_zag n -> (j < n)%nat -> (j' < n)%nat ->
  zig_zag !!! j = zig_zag !!! j' -> j = j'.
Proof.
  intros (Hlen & Hnd & _) Hj Hj' Heq.
  apply (NoDup_lookup zig_zag j j' (zig_zag !!! j) Hnd).
  - apply list_lookup_lookup_total_lt. lia.
  - rewrite Heq. apply list_lookup_lookup_total_lt. lia.
Qed.

(** The inner loop scatters one list over its own [n] bytes. *)
Lemma scatter_spec zig_zag n (from : list Z) s d (m : list Z) :
  scan_table zig_zag n -> (d + n <= length m)%nat ->
  let m' := for_range n 0
              (fun j region =>
                 <[(d + zig_zag !!! j)%nat := from !!! (s + j)%nat]> region) m in
  length m' = length m /\
  (forall j, (j < n)%nat ->
     m' !! (d + zig_zag !!! j)%nat = Some (from !!! (s + j)%nat)) /\
  (forall k, ~ (d <= k < d + n)%nat -> m' !! k = m !! k).
Proof.
  intros Hzz Hfit m'. subst m'.
  apply (for_range_inv
    (fun j r => length r = length m /\
       (forall j', (j' < j)%nat ->
          r !! (d + zig_zag !!! j')%nat = Some (from !!! (s + j')%nat)) /\
       (forall k, ~ (d <= k < d + n)%nat -> r !! k = m !! k)) n 0).
  - split; [reflexivity|]. split; [intros j' Hj'; lia | reflexivity].
  - intros j r Hj (Hlen & Hdone & Hout).
    pose proof (scan_table_lt zig_zag n j Hzz ltac:(lia)) as Hlt.
    split; [now rewrite length_insert|]. split.
    + intros j' Hj'. destruct (decide (j' = j)) as [->|Hne].
      * apply list_lookup_insert_eq. lia.
      * rewrite list_lookup_insert_ne.
        -- apply Hdone. lia.
        -- intros Heq. apply Hne. symmetry.
           apply (scan_table_inj zig_zag n j j' Hzz); lia.
    + intros k Hk. rewrite list_lookup_insert_ne by lia. now apply Hout.
Qed.

(** A loop nest scatters its lists one after the other. *)
Lemma reorder_lists_spec zig_zag num n (from : list Z) st :
  scan_table zig_zag n -> (dst st + num * n <= length (region st))%nat ->
  let st' := reorder_lists zig_zag num n from st in
  src st' = (src st + num * n)%nat /\
  dst st' = (dst st + num * n)%nat /\
  length (region st') = length (region st) /\
  (forall i j, (i < num)%nat -> (j < n)%nat ->
     region st' !! (dst st + i * n + zig_zag !!! j)%nat =
     Some (from !!! (src st + i * n + j)%nat)) /\
  (forall k, ~ (dst st <= k < dst st + num * n)%nat ->
     region st' !! k = region st !! k).
Proof.
  intros Hzz Hfit st'. subst st'. unfold reorder_lists.
  apply (for_range_inv
    (fun i s' =>
       src s' = (src st + i * n)%nat /\
       dst s' = (dst st + i * n)%nat /\
       length (region s') = length (region st) /\
       (forall i' j, (i' < i)%nat -> (j < n)%nat ->
          region s' !! (dst st + i' * n + zig_zag !!! j)%nat =
          Some (from !!! (src st + i' * n + j)%nat)) /\
       (forall k, ~ (dst st <= k < dst st + i * n)%nat ->
          region s' !! k = region st !! k)) num 0).
  - repeat split; lia.
  - intros i s' Hi (Hsrc & Hdst & Hlen & Hdone & Hout).
    assert (S i * n <= num * n)%nat as Hmul by (apply Nat.mul_le_mono_r; lia).
    destruct (scatter_spec zig_zag n from (src s') (dst s') (region s') Hzz)
      as (Hlen' & Hnew & Hold).
    { rewrite Hdst, Hlen. lia. }
    cbn [src dst region]. split; [lia|]. split; [lia|]. split; [congruence|]. split.
    + intros i' j Hi' Hj.
      pose proof (scan_table_lt zig_zag n j Hzz Hj) as Hlt.
      destruct (decide (i' = i)) as [->|Hne].
      * rewrite <- Hdst, <- Hsrc. now apply Hnew.
      * assert (S i' * n <= i * n)%nat by (apply Nat.mul_le_mono_r; lia).
        rewrite Hold by lia. apply Hdone; lia.
    + intros k Hk. rewrite Hold by lia. apply Hout. lia.
Qed.

Lemma scan_table_4x4 : scan_table zig_zag_4x4 list_len_4x4.
Proof.
  split; [reflexivity|]. split.
  - apply (bool_decide_unpack _). vm_compute. reflexivity.
  - apply (bool_decide_unpack _). vm_compute. reflexivity.
Qed.

Lemma scan_table_8x8 : scan_table zig_zag_8x8 list_len_8x8.
Proof.
  split; [reflexivity|]. split.
  - apply (bool_decide_unpack _). vm_compute. reflexivity.
  - apply (bool_decide_unpack _). vm_compute. reflexivity.
Qed.

(** A scan table reaches every position. *)
Lemma scan_table_onto zig_zag n p :
  scan_table zig_zag n -> (p < n)%nat ->
  exists j, (j < n)%nat /\ zig_zag !!! j = p.
Proof.
  intros (Hlen & Hnd & Hlt) Hp.
  assert (zig_zag ⊆+ seq 0 n) as Hsub.
  { apply NoDup_submseteq; [assumption|]. intros x Hx.
    apply elem_of_seq. rewrite Forall_forall in Hlt. specialize (Hlt x Hx). lia. }
  apply submseteq_length_Permutation in Hsub; [|rewrite length_seq; lia].
  assert (p ∈ zig_zag) as Hin by (rewrite Hsub; apply elem_of_seq; lia).
  apply list_elem_of_lookup_total in Hin as (j & Hj & Heq).
  exists j. split; [lia | assumption].
Qed.

(** *** A two-dimensional array, flattened *)

Lemma length_concat_uniform (ls : list (list Z)) n :
  Forall (fun l => length l = n) ls -> length (concat ls) = (length ls * n)%nat.
Proof.
  induction 1 as [|l ls Hl _ IH]; [reflexivity|].
  simpl. rewrite length_app, IH, Hl. reflexivity.
Qed.

Lemma lookup_concat_uniform (ls : list (list Z)) n : forall i j,
  Forall (fun l => length l = n) ls -> (i < length ls)%nat -> (j < n)%nat ->
  concat ls !! (i * n + j)%nat = Some ((ls !!! i) !!! j).
Proof.
  induction ls as [|l ls IH]; intros i j Hall Hi Hj; [simpl in Hi; lia|].
  inversion Hall as [|? ? Hl Hrest]; subst. simpl concat.
  destruct i as [|i].
  - rewrite lookup_app_l by lia. simpl.
    apply list_lookup_lookup_total_lt. lia.
  - rewrite lookup_app_r by (simpl; lia).
    replace (S i * length l + j - length l)%nat with (i * length l + j)%nat
      by (simpl; lia).
    simpl in Hi. apply IH; [assumption | lia | assumption].
Qed.

Lemma lookup_total_concat_uniform (ls : list (list Z)) n i j :
  Forall (fun l => length l = n) ls -> (i < length ls)%nat -> (j < n)%nat ->
  concat ls !!! (i * n + j)%nat = (ls !!! i) !!! j.
Proof.
  intros Hall Hi Hj. apply list_lookup_total_correct.
  now apply lookup_concat_uniform.
Qed.

(** *** The reorderer *)

(** Two loop nests in a row, the second continuing where the first left
    [dst]. *)
Lemma reorder_twice zz1 num1 n1 (from1 : list Z) zz2 num2 n2 (from2 : list Z)
  (m : list Z) :
  scan_table zz1 n1 -> scan_table zz2 n2 ->
  (num1 * n1 + num2 * n2 <= length m)%nat ->
  let st1 := reorder_lists zz1 num1 n1 from1 {| src := 0; dst := 0; region := m |} in
  let st2 := reorder_lists zz2 num2 n2 from2
               {| src := 0; dst := dst st1; region := region st1 |} in
  length (region st2) = length m /\
  (forall i j, (i < num1)%nat -> (j < n1)%nat ->
     region st2 !! (i * n1 + zz1 !!! j)%nat = Some (from1 !!! (i * n1 + j)%nat)) /\
  (forall i j, (i < num2)%nat -> (j < n2)%nat ->
     region st2 !! (num1 * n1 + i * n2 + zz2 !!! j)%nat =
     Some (from2 !!! (i * n2 + j)%nat)) /\
  (forall k, (num1 * n1 + num2 * n2 <= k)%nat -> region st2 !! k = m !! k).
Proof.
  intros Hzz1 Hzz2 Hfit st1 st2.
  destruct (reorder_lists_spec zz1 num1 n1 from1
              {| src := 0; dst := 0; region := m |} Hzz1)
    as (_ & Hdst1 & Hlen1 & Hnew1 & Hold1).
  { cbn [src dst region]. lia. }
  fold st1 in Hdst1, Hlen1, Hnew1, Hold1.
  cbn [src dst region] in Hdst1, Hlen1, Hnew1, Hold1.
  destruct (reorder_lists_spec zz2 num2 n2 from2
              {| src := 0; dst := dst st1; region := region st1 |} Hzz2)
    as (_ & _ & Hlen2 & Hnew2 & Hold2).
  { cbn [src dst region]. rewrite Hdst1, Hlen1. lia. }
  fold st2 in Hlen2, Hnew2, Hold2.
  cbn [src dst region] in Hlen2, Hnew2, Hold2.
  clearbody st1 st2.
  split; [congruence|]. split; [|split].
  - intros i j Hi Hj.
    pose proof (scan_table_lt _ _ j Hzz1 Hj) as Hlt.
    assert (S i * n1 <= num1 * n1)%nat by (apply Nat.mul_le_mono_r; lia).
    rewrite Hold2 by (rewrite Hdst1; simpl in *; lia).
    exact (Hnew1 i j Hi Hj).
  - intros i j Hi Hj.
    pose proof (Hnew2 i j Hi Hj) as Hn. rewrite Hdst1 in Hn.
    exact Hn.
  - intros k Hk. rewrite Hold2 by (rewrite Hdst1; lia). apply Hold1. lia.
Qed.

Lemma reorder_scaling_list_eq scaling scaling_list :
  reorder_scaling_list scaling scaling_list =
  let st1 := reorder_lists zig_zag_4x4 num_list_4x4 list_len_4x4
               (concat (scaling_list_4x4 scaling))
               {| src := 0; dst := 0; region := scaling_list |} in
  let st2 := reorder_lists zig_zag_8x8 num_list_8x8 list_len_8x8
               (concat (scaling_list_8x8 scaling))
               {| src := 0; dst := dst st1; region := region st1 |} in
  region st2.
Proof. reflexivity. Qed.

Lemma reorder_scaling_list_lookups scaling scaling_list :
  wf_scaling_matrix scaling ->
  length scaling_list = Z.to_nat RKV_SCALING_LIST_SIZE ->
  let out := reorder_scaling_list scaling scaling_list in
  length out = length scaling_list /\
  (forall i j, (i < num_list_4x4)%nat -> (j < list_len_4x4)%nat ->
     out !! (i * list_len_4x4 + zig_zag_4x4 !!! j)%nat =
     Some ((scaling_list_4x4 scaling !!! i) !!! j)) /\
  (forall i j, (i < num_list_8x8)%nat -> (j < list_len_8x8)%nat ->
     out !! (num_list_4x4 * list_len_4x4 + i * list_len_8x8 + zig_zag_8x8 !!! j)%nat =
     Some ((scaling_list_8x8 scaling !!! i) !!! j)) /\
  (forall k, (num_list_4x4 * list_len_4x4 + num_list_8x8 * list_len_8x8 <= k)%nat ->
     out !! k = scaling_list !! k).
Proof.
  intros (Hn4 & Hl4 & Hn8 & Hl8) Hlen out. subst out.
  rewrite reorder_scaling_list_eq.
  pose proof (reorder_twice zig_zag_4x4 num_list_4x4 list_len_4x4
                (concat (scaling_list_4x4 scaling))
                zig_zag_8x8 num_list_8x8 list_len_8x8
                (concat (scaling_list_8x8 scaling))
                scaling_list scan_table_4x4 scan_table_8x8) as Htwice.
  revert Htwice.
  generalize (reorder_lists zig_zag_4x4 num_list_4x4 list_len_4x4
                (concat (scaling_list_4x4 scaling))
                {| src := 0; dst := 0; region := scaling_list |}).
  intros st1.
  generalize (reorder_lists zig_zag_8x8 num_list_8x8 list_len_8x8
                (concat (scaling_list_8x8 scaling))
                {| src := 0; dst := dst st1; region := region st1 |}).
  intros st2 Htwice. cbv zeta in Htwice |- *.
  destruct Htwice as (Hlen' & H4 & H8 & Hrest).
  { rewrite Hlen. vm_compute. repeat constructor. }
  split; [assumption|]. split; [|split; [|assumption]].
  - intros i j Hi Hj. rewrite (H4 i j Hi Hj). f_equal.
    apply lookup_total_concat_uniform; [assumption | lia | assumption].
  - intros i j Hi Hj. rewrite (H8 i j Hi Hj). f_equal.
    apply lookup_total_concat_uniform; [assumption | lia | assumption].
Qed.

(** *** The round trip *)

Lemma raster_to_zig_zag_lookup zig_zag (raster : list Z) j :
  (j < length zig_zag)%nat ->
  raster_to_zig_zag zig_zag raster !!! j = raster !!! (zig_zag !!! j).
Proof.
  intros Hj. unfold raster_to_zig_zag.
  apply list_lookup_total_correct.
  rewrite list_lookup_fmap, (list_lookup_lookup_total_lt zig_zag j Hj).
  reflexivity.
Qed.

Lemma fmap_lookup_total_lists (f : list Z -> list Z) (ls : list (list Z)) i :
  (i < length ls)%nat -> (f <$> ls) !!! i = f (ls !!! i).
Proof.
  intros Hi. apply list_lookup_total_correct.
  rewrite list_lookup_fmap, (list_lookup_lookup_total_lt ls i Hi).
  reflexivity.
Qed.

(** Where the lists were put in scan order, the scattered block is the
    block of the raster lists. *)
Lemma scatter_of_scan zig_zag n num base (out : list Z) (rasters : list (list Z)) k :
  scan_table zig_zag n -> length rasters = num ->
  Forall (fun l => length l = n) rasters ->
  (forall i j, (i < num)%nat -> (j < n)%nat ->
     out !! (base + i * n + zig_zag !!! j)%nat =
     Some (((raster_to_zig_zag zig_zag <$> rasters) !!! i) !!! j)) ->
  (k < num * n)%nat ->
  out !! (base + k)%nat = concat rasters !! k.
Proof.
  intros Hzz Hnum Hall Hout Hk.
  assert (0 < n)%nat as Hn by (destruct n; lia).
  pose proof (Nat.div_mod_eq k n) as Hdm.
  pose proof (Nat.mod_upper_bound k n ltac:(lia)) as Hp.
  assert (k / n < num)%nat as Hi by (apply Nat.Div0.div_lt_upper_bound; lia).
  destruct (scan_table_onto zig_zag n (k mod n) Hzz Hp) as (j & Hj & Hzj).
  replace (base + k)%nat with (base + (k / n) * n + zig_zag !!! j)%nat by lia.
  rewrite (Hout (k / n)%nat j Hi Hj).
  rewrite fmap_lookup_total_lists by lia.
  rewrite raster_to_zig_zag_lookup by (destruct Hzz as (-> & _); assumption).
  rewrite Hzj. symmetry.
  replace k with ((k / n) * n + k mod n)%nat at 1 by lia.
  apply lookup_concat_uniform; [assumption | lia | assumption].
Qed.

(** C7: the reorderer writes [dest[zig_zag[j]] = src[j]] for every
    coefficient of the six 4x4 lists and then, contiguously, of the six 8x8
    lists, and nothing behind them; consequently, for lists that are
    raster lists put in zig-zag order, it yields the raster lists. *)
Theorem reorder_scaling_list_zig_zag scaling scaling_list :
  wf_scaling_matrix scaling ->
  length scaling_list = Z.to_nat RKV_SCALING_LIST_SIZE ->
  let out := reorder_scaling_list scaling scaling_list in
  length out = length scaling_list /\
  (forall i j, (i < 6)%nat -> (j < 16)%nat ->
     out !! (i * 16 + zig_zag_4x4 !!! j)%nat =
     Some ((scaling_list_4x4 scaling !!! i) !!! j)) /\
  (forall i j, (i < 6)%nat -> (j < 64)%nat ->
     out !! (6 * 16 + i * 64 + zig_zag_8x8 !!! j)%nat =
     Some ((scaling_list_8x8 scaling !!! i) !!! j)) /\
  (forall k, (6 * 16 + 6 * 64 <= k)%nat -> out !! k = scaling_list !! k) /\
  (forall raster_4x4 raster_8x8,
     Forall (fun l => length l = 16%nat) raster_4x4 ->
     Forall (fun l => length l = 64%nat) raster_8x8 ->
     scaling_list_4x4 scaling = raster_to_zig_zag zig_zag_4x4 <$> raster_4x4 ->
     scaling_list_8x8 scaling = raster_to_zig_zag zig_zag_8x8 <$> raster_8x8 ->
     out = concat raster_4x4 ++ concat raster_8x8 ++
           drop (6 * 16 + 6 * 64) scaling_list).
Proof.
  intros Hwf Hlen out.
  destruct (reorder_scaling_list_lookups scaling scaling_list Hwf Hlen)
    as (Hlen' & H4 & H8 & Hrest).
  fold out in Hlen', H4, H8, Hrest. clearbody out.
  unfold num_list_4x4, list_len_4x4, num_list_8x8, list_len_8x8 in H4, H8, Hrest.
  change (Z.to_nat RKV_SCALING_LIST_SIZE) with 608%nat in Hlen.
  split; [assumption|]. split; [assumption|]. split; [assumption|].
  split; [assumption|].
  intros raster_4x4 raster_8x8 Hr4 Hr8 E4 E8.
  destruct Hwf as (Hn4 & _ & Hn8 & _).
  rewrite E4, length_fmap in Hn4. rewrite E8, length_fmap in Hn8.
  unfold num_list_4x4 in Hn4. unfold num_list_8x8 in Hn8.
  rewrite E4 in H4. rewrite E8 in H8.
  pose proof (length_concat_uniform raster_4x4 16 Hr4) as Hc4.
  pose proof (length_concat_uniform raster_8x8 64 Hr8) as Hc8.
  rewrite Hn4 in Hc4. rewrite Hn8 in Hc8.
  apply list_eq. intros k.
  destruct (Nat.lt_ge_cases k (6 * 16)) as [Hk4|Hk4].
  - rewrite lookup_app_l by lia.
    apply (scatter_of_scan zig_zag_4x4 16 6 0 out raster_4x4 k
             scan_table_4x4 Hn4 Hr4); [|assumption].
    intros i j Hi Hj. exact (H4 i j Hi Hj).
  - rewrite lookup_app_r by lia. rewrite Hc4.
    destruct (Nat.lt_ge_cases k (6 * 16 + 6 * 64)) as [Hk8|Hk8].
    + rewrite lookup_app_l by lia.
      replace k with (6 * 16 + (k - 6 * 16))%nat at 1 by lia.
      apply (scatter_of_scan zig_zag_8x8 64 6 (6 * 16) out raster_8x8 _
               scan_table_8x8 Hn8 Hr8); [|lia].
      intros i j Hi Hj. exact (H8 i j Hi Hj).
    + rewrite lookup_app_r by lia. rewrite Hc8, lookup_drop, Hrest by lia.
      f_equal. lia.
Qed.

Lemma sample_scaling_matrix_wf : wf_scaling_matrix sample_scaling_matrix.
Proof.
  unfold wf_scaling_matrix. repeat split; try reflexivity.
  - vm_compute. repeat constructor.
  - vm_compute. repeat constructor.
Defined.

Lemma reorder_scaling_list_zig_zag_witness :
  reorder_scaling_list sample_scaling_matrix sample_stale_scaling_list =
  concat sample_raster_4x4 ++ concat sample_raster_8x8 ++
  drop (6 * 16 + 6 * 64) sample_stale_scaling_list.
Proof.
  destruct (reorder_scaling_list_zig_zag sample_scaling_matrix
              sample_stale_scaling_list sample_scaling_matrix_wf eq_refl)
    as (_ & _ & _ & _ & Hroundtrip).
  apply Hroundtrip.
  - vm_compute. repeat constructor.
  - vm_compute. repeat constructor.
  - reflexivity.
  - reflexivity.
Defined.

End ScalingFacts.

(** ** The register builder *)

Module RegsFacts.

Example round_up_aligned : round_up 1088 16 = 1088.
Proof. reflexivity. Qed.

Example round_up_1080 : round_up 1080 16 = 1088.
Proof. reflexivity. Qed.

(** [round_up] to 16 is the bit trick of the kernel macro,
    [((x - 1) | (16 - 1)) + 1], in 32-bit arithmetic. *)
Lemma lor_low_bits a : 0 <= a -> Z.lor a 15 = a / 16 * 16 + 15.
Proof.
  intros Ha.
  assert (a / 16 * 16 = Z.shiftl (Z.shiftr a 4) 4) as ->.
  { rewrite Z.shiftr_div_pow2, Z.shiftl_mul_pow2 by lia. reflexivity. }
  change 15 with (Z.ones 4).
  rewrite Z.add_nocarry_lor.
  - apply Z.bits_inj'. intros k Hk.
    rewrite !Z.lor_spec, Z.shiftl_spec by lia.
    destruct (Z_lt_le_dec k 4) as [Hlt|Hge].
    + rewrite Z.ones_spec_low by lia. now rewrite !orb_true_r.
    + rewrite Z.shiftr_spec by lia. do 2 f_equal. lia.
  - apply Z.bits_inj'. intros k Hk.
    rewrite Z.land_spec, Z.shiftl_spec, Z.bits_0 by lia.
    destruct (Z_lt_le_dec k 4) as [Hlt|Hge].
    + rewrite (Z.testbit_neg_r _ (k - 4)) by lia. reflexivity.
    + rewrite Z.ones_spec_high by lia. apply andb_false_r.
Qed.

Lemma round_up_16 x :
  is_u32 x -> round_up x 16 = add32 (Z.lor (sub32 x 1) (16 - 1)) 1.
Proof.
  intros Hx. unfold is_u32 in Hx. unfold round_up, add32, sub32, u32.
  destruct (Z.eq_dec x 0) as [->|Hnz]; [reflexivity|].
  rewrite (Z.mod_small (x - 1)) by lia.
  change (16 - 1) with 15. rewrite lor_low_bits by lia. f_equal.
  replace (x + 16 - 1) with (x - 1 + 1 * 16) by lia.
  rewrite Z.div_add by lia. lia.
Qed.

(** C5, as stated, fails: 1080 is not a multiple of 16 (it is 67.5
    macroblock rows), so the vertical stride of a 1920x1080 frame is 1088
    and the plane sizes follow it. *)
Lemma virstrides_1080_not_as_claimed :
  ~ (hor_virstride (config_regs_virstrides sample_sps 1920 1080) = 1920 /\
     ver_virstride (config_regs_virstrides sample_sps 1920 1080) = 1080 /\
     y_virstride (config_regs_virstrides sample_sps 1920 1080) = 2073600 /\
     yuv_virstride (config_regs_virstrides sample_sps 1920 1080) = 3110400).
Proof. intros (_ & Hver & _). vm_compute in Hver. discriminate. Qed.

(** C5 (amended): for a 1920x1080 frame with 8-bit luma and
    [chroma_format_idc = 1], the register builder computes a horizontal
    stride of 1920, a vertical stride of 1088 (1080 rounded up to a
    multiple of 16), a luma plane of 2,088,960 bytes and a combined YUV
    size of 3,133,440 (luma x 1.5). *)
Theorem virstrides_1920x1080 sps :
  bit_depth_luma_minus8 sps = 0 -> chroma_format_idc sps = 1 ->
  config_regs_virstrides sps 1920 1080 =
  {| hor_virstride := 1920; ver_virstride := 1088;
     y_virstride := 2088960; yuv_virstride := 3133440 |} /\
  1080 mod 16 = 8 /\ 1088 mod 16 = 0 /\
  2088960 = 1920 * 1088 /\ 2 * 3133440 = 3 * 2088960.
Proof.
  intros Hdepth Hidc. unfold config_regs_virstrides.
  rewrite Hdepth, Hidc. repeat split; reflexivity.
Qed.

Lemma virstrides_1920x1080_witness :
  config_regs_virstrides sample_sps 1920 1080 =
  {| hor_virstride := 1920; ver_virstride := 1088;
     y_virstride := 2088960; yuv_virstride := 3133440 |}.
Proof.
  apply (virstrides_1920x1080 sample_sps); reflexivity.
Defined.

Section WithHeaders.
Context `{v4l2_h264_flags} `{rk3399_vdec_regs}.

Lemma length_config_refs bufs dpb (l : list Z) :
  length (l ≫= config_ref bufs dpb) = (3 * length l)%nat.
Proof.
  induction l as [|i l IH]; [reflexivity|].
  rewrite bind_cons, length_app, IH. simpl. lia.
Qed.

(** The strides reach the hardware through the stride registers. *)
Lemma config_regs_virstride_writes bufs dec_param sps :
  let vs := config_regs_virstrides sps (dst_fmt_width bufs) (dst_fmt_height bufs) in
  config_regs bufs dec_param sps !! 6%nat =
    Some (vdpu_write_relaxed (RKVDEC_Y_VIRSTRIDE (y_virstride vs / 16))
                             RKVDEC_REG_Y_VIRSTRIDE) /\
  config_regs bufs dec_param sps !! 7%nat =
    Some (vdpu_write_relaxed (RKVDEC_YUV_VIRSTRIDE (yuv_virstride vs / 16))
                             RKVDEC_REG_YUV_VIRSTRIDE).
Proof. split; reflexivity. Qed.

(** C8 (amended): for every frame the register builder writes CUR_POC0
    from the top field order count of the decode parameters and, next,
    CUR_POC1 from their bottom field order count; the two values are
    identical whenever the two counts are. *)
Theorem cur_poc_registers bufs dec_param sps :
  config_regs bufs dec_param sps !! 56%nat =
    Some (u32 (RKVDEC_CUR_POC (dec_top_field_order_cnt dec_param)),
          RKVDEC_REG_CUR_POC0) /\
  config_regs bufs dec_param sps !! 57%nat =
    Some (u32 (RKVDEC_CUR_POC (dec_bottom_field_order_cnt dec_param)),
          RKVDEC_REG_CUR_POC1) /\
  (dec_top_field_order_cnt dec_param = dec_bottom_field_order_cnt dec_param ->
   exists v,
     config_regs bufs dec_param sps !! 56%nat = Some (v, RKVDEC_REG_CUR_POC0) /\
     config_regs bufs dec_param sps !! 57%nat = Some (v, RKVDEC_REG_CUR_POC1)).
Proof.
  assert (forall n : nat,
            config_regs bufs dec_param sps !! (56 + n)%nat =
            [ vdpu_write_relaxed (RKVDEC_CUR_POC (dec_top_field_order_cnt dec_param))
                RKVDEC_REG_CUR_POC0;
              vdpu_write_relaxed (RKVDEC_CUR_POC (dec_bottom_field_order_cnt dec_param))
                RKVDEC_REG_CUR_POC1 ] !! n \/ (2 <= n)%nat) as Hat.
  { intros n. destruct (Nat.lt_ge_cases n 2) as [Hn|Hn]; [left | now right].
    unfold config_regs. cbv zeta.
    rewrite lookup_app_r by (simpl; lia).
    rewrite lookup_app_r
      by (rewrite length_config_refs, length_seqZ; simpl; lia).
    rewrite length_config_refs, length_seqZ.
    replace (56 + n - length _ - 3 * Z.to_nat 16)%nat with n by (simpl; lia).
    destruct n as [|[|n]]; [reflexivity | reflexivity | lia]. }
  destruct (Hat 0%nat) as [Hpoc0|]; [|lia].
  destruct (Hat 1%nat) as [Hpoc1|]; [|lia].
  simpl in Hpoc0, Hpoc1. unfold vdpu_write_relaxed in Hpoc0, Hpoc1.
  split; [exact Hpoc0|]. split; [exact Hpoc1|].
  intros Heq. exists (u32 (RKVDEC_CUR_POC (dec_top_field_order_cnt dec_param))).
  split; [exact Hpoc0 | rewrite Heq; exact Hpoc1].
Qed.

End WithHeaders.

Lemma cur_poc_registers_at_4_5 :
  @config_regs sample_flags sample_regs sample_buffers
    (sample_decode_params_poc 4 5) sample_sps !! 56%nat = Some (4, 0x0A0) /\
  @config_regs sample_flags sample_regs sample_buffers
    (sample_decode_params_poc 4 5) sample_sps !! 57%nat = Some (5, 0x128).
Proof. split; vm_compute; reflexivity. Qed.

Lemma cur_poc_registers_witness :
  exists v,
    @config_regs sample_flags sample_regs sample_buffers
      sample_decode_params sample_sps !! 56%nat =
      Some (v, @RKVDEC_REG_CUR_POC0 sample_regs) /\
    @config_regs sample_flags sample_regs sample_buffers
      sample_decode_params sample_sps !! 57%nat =
      Some (v, @RKVDEC_REG_CUR_POC1 sample_regs).
Proof.
  destruct (@cur_poc_registers sample_flags sample_regs sample_buffers
              sample_decode_params sample_sps) as (_ & _ & Hsame).
  apply Hsame. reflexivity.
Defined.

(** C8, as stated, fails: the two registers are written from two members
    of the decode parameters, which a stream may set apart; with the
    identity for [RKVDEC_CUR_POC], counts 4 and 5 put 4 in CUR_POC0 and 5 in
    CUR_POC1. *)
Lemma cur_poc_registers_differ :
  ~ (exists v,
       @config_regs sample_flags sample_regs sample_buffers
         (sample_decode_params_poc 4 5) sample_sps !! 56%nat =
         Some (v, @RKVDEC_REG_CUR_POC0 sample_regs) /\
       @config_regs sample_flags sample_regs sample_buffers
         (sample_decode_params_poc 4 5) sample_sps !! 57%nat =
         Some (v, @RKVDEC_REG_CUR_POC1 sample_regs)).
Proof.
  intros (v & Hpoc0 & Hpoc1).
  destruct cur_poc_registers_at_4_5 as [E0 E1].
  rewrite E0 in Hpoc0. rewrite E1 in Hpoc1.
  assert (v = 4) by congruence. assert (v = 5) by congruence. lia.
Qed.

End RegsFacts.

(* ================================================================== *)
(** * Further properties of the bit-field writer *)

Module BitFieldLaws.
Import BitFieldFacts.

Lemma and_assign_None buffer word m :
  buffer !! Z.to_nat word = None -> and_assign buffer word m = None.
Proof. intros Hw. unfold and_assign, load. now rewrite Hw. Qed.

(** A field whose last word is not in the buffer makes the function access
    the array out of bounds. *)
Lemma write_header_outside value buffer offset len :
  field_defined offset len -> ~ field_inside buffer offset len ->
  write_header value buffer offset len = None.
Proof.
  intros (Hoff & Hlen & Hub) Hout. unfold field_inside in Hout.
  pose proof (Z.mod_pos_bound offset 32 ltac:(lia)) as Hbit.
  pose proof (Z.div_mod offset 32 ltac:(lia)) as Hdm.
  assert (0 <= offset / 32 < 2 ^ 27) as Hword.
  { split; [apply Z.div_pos; lia | apply Z.div_lt_upper_bound; lia]. }
  destruct (Z_le_gt_dec (offset mod 32 + len) 32) as [Hin|Hst].
  - assert ((offset + len - 1) / 32 = offset / 32) as Hlast.
    { symmetry. apply (Z.div_unique _ _ _ (offset mod 32 + len - 1)); lia. }
    rewrite Hlast in Hout.
    unfold write_header, add32.
    rewrite u32_small by lia. rewrite decide_False by lia.
    rewrite (shl32_eq 1 len) by lia. simpl.
    rewrite mask_ones by lia.
    rewrite (shl32_eq (Z.ones len)) by lia. simpl.
    rewrite and_assign_None; [reflexivity|].
    apply lookup_ge_None_2. lia.
  - assert ((offset + len - 1) / 32 = offset / 32 + 1) as Hlast.
    { symmetry. apply (Z.div_unique _ _ _ (offset mod 32 + len - 1 - 32)); lia. }
    rewrite Hlast in Hout.
    unfold write_header, add32, sub32.
    rewrite (u32_small (len + _)) by lia. rewrite decide_True by lia.
    rewrite (u32_small (32 - _)) by lia.
    rewrite (u32_small (len + _ - 32)) by lia.
    rewrite (u32_small (offset / 32 + 1)) by lia.
    assert (Z.to_nat (offset / 32 + 1) = S (Z.to_nat (offset / 32))) as Hs by lia.
    rewrite (shl32_eq 1 (32 - _)) by lia. simpl.
    fold (sub32 (u32 (Z.shiftl 1 (32 - offset mod 32))) 1).
    rewrite mask_ones by lia.
    rewrite (shl32_eq (Z.ones _)) by lia. simpl.
    destruct (buffer !! Z.to_nat (offset / 32)) as [w1|] eqn:Hw1;
      [|now rewrite and_assign_None].
    rewrite (and_assign_eq _ _ _ w1) by assumption. simpl.
    rewrite ?(shl32_eq value) by lia. simpl.
    pose proof (lookup_lt_Some _ _ _ Hw1) as Hlt1.
    erewrite or_assign_eq by (now apply list_lookup_insert_eq).
    rewrite list_insert_insert_eq. simpl.
    rewrite shr32_eq by lia. simpl.
    rewrite (shl32_eq 1 (len + _ - 32)) by lia. simpl.
    rewrite and_assign_None; [reflexivity|].
    apply lookup_ge_None_2. rewrite length_insert. lia.
Qed.

(** X1.  For a field whose shifts are defined, [write_header] stays inside
    the array exactly when the word that holds the last bit of the field
    belongs to the buffer: it has a result in that case and in no other. *)
Theorem write_header_defined_iff value buffer offset len :
  field_defined offset len ->
  (is_Some (write_header value buffer offset len) <->
   field_inside buffer offset len).
Proof.
  intros Hdef. split.
  - intros [b Hb]. unfold field_inside.
    destruct (Z_lt_le_dec ((offset + len - 1) / 32) (Z.of_nat (length buffer)))
      as [|Hout]; [assumption|].
    rewrite (write_header_outside value buffer offset len Hdef) in Hb;
      [discriminate | unfold field_inside; lia].
  - intros Hin.
    destruct (write_header_app value buffer [] offset len Hdef Hin)
      as (a' & Heq & _). now exists a'.
Qed.

Lemma write_header_defined_iff_witness :
  (is_Some (write_header 0xAB [0; 0] 28 8) <-> field_inside [0; 0] 28 8) /\
  (is_Some (write_header 0xAB [0; 0] 60 8) <-> field_inside [0; 0] 60 8).
Proof.
  split; apply write_header_defined_iff;
    (repeat split; try lia; intros [Hl _]; lia).
Defined.

(** *** Words stay 32-bit values *)

Lemma high_bits_u32 z :
  (forall k, 32 <= k -> Z.testbit z k = false) -> is_u32 z.
Proof.
  intros Hhigh. assert (z = u32 z) as ->.
  { apply Z.bits_inj'. intros k Hk. rewrite testbit_u32.
    destruct (Z.ltb_spec k 32); [reflexivity | now apply Hhigh]. }
  unfold is_u32, u32. apply Z.mod_pos_bound. lia.
Qed.

Lemma u32_high_bits z k : is_u32 z -> 32 <= k -> Z.testbit z k = false.
Proof. intros Hz Hk. apply (testbit_above z 32); [exact Hz | lia]. Qed.

Lemma field_word_u32 w value bit len : is_u32 (field_word w value bit len).
Proof.
  apply high_bits_u32. intros k Hk. unfold field_word.
  rewrite Z.lor_spec, Z.land_spec, testbit_not32, !testbit_u32 by lia.
  assert ((k <? 32) = false) as -> by (apply Z.ltb_ge; lia).
  now rewrite andb_false_r.
Qed.

Lemma tail_word_u32 w value len1 len2 :
  is_u32 value -> 0 <= len1 -> is_u32 (tail_word w value len1 len2).
Proof.
  intros Hv Hl. apply high_bits_u32. intros k Hk. unfold tail_word.
  rewrite Z.lor_spec, Z.land_spec, testbit_not32, Z.shiftr_spec by lia.
  assert ((k <? 32) = false) as -> by (apply Z.ltb_ge; lia).
  rewrite (u32_high_bits value) by (assumption || lia).
  now rewrite andb_false_r.
Qed.

Lemma write_header_u32 value buffer offset len buffer' :
  is_u32 value -> field_defined offset len -> Forall is_u32 buffer ->
  write_header value buffer offset len = Some buffer' ->
  Forall is_u32 buffer'.
Proof.
  intros Hv Hdef Hbuf Hw.
  assert (field_inside buffer offset len) as Hfit.
  { unfold field_inside.
    destruct (Z_lt_le_dec ((offset + len - 1) / 32) (Z.of_nat (length buffer)))
      as [|Hout]; [assumption|].
    rewrite (write_header_outside value buffer offset len Hdef) in Hw;
      [discriminate | unfold field_inside; lia]. }
  destruct Hdef as (Hoff & Hlen & Hub). unfold field_inside in Hfit.
  pose proof (Z.mod_pos_bound offset 32 ltac:(lia)) as Hbit.
  pose proof (Z.div_mod offset 32 ltac:(lia)) as Hdm.
  assert (0 <= offset / 32) as Hq by (apply Z.div_pos; lia).
  destruct (Z_le_gt_dec (offset mod 32 + len) 32) as [Hin|Hst].
  - assert ((offset + len - 1) / 32 = offset / 32) as Hlast.
    { symmetry. apply (Z.div_unique _ _ _ (offset mod 32 + len - 1)); lia. }
    rewrite Hlast in *.
    destruct (lookup_lt_is_Some_2 buffer (Z.to_nat (offset / 32)) ltac:(lia)) as [w Hw0].
    rewrite (write_header_inside_eq _ _ _ _ w) in Hw by (assumption || lia).
    injection Hw as <-. apply Forall_insert; [assumption | apply field_word_u32].
  - assert ((offset + len - 1) / 32 = offset / 32 + 1) as Hlast.
    { symmetry. apply (Z.div_unique _ _ _ (offset mod 32 + len - 1 - 32)); lia. }
    rewrite Hlast in *.
    destruct (lookup_lt_is_Some_2 buffer (Z.to_nat (offset / 32)) ltac:(lia)) as [w1 Hw1].
    destruct (lookup_lt_is_Some_2 buffer (S (Z.to_nat (offset / 32))) ltac:(lia)) as [w2 Hw2].
    rewrite (write_header_straddle_eq _ _ _ _ w1 w2) in Hw by (assumption || lia).
    injection Hw as <-.
    apply Forall_insert; [apply Forall_insert; [assumption | apply field_word_u32]|].
    apply tail_word_u32; [assumption | lia].
Qed.

(** Two arrays of 32-bit words with the same bits are the same array. *)
Lemma buf_bit_ext (a b : list Z) :
  Forall is_u32 a -> Forall is_u32 b -> length a = length b ->
  (forall k, 0 <= k -> buf_bit a k = buf_bit b k) -> a = b.
Proof.
  intros Ha Hb Hlen Hbits. apply list_eq. intros n.
  destruct (a !! n) as [x|] eqn:Hx.
  - pose proof (lookup_lt_Some _ _ _ Hx) as Hn.
    destruct (lookup_lt_is_Some_2 b n ltac:(lia)) as [y Hy]. rewrite Hy.
    f_equal. apply Z.bits_inj'. intros i Hi.
    destruct (Z_lt_le_dec i 32) as [Hlo|Hhi].
    + specialize (Hbits (32 * Z.of_nat n + i) ltac:(lia)).
      unfold buf_bit in Hbits.
      replace ((32 * Z.of_nat n + i) / 32) with (Z.of_nat n) in Hbits
        by (apply (Z.div_unique _ _ _ i); lia).
      replace ((32 * Z.of_nat n + i) mod 32) with i in Hbits
        by (apply (Z.mod_unique _ _ (Z.of_nat n)); lia).
      rewrite Nat2Z.id, Hx, Hy in Hbits. exact Hbits.
    + rewrite !u32_high_bits; try reflexivity; try lia.
      * exact (proj1 (Forall_lookup _ _) Hb _ _ Hy).
      * exact (proj1 (Forall_lookup _ _) Ha _ _ Hx).
  - symmetry. apply lookup_ge_None_2. apply lookup_ge_None_1 in Hx. lia.
Qed.

(** A fitting value, bit by bit. *)
Lemma write_header_bits value buffer offset len :
  0 <= value < 2 ^ len ->
  field_defined offset len -> field_inside buffer offset len ->
  exists buffer',
    write_header value buffer offset len = Some buffer' /\
    length buffer' = length buffer /\
    (forall k, 0 <= k ->
       buf_bit buffer' k =
       if decide (offset <= k < offset + len) then Z.testbit value (k - offset)
       else buf_bit buffer k).
Proof.
  intros Hv Hdef Hfit.
  assert (is_u32 value) as Hu.
  { destruct Hdef as (_ & Hlen & _). split; [lia|].
    apply Z.lt_le_trans with (2 ^ len); [lia | apply Z.pow_le_mono_r; lia]. }
  destruct (write_header_spec value buffer offset len Hu Hdef Hfit)
    as (buffer' & Heq & Hlength & _ & Hbits).
  exists buffer'. split; [assumption|]. split; [assumption|].
  intros k Hk. rewrite Hbits by assumption.
  destruct (decide (offset <= k < offset + len)) as [Hin|Hout]; [reflexivity|].
  destruct (Z_lt_le_dec k offset).
  - rewrite (testbit_neg value) by lia. now rewrite andb_false_r, orb_false_r.
  - rewrite (testbit_above value len) by lia. now rewrite andb_false_r, orb_false_r.
Qed.

(** X2.  Writes of fitting values to two fields that do not overlap can be
    made in either order: both orders are defined and leave the same
    buffer. *)
Theorem write_header_commute v1 o1 l1 v2 o2 l2 buffer :
  Forall is_u32 buffer ->
  0 <= v1 < 2 ^ l1 -> field_defined o1 l1 -> field_inside buffer o1 l1 ->
  0 <= v2 < 2 ^ l2 -> field_defined o2 l2 -> field_inside buffer o2 l2 ->
  o1 + l1 <= o2 \/ o2 + l2 <= o1 ->
  exists buffer',
    (write_header v1 buffer o1 l1 ≫= fun b => write_header v2 b o2 l2)
      = Some buffer' /\
    (write_header v2 buffer o2 l2 ≫= fun b => write_header v1 b o1 l1)
      = Some buffer' /\
    read_field buffer' o1 l1 = v1 /\ read_field buffer' o2 l2 = v2.
Proof.
  intros Hbuf Hv1 Hd1 Hi1 Hv2 Hd2 Hi2 Hdisj.
  assert (forall v l, 0 <= v < 2 ^ l -> 1 <= l <= 32 -> is_u32 v) as Hfits.
  { intros v l Hv Hl. split; [lia|].
    apply Z.lt_le_trans with (2 ^ l); [lia | apply Z.pow_le_mono_r; lia]. }
  pose proof (Hfits v1 l1 Hv1 (proj1 (proj2 Hd1))) as Hu1.
  pose proof (Hfits v2 l2 Hv2 (proj1 (proj2 Hd2))) as Hu2.
  destruct (write_header_bits v1 buffer o1 l1 Hv1 Hd1 Hi1) as (a & Ha & Hla & Hba).
  destruct (write_header_bits v2 a o2 l2 Hv2 Hd2) as (ab & Hab & Hlab & Hbab).
  { unfold field_inside in *. now rewrite Hla. }
  destruct (write_header_bits v2 buffer o2 l2 Hv2 Hd2 Hi2) as (b & Hb & Hlb & Hbb).
  destruct (write_header_bits v1 b o1 l1 Hv1 Hd1) as (ba & Hba' & Hlba & Hbba).
  { unfold field_inside in *. now rewrite Hlb. }
  assert (ab = ba) as Heq.
  { apply buf_bit_ext.
    - eapply write_header_u32; [exact Hu2 | exact Hd2 | | exact Hab].
      eapply write_header_u32; [exact Hu1 | exact Hd1 | exact Hbuf | exact Ha].
    - eapply write_header_u32; [exact Hu1 | exact Hd1 | | exact Hba'].
      eapply write_header_u32; [exact Hu2 | exact Hd2 | exact Hbuf | exact Hb].
    - congruence.
    - intros k Hk. rewrite Hbab, Hbba, Hba, Hbb by assumption.
      destruct (decide (o2 <= k < o2 + l2)), (decide (o1 <= k < o1 + l1));
        try reflexivity; lia. }
  exists ab. rewrite Ha, Hb. simpl. rewrite Hab, Hba', Heq.
  split; [reflexivity|]. split; [reflexivity|].
  destruct Hd1 as (? & ? & _), Hd2 as (? & ? & _).
  split; apply Z.bits_inj'; intros i Hi; rewrite read_field_spec by lia.
  - destruct (decide (0 <= i < l1)).
    + rewrite Hbba by lia. rewrite decide_True by lia. f_equal. lia.
    + symmetry. apply (testbit_above v1 l1); lia.
  - destruct (decide (0 <= i < l2)).
    + rewrite <- Heq, Hbab by lia. rewrite decide_True by lia. f_equal. lia.
    + symmetry. apply (testbit_above v2 l2); lia.
Qed.

Lemma write_header_commute_witness :
  exists buffer',
    (write_header 5 [0xFFFFFFFF; 0] 4 3 ≫= fun b => write_header 0xAB b 28 8)
      = Some buffer' /\
    (write_header 0xAB [0xFFFFFFFF; 0] 28 8 ≫= fun b => write_header 5 b 4 3)
      = Some buffer' /\
    read_field buffer' 4 3 = 5 /\ read_field buffer' 28 8 = 0xAB.
Proof.
  apply write_header_commute.
  - repeat constructor; vm_compute; congruence.
  - lia.
  - repeat split; try lia; intros [Hl _]; lia.
  - vm_compute. reflexivity.
  - lia.
  - repeat split; try lia; intros [Hl _]; lia.
  - vm_compute. reflexivity.
  - lia.
Defined.

End BitFieldLaws.

(* ================================================================== *)
(** * The contents of the assembled tables *)

Module TableContents.
Import BitFieldFacts LoopFacts BitFieldLaws RpsFacts PpsFacts.

Section WithHeaders.
Context `{v4l2_h264_flags} `{rk3399_vdec_regs}.

(** X3.  The assembled RPS table, read back: for every position of the
    three reference lists whose entry is a DPB index, the DPB-info field of
    that position holds the index with the active flag of the entry it
    names in bit 4. *)
Theorem rps_dpb_info_read_back dec_param hw_rps :
  wf_decode_params dec_param -> rps_layout_ok -> length hw_rps = 64%nat ->
  exists table,
    assemble_hw_rps dec_param hw_rps = Some table /\
    forall j i, 0 <= j < 3 -> 0 <= i < 32 ->
      ref_pic_list_entry dec_param j i < 16 ->
      read_field table (DPB_INFO_OFF i j) DPB_INFO_LEN =
      Z.lor (ref_pic_list_entry dec_param j i)
            (Z.shiftl (if dpb_active (dpb dec_param)
                            (ref_pic_list_entry dec_param j i)
                       then 1 else 0) 4).
Proof.
  intros Hwf Hlayout Hlen. unfold assemble_hw_rps.
  change (Z.to_nat (RKV_RPS_SIZE / 4)) with 64%nat.
  assert (memset_words hw_rps 64 = Some (replicate 64 0)) as ->
    by (rewrite <- Hlen; apply memset_words_all).
  cbn [mbind option_bind].
  destruct (rps_pic_nums_spec (dpb dec_param) (replicate 64 0))
    as (p1 & Hp1 & Hlen1 & _).
  { rewrite length_replicate. lia. }
  rewrite length_replicate in Hlen1.
  rewrite Hp1. simpl. rewrite rps_dpb_info_eq.
  destruct (write_all_fields (rps_dpb_info_writes dec_param) p1)
    as (table & Htable & _ & Hread & _).
  { rewrite Hlen1. apply (rps_writes_ok dec_param Hlayout). }
  { intros m n c c'. now apply rps_writes_disjoint. }
  exists table. split; [assumption|].
  intros j i Hj Hi Hidx.
  pose proof (ref_pic_list_idx_wf dec_param j i Hwf Hj Hi) as Hentry.
  set (c := {| w_list := j; w_pos := i;
               w_value := dpb_info_value dec_param (ref_pic_list_entry dec_param j i);
               w_off := DPB_INFO_OFF i j; w_len := DPB_INFO_LEN |}).
  assert (dpb_info_call dec_param j i = Some c) as Hcall.
  { unfold dpb_info_call. cbv zeta. rewrite Hentry.
    unfold dpb_array_size. now rewrite decide_False by lia. }
  assert (c ∈ rps_dpb_info_writes dec_param) as Hc.
  { apply elem_of_rps_writes. now exists j, i. }
  exact (Hread c Hc).
Qed.

(** X4.  The long-term flags of the assembled parameter-set packet: when
    the sixteen flag fields do not overlap one another, field [i] of the
    packet of the PPS holds 1 if DPB entry [i] is a long-term reference and
    0 otherwise, whatever the fields written before them spilled. *)
Theorem pps_long_term_flags priv_dma sps pps dpb param_set :
  pps_layout_ok ->
  (forall i i', 0 <= i < 16 -> 0 <= i' < 16 -> i <> i' ->
     IS_LONG_TERM_OFF i + IS_LONG_TERM_LEN <= IS_LONG_TERM_OFF i' \/
     IS_LONG_TERM_OFF i' + IS_LONG_TERM_LEN <= IS_LONG_TERM_OFF i) ->
  length param_set = 2048%nat ->
  is_u8 (pic_parameter_set_id pps) ->
  exists table,
    assemble_hw_pps priv_dma sps pps dpb param_set = Some table /\
    forall i, 0 <= i < 16 ->
      read_field (hw_sps_pps_packet table (pic_parameter_set_id pps))
                 (IS_LONG_TERM_OFF i) IS_LONG_TERM_LEN =
      if Z.land (dpb_flags (dpb !!! Z.to_nat i))
                V4L2_H264_DPB_ENTRY_FLAG_LONG_TERM =? 0 then 0 else 1.
Proof.
  intros Hlayout Hsep Hlen Hid.
  destruct (assemble_hw_pps_spec priv_dma sps pps dpb param_set Hlayout Hlen Hid)
    as (r & Hpack & Hlr & Htable).
  eexists. split; [exact Htable|].
  rewrite packet_of_splice by (assumption || reflexivity).
  rewrite decide_True by reflexivity.
  revert Hpack. unfold pps_pack. cbv zeta.
  destruct (write_pps_fields_packet
              (pps_fields sps pps (priv_dma + offsetof_scaling_list))
              (replicate 8 0) [] Hlayout (length_replicate _ _))
    as (r1 & Hr1 & Hlr1 & _).
  rewrite Hr1. cbn [mbind option_bind].
  set (flag := fun i : Z =>
         if Z.land (dpb_flags (dpb !!! Z.to_nat i))
                   V4L2_H264_DPB_ENTRY_FLAG_LONG_TERM =? 0 then 0 else 1).
  destruct (for_loop_inv
    (fun i (s : list Z) => length s = 8%nat /\
       forall i', 0 <= i' < i ->
         read_field s (IS_LONG_TERM_OFF i') IS_LONG_TERM_LEN = flag i')
    16 0
    (fun i hw_ps => write_header (flag i) hw_ps (IS_LONG_TERM_OFF i) IS_LONG_TERM_LEN)
    r1) as (r' & Hloop & _ & Hflags).
  - split; [assumption|]. intros i' Hi'. lia.
  - intros i s Hi (Hls & Hs).
    destruct Hlayout as (_ & Hlt). destruct (Hlt i ltac:(lia)) as (Hdef & Hin).
    assert (0 <= flag i < 2 ^ IS_LONG_TERM_LEN) as Hv.
    { destruct Hdef as (_ & Hl & _).
      assert (2 ^ 1 <= 2 ^ IS_LONG_TERM_LEN) by (apply Z.pow_le_mono_r; lia).
      unfold flag. destruct (_ =? 0); lia. }
    destruct (write_header_masked (flag i) s (IS_LONG_TERM_OFF i) IS_LONG_TERM_LEN)
      as (s' & Hw & Hls' & Hread & Hframe); try assumption.
    { apply packet_field_inside; [assumption | now split]. }
    exists s'. split; [assumption|]. split; [congruence|].
    intros i' Hi'. destruct (Z.eq_dec i' i) as [->|Hne]; [assumption|].
    rewrite <- (Hs i') by lia. apply read_field_ext.
    + destruct Hdef as (_ & ? & _). lia.
    + intros k Hk. apply Hframe.
      * destruct (Hlt i' ltac:(lia)) as ((? & _) & _). lia.
      * specialize (Hsep i i' ltac:(lia) ltac:(lia) ltac:(lia)). lia.
  - unfold flag in Hloop. rewrite Hloop. intros [= <-].
    intros i Hi. apply Hflags. lia.
Qed.

End WithHeaders.

Lemma rps_dpb_info_read_back_witness :
  exists table,
    @assemble_hw_rps sample_flags sample_regs sample_decode_params sample_stale_rps
      = Some table /\
    read_field table 288 5 = 16.
Proof.
  destruct (@rps_dpb_info_read_back sample_flags sample_regs
              sample_decode_params sample_stale_rps
              sample_decode_params_wf sample_rps_layout_ok eq_refl)
    as (table & Htable & Hread).
  exists table. split; [exact Htable|].
  exact (Hread 0 0 ltac:(lia) ltac:(lia) ltac:(vm_compute; reflexivity)).
Defined.

Lemma pps_long_term_flags_witness :
  exists table,
    @assemble_hw_pps sample_flags sample_regs 0x10000000 sample_sps (sample_pps 5)
      (sample_dpb_entry 3 0x07 :: replicate 15 (sample_dpb_entry 0 0))
      sample_stale_param_set = Some table /\
    read_field (hw_sps_pps_packet table 5) 216 1 = 1 /\
    read_field (hw_sps_pps_packet table 5) 217 1 = 0.
Proof.
  destruct (@pps_long_term_flags sample_flags sample_regs 0x10000000 sample_sps
              (sample_pps 5)
              (sample_dpb_entry 3 0x07 :: replicate 15 (sample_dpb_entry 0 0))
              sample_stale_param_set sample_pps_layout_ok)
    as (table & Htable & Hread).
  - intros i i' Hi Hi' Hne. simpl. lia.
  - reflexivity.
  - vm_compute. split; congruence.
  - exists table. split; [exact Htable|]. split.
    + exact (Hread 0 ltac:(lia)).
    + exact (Hread 1 ltac:(lia)).
Defined.

End TableContents.

(* ================================================================== *)
(** * Further properties of the scaling lists and of the registers *)

Module ScalingLaws.
Import ScalingFacts.

Lemma scaling_region_lookup zig_zag n num base (a b : list Z) (v : nat -> nat -> Z) k :
  scan_table zig_zag n -> (0 < n)%nat ->
  (forall i j, (i < num)%nat -> (j < n)%nat ->
     a !! (base + i * n + zig_zag !!! j)%nat = Some (v i j)) ->
  (forall i j, (i < num)%nat -> (j < n)%nat ->
     b !! (base + i * n + zig_zag !!! j)%nat = Some (v i j)) ->
  (k < num * n)%nat ->
  a !! (base + k)%nat = b !! (base + k)%nat.
Proof.
  intros Hscan Hn Ha Hb Hk.
  pose proof (Nat.div_mod_eq k n) as Hdm.
  assert (k mod n < n)%nat as Hm by (apply Nat.mod_upper_bound; lia).
  assert (k / n < num)%nat as Hq by (apply Nat.Div0.div_lt_upper_bound; lia).
  destruct (scan_table_onto zig_zag n (k mod n) Hscan Hm) as (j & Hj & Hzz).
  replace (base + k)%nat with (base + k / n * n + zig_zag !!! j)%nat by lia.
  now rewrite Ha, Hb.
Qed.

(** X5.  The reorderer overwrites the whole coefficient area: the first
    480 bytes of the region after the call are fixed by the scaling matrix
    alone, whatever the region held before, and the 128 bytes behind them
    are left as they were. *)
Theorem reorder_scaling_list_overwrites scaling m1 m2 :
  wf_scaling_matrix scaling ->
  length m1 = Z.to_nat RKV_SCALING_LIST_SIZE ->
  length m2 = Z.to_nat RKV_SCALING_LIST_SIZE ->
  take 480 (reorder_scaling_list scaling m1) =
  take 480 (reorder_scaling_list scaling m2) /\
  drop 480 (reorder_scaling_list scaling m1) = drop 480 m1.
Proof.
  intros Hwf H1 H2.
  destruct (reorder_scaling_list_lookups scaling m1 Hwf H1) as (Hl1 & H41 & H81 & Hr1).
  destruct (reorder_scaling_list_lookups scaling m2 Hwf H2) as (Hl2 & H42 & H82 & _).
  revert Hl1 H41 H81 Hr1 Hl2 H42 H82.
  generalize (reorder_scaling_list scaling m1) as out1.
  generalize (reorder_scaling_list scaling m2) as out2.
  intros out2 out1 Hl1 H41 H81 Hr1 Hl2 H42 H82.
  change (Z.to_nat RKV_SCALING_LIST_SIZE) with 608%nat in *.
  change (num_list_4x4 * list_len_4x4 + num_list_8x8 * list_len_8x8)%nat
    with 480%nat in Hr1.
  split.
  - apply list_eq. intros k.
    destruct (Nat.lt_ge_cases k 480) as [Hk|Hk].
    + rewrite !lookup_take_lt by assumption.
      destruct (Nat.lt_ge_cases k 96) as [Hlo|Hhi].
      * apply (scaling_region_lookup zig_zag_4x4 list_len_4x4 num_list_4x4 0
                 out1 out2
                 (fun i j => (scaling_list_4x4 scaling !!! i) !!! j) k
                 scan_table_4x4); try assumption;
          unfold num_list_4x4, list_len_4x4; lia.
      * replace k with (num_list_4x4 * list_len_4x4 + (k - 96))%nat
          by (unfold num_list_4x4, list_len_4x4; lia).
        apply (scaling_region_lookup zig_zag_8x8 list_len_8x8 num_list_8x8
                 (num_list_4x4 * list_len_4x4) out1 out2
                 (fun i j => (scaling_list_8x8 scaling !!! i) !!! j) (k - 96)
                 scan_table_8x8); try assumption;
          unfold num_list_8x8, list_len_8x8; lia.
    + rewrite !lookup_take_ge by assumption. reflexivity.
  - apply list_eq. intros k. rewrite !lookup_drop. apply Hr1. lia.
Qed.

Lemma reorder_scaling_list_overwrites_witness :
  take 480 (reorder_scaling_list sample_scaling_matrix sample_stale_scaling_list) =
  take 480 (reorder_scaling_list sample_scaling_matrix (replicate 608 0)) /\
  drop 480 (reorder_scaling_list sample_scaling_matrix sample_stale_scaling_list) =
  drop 480 sample_stale_scaling_list.
Proof.
  apply reorder_scaling_list_overwrites.
  - exact sample_scaling_matrix_wf.
  - reflexivity.
  - reflexivity.
Defined.

End ScalingLaws.

Module RegsLaws.
Import BitFieldFacts.

Section WithHeaders.
Context `{v4l2_h264_flags} `{rk3399_vdec_regs}.

(** The three writes of DPB slot [i] follow the eight writes of the
    prologue, slot after slot. *)
Lemma config_regs_slot bufs dec_param sps i :
  0 <= i < 16 ->
  take 3 (drop (8 + 3 * Z.to_nat i) (config_regs bufs dec_param sps)) =
  config_ref bufs (dpb dec_param) i.
Proof.
  intros Hi.
  assert (i = 0 \/ i = 1 \/ i = 2 \/ i = 3 \/ i = 4 \/ i = 5 \/ i = 6 \/ i = 7 \/
          i = 8 \/ i = 9 \/ i = 10 \/ i = 11 \/ i = 12 \/ i = 13 \/ i = 14 \/
          i = 15) as Hcases by lia.
  repeat (destruct Hcases as [-> | Hcases]; [reflexivity |]).
  subst. reflexivity.
Qed.

Lemma length_config_regs bufs dec_param sps :
  length (config_regs bufs dec_param sps) = 63%nat.
Proof. reflexivity. Qed.

(** X6.  The reference registers.  [config_regs] makes 63 register writes;
    for each of the sixteen DPB slots it writes the two field order counts
    of the entry and a reference base address with the three usage flags
    or-ed in.  The address selected is the one the picture store gives for
    the time stamp of an active entry; when the entry is not active, or the
    store has no buffer for it, it is the address of the destination
    buffer, so that the address selected is null only if that of the
    destination buffer is.  The register receives the low 32 bits of the
    address: clear of the flags, its value is the low 32 bits of the
    address clear of the flags.  So it holds the address selected, and no
    null address, when the address fits in 32 bits and has none of the
    three flag bits set; an address with nothing but flag bits or bits
    from 32 on in it reaches the register as a null address. *)
Theorem config_regs_references bufs dec_param sps i :
  0 <= i < 16 ->
  let entry := dpb dec_param !!! Z.to_nat i in
  let found := rockchip_vpu_get_ref bufs (reference_ts entry) in
  let ref_addr :=
    if dpb_active (dpb dec_param) i && negb (found =? 0)
    then found else dst_dma_addr bufs in
  let flags :=
    Z.lor (Z.lor RKVDEC_COLMV_USED_FLAG_REF RKVDEC_TOPFIELD_USED_REF)
          RKVDEC_BOTFIELD_USED_REF in
  let written :=
    u32 (Z.lor (Z.lor (Z.lor ref_addr RKVDEC_COLMV_USED_FLAG_REF)
                      RKVDEC_TOPFIELD_USED_REF)
               RKVDEC_BOTFIELD_USED_REF) in
  length (config_regs bufs dec_param sps) = 63%nat /\
  take 3 (drop (8 + 3 * Z.to_nat i) (config_regs bufs dec_param sps)) =
    [ (u32 (top_field_order_cnt entry), poc_reg_tbl_top_field !!! Z.to_nat i);
      (u32 (bottom_field_order_cnt entry), poc_reg_tbl_bottom_field !!! Z.to_nat i);
      (written,
       if i <? 15 then RKVDEC_REG_H264_BASE_REFER i
       else RKVDEC_REG_H264_BASE_REFER15) ] /\
  (dst_dma_addr bufs <> 0 -> ref_addr <> 0) /\
  Z.ldiff written flags = Z.ldiff (u32 ref_addr) flags /\
  (is_u32 ref_addr -> Z.land ref_addr flags = 0 ->
   Z.ldiff written flags = ref_addr /\
   (dst_dma_addr bufs <> 0 -> Z.ldiff written flags <> 0)).
Proof.
  intros Hi entry found ref_addr flags written.
  assert (dst_dma_addr bufs <> 0 -> ref_addr <> 0) as Hnull.
  { intros Hdst. unfold ref_addr.
    destruct (dpb_active (dpb dec_param) i); simpl; [|assumption].
    destruct (Z.eqb_spec found 0); simpl; assumption. }
  assert (Z.ldiff written flags = Z.ldiff (u32 ref_addr) flags) as Hlow.
  { apply Z.bits_inj'. intros k Hk. unfold written, flags.
    rewrite !Z.ldiff_spec, !testbit_u32, !Z.lor_spec.
    destruct (k <? 32), (Z.testbit ref_addr k),
      (Z.testbit RKVDEC_COLMV_USED_FLAG_REF k),
      (Z.testbit RKVDEC_TOPFIELD_USED_REF k),
      (Z.testbit RKVDEC_BOTFIELD_USED_REF k); reflexivity. }
  split; [apply length_config_regs|]. split; [|split; [|split]].
  - rewrite config_regs_slot by assumption.
    unfold config_ref, vdpu_write_relaxed. cbv zeta.
    fold entry. fold found.
    assert ((if (if dpb_active (dpb dec_param) i then found else 0) =? 0
             then dst_dma_addr bufs
             else if dpb_active (dpb dec_param) i then found else 0) = ref_addr)
      as ->.
    { unfold ref_addr. destruct (dpb_active (dpb dec_param) i); simpl;
        [destruct (found =? 0); reflexivity | reflexivity]. }
    destruct (i <? 15); reflexivity.
  - exact Hnull.
  - exact Hlow.
  - intros Hfit Hclear.
    assert (Z.ldiff written flags = ref_addr) as Heq.
    { rewrite Hlow. unfold u32. rewrite Z.mod_small by exact Hfit.
      apply Z.bits_inj'. intros k Hk. rewrite Z.ldiff_spec.
      assert (Z.testbit (Z.land ref_addr flags) k = false) as Hbit
        by (rewrite Hclear; apply Z.bits_0).
      rewrite Z.land_spec in Hbit.
      destruct (Z.testbit ref_addr k), (Z.testbit flags k);
        simpl in *; congruence. }
    split; [exact Heq|]. intros Hdst. rewrite Heq. auto.
Qed.

End WithHeaders.

(** Slot 0 of the sample frame is active and the picture store has its
    buffer; slot 1 is not active and falls back on the destination
    buffer. *)
Lemma config_regs_references_witness :
  take 3 (drop 8 (@config_regs sample_flags sample_regs sample_buffers_with_ref
                    sample_decode_params sample_sps)) =
    [(0, 0x064); (0, 0x068); (0x40000007, 0x028)] /\
  take 3 (drop 11 (@config_regs sample_flags sample_regs sample_buffers_with_ref
                     sample_decode_params sample_sps)) =
    [(0, 0x06C); (0, 0x070); (0x30000007, 0x02C)] /\
  Z.ldiff 0x40000007 7 = 0x40000000 /\
  Z.ldiff 0x30000007 7 <> 0.
Proof.
  destruct (@config_regs_references sample_flags sample_regs
              sample_buffers_with_ref sample_decode_params sample_sps 0
              ltac:(lia)) as (_ & Hslot0 & _ & _ & Hfit0).
  destruct (@config_regs_references sample_flags sample_regs
              sample_buffers_with_ref sample_decode_params sample_sps 1
              ltac:(lia)) as (_ & Hslot1 & _ & _ & Hfit1).
  split; [exact Hslot0|]. split; [exact Hslot1|]. split.
  - apply Hfit0; [vm_compute; split; congruence | reflexivity].
  - apply Hfit1; [vm_compute; split; congruence | reflexivity |].
    vm_compute. discriminate.
Defined.

End RegsLaws.

(* ================================================================== *)
(** * The fields of the parameter-set packet *)

Module PpsContents.
Import BitFieldFacts LoopFacts BitFieldLaws PpsFacts TableContents.

Section WithHeaders.
Context `{v4l2_h264_flags} `{rk3399_vdec_regs}.

(** Writing ascending fields in order: each field ends up with the low
    bits of its value, because what a value spills lands above its field,
    where the later writes clear it. *)
Lemma write_pps_fields_ascending fields : forall r lo,
  pps_layout_ok -> length r = 8%nat -> 0 <= lo ->
  fields_ascending lo fields.*2 ->
  exists r',
    write_pps_fields fields r = Some r' /\
    length r' = 8%nat /\
    (forall k, 0 <= k < lo -> buf_bit r' k = buf_bit r k) /\
    (forall v f, (v, f) ∈ fields ->
       forall k, FIELD_OFF f <= k < FIELD_OFF f + FIELD_LEN f ->
         buf_bit r' k = Z.testbit (u32 v) (k - FIELD_OFF f)).
Proof.
  induction fields as [|[v f] fields IH]; intros r lo Hlayout Hlen Hlo Hasc.
  - exists r. simpl. repeat split; auto. intros v f Hin. inversion Hin.
  - destruct Hasc as [Hle Hasc]. simpl in Hle, Hasc.
    destruct (proj1 Hlayout f) as (Hdef & Hfit).
    assert (is_u32 (u32 v)) as Hu by (apply Z.mod_pos_bound; lia).
    destruct (write_header_spec (u32 v) r (FIELD_OFF f) (FIELD_LEN f) Hu Hdef)
      as (r1 & Hw & Hl1 & _ & Hbits1).
    { apply packet_field_inside; [assumption | now split]. }
    destruct Hdef as (Hoff & Hfl & Hub).
    assert (length r1 = 8%nat) as Hl1' by congruence.
    assert (0 <= FIELD_OFF f + FIELD_LEN f) as Hlo' by lia.
    destruct (IH r1 (FIELD_OFF f + FIELD_LEN f) Hlayout Hl1' Hlo' Hasc)
      as (r' & Hr' & Hl' & Hlow & Hfields).
    exists r'. cbn [write_pps_fields]. unfold WRITE_PPS at 1. rewrite Hw. simpl.
    split; [assumption|]. split; [assumption|]. split.
    + intros k Hk. rewrite Hlow by lia. rewrite Hbits1 by lia.
      rewrite decide_False by lia.
      rewrite (testbit_neg (u32 v)) by lia. now rewrite andb_false_r, orb_false_r.
    + intros v' f' Hin k Hk. apply elem_of_cons in Hin as [[= -> ->]|Hin].
      * rewrite Hlow by lia. rewrite Hbits1 by lia. now rewrite decide_True by lia.
      * now apply (Hfields v' f').
Qed.

(** X7.  The fields of the assembled parameter-set packet.  When the
    layout has the [WRITE_PPS] fields one behind the other in the order of
    the statements, and the sixteen long-term flags apart from them and
    from one another, every field of the packet holds its value truncated
    to the length of the field, although [write_header] is given the
    values unmasked. *)
Theorem pps_packet_fields priv_dma sps pps dpb param_set :
  pps_layout_ok ->
  fields_ascending 0 (pps_fields sps pps (priv_dma + offsetof_scaling_list)).*2 ->
  (forall f i, 0 <= i < 16 ->
     FIELD_OFF f + FIELD_LEN f <= IS_LONG_TERM_OFF i \/
     IS_LONG_TERM_OFF i + IS_LONG_TERM_LEN <= FIELD_OFF f) ->
  length param_set = 2048%nat ->
  is_u8 (pic_parameter_set_id pps) ->
  exists table,
    assemble_hw_pps priv_dma sps pps dpb param_set = Some table /\
    forall v f, (v, f) ∈ pps_fields sps pps (priv_dma + offsetof_scaling_list) ->
      read_field (hw_sps_pps_packet table (pic_parameter_set_id pps))
                 (FIELD_OFF f) (FIELD_LEN f) =
      u32 v mod 2 ^ FIELD_LEN f.
Proof.
  intros Hlayout Hasc Hsep Hlen Hid.
  destruct (assemble_hw_pps_spec priv_dma sps pps dpb param_set Hlayout Hlen Hid)
    as (r & Hpack & Hlr & Htable).
  eexists. split; [exact Htable|].
  rewrite packet_of_splice by (assumption || reflexivity).
  rewrite decide_True by reflexivity.
  revert Hpack. unfold pps_pack. cbv zeta.
  destruct (write_pps_fields_ascending
              (pps_fields sps pps (priv_dma + offsetof_scaling_list))
              (replicate 8 0) 0 Hlayout (length_replicate _ _) ltac:(lia) Hasc)
    as (r1 & Hr1 & Hlr1 & _ & Hfields).
  rewrite Hr1. cbn [mbind option_bind].
  destruct (for_loop_inv
    (fun (i : Z) (s : list Z) => length s = 8%nat /\
       forall k, 0 <= k ->
         (forall i', 0 <= i' < 16 ->
            ~ (IS_LONG_TERM_OFF i' <= k < IS_LONG_TERM_OFF i' + IS_LONG_TERM_LEN)) ->
         buf_bit s k = buf_bit r1 k)
    16 0
    (fun i hw_ps =>
       write_header
         (if Z.land (dpb_flags (dpb !!! Z.to_nat i))
                    V4L2_H264_DPB_ENTRY_FLAG_LONG_TERM =? 0 then 0 else 1)
         hw_ps (IS_LONG_TERM_OFF i) IS_LONG_TERM_LEN)
    r1) as (r' & Hloop & _ & Hframe).
  - split; [assumption|]. reflexivity.
  - intros i s Hi (Hls & Hs).
    destruct Hlayout as (_ & Hlt). destruct (Hlt i ltac:(lia)) as (Hdef & Hin).
    destruct (write_header_masked
                (if Z.land (dpb_flags (dpb !!! Z.to_nat i))
                           V4L2_H264_DPB_ENTRY_FLAG_LONG_TERM =? 0 then 0 else 1)
                s (IS_LONG_TERM_OFF i) IS_LONG_TERM_LEN)
      as (s' & Hw & Hls' & _ & Hfr); try assumption.
    { destruct Hdef as (_ & Hl & _).
      assert (2 ^ 1 <= 2 ^ IS_LONG_TERM_LEN) by (apply Z.pow_le_mono_r; lia).
      destruct (_ =? 0); lia. }
    { apply packet_field_inside; [assumption | now split]. }
    exists s'. split; [assumption|]. split; [congruence|].
    intros k Hk Hout. rewrite Hfr by (try assumption; apply Hout; lia).
    now apply Hs.
  - rewrite Hloop. intros [= <-]. intros v f Hin.
    destruct (proj1 Hlayout f) as ((Hoff & Hfl & _) & _).
    apply Z.bits_inj'. intros i Hi. rewrite read_field_spec by lia.
    destruct (decide (0 <= i < FIELD_LEN f)) as [Hlt|Hge].
    + rewrite Z.mod_pow2_bits_low by lia.
      rewrite Hframe.
      * rewrite (Hfields v f Hin) by lia. f_equal. lia.
      * lia.
      * intros i' Hi'. specialize (Hsep f i' Hi'). lia.
    + rewrite Z.mod_pow2_bits_high by lia. reflexivity.
Qed.

End WithHeaders.

Lemma sample_fields_ascending sps pps a :
  @fields_ascending sample_regs 0 (@pps_fields sample_flags sps pps a).*2.
Proof. simpl. repeat split; lia. Qed.

Lemma pps_packet_fields_witness :
  exists table,
    @assemble_hw_pps sample_flags sample_regs 0x10000000 sample_sps (sample_pps 5)
      (dpb sample_decode_params) sample_stale_param_set = Some table /\
    read_field (hw_sps_pps_packet table 5) 156 7 = 125 /\
    read_field (hw_sps_pps_packet table 5) 38 9 = 120.
Proof.
  destruct (@pps_packet_fields sample_flags sample_regs 0x10000000 sample_sps
              (sample_pps 5) (dpb sample_decode_params) sample_stale_param_set
              sample_pps_layout_ok (sample_fields_ascending _ _ _))
    as (table & Htable & Hread).
  - intros f i Hi. destruct f; simpl; lia.
  - reflexivity.
  - vm_compute. split; congruence.
  - exists table. split; [exact Htable|]. split.
    + apply (Hread (-3) PIC_INIT_QP_MINUS26).
      unfold pps_fields. rewrite !elem_of_cons. simpl. tauto.
    + apply (Hread 120 PIC_WIDTH_IN_MBS).
      unfold pps_fields. rewrite !elem_of_cons. simpl. tauto.
Defined.

End PpsContents.

(* ================================================================== *)
(** * Context initialisation and the per-frame entry point *)

Module RunFacts.
Import RpsFacts PpsFacts.

Lemma length_h264_cabac_table : length h264_cabac_table = 926%nat.
Proof. reflexivity. Qed.

(** X8.  Seeding of the CABAC region.  With a buffer from the allocator,
    [rk3399_vdec_h264_init] returns 0 and records the size of the whole
    structure; the constant table, 926 words, is copied to the start of the
    3808-byte CABAC region and the copy stays inside the region: the 26
    words behind the table and the four other regions are left as they
    were allocated.  Without a buffer it returns [-ENOMEM], leaves a null
    pointer and copies nothing. *)
Theorem rk3399_vdec_h264_init_seeds_table tbl dma priv :
  length (cabac_table tbl) = Z.to_nat (RKV_CABAC_INIT_BUFFER_SIZE / 4) ->
  (exists cabac,
     rk3399_vdec_h264_init (Some tbl, dma) priv =
       Some (Ret_0,
             {| aux_cpu := Some {| cabac_table := cabac;
                                   scaling_list := scaling_list tbl;
                                   rps := rps tbl;
                                   param_set := param_set tbl;
                                   err_info := err_info tbl |};
                aux_dma := dma;
                aux_size := 3808 + 608 + 256 + 8192 + 147456 |}) /\
     length cabac = length (cabac_table tbl) /\
     take 926 cabac = h264_cabac_table /\
     drop 926 cabac = drop 926 (cabac_table tbl)) /\
  rk3399_vdec_h264_init (None, dma) priv =
    Some (Ret_neg ENOMEM,
          {| aux_cpu := None; aux_dma := dma; aux_size := aux_size priv |}).
Proof.
  intros Hlen. change (Z.to_nat (RKV_CABAC_INIT_BUFFER_SIZE / 4)) with 952%nat in Hlen.
  split; [|reflexivity].
  exists (h264_cabac_table ++ drop 926 (cabac_table tbl)).
  unfold rk3399_vdec_h264_init, memcpy_words. cbn [fst snd].
  rewrite length_h264_cabac_table.
  rewrite decide_True by lia. cbn [mbind option_bind].
  split; [reflexivity|]. split; [|split].
  - rewrite length_app, length_drop, length_h264_cabac_table. lia.
  - apply take_app_length'. apply length_h264_cabac_table.
  - apply drop_app_length'. apply length_h264_cabac_table.
Qed.

Lemma rk3399_vdec_h264_init_seeds_table_witness :
  exists cabac,
    (fun r => aux_cpu r.2) <$>
      rk3399_vdec_h264_init (Some sample_priv_tbl, 0x10000000)
        {| aux_cpu := None; aux_dma := 0; aux_size := 0 |} =
    Some (Some {| cabac_table := cabac;
                  scaling_list := scaling_list sample_priv_tbl;
                  rps := rps sample_priv_tbl;
                  param_set := param_set sample_priv_tbl;
                  err_info := err_info sample_priv_tbl |}) /\
    take 926 cabac = h264_cabac_table.
Proof.
  destruct (rk3399_vdec_h264_init_seeds_table sample_priv_tbl 0x10000000
              {| aux_cpu := None; aux_dma := 0; aux_size := 0 |} eq_refl)
    as ((cabac & Hinit & _ & Htake & _) & _).
  exists cabac. rewrite Hinit. split; [reflexivity | exact Htake].
Defined.

Section WithHeaders.
Context `{v4l2_h264_flags} `{rk3399_vdec_regs} `{rk3399_vdec_start_regs}.

Local Ltac missing_control tbl :=
  exists tbl, [Call_v4l2_ctrl_request_setup];
  split; [reflexivity|]; split; [reflexivity|]; split; [reflexivity|];
  split; [intros _; split; reflexivity|];
  split; [intros; discriminate|];
  intros val reg Hin; apply list_elem_of_singleton in Hin; discriminate.

(** X9.  The per-frame entry point.  With a well-formed layout and
    auxiliary buffer the function has a defined outcome, which is one of
    two.  When one of the five controls is missing it returns before it
    has touched the buffer, written a register or armed the watchdog.
    Otherwise it reorders the scaling lists, assembles the PPS packet and
    the RPS table, makes the 63 relaxed register writes of [config_regs],
    arms the 2000 ms watchdog, completes the request and only then writes
    the start bits: a write through [vdpu_write] is always the last call
    and the watchdog is armed before it.  The CABAC table and the
    error-info region are never modified. *)
Theorem rk3399_vdec_h264_run_outcomes ctrls bufs tbl :
  pps_layout_ok -> rps_layout_ok ->
  length (param_set tbl) = 2048%nat -> length (rps tbl) = 64%nat ->
  (forall pps, ctrl_h264_pps ctrls = Some pps ->
     is_u8 (pic_parameter_set_id pps)) ->
  exists tbl' calls,
    rk3399_vdec_h264_run ctrls bufs tbl = Some (tbl', calls) /\
    cabac_table tbl' = cabac_table tbl /\
    err_info tbl' = err_info tbl /\
    (ctrl_h264_scaling_matrix ctrls = None \/
     ctrl_h264_decode_params ctrls = None \/
     ctrl_h264_slice_params ctrls = None \/
     ctrl_h264_sps ctrls = None \/
     ctrl_h264_pps ctrls = None ->
     tbl' = tbl /\ calls = [Call_v4l2_ctrl_request_setup]) /\
    (forall scaling dec_param slice sps pps,
       ctrls = {| ctrl_h264_scaling_matrix := Some scaling;
                  ctrl_h264_decode_params := Some dec_param;
                  ctrl_h264_slice_params := Some slice;
                  ctrl_h264_sps := Some sps;
                  ctrl_h264_pps := Some pps |} ->
       scaling_list tbl' = reorder_scaling_list scaling (scaling_list tbl) /\
       assemble_hw_pps (priv_dma bufs) sps pps (dpb dec_param) (param_set tbl)
         = Some (param_set tbl') /\
       assemble_hw_rps dec_param (rps tbl) = Some (rps tbl') /\
       calls =
         Call_v4l2_ctrl_request_setup ::
         ((fun w => Call_vdpu_write_relaxed w.1 w.2) <$>
            config_regs bufs dec_param sps) ++
         [ Call_schedule_delayed_work 2000;
           Call_v4l2_ctrl_request_complete;
           Call_vdpu_write
             (u32 (Z.lor RKVDEC_INTERRUPT_DEC_E RKVDEC_CONFIG_DEC_CLK_GATE_E))
             RKVDEC_REG_INTERRUPT ]) /\
    (forall val reg, Call_vdpu_write val reg ∈ calls ->
       exists before,
         calls = before ++ [Call_vdpu_write val reg] /\
         Call_schedule_delayed_work 2000 ∈ before /\
         (forall val' reg', Call_vdpu_write val' reg' ∉ before) /\
         length before = 66%nat).
Proof.
  intros Hpl Hrl Hlp Hlr Hid. unfold rk3399_vdec_h264_run.
  destruct ctrls as [sm dp sl sp pp]. cbn [ctrl_h264_scaling_matrix
    ctrl_h264_decode_params ctrl_h264_slice_params ctrl_h264_sps ctrl_h264_pps] in *.
  destruct sm as [sm|]; [|missing_control tbl].
  destruct dp as [dp|]; [|missing_control tbl].
  destruct sl as [sl|]; [|missing_control tbl].
  destruct sp as [sp|]; [|missing_control tbl].
  destruct pp as [pp|]; [|missing_control tbl].
  cbv zeta.
  destruct (assemble_hw_pps_spec (priv_dma bufs) sp pp (dpb dp) (param_set tbl)
              Hpl Hlp (Hid pp eq_refl)) as (r & _ & _ & Hpps).
  destruct (assemble_hw_rps_spec dp (rps tbl) Hlr Hrl) as (table & Hrps & _).
  rewrite Hpps, Hrps. cbn [mbind option_bind].
  pose proof (eq_refl : length (config_regs bufs dp sp) = 63%nat) as Hlen.
  remember (config_regs bufs dp sp) as writes eqn:Hwrites.
  eexists _, _. split; [reflexivity|]. cbn [cabac_table err_info scaling_list
    param_set rps].
  split; [reflexivity|]. split; [reflexivity|]. split.
  { intros [Hn|[Hn|[Hn|[Hn|Hn]]]]; discriminate. }
  split.
  { intros scaling dec_param slice sps pps Heq. inversion Heq; subst.
    repeat split; first [reflexivity | assumption]. }
  intros val reg Hin. cbn [app] in Hin |- *.
  assert (forall val' reg',
            Call_vdpu_write val' reg' ∉
            Call_v4l2_ctrl_request_setup ::
            ((fun w => Call_vdpu_write_relaxed w.1 w.2) <$> writes) ++
            [Call_schedule_delayed_work 2000; Call_v4l2_ctrl_request_complete])
    as Hbefore.
  { intros val' reg' Hb. rewrite elem_of_cons, elem_of_app in Hb.
    destruct Hb as [Hb|[Hb|Hb]]; [discriminate| |].
    - apply list_elem_of_fmap in Hb as (w & Hw & _). discriminate.
    - rewrite !elem_of_cons in Hb. destruct Hb as [Hb|[Hb|Hb]];
        [discriminate | discriminate | inversion Hb]. }
  exists (Call_v4l2_ctrl_request_setup ::
          ((fun w => Call_vdpu_write_relaxed w.1 w.2) <$> writes) ++
          [Call_schedule_delayed_work 2000; Call_v4l2_ctrl_request_complete]).
  split; [|split; [|split]].
  - rewrite elem_of_cons, elem_of_app in Hin.
    destruct Hin as [Hin|[Hin|Hin]]; [discriminate| |].
    + apply list_elem_of_fmap in Hin as (w & Hw & _). discriminate.
    + rewrite !elem_of_cons in Hin. destruct Hin as [Hin|[Hin|[Hin|Hin]]];
        [discriminate | discriminate | | inversion Hin].
      injection Hin as -> ->. cbn [app]. rewrite <- app_assoc. reflexivity.
  - rewrite elem_of_cons, elem_of_app, !elem_of_cons. tauto.
  - exact Hbefore.
  - cbn [length]. rewrite length_app, length_fmap, Hlen. reflexivity.
Qed.

End WithHeaders.

Lemma rk3399_vdec_h264_run_outcomes_witness :
  exists tbl' calls,
    @rk3399_vdec_h264_run sample_flags sample_regs sample_start_regs
      sample_ctrls sample_buffers sample_priv_tbl = Some (tbl', calls) /\
    last calls = Some (Call_vdpu_write 3 0x004) /\
    cabac_table tbl' = cabac_table sample_priv_tbl.
Proof.
  destruct (@rk3399_vdec_h264_run_outcomes sample_flags sample_regs
              sample_start_regs sample_ctrls sample_buffers sample_priv_tbl
              sample_pps_layout_ok sample_rps_layout_ok eq_refl eq_refl)
    as (tbl' & calls & Hrun & Hcabac & _ & _ & Hfull & _).
  - intros pps [= <-]. vm_compute. split; congruence.
  - exists tbl', calls. split; [exact Hrun|]. split; [|exact Hcabac].
    destruct (Hfull _ _ _ _ _ eq_refl) as (_ & _ & _ & ->).
    rewrite app_comm_cons, last_app. reflexivity.
Defined.

End RunFacts.

(* ================================================================== *)
(** * The driver core *)

Module DriverFacts.

Section WithKernel.
Context `{kernel_env}.

Lemma size_t_small z : 32 <= BITS_PER_LONG -> 0 <= z < 2 ^ 32 -> size_t z = z.
Proof.
  intros Hbits Hz. unfold size_t. apply Z.mod_small.
  assert (2 ^ 32 <= 2 ^ BITS_PER_LONG) by (apply Z.pow_le_mono_r; lia). lia.
Qed.

(** X10.  The size check of the encoder.  For a capture plane that holds
    at least the header, a payload that does not fit behind the header is
    refused with [-EINVAL] and the buffer is left alone; a payload that
    fits is copied from the bounce buffer to the plane right behind the
    header, without leaving the plane, and [bytesused] is set to the header
    size plus the payload size, which is at most the plane size. *)
Theorem rockchip_vpu_enc_buf_finish_in_bounds ctx fmt buf bytesused :
  vpu_dst_fmt ctx = Some fmt ->
  32 <= BITS_PER_LONG ->
  0 <= header_size fmt <= vb2_plane_size buf 0 ->
  vb2_plane_size buf 0 < 2 ^ 32 ->
  length (vb2_plane_vaddr0 buf) = Z.to_nat (vb2_plane_size buf 0) ->
  0 <= bytesused ->
  (forall bounce, jpeg_enc_bounce_buffer_cpu ctx = Some bounce ->
     bytesused <= Z.of_nat (length bounce)) ->
  (vb2_plane_size buf 0 - header_size fmt < bytesused ->
   rockchip_vpu_enc_buf_finish ctx buf bytesused = Some (Ret_neg EINVAL, buf)) /\
  (bytesused <= vb2_plane_size buf 0 - header_size fmt ->
   exists buf',
     rockchip_vpu_enc_buf_finish ctx buf bytesused = Some (Ret_0, buf') /\
     planes0_bytesused buf' = header_size fmt + bytesused /\
     planes0_bytesused buf' <= vb2_plane_size buf' 0 /\
     length (vb2_plane_vaddr0 buf') = length (vb2_plane_vaddr0 buf) /\
     take (Z.to_nat (header_size fmt)) (vb2_plane_vaddr0 buf') =
       take (Z.to_nat (header_size fmt)) (vb2_plane_vaddr0 buf) /\
     (forall bounce, jpeg_enc_bounce_buffer_cpu ctx = Some bounce ->
        take (Z.to_nat bytesused)
             (drop (Z.to_nat (header_size fmt)) (vb2_plane_vaddr0 buf')) =
        take (Z.to_nat bytesused) bounce)).
Proof.
  intros Hfmt Hbits Hhdr Hsize Hmem Hused Hbounce.
  unfold rockchip_vpu_enc_buf_finish. rewrite Hfmt. cbn [mbind option_bind].
  rewrite size_t_small by lia. split.
  - intros Hbig. now rewrite decide_True by lia.
  - intros Hfit. rewrite decide_False by lia.
    destruct (jpeg_enc_bounce_buffer_cpu ctx) as [bounce|] eqn:Hb.
    + specialize (Hbounce bounce eq_refl).
      unfold memcpy_at. rewrite decide_True by lia. cbn [mbind option_bind].
      eexists. split; [reflexivity|]. cbn [planes0_bytesused vb2_plane_size
        vb2_plane_vaddr0].
      assert (u32 (header_size fmt + bytesused) = header_size fmt + bytesused)
        as -> by (unfold u32; apply Z.mod_small; lia).
      split; [reflexivity|]. split; [lia|]. split; [|split].
      * rewrite !length_app, !length_take, length_drop. lia.
      * rewrite take_app_le by (rewrite length_take; lia).
        rewrite take_take. f_equal. lia.
      * intros b [= <-].
        rewrite drop_app_length' by (rewrite length_take; lia).
        rewrite take_app_le by (rewrite length_take; lia).
        rewrite take_take. f_equal. lia.
    + cbn [mbind option_bind]. eexists. split; [reflexivity|].
      cbn [planes0_bytesused vb2_plane_size vb2_plane_vaddr0].
      assert (u32 (header_size fmt + bytesused) = header_size fmt + bytesused)
        as -> by (unfold u32; apply Z.mod_small; lia).
      split; [reflexivity|]. split; [lia|]. split; [reflexivity|].
      split; [reflexivity|]. intros b Hb'. discriminate.
Qed.

(** X11.  The size check on a plane shorter than the header.  The space
    left for the payload is computed in [size_t]: on a 64-bit kernel, when
    the plane is shorter than the header the subtraction wraps and the
    check refuses no payload.  Without a bounce buffer the function then
    returns 0 and reports more bytes than the plane holds; with one, the
    copy starts behind the end of the plane. *)
Theorem rockchip_vpu_enc_buf_finish_short_plane ctx fmt buf bytesused :
  vpu_dst_fmt ctx = Some fmt ->
  BITS_PER_LONG = 64 ->
  0 <= vb2_plane_size buf 0 < header_size fmt ->
  header_size fmt < 2 ^ 31 ->
  length (vb2_plane_vaddr0 buf) = Z.to_nat (vb2_plane_size buf 0) ->
  0 <= bytesused < 2 ^ 31 ->
  (jpeg_enc_bounce_buffer_cpu ctx = None ->
   exists buf',
     rockchip_vpu_enc_buf_finish ctx buf bytesused = Some (Ret_0, buf') /\
     planes0_bytesused buf' = header_size fmt + bytesused /\
     vb2_plane_size buf' 0 < planes0_bytesused buf') /\
  (jpeg_enc_bounce_buffer_cpu ctx <> None ->
   rockchip_vpu_enc_buf_finish ctx buf bytesused = None).
Proof.
  intros Hfmt Hbits Hshort Hhdr Hmem Hused.
  unfold rockchip_vpu_enc_buf_finish. rewrite Hfmt. cbn [mbind option_bind].
  assert (size_t (vb2_plane_size buf 0 - header_size fmt) =
          2 ^ 64 + (vb2_plane_size buf 0 - header_size fmt)) as ->.
  { unfold size_t. rewrite Hbits. symmetry.
    apply (Z.mod_unique _ _ (-1)); lia. }
  rewrite decide_False by lia. split.
  - intros ->. cbn [mbind option_bind]. eexists. split; [reflexivity|].
    cbn [planes0_bytesused vb2_plane_size].
    assert (u32 (header_size fmt + bytesused) = header_size fmt + bytesused)
      as -> by (unfold u32; apply Z.mod_small; lia).
    split; [reflexivity | lia].
  - intros Hb. destruct (jpeg_enc_bounce_buffer_cpu ctx) as [bounce|];
      [|congruence].
    unfold memcpy_at. rewrite decide_False by lia. reflexivity.
Qed.

(** X12.  Completion of a job.  Without a source or a destination buffer
    [rockchip_vpu_job_finish] releases the clocks and the power reference
    and returns: no buffer is handed back and the job is not finished.
    With both, whenever it has a result, the two buffers are handed back
    in the same state, which is the one asked for or the error state, and
    then the job is finished; the buffers carry the sequence numbers the
    context had, and the two counters have advanced by one modulo 2^32.
    For a decoder context whose destination format has a first plane the
    function always has a result: the state is the one asked for and
    [bytesused] of the capture buffer is the [sizeimage] of the format. *)
Theorem rockchip_vpu_job_finish_outcome ctx src dst bytesused result :
  let calls0 := [ Call_pm_runtime_mark_last_busy;
                  Call_pm_runtime_put_autosuspend;
                  Call_clk_bulk_disable ] in
  (src = None \/ dst = None ->
   rockchip_vpu_job_finish ctx src dst bytesused result = Some (ctx, calls0)) /\
  (forall s d ctx' calls,
     src = Some s -> dst = Some d ->
     rockchip_vpu_job_finish ctx src dst bytesused result = Some (ctx', calls) ->
     exists d' state,
       calls = calls0 ++
               [ Call_v4l2_m2m_buf_done
                   {| sequence := sequence_out ctx; vb2_buf := vb2_buf s |} state;
                 Call_v4l2_m2m_buf_done d' state;
                 Call_v4l2_m2m_job_finish ] /\
       (state = result \/ state = VB2_BUF_STATE_ERROR) /\
       sequence_out ctx' = u32 (sequence_out ctx + 1) /\
       sequence_cap ctx' = u32 (sequence_cap ctx + 1)) /\
  (forall s d p,
     src = Some s -> dst = Some d ->
     buf_finish ctx = fn_rockchip_vpu_dec_buf_finish ->
     plane_fmt (dst_fmt ctx) !! 0%nat = Some p ->
     exists ctx' d',
       rockchip_vpu_job_finish ctx src dst bytesused result =
       Some (ctx',
             calls0 ++
             [ Call_v4l2_m2m_buf_done
                 {| sequence := sequence_out ctx; vb2_buf := vb2_buf s |} result;
               Call_v4l2_m2m_buf_done d' result;
               Call_v4l2_m2m_job_finish ]) /\
       planes0_bytesused (vb2_buf d') = sizeimage p).
Proof.
  intros calls0. split; [|split].
  - intros [->| ->]; [reflexivity|]. destruct src; reflexivity.
  - intros s d ctx' calls -> -> Hfin.
    unfold rockchip_vpu_job_finish in Hfin. cbv zeta in Hfin.
    destruct (call_buf_finish _ _ _) as [[ret vb]|]; [|discriminate].
    cbn [mbind option_bind fst snd] in Hfin. injection Hfin as <- <-.
    eexists _, _. split; [reflexivity|]. split.
    + destruct ret; auto.
    + split; reflexivity.
  - intros s d p -> -> Hdec Hp.
    unfold rockchip_vpu_job_finish. cbv zeta.
    unfold call_buf_finish at 1. cbn [set_sequences buf_finish]. rewrite Hdec.
    unfold rockchip_vpu_dec_buf_finish. cbn [set_sequences dst_fmt]. rewrite Hp.
    cbn [mbind option_bind fst snd].
    eexists _, _. split; [reflexivity|]. reflexivity.
Qed.

Lemma job_finish_error_states ctx src dst bytesused r b st :
  rockchip_vpu_job_finish ctx src dst bytesused VB2_BUF_STATE_ERROR = Some r ->
  Call_v4l2_m2m_buf_done b st ∈ r.2 ->
  st = VB2_BUF_STATE_ERROR.
Proof.
  unfold rockchip_vpu_job_finish. cbv zeta.
  destruct src as [s|], dst as [d|];
    try (intros [= <-]; cbn [snd]; rewrite !elem_of_cons;
         intros [?|[?|[?|Hin]]]; [discriminate..|inversion Hin]).
  destruct (call_buf_finish _ _ _) as [[ret vb]|]; [|discriminate].
  cbn [mbind option_bind fst snd]. intros [= <-]. cbn [snd app].
  rewrite !elem_of_cons.
  intros [?|[?|[?|[Hd|[Hd|[?|Hin]]]]]]; try discriminate; try (inversion Hin);
    injection Hd as _ ->; destruct ret; reflexivity.
Qed.

Lemma job_finish_no_run ctx src dst bytesused result r :
  rockchip_vpu_job_finish ctx src dst bytesused result = Some r ->
  Call_codec_ops_run ∉ r.2.
Proof.
  unfold rockchip_vpu_job_finish. cbv zeta.
  destruct src as [s|], dst as [d|];
    try (intros [= <-]; cbn [snd]; rewrite !elem_of_cons;
         intros [?|[?|[?|Hin]]]; [discriminate..|inversion Hin]).
  destruct (call_buf_finish _ _ _) as [[ret vb]|]; [|discriminate].
  cbn [mbind option_bind fst snd]. intros [= <-]. cbn [snd app].
  rewrite !elem_of_cons.
  intros [?|[?|[?|[?|[?|[?|Hin]]]]]]; try discriminate. inversion Hin.
Qed.

(** X13.  Jobs that time out or cannot start.  Every buffer the watchdog
    hands back is in the error state, and so is every buffer [device_run]
    hands back when the clocks or the power reference cannot be obtained,
    in which case the codec is not run; when both are obtained
    [device_run] runs the codec and hands no buffer back.  When
    [cancel_delayed_work] returns false the interrupt path does nothing,
    and the watchdog does nothing when there is no current context. *)
Theorem failed_jobs_report_error ctx src dst :
  (forall r b st,
     rockchip_vpu_watchdog (Some ctx) src dst = Some r ->
     Call_v4l2_m2m_buf_done b st ∈ r.2 -> st = VB2_BUF_STATE_ERROR) /\
  (forall clk pm r,
     clk <> 0 \/ pm < 0 ->
     device_run ctx clk pm src dst = Some r ->
     (Call_codec_ops_run ∉ r.2) /\
     (forall b st, Call_v4l2_m2m_buf_done b st ∈ r.2 -> st = VB2_BUF_STATE_ERROR)) /\
  (forall pm, 0 <= pm ->
     device_run ctx 0 pm src dst =
     Some (ctx, [Call_clk_bulk_enable; Call_pm_runtime_get_sync;
                 Call_codec_ops_run])) /\
  (forall bytesused result,
     rockchip_vpu_irq_done (Some ctx) false src dst bytesused result =
     Some (Some ctx, [])) /\
  rockchip_vpu_watchdog None src dst = Some (None, []).
Proof.
  split; [|split; [|split; [|split]]].
  - intros r b st. unfold rockchip_vpu_watchdog.
    destruct (rockchip_vpu_job_finish _ _ _ _ _) as [r0|] eqn:Hfin; [|discriminate].
    cbn [mbind option_bind]. intros [= <-]. cbn [snd].
    rewrite elem_of_cons. intros [?|Hin]; [discriminate|].
    eapply job_finish_error_states; eassumption.
  - intros clk pm r Hfail. unfold device_run.
    destruct (decide (clk <> 0)) as [Hclk|Hclk].
    + destruct (rockchip_vpu_job_finish _ _ _ _ _) as [r0|] eqn:Hfin; [|discriminate].
      cbn [mbind option_bind]. intros [= <-]. cbn [snd]. split.
      * rewrite elem_of_cons. intros [?|Hin]; [discriminate|].
        eapply job_finish_no_run; eassumption.
      * intros b st. rewrite elem_of_cons. intros [?|Hin]; [discriminate|].
        eapply job_finish_error_states; eassumption.
    + rewrite decide_True by lia.
      destruct (rockchip_vpu_job_finish _ _ _ _ _) as [r0|] eqn:Hfin; [|discriminate].
      cbn [mbind option_bind]. intros [= <-]. cbn [snd]. split.
      * rewrite !elem_of_cons. intros [?|[?|Hin]]; [discriminate..|].
        eapply job_finish_no_run; eassumption.
      * intros b st. rewrite !elem_of_cons.
        intros [?|[?|Hin]]; [discriminate..|].
        eapply job_finish_error_states; eassumption.
  - intros pm Hpm. unfold device_run.
    rewrite decide_False by lia. now rewrite decide_False by lia.
  - reflexivity.
  - reflexivity.
Qed.

Lemma job_finish_releases ctx src dst bytesused result r :
  rockchip_vpu_job_finish ctx src dst bytesused result = Some r ->
  exists rest,
    r.2 = Call_pm_runtime_mark_last_busy :: Call_pm_runtime_put_autosuspend ::
          Call_clk_bulk_disable :: rest /\
    (Call_clk_bulk_enable ∉ rest) /\ (Call_pm_runtime_get_sync ∉ rest).
Proof.
  unfold rockchip_vpu_job_finish. cbv zeta.
  destruct src as [s|], dst as [d|];
    try (intros [= <-]; exists []; split; [reflexivity|];
         split; intros Hin; inversion Hin).
  destruct (call_buf_finish _ _ _) as [[ret vb]|]; [|discriminate].
  cbn [mbind option_bind fst snd]. intros [= <-]. cbn [snd app].
  eexists. split; [reflexivity|].
  split; rewrite !elem_of_cons; intros [?|[?|[?|Hin]]];
    try discriminate; inversion Hin.
Qed.

(** X22.  The error paths of [device_run] release what they did not
    take.  When [clk_bulk_enable] fails, the job is finished through
    [rockchip_vpu_job_finish], which drops a power-management reference and
    disables the clocks although [pm_runtime_get_sync] was never called
    and the clocks were not enabled; when [pm_runtime_get_sync] fails, the
    reference it was asked for is dropped and the clocks are disabled
    once. *)
Theorem device_run_error_paths_release ctx src dst clk pm r :
  clk <> 0 \/ pm < 0 ->
  device_run ctx clk pm src dst = Some r ->
  exists rest,
    (Call_clk_bulk_enable ∉ rest) /\ (Call_pm_runtime_get_sync ∉ rest) /\
    (clk <> 0 ->
     r.2 = Call_clk_bulk_enable ::
           Call_pm_runtime_mark_last_busy :: Call_pm_runtime_put_autosuspend ::
           Call_clk_bulk_disable :: rest) /\
    (clk = 0 ->
     r.2 = Call_clk_bulk_enable :: Call_pm_runtime_get_sync ::
           Call_pm_runtime_mark_last_busy :: Call_pm_runtime_put_autosuspend ::
           Call_clk_bulk_disable :: rest).
Proof.
  intros Hfail. unfold device_run.
  destruct (decide (clk <> 0)) as [Hclk|Hclk].
  - destruct (rockchip_vpu_job_finish _ _ _ _ _) as [r0|] eqn:Hfin; [|discriminate].
    cbn [mbind option_bind]. intros [= <-]. cbn [snd].
    destruct (job_finish_releases _ _ _ _ _ _ Hfin) as (rest & -> & Hen & Hget).
    exists rest. split; [assumption|]. split; [assumption|].
    split; [reflexivity | intros Hz; contradiction].
  - rewrite decide_True by lia.
    destruct (rockchip_vpu_job_finish _ _ _ _ _) as [r0|] eqn:Hfin; [|discriminate].
    cbn [mbind option_bind]. intros [= <-]. cbn [snd].
    destruct (job_finish_releases _ _ _ _ _ _ Hfin) as (rest & -> & Hen & Hget).
    exists rest. split; [assumption|]. split; [assumption|].
    split; [intros Hnz; contradiction | reflexivity].
Qed.

End WithKernel.

Lemma rockchip_vpu_enc_buf_finish_in_bounds_witness :
  exists buf',
    @rockchip_vpu_enc_buf_finish sample_kernel_env
      (sample_ctx fn_rockchip_vpu_enc_buf_finish) (sample_vb2_buffer 1024) 400
      = Some (Ret_0, buf') /\
    planes0_bytesused buf' = 1001.
Proof.
  destruct (@rockchip_vpu_enc_buf_finish_in_bounds sample_kernel_env
              (sample_ctx fn_rockchip_vpu_enc_buf_finish) sample_coded_fmt
              (sample_vb2_buffer 1024) 400 eq_refl)
    as (_ & Hfit); try (simpl; lia); try reflexivity.
  - intros bounce [= <-]. simpl. lia.
  - destruct Hfit as (buf' & Hfin & Hused & _); [simpl; lia|].
    exists buf'. split; [exact Hfin | exact Hused].
Defined.

Lemma rockchip_vpu_enc_buf_finish_short_plane_witness :
  @rockchip_vpu_enc_buf_finish sample_kernel_env
    (sample_ctx fn_rockchip_vpu_enc_buf_finish) (sample_vb2_buffer 512) 100
  = None.
Proof.
  apply (@rockchip_vpu_enc_buf_finish_short_plane sample_kernel_env
           (sample_ctx fn_rockchip_vpu_enc_buf_finish) sample_coded_fmt
           (sample_vb2_buffer 512) 100); try reflexivity; try (simpl; lia).
  discriminate.
Defined.

Lemma rockchip_vpu_job_finish_outcome_witness :
  exists ctx' d',
    @rockchip_vpu_job_finish sample_kernel_env
      (sample_ctx fn_rockchip_vpu_dec_buf_finish)
      (Some (sample_v4l2_buffer 4096)) (Some (sample_v4l2_buffer 1024)) 0 5 =
    Some (ctx',
          [ Call_pm_runtime_mark_last_busy;
            Call_pm_runtime_put_autosuspend;
            Call_clk_bulk_disable;
            Call_v4l2_m2m_buf_done
              {| sequence := 7; vb2_buf := sample_vb2_buffer 4096 |} 5;
            Call_v4l2_m2m_buf_done d' 5;
            Call_v4l2_m2m_job_finish ]) /\
    planes0_bytesused (vb2_buf d') = 1024.
Proof.
  exact (proj2 (proj2 (@rockchip_vpu_job_finish_outcome sample_kernel_env
                         (sample_ctx fn_rockchip_vpu_dec_buf_finish)
                         (Some (sample_v4l2_buffer 4096))
                         (Some (sample_v4l2_buffer 1024)) 0 5))
           (sample_v4l2_buffer 4096) (sample_v4l2_buffer 1024)
           {| sizeimage := 1024 |} eq_refl eq_refl eq_refl eq_refl).
Defined.

Lemma failed_jobs_report_error_witness :
  exists r,
    @device_run sample_kernel_env (sample_ctx fn_rockchip_vpu_dec_buf_finish)
      (-5) 0 (Some (sample_v4l2_buffer 4096)) (Some (sample_v4l2_buffer 1024))
      = Some r /\
    forall b st, Call_v4l2_m2m_buf_done b st ∈ r.2 -> st = 6.
Proof.
  eexists. split; [reflexivity|].
  exact (proj2 (proj1 (proj2 (@failed_jobs_report_error sample_kernel_env
                                (sample_ctx fn_rockchip_vpu_dec_buf_finish)
                                (Some (sample_v4l2_buffer 4096))
                                (Some (sample_v4l2_buffer 1024))))
                  (-5) 0 _ ltac:(left; lia) eq_refl)).
Defined.

Lemma device_run_error_paths_release_witness :
  exists r rest,
    @device_run sample_kernel_env (sample_ctx fn_rockchip_vpu_dec_buf_finish)
      (-5) 0 (Some (sample_v4l2_buffer 4096)) (Some (sample_v4l2_buffer 1024))
      = Some r /\
    r.2 = Call_clk_bulk_enable ::
          Call_pm_runtime_mark_last_busy :: Call_pm_runtime_put_autosuspend ::
          Call_clk_bulk_disable :: rest /\
    Call_pm_runtime_get_sync ∉ rest.
Proof.
  eexists.
  destruct (@device_run_error_paths_release sample_kernel_env
              (sample_ctx fn_rockchip_vpu_dec_buf_finish)
              (Some (sample_v4l2_buffer 4096)) (Some (sample_v4l2_buffer 1024))
              (-5) 0 _ ltac:(left; lia) eq_refl)
    as (rest & _ & Hget & Hclk & _).
  exists rest. split; [reflexivity|]. split; [|exact Hget].
  apply Hclk. lia.
Defined.

End DriverFacts.

(* ================================================================== *)
(** * The V4L2 interface *)

Module V4l2Facts.

(** ** Formats *)

Lemma find_format_cases formats fourcc' :
  match rockchip_vpu_find_format formats fourcc' with
  | Some fmt =>
      exists i : nat,
        formats !! i = Some fmt /\ fourcc fmt = fourcc' /\
        forall (j : nat) g, (j < i)%nat -> formats !! j = Some g ->
                            fourcc g <> fourcc'
  | None => forall g, g ∈ formats -> fourcc g <> fourcc'
  end.
Proof.
  induction formats as [|fmt formats IH]; cbn [rockchip_vpu_find_format].
  - intros g Hg. inversion Hg.
  - destruct (Z.eqb_spec (fourcc fmt) fourcc') as [Heq|Hne].
    + exists 0%nat. repeat split; [assumption|]. intros j g Hj. lia.
    + destruct (rockchip_vpu_find_format formats fourcc') as [found|].
      * destruct IH as (i & Hi & Hf & Hfirst). exists (S i).
        repeat split; [assumption..|].
        intros [|j] g Hj Hg; [now injection Hg as <-|].
        apply (Hfirst j); [lia | assumption].
      * intros g Hg. apply elem_of_cons in Hg as [->|Hg]; [assumption|].
        now apply IH.
Qed.

(** X14.  [rockchip_vpu_find_format] returns the first format of the table
    with the FourCC asked for, and a null pointer exactly when no format of
    the table has it. *)
Theorem rockchip_vpu_find_format_first formats fourcc' :
  (forall fmt,
     rockchip_vpu_find_format formats fourcc' = Some fmt <->
     exists i : nat,
       formats !! i = Some fmt /\ fourcc fmt = fourcc' /\
       forall (j : nat) g, (j < i)%nat -> formats !! j = Some g ->
                           fourcc g <> fourcc') /\
  (rockchip_vpu_find_format formats fourcc' = None <->
   forall g, g ∈ formats -> fourcc g <> fourcc').
Proof.
  pose proof (find_format_cases formats fourcc') as Hfind.
  destruct (rockchip_vpu_find_format formats fourcc') as [found|].
  - destruct Hfind as (i & Hlook & Hfcc & Hfirst). split.
    + intros fmt. split.
      * intros [= <-]. now exists i.
      * intros (i' & Hlook' & Hfcc' & Hfirst').
        assert (i' = i) as ->.
        { destruct (Nat.lt_trichotomy i' i) as [Hlt|[Heq|Hgt]]; [|assumption|].
          - exfalso. now apply (Hfirst i' fmt Hlt Hlook').
          - exfalso. now apply (Hfirst' i found Hgt Hlook). }
        congruence.
    + split; [discriminate|]. intros Hnone. exfalso.
      apply (Hnone found); [|assumption].
      now apply list_elem_of_lookup_2 in Hlook.
  - split.
    + intros fmt. split; [discriminate|].
      intros (i' & Hlook' & Hfcc' & _). exfalso.
      apply (Hfind fmt); [|assumption].
      now apply list_elem_of_lookup_2 in Hlook'.
    + split; [intros _; exact Hfind | reflexivity].
Qed.

(** The formats [vidioc_enum_fmt] keeps. *)
Lemma vidioc_enum_fmt_loop_filter formats skip_mode_none : forall index j,
  0 <= j <= index -> j + Z.of_nat (length formats) < 2 ^ 32 ->
  vidioc_enum_fmt_loop formats skip_mode_none index j =
  match filter (fun fmt =>
                  eqb skip_mode_none (codec_mode fmt =? RK_VPU_MODE_NONE) = false)
               formats !! Z.to_nat (index - j) with
  | Some fmt => (Ret_0, Some (fourcc fmt))
  | None => (Ret_neg EINVAL, None)
  end.
Proof.
  induction formats as [|fmt formats IH]; intros index j Hj Hlen;
    cbn [vidioc_enum_fmt_loop]; [reflexivity|].
  cbn [length] in Hlen. cbv zeta.
  destruct (eqb skip_mode_none (codec_mode fmt =? RK_VPU_MODE_NONE)) eqn:Hskip.
  - rewrite filter_cons_False by (rewrite Hskip; discriminate).
    apply IH; lia.
  - rewrite filter_cons_True by assumption.
    destruct (Z.eqb_spec j index) as [->|Hne].
    + now rewrite Z.sub_diag.
    + assert (u32 (j + 1) = j + 1) as -> by (unfold u32; apply Z.mod_small; lia).
      rewrite IH by lia.
      replace (Z.to_nat (index - j)) with (S (Z.to_nat (index - (j + 1)))) by lia.
      reflexivity.
Qed.

(** X15.  Enumeration of the formats of a queue.  [vidioc_enum_fmt] lists
    the formats of the table that are coded, on the capture queue of an
    encoder and on the output queue of a decoder, and the raw ones on the
    two other queues: index [n] gives the FourCC of the [n]-th such format
    in table order, and an index that is not smaller than their number
    gives [-EINVAL] and stores nothing. *)
Theorem vidioc_enum_fmt_filter formats is_encoder_ctx index capture :
  Z.of_nat (length formats) < 2 ^ 32 -> 0 <= index ->
  vidioc_enum_fmt formats is_encoder_ctx index capture =
  match filter (fun fmt =>
                  negb (codec_mode fmt =? RK_VPU_MODE_NONE) =
                  eqb capture is_encoder_ctx)
               formats !! Z.to_nat index with
  | Some fmt => (Ret_0, Some (fourcc fmt))
  | None => (Ret_neg EINVAL, None)
  end.
Proof.
  intros Hlen Hindex. unfold vidioc_enum_fmt. cbv zeta.
  rewrite vidioc_enum_fmt_loop_filter by lia. rewrite Z.sub_0_r.
  assert (filter (fun fmt =>
                    eqb (eqb capture is_encoder_ctx)
                        (codec_mode fmt =? RK_VPU_MODE_NONE) = false) formats =
          filter (fun fmt =>
                    negb (codec_mode fmt =? RK_VPU_MODE_NONE) =
                    eqb capture is_encoder_ctx) formats) as ->; [|reflexivity].
  apply list_filter_iff. intros fmt.
  destruct (eqb capture is_encoder_ctx), (codec_mode fmt =? RK_VPU_MODE_NONE);
    simpl; intuition congruence.
Qed.

Lemma vidioc_enum_fmt_filter_witness :
  @vidioc_enum_fmt sample_formats true 0 true = (Ret_0, Some 0x4745504A) /\
  @vidioc_enum_fmt sample_formats true 1 true = (Ret_neg EINVAL, None) /\
  @vidioc_enum_fmt sample_formats true 2 false = (Ret_0, Some 0x56595559).
Proof.
  split; [|split];
    (rewrite vidioc_enum_fmt_filter; [reflexivity | simpl; lia | lia]).
Defined.

(** X16.  The default format of a queue is the first format its
    enumeration gives: the format [vidioc_try_fmt] falls back on, and the
    one [rockchip_vpu_reset_encoded_fmt] and [rockchip_vpu_reset_raw_fmt]
    select, is the one [vidioc_enum_fmt] reports at index 0 for that
    queue, and there is none exactly when the enumeration is empty. *)
Theorem default_fmt_is_first_enumerated formats is_encoder_ctx capture :
  vidioc_enum_fmt formats is_encoder_ctx 0 capture =
  match rockchip_vpu_get_default_fmt formats (eqb capture is_encoder_ctx) with
  | Some fmt => (Ret_0, Some (fourcc fmt))
  | None => (Ret_neg EINVAL, None)
  end.
Proof.
  unfold vidioc_enum_fmt. cbv zeta.
  generalize (eqb capture is_encoder_ctx) as coded. intros coded.
  induction formats as [|fmt formats IH];
    cbn [vidioc_enum_fmt_loop rockchip_vpu_get_default_fmt]; [reflexivity|].
  cbv zeta.
  destruct coded, (codec_mode fmt =? RK_VPU_MODE_NONE); simpl;
    first [reflexivity | exact IH].
Qed.

(** X17.  [vidioc_enum_framesizes] succeeds exactly for index 0 and a
    FourCC whose first format in the table is a coded one, and then reports
    the frame sizes of that format; in every other case it returns
    [-EINVAL] and stores nothing. *)
Theorem vidioc_enum_framesizes_coded_only formats index pixel_format :
  (forall sizes,
     vidioc_enum_framesizes formats index pixel_format = (Ret_0, Some sizes) <->
     index = 0 /\
     exists (i : nat) fmt,
       formats !! i = Some fmt /\ fourcc fmt = pixel_format /\
       (forall (j : nat) g, (j < i)%nat -> formats !! j = Some g ->
                            fourcc g <> pixel_format) /\
       codec_mode fmt <> RK_VPU_MODE_NONE /\ frmsize fmt = sizes) /\
  ((forall sizes,
      vidioc_enum_framesizes formats index pixel_format <> (Ret_0, Some sizes)) ->
   vidioc_enum_framesizes formats index pixel_format = (Ret_neg EINVAL, None)).
Proof.
  pose proof (find_format_cases formats pixel_format) as Hfind.
  unfold vidioc_enum_framesizes. split.
  - intros sizes. destruct (decide (index <> 0)) as [Hi|Hi].
    { split; [discriminate | intros [? _]; contradiction]. }
    destruct (rockchip_vpu_find_format formats pixel_format) as [fmt|].
    + destruct Hfind as (i & Hlook & Hfcc & Hfirst).
      destruct (Z.eqb_spec (codec_mode fmt) RK_VPU_MODE_NONE) as [Hnone|Hcoded].
      * split; [discriminate|].
        intros (_ & i' & fmt' & Hlook' & Hfcc' & Hfirst' & Hc & _).
        assert (i' = i) as ->.
        { destruct (Nat.lt_trichotomy i' i) as [Hlt|[Heq|Hgt]]; [|assumption|].
          - exfalso. now apply (Hfirst i' fmt' Hlt Hlook').
          - exfalso. now apply (Hfirst' i fmt Hgt Hlook). }
        congruence.
      * split.
        -- intros [= <-]. split; [lia|]. exists i, fmt. auto.
        -- intros (_ & i' & fmt' & Hlook' & Hfcc' & Hfirst' & Hc & <-).
           assert (i' = i) as ->.
           { destruct (Nat.lt_trichotomy i' i) as [Hlt|[Heq|Hgt]]; [|assumption|].
             - exfalso. now apply (Hfirst i' fmt' Hlt Hlook').
             - exfalso. now apply (Hfirst' i fmt Hgt Hlook). }
           congruence.
    + split; [discriminate|].
      intros (_ & i' & fmt' & Hlook' & Hfcc' & _).
      exfalso. apply (Hfind fmt'); [|assumption].
      now apply list_elem_of_lookup_2 in Hlook'.
  - intros Hnot. destruct (decide (index <> 0)); [reflexivity|].
    destruct (rockchip_vpu_find_format formats pixel_format) as [fmt|];
      [|reflexivity].
    destruct (codec_mode fmt =? RK_VPU_MODE_NONE); [reflexivity|].
    exfalso. now apply (Hnot (frmsize fmt)).
Qed.

Lemma rockchip_vpu_find_format_first_witness :
  rockchip_vpu_find_format sample_formats 0x4745504A = Some sample_coded_fmt /\
  rockchip_vpu_find_format sample_formats 0x30323449 = None.
Proof.
  split.
  - apply (proj1 (rockchip_vpu_find_format_first sample_formats 0x4745504A)).
    exists 2%nat. split; [reflexivity|]. split; [reflexivity|].
    intros [|[|j]] g Hj Hg; [| |lia]; injection Hg as <-; discriminate.
  - apply (proj2 (rockchip_vpu_find_format_first sample_formats 0x30323449)).
    intros g Hg. unfold sample_formats in Hg. rewrite !elem_of_cons in Hg.
    destruct Hg as [->|[->|[->|[->|Hg]]]]; [discriminate..|inversion Hg].
Defined.

Lemma vidioc_enum_framesizes_coded_only_witness :
  vidioc_enum_framesizes sample_formats 0 0x4745504A = (Ret_0, Some sample_frmsize).
Proof.
  apply (proj1 (vidioc_enum_framesizes_coded_only sample_formats 0 0x4745504A)).
  split; [reflexivity|]. exists 2%nat, sample_coded_fmt.
  split; [reflexivity|]. split; [reflexivity|]. split; [|split].
  - intros [|[|j]] g Hj Hg; [| |lia]; injection Hg as <-; discriminate.
  - discriminate.
  - reflexivity.
Defined.

(** ** Queues *)

Lemma for_return_cases {R} n : forall i0 (body : Z -> option (option R)) res,
  for_return n i0 body = Some res ->
  match res with
  | None => forall i, i0 <= i < i0 + Z.of_nat n -> body i = Some None
  | Some r => exists i, i0 <= i < i0 + Z.of_nat n /\ body i = Some (Some r)
  end.
Proof.
  induction n as [|n IH]; intros i0 body res; cbn [for_return].
  - intros [= <-]. intros i Hi. lia.
  - destruct (body i0) as [[r|]|] eqn:Hb; cbn [mbind option_bind];
      [| |discriminate].
    + intros [= <-]. exists i0. split; [lia | assumption].
    + intros Hrest. specialize (IH (i0 + 1) body res Hrest).
      destruct res as [r|].
      * destruct IH as (i & Hi & Hbi). exists i. split; [lia | assumption].
      * intros i Hi. destruct (Z.eq_dec i i0) as [->|Hne]; [assumption|].
        apply IH. lia.
Qed.

Lemma for_return_defined {R} n : forall i0 (body : Z -> option (option R)),
  (forall i, i0 <= i < i0 + Z.of_nat n -> is_Some (body i)) ->
  is_Some (for_return n i0 body).
Proof.
  induction n as [|n IH]; intros i0 body Hdef; cbn [for_return].
  - now exists None.
  - destruct (Hdef i0 ltac:(lia)) as [[r|] ->]; cbn [mbind option_bind].
    + now exists (Some r).
    + apply IH. intros i Hi. apply Hdef. lia.
Qed.

(** The loop that compares the planes of a buffer with the format. *)
Lemma buf_plane_check_cases vb pixfmt :
  0 <= pix_num_planes pixfmt <= Z.of_nat (length (plane_fmt pixfmt)) ->
  (rockchip_vpu_buf_plane_check vb pixfmt = Some Ret_0 /\
   forall i p, 0 <= i < pix_num_planes pixfmt ->
     plane_fmt pixfmt !! Z.to_nat i = Some p ->
     sizeimage p <= vb2_plane_size vb i) \/
  (rockchip_vpu_buf_plane_check vb pixfmt = Some (Ret_neg EINVAL) /\
   exists i p, 0 <= i < pix_num_planes pixfmt /\
     plane_fmt pixfmt !! Z.to_nat i = Some p /\
     vb2_plane_size vb i < sizeimage p).
Proof.
  intros Hn. unfold rockchip_vpu_buf_plane_check.
  set (body := fun i : Z =>
         p ← plane_fmt pixfmt !! Z.to_nat i;
         let sz := sizeimage p in
         Some (if decide (vb2_plane_size vb i < sz)
               then Some (Ret_neg EINVAL) else None)).
  destruct (for_return_defined (Z.to_nat (pix_num_planes pixfmt)) 0 body)
    as [res Hres].
  { intros i Hi. unfold body.
    destruct (lookup_lt_is_Some_2 (plane_fmt pixfmt) (Z.to_nat i) ltac:(lia))
      as [p ->]. cbn [mbind option_bind]. eauto. }
  rewrite Hres. cbn [mbind option_bind].
  apply for_return_cases in Hres. destruct res as [r|].
  - right. destruct Hres as (i & Hi & Hb). unfold body in Hb.
    destruct (plane_fmt pixfmt !! Z.to_nat i) as [p|] eqn:Hp; [|discriminate].
    cbn [mbind option_bind] in Hb. cbv zeta in Hb.
    destruct (decide (vb2_plane_size vb i < sizeimage p)); [|discriminate].
    injection Hb as <-. split; [reflexivity|]. exists i, p.
    split; [lia|]. split; assumption.
  - left. split; [reflexivity|]. intros i p Hi Hp.
    specialize (Hres i ltac:(lia)). unfold body in Hres. rewrite Hp in Hres.
    cbn [mbind option_bind] in Hres. cbv zeta in Hres.
    destruct (decide (vb2_plane_size vb i < sizeimage p)); [discriminate | lia].
Qed.

(** X18.  [rockchip_vpu_buf_prepare] accepts a buffer exactly when each of
    its planes is at least as large as [sizeimage] of that plane in the
    format of the queue, the source format for an output queue and the
    destination format for a capture queue; otherwise it returns
    [-EINVAL]. *)
Theorem rockchip_vpu_buf_prepare_planes type_is_output ctx vb :
  let pixfmt := if type_is_output : bool then src_fmt ctx else dst_fmt ctx in
  0 <= pix_num_planes pixfmt <= Z.of_nat (length (plane_fmt pixfmt)) ->
  (rockchip_vpu_buf_prepare type_is_output ctx vb = Some Ret_0 <->
   forall i p, 0 <= i < pix_num_planes pixfmt ->
     plane_fmt pixfmt !! Z.to_nat i = Some p ->
     sizeimage p <= vb2_plane_size vb i) /\
  (rockchip_vpu_buf_prepare type_is_output ctx vb = Some (Ret_neg EINVAL) <->
   exists i p, 0 <= i < pix_num_planes pixfmt /\
     plane_fmt pixfmt !! Z.to_nat i = Some p /\
     vb2_plane_size vb i < sizeimage p).
Proof.
  intros pixfmt Hn.
  assert (rockchip_vpu_buf_prepare type_is_output ctx vb =
          rockchip_vpu_buf_plane_check vb pixfmt) as ->.
  { unfold rockchip_vpu_buf_prepare, pixfmt. now destruct type_is_output. }
  destruct (buf_plane_check_cases vb pixfmt Hn)
    as [(-> & Hall)|(-> & i & p & Hi & Hp & Hsmall)].
  - split; split.
    + intros _. assumption.
    + reflexivity.
    + discriminate.
    + intros (i & p & Hi & Hp & Hsmall). specialize (Hall i p Hi Hp). lia.
  - split; split.
    + discriminate.
    + intros Hall. specialize (Hall i p Hi Hp). lia.
    + intros _. now exists i, p.
    + reflexivity.
Qed.

Lemma rockchip_vpu_buf_prepare_planes_witness :
  rockchip_vpu_buf_prepare false (sample_ctx fn_rockchip_vpu_dec_buf_finish)
    (sample_vb2_buffer 512) = Some (Ret_neg EINVAL).
Proof.
  apply (proj2 (rockchip_vpu_buf_prepare_planes false
                  (sample_ctx fn_rockchip_vpu_dec_buf_finish)
                  (sample_vb2_buffer 512) ltac:(simpl; lia))).
  exists 0, {| sizeimage := 1024 |}. split; [simpl; lia|].
  split; [reflexivity | simpl; lia].
Defined.

Lemma queue_setup_eq vq_type ctx num_planes sizes pixfmt :
  vq_type = V4L2_BUF_TYPE_VIDEO_CAPTURE_MPLANE /\ pixfmt = dst_fmt ctx \/
  vq_type = V4L2_BUF_TYPE_VIDEO_OUTPUT_MPLANE /\ pixfmt = src_fmt ctx ->
  rockchip_vpu_queue_setup vq_type ctx num_planes sizes =
  if decide (num_planes <> 0) then
    if decide (num_planes <> pix_num_planes pixfmt)
    then Some (Ret_neg EINVAL, num_planes, sizes)
    else
      r ← for_return (Z.to_nat (pix_num_planes pixfmt)) 0
            (fun i =>
               s ← sizes !! Z.to_nat i;
               p ← plane_fmt pixfmt !! Z.to_nat i;
               Some (if decide (s < sizeimage p)
                     then Some (Ret_neg EINVAL) else None));
      Some (default Ret_0 r, num_planes, sizes)
  else
    sizes ← for_loop (Z.to_nat (pix_num_planes pixfmt)) 0
              (fun i sizes =>
                 p ← plane_fmt pixfmt !! Z.to_nat i;
                 store sizes i (sizeimage p))
              sizes;
    Some (Ret_0, pix_num_planes pixfmt, sizes).
Proof. intros [[-> ->]|[-> ->]]; reflexivity. Qed.

Lemma queue_setup_cases vq_type ctx num_planes sizes pixfmt :
  vq_type = V4L2_BUF_TYPE_VIDEO_CAPTURE_MPLANE /\ pixfmt = dst_fmt ctx \/
  vq_type = V4L2_BUF_TYPE_VIDEO_OUTPUT_MPLANE /\ pixfmt = src_fmt ctx ->
  0 <= pix_num_planes pixfmt <= Z.of_nat (length (plane_fmt pixfmt)) ->
  pix_num_planes pixfmt <= Z.of_nat (length sizes) ->
  exists r num_planes' sizes',
    rockchip_vpu_queue_setup vq_type ctx num_planes sizes =
      Some (r, num_planes', sizes') /\
    length sizes' = length sizes /\
    ((r = Ret_0 /\ num_planes' = pix_num_planes pixfmt /\
      (forall i p, 0 <= i < pix_num_planes pixfmt ->
         plane_fmt pixfmt !! Z.to_nat i = Some p ->
         exists s, sizes' !! Z.to_nat i = Some s /\ sizeimage p <= s) /\
      (num_planes <> 0 -> sizes' = sizes) /\
      (num_planes = 0 ->
       forall i p, 0 <= i < pix_num_planes pixfmt ->
         plane_fmt pixfmt !! Z.to_nat i = Some p ->
         sizes' !! Z.to_nat i = Some (sizeimage p))) \/
     (r = Ret_neg EINVAL /\ num_planes' = num_planes /\ sizes' = sizes /\
      num_planes <> 0 /\
      (num_planes <> pix_num_planes pixfmt \/
       exists i p s, 0 <= i < pix_num_planes pixfmt /\
         plane_fmt pixfmt !! Z.to_nat i = Some p /\
         sizes !! Z.to_nat i = Some s /\ s < sizeimage p))).
Proof.
  intros Htype Hn Hsizes. rewrite (queue_setup_eq _ _ _ _ pixfmt Htype).
  destruct (decide (num_planes <> 0)) as [Hgiven|Hzero].
  - destruct (decide (num_planes <> pix_num_planes pixfmt)) as [Hne|Heq].
    + exists (Ret_neg EINVAL), num_planes, sizes.
      split; [reflexivity|]. split; [reflexivity|]. right. auto 6.
    + set (body := fun i : Z =>
             s ← sizes !! Z.to_nat i;
             p ← plane_fmt pixfmt !! Z.to_nat i;
             Some (if decide (s < sizeimage p)
                   then Some (Ret_neg EINVAL) else None)).
      destruct (for_return_defined (Z.to_nat (pix_num_planes pixfmt)) 0 body)
        as [res Hres].
      { intros i Hi. unfold body.
        destruct (lookup_lt_is_Some_2 sizes (Z.to_nat i) ltac:(lia)) as [s ->].
        destruct (lookup_lt_is_Some_2 (plane_fmt pixfmt) (Z.to_nat i) ltac:(lia))
          as [p ->]. cbn [mbind option_bind]. eauto. }
      rewrite Hres. cbn [mbind option_bind].
      apply for_return_cases in Hres.
      eexists _, num_planes, sizes. split; [reflexivity|]. split; [reflexivity|].
      destruct res as [r|]; cbn [default].
      * right. destruct Hres as (i & Hi & Hb). unfold body in Hb.
        destruct (sizes !! Z.to_nat i) as [s|] eqn:Hs; [|discriminate].
        destruct (plane_fmt pixfmt !! Z.to_nat i) as [p|] eqn:Hp; [|discriminate].
        cbn [mbind option_bind] in Hb.
        destruct (decide (s < sizeimage p)); [|discriminate].
        injection Hb as <-. repeat split; try assumption.
        right. exists i, p, s. repeat split; try assumption; lia.
      * left. split; [reflexivity|]. split; [lia|]. split; [|split].
        -- intros i p Hi Hp. specialize (Hres i ltac:(lia)). unfold body in Hres.
           destruct (sizes !! Z.to_nat i) as [s|] eqn:Hs; [|discriminate].
           rewrite Hp in Hres. cbn [mbind option_bind] in Hres.
           destruct (decide (s < sizeimage p)); [discriminate|].
           exists s. split; [reflexivity | lia].
        -- reflexivity.
        -- intros Hz. contradiction.
  - destruct (LoopFacts.for_loop_inv
      (fun i (s : list Z) => length s = length sizes /\
         forall i' p, 0 <= i' < i ->
           plane_fmt pixfmt !! Z.to_nat i' = Some p ->
           s !! Z.to_nat i' = Some (sizeimage p))
      (Z.to_nat (pix_num_planes pixfmt)) 0
      (fun i sizes =>
         p ← plane_fmt pixfmt !! Z.to_nat i; store sizes i (sizeimage p))
      sizes) as (sizes' & Hloop & Hlen' & Hall).
    + split; [reflexivity|]. intros i' p Hi'. lia.
    + intros i s Hi (Hls & Hs).
      destruct (lookup_lt_is_Some_2 (plane_fmt pixfmt) (Z.to_nat i) ltac:(lia))
        as [p Hp]. rewrite Hp. cbn [mbind option_bind]. unfold store.
      rewrite decide_True by lia. eexists. split; [reflexivity|].
      split; [now rewrite length_insert|].
      intros i' p' Hi' Hp'. destruct (Z.eq_dec i' i) as [->|Hne].
      * rewrite list_lookup_insert_eq by lia. congruence.
      * rewrite list_lookup_insert_ne by lia. apply Hs; [lia | assumption].
    + rewrite Hloop. cbn [mbind option_bind].
      exists Ret_0, (pix_num_planes pixfmt), sizes'.
      split; [reflexivity|]. split; [assumption|]. left.
      split; [reflexivity|]. split; [reflexivity|]. split; [|split].
      * intros i p Hi Hp. exists (sizeimage p). split; [|lia].
        apply Hall; [lia | assumption].
      * intros Hnz. lia.
      * intros _ i p Hi Hp. apply Hall; [lia | assumption].
Qed.

(** X19.  [rockchip_vpu_queue_setup].  For a queue type other than the two
    multi-planar ones it returns [-EINVAL].  Asked to choose, with
    [*num_planes] zero, it returns 0, the number of planes of the format of
    the queue and the [sizeimage] of each plane.  Asked to check, it
    returns 0 and changes nothing when the number of planes is the one of
    the format and every size is at least the [sizeimage] of the plane, and
    [-EINVAL] otherwise.  So whenever it returns 0 every plane is large
    enough for the format. *)
Theorem rockchip_vpu_queue_setup_sizes vq_type ctx num_planes sizes :
  (vq_type = V4L2_BUF_TYPE_other ->
   rockchip_vpu_queue_setup vq_type ctx num_planes sizes =
   Some (Ret_neg EINVAL, num_planes, sizes)) /\
  (forall pixfmt,
     vq_type = V4L2_BUF_TYPE_VIDEO_CAPTURE_MPLANE /\ pixfmt = dst_fmt ctx \/
     vq_type = V4L2_BUF_TYPE_VIDEO_OUTPUT_MPLANE /\ pixfmt = src_fmt ctx ->
     0 <= pix_num_planes pixfmt <= Z.of_nat (length (plane_fmt pixfmt)) ->
     pix_num_planes pixfmt <= Z.of_nat (length sizes) ->
     exists r num_planes' sizes',
       rockchip_vpu_queue_setup vq_type ctx num_planes sizes =
         Some (r, num_planes', sizes') /\
       length sizes' = length sizes /\
       (r = Ret_0 ->
        num_planes' = pix_num_planes pixfmt /\
        forall i p, 0 <= i < pix_num_planes pixfmt ->
          plane_fmt pixfmt !! Z.to_nat i = Some p ->
          exists s, sizes' !! Z.to_nat i = Some s /\ sizeimage p <= s) /\
       (num_planes = 0 ->
        r = Ret_0 /\
        forall i p, 0 <= i < pix_num_planes pixfmt ->
          plane_fmt pixfmt !! Z.to_nat i = Some p ->
          sizes' !! Z.to_nat i = Some (sizeimage p)) /\
       (num_planes <> 0 ->
        num_planes' = num_planes /\ sizes' = sizes /\
        (r = Ret_0 \/ r = Ret_neg EINVAL) /\
        (r = Ret_neg EINVAL <->
         num_planes <> pix_num_planes pixfmt \/
         exists i p s, 0 <= i < pix_num_planes pixfmt /\
           plane_fmt pixfmt !! Z.to_nat i = Some p /\
           sizes !! Z.to_nat i = Some s /\ s < sizeimage p))).
Proof.
  split; [intros ->; reflexivity|].
  intros pixfmt Htype Hn Hsizes.
  destruct (queue_setup_cases vq_type ctx num_planes sizes pixfmt Htype Hn Hsizes)
    as (r & n' & sizes' & Heq & Hlen &
        [(-> & -> & Hlarge & Hsame & Hchosen)|(-> & -> & -> & Hnz & Hwhy)]).
  - exists Ret_0, (pix_num_planes pixfmt), sizes'.
    split; [assumption|]. split; [assumption|]. split; [auto|]. split; [auto|].
    intros Hnz. rewrite (Hsame Hnz) in *.
    assert (num_planes = pix_num_planes pixfmt) as Hsamen.
    { revert Heq. rewrite (queue_setup_eq _ _ _ _ pixfmt Htype).
      rewrite decide_True by assumption.
      destruct (decide (num_planes <> pix_num_planes pixfmt)); [discriminate|].
      intros _. lia. }
    split; [lia|]. split; [reflexivity|]. split; [auto|].
    split; [discriminate|].
    intros [Hne|(i & p & s & Hi & Hp & Hs & Hsmall)]; [lia|].
    destruct (Hlarge i p Hi Hp) as (s' & Hs' & Hle).
    rewrite Hs in Hs'. injection Hs' as <-. lia.
  - exists (Ret_neg EINVAL), num_planes, sizes.
    split; [assumption|]. split; [reflexivity|].
    split; [discriminate|]. split; [intros Hz; contradiction|].
    intros _. split; [reflexivity|]. split; [reflexivity|].
    split; [auto|]. split; [intros _; assumption | reflexivity].
Qed.

Lemma rockchip_vpu_queue_setup_sizes_witness :
  exists sizes',
    rockchip_vpu_queue_setup V4L2_BUF_TYPE_VIDEO_CAPTURE_MPLANE
      (sample_ctx fn_rockchip_vpu_dec_buf_finish) 0 (replicate 8 0) =
    Some (Ret_0, 1, sizes') /\
    sizes' !! 0%nat = Some 1024.
Proof.
  destruct (proj2 (rockchip_vpu_queue_setup_sizes
                     V4L2_BUF_TYPE_VIDEO_CAPTURE_MPLANE
                     (sample_ctx fn_rockchip_vpu_dec_buf_finish) 0 (replicate 8 0))
              (sample_pix_fmt 1024) (or_introl (conj eq_refl eq_refl))
              ltac:(simpl; lia) ltac:(simpl; lia))
    as (r & n' & sizes' & Heq & _ & _ & Hchosen & _).
  destruct (Hchosen eq_refl) as (-> & Hsizes).
  exists sizes'. split.
  - rewrite Heq. vm_compute in Heq. injection Heq as <- _. reflexivity.
  - exact (Hsizes 0 {| sizeimage := 1024 |} ltac:(simpl; lia) eq_refl).
Defined.

(** X20.  Buffers sized as [rockchip_vpu_queue_setup] accepted are
    accepted by [rockchip_vpu_buf_prepare]: when the queue set-up returns 0
    with the sizes [sizes'], a buffer of the queue whose planes have at
    least these sizes passes the plane check of the same context. *)
Theorem queue_setup_then_buf_prepare type_is_output ctx num_planes sizes
  num_planes' sizes' vb :
  let vq_type := if type_is_output : bool
                 then V4L2_BUF_TYPE_VIDEO_OUTPUT_MPLANE
                 else V4L2_BUF_TYPE_VIDEO_CAPTURE_MPLANE in
  let pixfmt := if type_is_output then src_fmt ctx else dst_fmt ctx in
  0 <= pix_num_planes pixfmt <= Z.of_nat (length (plane_fmt pixfmt)) ->
  pix_num_planes pixfmt <= Z.of_nat (length sizes) ->
  rockchip_vpu_queue_setup vq_type ctx num_planes sizes =
    Some (Ret_0, num_planes', sizes') ->
  (forall i s, 0 <= i < num_planes' -> sizes' !! Z.to_nat i = Some s ->
               s <= vb2_plane_size vb i) ->
  rockchip_vpu_buf_prepare type_is_output ctx vb = Some Ret_0.
Proof.
  intros vq_type pixfmt Hn Hsizes Hsetup Hvb.
  assert (vq_type = V4L2_BUF_TYPE_VIDEO_CAPTURE_MPLANE /\ pixfmt = dst_fmt ctx \/
          vq_type = V4L2_BUF_TYPE_VIDEO_OUTPUT_MPLANE /\ pixfmt = src_fmt ctx)
    as Htype by (unfold vq_type, pixfmt; destruct type_is_output; auto).
  destruct (queue_setup_cases vq_type ctx num_planes sizes pixfmt Htype Hn Hsizes)
    as (r & n' & sizes'' & Heq & _ &
        [(-> & -> & Hlarge & _)|(-> & _)]);
    rewrite Heq in Hsetup; [|discriminate].
  injection Hsetup as <- <-.
  assert (rockchip_vpu_buf_prepare type_is_output ctx vb =
          rockchip_vpu_buf_plane_check vb pixfmt) as ->.
  { unfold rockchip_vpu_buf_prepare, pixfmt. now destruct type_is_output. }
  destruct (buf_plane_check_cases vb pixfmt Hn)
    as [(-> & _)|(_ & i & p & Hi & Hp & Hsmall)]; [reflexivity|].
  destruct (Hlarge i p Hi Hp) as (s & Hs & Hle).
  specialize (Hvb i s Hi Hs). lia.
Qed.

Lemma queue_setup_then_buf_prepare_witness :
  rockchip_vpu_buf_prepare false (sample_ctx fn_rockchip_vpu_dec_buf_finish)
    (sample_vb2_buffer 2048) = Some Ret_0.
Proof.
  apply (queue_setup_then_buf_prepare false
           (sample_ctx fn_rockchip_vpu_dec_buf_finish) 0 (replicate 8 0)
           1 (1024 :: replicate 7 0) (sample_vb2_buffer 2048)).
  - simpl. lia.
  - simpl. lia.
  - reflexivity.
  - intros i s Hi. assert (i = 0) as -> by lia. intros [= <-]. simpl. lia.
Defined.

End V4l2Facts.

(* ================================================================== *)
(** * Sequence numbers of a stream *)

Module StreamFacts.

Section WithKernel.
Context `{kernel_env}.

Lemma job_finish_sequences ctx src dst bytesused result r :
  (forall s d b, sequence (v4l2_m2m_buf_copy_metadata s d b) = sequence d) ->
  rockchip_vpu_job_finish ctx (Some src) (Some dst) bytesused result = Some r ->
  done_sequences r.2 = [sequence_out ctx; sequence_cap ctx] /\
  sequence_out r.1 = u32 (sequence_out ctx + 1) /\
  sequence_cap r.1 = u32 (sequence_cap ctx + 1) /\
  buf_finish r.1 = buf_finish ctx.
Proof.
  intros Hcopy. unfold rockchip_vpu_job_finish. cbv zeta.
  destruct (call_buf_finish _ _ _) as [[ret vb]|]; [|discriminate].
  cbn [mbind option_bind fst snd]. intros [= <-]. cbn [fst snd].
  split; [|repeat split].
  unfold done_sequences. cbn [app omap list_omap sequence].
  now rewrite Hcopy.
Qed.

Lemma bind_fmap_list {A B C} (g : A -> B) (f : B -> list C) (l : list A) :
  (g <$> l) ≫= f = l ≫= (fun a => f (g a)).
Proof.
  induction l as [|a l IH]; [reflexivity|].
  rewrite fmap_cons, !bind_cons. now rewrite IH.
Qed.

Lemma bind_ext_list {A B} (f g : A -> list B) (l : list A) :
  (forall a, f a = g a) -> l ≫= f = l ≫= g.
Proof.
  intros Hfg. induction l as [|a l IH]; [reflexivity|].
  rewrite !bind_cons. now rewrite IH, Hfg.
Qed.

Lemma done_sequences_app calls1 calls2 :
  done_sequences (calls1 ++ calls2) =
  done_sequences calls1 ++ done_sequences calls2.
Proof. apply omap_app. Qed.

Lemma finish_jobs_sequences jobs : forall ctx r,
  (forall s d b, sequence (v4l2_m2m_buf_copy_metadata s d b) = sequence d) ->
  is_u32 (sequence_out ctx) -> is_u32 (sequence_cap ctx) ->
  finish_jobs ctx jobs = Some r ->
  done_sequences r.2 =
    (seqZ 0 (Z.of_nat (length jobs)) ≫=
       fun k => [u32 (sequence_out ctx + k); u32 (sequence_cap ctx + k)]) /\
  sequence_out r.1 = u32 (sequence_out ctx + Z.of_nat (length jobs)) /\
  sequence_cap r.1 = u32 (sequence_cap ctx + Z.of_nat (length jobs)).
Proof.
  induction jobs as [|[[[src dst] bytesused] result] jobs IH];
    intros ctx r Hcopy Hout Hcap.
  - cbn [finish_jobs]. intros [= <-]. cbn [fst snd length].
    rewrite !Z.add_0_r. unfold u32. rewrite !Z.mod_small by assumption.
    repeat split; reflexivity.
  - cbn [finish_jobs].
    destruct (rockchip_vpu_job_finish _ _ _ _ _) as [r1|] eqn:Hfin; [|discriminate].
    cbn [mbind option_bind].
    destruct (finish_jobs r1.1 jobs) as [r2|] eqn:Hrest; [|discriminate].
    cbn [mbind option_bind]. intros [= <-]. cbn [fst snd].
    destruct (job_finish_sequences _ _ _ _ _ _ Hcopy Hfin)
      as (Hseq1 & Hout1 & Hcap1 & _).
    destruct (IH r1.1 r2 Hcopy) as (Hseq2 & Hout2 & Hcap2); [..|assumption|].
    { rewrite Hout1. apply Z.mod_pos_bound. lia. }
    { rewrite Hcap1. apply Z.mod_pos_bound. lia. }
    assert (forall a k, u32 (u32 (a + 1) + k) = u32 (a + (1 + k))) as Hu.
    { intros a k. unfold u32. rewrite Zplus_mod_idemp_l. f_equal. lia. }
    rewrite done_sequences_app, Hseq1, Hseq2, Hout2, Hcap2, Hout1, Hcap1.
    cbn [length]. rewrite Nat2Z.inj_succ.
    split; [|split].
    + rewrite (seqZ_cons 0 (Z.succ (Z.of_nat (length jobs)))) by lia.
      rewrite Z.pred_succ.
      rewrite bind_cons, !Z.add_0_r.
      assert (u32 (sequence_out ctx) = sequence_out ctx) as ->
        by (apply Z.mod_small; assumption).
      assert (u32 (sequence_cap ctx) = sequence_cap ctx) as ->
        by (apply Z.mod_small; assumption).
      cbn [app]. do 2 f_equal.
      change (Z.succ 0) with (1 + 0). rewrite <- fmap_add_seqZ.
      rewrite bind_fmap_list. apply bind_ext_list. intros k.
      now rewrite !Hu.
    + rewrite Hu. f_equal. lia.
    + rewrite Hu. f_equal. lia.
Qed.

Lemma start_streaming_counters type_is_output ctx init r :
  rockchip_vpu_start_streaming type_is_output ctx init = Some r ->
  sequence_out r.2 = (if type_is_output then 0 else sequence_out ctx) /\
  sequence_cap r.2 = (if type_is_output then sequence_cap ctx else 0).
Proof.
  unfold rockchip_vpu_start_streaming. cbv zeta.
  destruct (rockchip_vpu_vq_is_coded _ _).
  - destruct type_is_output.
    + destruct (vpu_src_fmt _); [|discriminate].
      cbn [mbind option_bind]. intros [= <-]. split; reflexivity.
    + destruct (vpu_dst_fmt _); [|discriminate].
      cbn [mbind option_bind]. intros [= <-]. split; reflexivity.
  - intros [= <-]. destruct type_is_output; split; reflexivity.
Qed.

(** X21.  Sequence numbers of a stream.  Once [rockchip_vpu_start_streaming]
    has run for the two queues, in either order, the buffers of the jobs
    finished afterwards are numbered from 0 in the order of the jobs: the
    source and the destination buffer of job [k] both carry [k] modulo
    2^32, and after [n] jobs the two counters of the context hold [n]
    modulo 2^32.  [v4l2_m2m_buf_copy_metadata] is required to leave the
    sequence number of the destination buffer alone. *)
Theorem stream_sequence_numbers type_is_output ctx init init' r1 r2 jobs r :
  (forall s d b, sequence (v4l2_m2m_buf_copy_metadata s d b) = sequence d) ->
  rockchip_vpu_start_streaming type_is_output ctx init = Some r1 ->
  rockchip_vpu_start_streaming (negb type_is_output) r1.2 init' = Some r2 ->
  finish_jobs r2.2 jobs = Some r ->
  done_sequences r.2 =
    (seqZ 0 (Z.of_nat (length jobs)) ≫= fun k => [u32 k; u32 k]) /\
  sequence_out r.1 = u32 (Z.of_nat (length jobs)) /\
  sequence_cap r.1 = u32 (Z.of_nat (length jobs)).
Proof.
  intros Hcopy Hs1 Hs2 Hjobs.
  apply start_streaming_counters in Hs1 as (Hout1 & Hcap1).
  apply start_streaming_counters in Hs2 as (Hout2 & Hcap2).
  assert (sequence_out r2.2 = 0 /\ sequence_cap r2.2 = 0) as (Hout & Hcap).
  { destruct type_is_output; cbn [negb] in *; split; congruence. }
  destruct (finish_jobs_sequences jobs r2.2 r Hcopy) as (Hseq & Ho & Hc);
    try assumption.
  { rewrite Hout. split; lia. }
  { rewrite Hcap. split; lia. }
  rewrite Hout, Hcap in *. cbn [Z.add] in *.
  rewrite Hseq. repeat split; assumption.
Qed.

End WithKernel.

Lemma stream_sequence_numbers_witness :
  exists r,
    (r1 ← rockchip_vpu_start_streaming true
            (sample_ctx fn_rockchip_vpu_dec_buf_finish) (fun _ => None);
     r2 ← rockchip_vpu_start_streaming false r1.2 (fun _ => None);
     @finish_jobs sample_kernel_env r2.2
       [ (sample_v4l2_buffer 4096, sample_v4l2_buffer 1024, 0, 5);
         (sample_v4l2_buffer 4096, sample_v4l2_buffer 1024, 0, 5) ]) = Some r /\
    done_sequences r.2 = [0; 0; 1; 1].
Proof.
  eexists. split; [reflexivity|].
  refine (proj1 (@stream_sequence_numbers sample_kernel_env true
                   (sample_ctx fn_rockchip_vpu_dec_buf_finish)
                   (fun _ => None) (fun _ => None) _ _
                   [ (sample_v4l2_buffer 4096, sample_v4l2_buffer 1024, 0, 5);
                     (sample_v4l2_buffer 4096, sample_v4l2_buffer 1024, 0, 5) ]
                   _ _ eq_refl eq_refl eq_refl)).
  reflexivity.
Defined.

End StreamFacts.

(* ================================================================== *)
(** * Negotiation of the formats *)

Module FormatFacts.
Import V4l2Facts.

Lemma find_format_fourcc formats fourcc' fmt :
  rockchip_vpu_find_format formats fourcc' = Some fmt -> fourcc fmt = fourcc'.
Proof.
  intros Hfind. pose proof (find_format_cases formats fourcc') as Hcases.
  rewrite Hfind in Hcases. now destruct Hcases as (_ & _ & Hf & _).
Qed.

Lemma find_format_elem formats g :
  g ∈ formats ->
  exists fmt, rockchip_vpu_find_format formats (fourcc g) = Some fmt.
Proof.
  intros Hg. pose proof (find_format_cases formats (fourcc g)) as Hcases.
  destruct (rockchip_vpu_find_format formats (fourcc g)) as [fmt|]; [eauto|].
  exfalso. now apply (Hcases g Hg).
Qed.

Lemma default_fmt_elem formats bitstream d :
  rockchip_vpu_get_default_fmt formats bitstream = Some d ->
  d ∈ formats /\ negb (codec_mode d =? RK_VPU_MODE_NONE) = bitstream.
Proof.
  induction formats as [|fmt formats IH]; cbn [rockchip_vpu_get_default_fmt];
    [discriminate|].
  destruct (eqb bitstream (negb (codec_mode fmt =? RK_VPU_MODE_NONE))) eqn:Heq.
  - intros [= <-]. split; [apply elem_of_cons; now left|].
    symmetry. now apply eqb_prop.
  - intros Hd. destruct (IH Hd) as (Hin & Hkind).
    split; [apply elem_of_cons; now right | assumption].
Qed.

Section WithEnv.
Context `{v4l2_env}.

Local Ltac coded_branch pix_mp :=
  unfold pix_with_sizeimage0;
  cbn [mbind option_bind fst snd negb plane_fmt pix_with_height pix_with_width
       pix_with_field pix_with_num_planes pix_with_pixelformat];
  destruct (plane_fmt pix_mp) as [|? ?]; [discriminate|];
  cbn [lookup list_lookup mbind option_bind];
  destruct (sizeimage _ =? 0); cbn [mbind option_bind].

(** The FourCC [vidioc_try_fmt] leaves. *)
Lemma try_fmt_pixelformat formats ctx pix_mp capture r pix' :
  (forall p fcc w h, pixelformat (v4l2_fill_pixfmt_mp p fcc w h) = fcc) ->
  vidioc_try_fmt formats ctx pix_mp capture = Some (r, pix') ->
  r = Ret_0 /\
  match rockchip_vpu_find_format formats (pixelformat pix_mp) with
  | Some fmt => pixelformat pix' = pixelformat pix_mp
  | None =>
      exists d,
        rockchip_vpu_get_default_fmt formats
          (eqb capture (rockchip_vpu_is_encoder_ctx ctx)) = Some d /\
        pixelformat pix' = fourcc d
  end.
Proof.
  intros Hfill. unfold vidioc_try_fmt. cbv zeta.
  destruct (rockchip_vpu_find_format formats (pixelformat pix_mp)) as [fmt|] eqn:Hfind.
  - cbn [mbind option_bind fst snd].
    destruct (eqb capture (rockchip_vpu_is_encoder_ctx ctx)).
    + coded_branch pix_mp.
      * intros [= <- <-]. split; reflexivity.
      * intros [= <- <-]. split; reflexivity.
    + destruct (rockchip_vpu_is_encoder_ctx ctx).
      * destruct (vpu_dst_fmt ctx); [|discriminate].
        cbn [mbind option_bind fst snd negb]. intros [= <- <-].
        split; [reflexivity|]. rewrite Hfill.
        now apply find_format_fourcc in Hfind.
      * destruct (vpu_src_fmt ctx); [|discriminate].
        cbn [mbind option_bind fst snd negb]. intros [= <- <-].
        split; [reflexivity|]. rewrite Hfill.
        now apply find_format_fourcc in Hfind.
  - destruct (rockchip_vpu_get_default_fmt formats
                (eqb capture (rockchip_vpu_is_encoder_ctx ctx))) as [d|];
      [|discriminate].
    cbn [mbind option_bind fst snd].
    destruct (eqb capture (rockchip_vpu_is_encoder_ctx ctx)).
    + coded_branch pix_mp.
      * intros [= <- <-]. split; [reflexivity|]. now exists d.
      * intros [= <- <-]. split; [reflexivity|]. now exists d.
    + destruct (rockchip_vpu_is_encoder_ctx ctx).
      * destruct (vpu_dst_fmt ctx); [|discriminate].
        cbn [mbind option_bind fst snd negb]. intros [= <- <-].
        split; [reflexivity|]. exists d. split; [reflexivity|]. now rewrite Hfill.
      * destruct (vpu_src_fmt ctx); [|discriminate].
        cbn [mbind option_bind fst snd negb]. intros [= <- <-].
        split; [reflexivity|]. exists d. split; [reflexivity|]. now rewrite Hfill.
Qed.

Lemma try_fmt_defined formats ctx pix_mp capture :
  is_Some (vidioc_try_fmt formats ctx pix_mp capture) <->
  (rockchip_vpu_find_format formats (pixelformat pix_mp) <> None \/
   rockchip_vpu_get_default_fmt formats
     (eqb capture (rockchip_vpu_is_encoder_ctx ctx)) <> None) /\
  (if eqb capture (rockchip_vpu_is_encoder_ctx ctx)
   then plane_fmt pix_mp <> []
   else (if rockchip_vpu_is_encoder_ctx ctx
         then vpu_dst_fmt ctx else vpu_src_fmt ctx) <> None).
Proof.
  unfold vidioc_try_fmt. cbv zeta.
  destruct (rockchip_vpu_find_format formats (pixelformat pix_mp)) as [fmt|].
  - cbn [mbind option_bind fst snd].
    destruct (eqb capture (rockchip_vpu_is_encoder_ctx ctx)).
    + unfold pix_with_sizeimage0.
      cbn [mbind option_bind fst snd negb plane_fmt pix_with_height
           pix_with_width pix_with_field pix_with_num_planes].
      destruct (plane_fmt pix_mp) as [|p0 planes].
      * split; [intros [? Hs]; discriminate | intros [_ Hp]; congruence].
      * cbn [lookup list_lookup mbind option_bind].
        destruct (sizeimage p0 =? 0); cbn [mbind option_bind];
          (split; [intros _; split; [left|]; discriminate | intros _; eauto]).
    + destruct (rockchip_vpu_is_encoder_ctx ctx).
      * destruct (vpu_dst_fmt ctx); cbn [mbind option_bind fst snd negb].
        -- split; [intros _; split; [left|]; discriminate | intros _; eauto].
        -- split; [intros [? Hs]; discriminate | intros [_ Hp]; congruence].
      * destruct (vpu_src_fmt ctx); cbn [mbind option_bind fst snd negb].
        -- split; [intros _; split; [left|]; discriminate | intros _; eauto].
        -- split; [intros [? Hs]; discriminate | intros [_ Hp]; congruence].
  - destruct (rockchip_vpu_get_default_fmt formats
                (eqb capture (rockchip_vpu_is_encoder_ctx ctx))) as [d|].
    + cbn [mbind option_bind fst snd].
      destruct (eqb capture (rockchip_vpu_is_encoder_ctx ctx)).
      * unfold pix_with_sizeimage0.
        cbn [mbind option_bind fst snd negb plane_fmt pix_with_height
             pix_with_width pix_with_field pix_with_num_planes
             pix_with_pixelformat].
        destruct (plane_fmt pix_mp) as [|p0 planes].
        -- split; [intros [? Hs]; discriminate | intros [_ Hp]; congruence].
        -- cbn [lookup list_lookup mbind option_bind].
           destruct (sizeimage p0 =? 0); cbn [mbind option_bind];
             (split; [intros _; split; [right|]; discriminate | intros _; eauto]).
      * destruct (rockchip_vpu_is_encoder_ctx ctx).
        -- destruct (vpu_dst_fmt ctx); cbn [mbind option_bind fst snd negb].
           ++ split; [intros _; split; [right|]; discriminate | intros _; eauto].
           ++ split; [intros [? Hs]; discriminate | intros [_ Hp]; congruence].
        -- destruct (vpu_src_fmt ctx); cbn [mbind option_bind fst snd negb].
           ++ split; [intros _; split; [right|]; discriminate | intros _; eauto].
           ++ split; [intros [? Hs]; discriminate | intros [_ Hp]; congruence].
    + cbn [mbind option_bind].
      split; [intros [? Hs]; discriminate | intros [[Hf|Hd] _]; congruence].
Qed.

Lemma try_fmt_found formats ctx pix_mp capture r pix' :
  (forall p fcc w h, pixelformat (v4l2_fill_pixfmt_mp p fcc w h) = fcc) ->
  vidioc_try_fmt formats ctx pix_mp capture = Some (r, pix') ->
  r = Ret_0 /\
  exists fmt,
    rockchip_vpu_find_format formats (pixelformat pix') = Some fmt /\
    fourcc fmt = pixelformat pix'.
Proof.
  intros Hfill Htry.
  destruct (try_fmt_pixelformat _ _ _ _ _ _ Hfill Htry) as (-> & Hpix).
  split; [reflexivity|].
  destruct (rockchip_vpu_find_format formats (pixelformat pix_mp)) as [fmt|] eqn:Hf.
  - exists fmt. rewrite Hpix. split; [assumption|].
    now apply find_format_fourcc in Hf.
  - destruct Hpix as (d & Hd & ->).
    apply default_fmt_elem in Hd as (Hin & _).
    destruct (find_format_elem formats d Hin) as (fmt & Hfmt).
    exists fmt. split; [assumption|]. now apply find_format_fourcc in Hfmt.
Qed.

(** X23.  [vidioc_try_fmt] always settles on a format of the table.  It is
    defined when the FourCC asked for is in the table or the queue has a
    default format, and the format it reads the frame-size limits from is
    set; it then returns 0, and the FourCC it leaves is one
    [rockchip_vpu_find_format] finds in the table: the one asked for when
    the table has it, whether or not it is of the kind of the queue, and
    the one of the default format of the queue otherwise. *)
Theorem vidioc_try_fmt_resolves formats ctx pix_mp capture :
  (forall p fcc w h, pixelformat (v4l2_fill_pixfmt_mp p fcc w h) = fcc) ->
  (is_Some (vidioc_try_fmt formats ctx pix_mp capture) <->
   (rockchip_vpu_find_format formats (pixelformat pix_mp) <> None \/
    rockchip_vpu_get_default_fmt formats
      (eqb capture (rockchip_vpu_is_encoder_ctx ctx)) <> None) /\
   (if eqb capture (rockchip_vpu_is_encoder_ctx ctx)
    then plane_fmt pix_mp <> []
    else (if rockchip_vpu_is_encoder_ctx ctx
          then vpu_dst_fmt ctx else vpu_src_fmt ctx) <> None)) /\
  (forall r pix',
     vidioc_try_fmt formats ctx pix_mp capture = Some (r, pix') ->
     r = Ret_0 /\
     (exists fmt,
        rockchip_vpu_find_format formats (pixelformat pix') = Some fmt /\
        fourcc fmt = pixelformat pix') /\
     (rockchip_vpu_find_format formats (pixelformat pix_mp) <> None ->
      pixelformat pix' = pixelformat pix_mp) /\
     (rockchip_vpu_find_format formats (pixelformat pix_mp) = None ->
      exists d,
        rockchip_vpu_get_default_fmt formats
          (eqb capture (rockchip_vpu_is_encoder_ctx ctx)) = Some d /\
        pixelformat pix' = fourcc d)).
Proof.
  intros Hfill. split; [apply try_fmt_defined|].
  intros r pix' Htry.
  destruct (try_fmt_found _ _ _ _ _ _ Hfill Htry) as (Hr & Hfound).
  destruct (try_fmt_pixelformat _ _ _ _ _ _ Hfill Htry) as (_ & Hpix).
  split; [assumption|]. split; [assumption|].
  destruct (rockchip_vpu_find_format formats (pixelformat pix_mp)) as [fmt|].
  - split; [intros _; assumption | discriminate].
  - split; [intros Hn; congruence | intros _; assumption].
Qed.

(** *** The descriptors of the context *)

Lemma reset_raw_fmt_spec formats ctx ctx' :
  (forall p fcc w h, pixelformat (v4l2_fill_pixfmt_mp p fcc w h) = fcc) ->
  rockchip_vpu_reset_raw_fmt formats ctx = Some ctx' ->
  rockchip_vpu_is_encoder_ctx ctx' = rockchip_vpu_is_encoder_ctx ctx /\
  exists raw,
    rockchip_vpu_get_default_fmt formats false = Some raw /\
    if rockchip_vpu_is_encoder_ctx ctx
    then vpu_dst_fmt ctx' = vpu_dst_fmt ctx /\ dst_fmt ctx' = dst_fmt ctx /\
         vpu_src_fmt ctx' = Some raw /\ pixelformat (src_fmt ctx') = fourcc raw
    else vpu_src_fmt ctx' = vpu_src_fmt ctx /\ src_fmt ctx' = src_fmt ctx /\
         vpu_dst_fmt ctx' = Some raw /\ pixelformat (dst_fmt ctx') = fourcc raw.
Proof.
  intros Hfill. unfold rockchip_vpu_reset_raw_fmt, rockchip_vpu_is_encoder_ctx.
  destruct (rockchip_vpu_get_default_fmt formats false) as [raw|]; [|discriminate].
  cbn [mbind option_bind].
  destruct (buf_finish ctx) eqn:Hfn.
  - destruct (vpu_dst_fmt ctx) as [enc|] eqn:Hd; [|discriminate].
    cbn [mbind option_bind]. intros [= <-].
    cbn [ctx_with_src buf_finish vpu_dst_fmt dst_fmt vpu_src_fmt src_fmt].
    rewrite Hfn. split; [reflexivity|]. exists raw. rewrite Hfill, Hd. auto.
  - destruct (vpu_src_fmt ctx) as [enc|] eqn:Hd; [|discriminate].
    cbn [mbind option_bind]. intros [= <-].
    cbn [ctx_with_dst buf_finish vpu_dst_fmt dst_fmt vpu_src_fmt src_fmt].
    rewrite Hfn. split; [reflexivity|]. exists raw. rewrite Hfill, Hd. auto.
Qed.

Lemma reset_encoded_fmt_spec formats ctx ctx' :
  rockchip_vpu_reset_encoded_fmt formats ctx = Some ctx' ->
  rockchip_vpu_is_encoder_ctx ctx' = rockchip_vpu_is_encoder_ctx ctx /\
  exists coded,
    rockchip_vpu_get_default_fmt formats true = Some coded /\
    if rockchip_vpu_is_encoder_ctx ctx
    then vpu_src_fmt ctx' = vpu_src_fmt ctx /\ src_fmt ctx' = src_fmt ctx /\
         vpu_dst_fmt ctx' = Some coded /\
         pixelformat (dst_fmt ctx') = fourcc coded /\
         width (dst_fmt ctx') = min_width (frmsize coded) /\
         height (dst_fmt ctx') = min_height (frmsize coded)
    else vpu_dst_fmt ctx' = vpu_dst_fmt ctx /\ dst_fmt ctx' = dst_fmt ctx /\
         vpu_src_fmt ctx' = Some coded /\
         pixelformat (src_fmt ctx') = fourcc coded /\
         width (src_fmt ctx') = min_width (frmsize coded) /\
         height (src_fmt ctx') = min_height (frmsize coded).
Proof.
  unfold rockchip_vpu_reset_encoded_fmt, rockchip_vpu_is_encoder_ctx.
  destruct (rockchip_vpu_get_default_fmt formats true) as [coded|]; [|discriminate].
  cbn [mbind option_bind]. unfold pix_with_sizeimage0.
  cbn [plane_fmt pix_with_height pix_with_width pix_with_num_planes
       rockchip_vpu_reset_fmt].
  destruct (buf_finish ctx) eqn:Hfn.
  - destruct (plane_fmt (dst_fmt ctx)) as [|p0 planes]; [discriminate|].
    cbn [fmap list_fmap mbind option_bind]. intros [= <-].
    cbn [ctx_with_dst buf_finish vpu_dst_fmt dst_fmt vpu_src_fmt src_fmt
         pixelformat width height].
    rewrite Hfn. split; [reflexivity|]. exists coded. auto 10.
  - destruct (plane_fmt (src_fmt ctx)) as [|p0 planes]; [discriminate|].
    cbn [fmap list_fmap mbind option_bind]. intros [= <-].
    cbn [ctx_with_src buf_finish vpu_dst_fmt dst_fmt vpu_src_fmt src_fmt
         pixelformat width height].
    rewrite Hfn. split; [reflexivity|]. exists coded. auto 10.
Qed.

(** X24.  What [rockchip_vpu_reset_fmts] leaves when a context is opened.
    It needs a coded and a raw format in the table; it then makes the
    first coded format the descriptor of the coded queue, the capture
    queue of an encoder and the output queue of a decoder, with the
    minimum frame size of that format, and the first raw format the
    descriptor of the other queue, and for both queues the descriptor is
    the one of the FourCC of the format of the queue. *)
Theorem rockchip_vpu_reset_fmts_descriptors formats ctx :
  (forall p fcc w h, pixelformat (v4l2_fill_pixfmt_mp p fcc w h) = fcc) ->
  (rockchip_vpu_get_default_fmt formats true = None \/
   rockchip_vpu_get_default_fmt formats false = None ->
   rockchip_vpu_reset_fmts formats ctx = None) /\
  (forall ctx', rockchip_vpu_reset_fmts formats ctx = Some ctx' ->
     exists coded raw,
       rockchip_vpu_get_default_fmt formats true = Some coded /\
       rockchip_vpu_get_default_fmt formats false = Some raw /\
       fmt_matches (vpu_src_fmt ctx') (src_fmt ctx') /\
       fmt_matches (vpu_dst_fmt ctx') (dst_fmt ctx') /\
       if rockchip_vpu_is_encoder_ctx ctx
       then vpu_dst_fmt ctx' = Some coded /\ vpu_src_fmt ctx' = Some raw /\
            width (dst_fmt ctx') = min_width (frmsize coded) /\
            height (dst_fmt ctx') = min_height (frmsize coded)
       else vpu_src_fmt ctx' = Some coded /\ vpu_dst_fmt ctx' = Some raw /\
            width (src_fmt ctx') = min_width (frmsize coded) /\
            height (src_fmt ctx') = min_height (frmsize coded)).
Proof.
  intros Hfill. unfold rockchip_vpu_reset_fmts. split.
  - intros [Hc|Hr].
    + unfold rockchip_vpu_reset_encoded_fmt. now rewrite Hc.
    + destruct (rockchip_vpu_reset_encoded_fmt formats ctx) as [ctx1|];
        [|reflexivity].
      cbn [mbind option_bind]. unfold rockchip_vpu_reset_raw_fmt. now rewrite Hr.
  - intros ctx'.
    destruct (rockchip_vpu_reset_encoded_fmt formats ctx) as [ctx1|] eqn:Henc;
      [|discriminate].
    cbn [mbind option_bind]. intros Hraw.
    apply reset_encoded_fmt_spec in Henc as (Hkind1 & coded & Hcoded & H1).
    apply (reset_raw_fmt_spec _ _ _ Hfill) in Hraw as (_ & raw & Hraw & H2).
    rewrite Hkind1 in H2. exists coded, raw.
    split; [assumption|]. split; [assumption|].
    destruct (rockchip_vpu_is_encoder_ctx ctx).
    + destruct H1 as (_ & _ & Hv & Hp & Hw & Hh).
      destruct H2 as (Hv2 & Hf2 & Hs & Hsp).
      rewrite Hf2, Hv2. unfold fmt_matches. repeat split; eauto.
    + destruct H1 as (_ & _ & Hv & Hp & Hw & Hh).
      destruct H2 as (Hv2 & Hf2 & Hs & Hsp).
      rewrite Hf2, Hv2. unfold fmt_matches. repeat split; eauto.
Qed.

(** X25.  What [VIDIOC_S_FMT] leaves.  On a streaming queue both ioctls
    return [-EBUSY], and so they do, for an output queue of a decoder and a
    changed format on the capture queue of an encoder, when the other
    queue has buffers; the context and the format are then left as they
    were.  When an ioctl returns 0, the format of its queue is the one it
    hands back and the descriptor of the queue is set and is the one of
    the FourCC of that format; the descriptor of the other queue still
    matches its format if it did before, and does in any case when that
    queue is reset to the raw default. *)
Theorem vidioc_s_fmt_descriptors formats ctx is_streaming peer_is_busy pix_mp :
  (forall p fcc w h, pixelformat (v4l2_fill_pixfmt_mp p fcc w h) = fcc) ->
  (forall r ctx' pix',
     vidioc_s_fmt_out_mplane formats ctx is_streaming peer_is_busy pix_mp =
       Some (r, ctx', pix') ->
     (r = Ret_neg EBUSY /\ ctx' = ctx /\ pix' = pix_mp /\
      (is_streaming = true \/
       rockchip_vpu_is_encoder_ctx ctx = false /\ peer_is_busy = true)) \/
     (r = Ret_0 /\ is_streaming = false /\
      src_fmt ctx' = pix' /\
      fmt_matches (vpu_src_fmt ctx') (src_fmt ctx') /\
      (fmt_matches (vpu_dst_fmt ctx) (dst_fmt ctx) \/
       rockchip_vpu_is_encoder_ctx ctx = false ->
       fmt_matches (vpu_dst_fmt ctx') (dst_fmt ctx')))) /\
  (forall r ctx' pix',
     vidioc_s_fmt_cap_mplane formats ctx is_streaming peer_is_busy pix_mp =
       Some (r, ctx', pix') ->
     (r = Ret_neg EBUSY /\ ctx' = ctx /\ pix' = pix_mp /\
      (is_streaming = true \/
       rockchip_vpu_is_encoder_ctx ctx = true /\ peer_is_busy = true)) \/
     (r = Ret_0 /\ is_streaming = false /\
      dst_fmt ctx' = pix' /\
      fmt_matches (vpu_dst_fmt ctx') (dst_fmt ctx') /\
      (fmt_matches (vpu_src_fmt ctx) (src_fmt ctx) \/
       rockchip_vpu_is_encoder_ctx ctx = true ->
       fmt_matches (vpu_src_fmt ctx') (src_fmt ctx')))) /\
  (is_streaming = true ->
   vidioc_s_fmt_out_mplane formats ctx is_streaming peer_is_busy pix_mp =
     Some (Ret_neg EBUSY, ctx, pix_mp) /\
   vidioc_s_fmt_cap_mplane formats ctx is_streaming peer_is_busy pix_mp =
     Some (Ret_neg EBUSY, ctx, pix_mp)).
Proof.
  intros Hfill. split; [|split].
  - intros r ctx' pix'. unfold vidioc_s_fmt_out_mplane.
    destruct is_streaming; [intros [= <- <- <-]; left; auto 10|].
    destruct (rockchip_vpu_is_encoder_ctx ctx) eqn:Henc; cbn [negb andb].
    + unfold vidioc_try_fmt_out_mplane.
      destruct (vidioc_try_fmt formats ctx pix_mp false) as [[r0 p1]|] eqn:Htry;
        [|discriminate].
      destruct (try_fmt_found _ _ _ _ _ _ Hfill Htry) as (-> & f & Hf & Hfcc).
      cbn [mbind option_bind fst snd].
      assert (rockchip_vpu_is_encoder_ctx
                (ctx_with_src ctx
                   (rockchip_vpu_find_format formats (pixelformat p1)) p1) = true)
        as -> by exact Henc.
      intros [= <- <- <-]. right.
      cbn [ctx_with_dst ctx_with_src src_fmt vpu_src_fmt dst_fmt vpu_dst_fmt].
      repeat split; try reflexivity.
      * exists f. split; assumption.
      * intros [(g & Hg & Hgf)|Hdec]; [|discriminate].
        exists g. split; [assumption|]. exact Hgf.
    + destruct peer_is_busy; [intros [= <- <- <-]; left; auto 10|].
      cbv iota. unfold vidioc_try_fmt_out_mplane.
      destruct (vidioc_try_fmt formats ctx pix_mp false) as [[r0 p1]|] eqn:Htry;
        [|discriminate].
      destruct (try_fmt_found _ _ _ _ _ _ Hfill Htry) as (-> & f & Hf & Hfcc).
      cbn [mbind option_bind fst snd].
      assert (rockchip_vpu_is_encoder_ctx
                (ctx_with_src ctx
                   (rockchip_vpu_find_format formats (pixelformat p1)) p1) = false)
        as Henc' by exact Henc.
      rewrite Henc'.
      destruct (rockchip_vpu_reset_raw_fmt formats _) as [ctx2|] eqn:Hreset;
        [|discriminate].
      cbn [mbind option_bind]. intros [= <- <- <-]. right.
      apply (reset_raw_fmt_spec _ _ _ Hfill) in Hreset as (_ & raw & _ & Hraw).
      rewrite Henc' in Hraw. destruct Hraw as (Hv & Hsf & Hd & Hdp).
      cbn [ctx_with_src src_fmt vpu_src_fmt] in Hv, Hsf.
      repeat split; try reflexivity; try assumption.
      * rewrite Hv, Hsf. exists f. split; assumption.
      * intros _. exists raw. split; [assumption | now symmetry].
  - intros r ctx' pix'. unfold vidioc_s_fmt_cap_mplane.
    destruct is_streaming; [intros [= <- <- <-]; left; auto 10|].
    destruct (rockchip_vpu_is_encoder_ctx ctx) eqn:Henc; cbn [negb andb].
    + destruct (peer_is_busy &&
                (negb (pixelformat pix_mp =? pixelformat (dst_fmt ctx))
                 || negb (height pix_mp =? height (dst_fmt ctx))
                 || negb (width pix_mp =? width (dst_fmt ctx)))) eqn:Hbusy.
      { intros [= <- <- <-]. left. apply andb_prop in Hbusy as [-> _]. auto 10. }
      unfold vidioc_try_fmt_cap_mplane.
      destruct (vidioc_try_fmt formats ctx pix_mp true) as [[r0 p1]|] eqn:Htry;
        [|discriminate].
      destruct (try_fmt_found _ _ _ _ _ _ Hfill Htry) as (-> & f & Hf & Hfcc).
      cbn [mbind option_bind fst snd].
      assert (rockchip_vpu_is_encoder_ctx
                (ctx_with_dst ctx
                   (rockchip_vpu_find_format formats (pixelformat p1)) p1) = true)
        as Henc' by exact Henc.
      rewrite Henc'.
      destruct (rockchip_vpu_reset_raw_fmt formats _) as [ctx2|] eqn:Hreset;
        [|discriminate].
      cbn [mbind option_bind]. intros [= <- <- <-]. right.
      apply (reset_raw_fmt_spec _ _ _ Hfill) in Hreset as (_ & raw & _ & Hraw).
      rewrite Henc' in Hraw. destruct Hraw as (Hv & Hdf & Hs & Hsp).
      cbn [ctx_with_dst dst_fmt vpu_dst_fmt] in Hv, Hdf.
      repeat split; try reflexivity; try assumption.
      * rewrite Hv, Hdf. exists f. split; assumption.
      * intros _. exists raw. split; [assumption | now symmetry].
    + unfold vidioc_try_fmt_cap_mplane.
      destruct (vidioc_try_fmt formats ctx pix_mp true) as [[r0 p1]|] eqn:Htry;
        [|discriminate].
      destruct (try_fmt_found _ _ _ _ _ _ Hfill Htry) as (-> & f & Hf & Hfcc).
      cbn [mbind option_bind fst snd].
      assert (rockchip_vpu_is_encoder_ctx
                (ctx_with_dst ctx
                   (rockchip_vpu_find_format formats (pixelformat p1)) p1) = false)
        as -> by exact Henc.
      intros [= <- <- <-]. right.
      cbn [ctx_with_dst ctx_with_src src_fmt vpu_src_fmt dst_fmt vpu_dst_fmt].
      repeat split; try reflexivity.
      * exists f. split; assumption.
      * intros [(g & Hg & Hgf)|Hdec]; [|discriminate].
        exists g. split; [assumption|]. exact Hgf.
  - intros ->. split; reflexivity.
Qed.

End WithEnv.

Lemma sample_fill_stores_fourcc p fcc w h :
  pixelformat (@v4l2_fill_pixfmt_mp sample_v4l2_env p fcc w h) = fcc.
Proof. reflexivity. Qed.

Lemma vidioc_try_fmt_resolves_witness :
  exists pix',
    @vidioc_try_fmt sample_v4l2_env sample_formats
      (sample_ctx fn_rockchip_vpu_enc_buf_finish)
      (pix_with_pixelformat (sample_pix_fmt 0) 0x30323449) true
    = Some (Ret_0, pix') /\
    pixelformat pix' = 0x4745504A.
Proof.
  pose proof (proj2 (@vidioc_try_fmt_resolves sample_v4l2_env sample_formats
                       (sample_ctx fn_rockchip_vpu_enc_buf_finish)
                       (pix_with_pixelformat (sample_pix_fmt 0) 0x30323449) true
                       sample_fill_stores_fourcc)) as Hres.
  destruct (@vidioc_try_fmt sample_v4l2_env sample_formats
              (sample_ctx fn_rockchip_vpu_enc_buf_finish)
              (pix_with_pixelformat (sample_pix_fmt 0) 0x30323449) true)
    as [[r pix']|] eqn:Htry; [|vm_compute in Htry; discriminate].
  destruct (Hres r pix' eq_refl) as (-> & _ & _ & Hdef).
  exists pix'. split; [reflexivity|].
  destruct (Hdef eq_refl) as (d & Hd & ->).
  vm_compute in Hd. injection Hd as <-. reflexivity.
Defined.

Lemma rockchip_vpu_reset_fmts_descriptors_witness :
  exists ctx',
    @rockchip_vpu_reset_fmts sample_v4l2_env sample_formats
      (sample_ctx fn_rockchip_vpu_enc_buf_finish) = Some ctx' /\
    vpu_dst_fmt ctx' = Some sample_coded_fmt /\
    fmt_matches (vpu_src_fmt ctx') (src_fmt ctx').
Proof.
  pose proof (proj2 (@rockchip_vpu_reset_fmts_descriptors sample_v4l2_env
                       sample_formats (sample_ctx fn_rockchip_vpu_enc_buf_finish)
                       sample_fill_stores_fourcc)) as Hres.
  destruct (@rockchip_vpu_reset_fmts sample_v4l2_env sample_formats
              (sample_ctx fn_rockchip_vpu_enc_buf_finish))
    as [ctx'|] eqn:Hreset; [|vm_compute in Hreset; discriminate].
  destruct (Hres ctx' eq_refl) as (coded & raw & Hc & _ & Hsrc & _ & Hkind).
  exists ctx'. split; [reflexivity|]. split; [|exact Hsrc].
  cbn in Hkind. destruct Hkind as (-> & _). rewrite <- Hc. reflexivity.
Defined.

Lemma vidioc_s_fmt_descriptors_witness :
  exists ctx' pix',
    @vidioc_s_fmt_out_mplane sample_v4l2_env sample_formats
      (sample_ctx fn_rockchip_vpu_enc_buf_finish) false true
      (pix_with_pixelformat (sample_pix_fmt 0) 0x32314D4E)
    = Some (Ret_0, ctx', pix') /\
    fmt_matches (vpu_src_fmt ctx') (src_fmt ctx').
Proof.
  pose proof (proj1 (@vidioc_s_fmt_descriptors sample_v4l2_env sample_formats
                       (sample_ctx fn_rockchip_vpu_enc_buf_finish) false true
                       (pix_with_pixelformat (sample_pix_fmt 0) 0x32314D4E)
                       sample_fill_stores_fourcc)) as Hres.
  destruct (@vidioc_s_fmt_out_mplane sample_v4l2_env sample_formats
              (sample_ctx fn_rockchip_vpu_enc_buf_finish) false true
              (pix_with_pixelformat (sample_pix_fmt 0) 0x32314D4E))
    as [[[r ctx'] pix']|] eqn:Hset; [|vm_compute in Hset; discriminate].
  destruct (Hres r ctx' pix' eq_refl)
    as [(_ & _ & _ & [Hs|[He _]])|(-> & _ & _ & Hsrc & _)];
    [discriminate | discriminate |].
  exists ctx', pix'. split; [reflexivity | exact Hsrc].
Defined.

End FormatFacts.
